(* ===== verification/_CoqProject ===== *)
-Q . S2P
Prelude.v
Interfaces.v
Borsh.v
LightClientBlock.v
OutcomeProof.v
BinarySearch.v
Robust.v
Metrics.v
NearTx.v
EthOnNearClient.v
Eth2NearRelay.v
NearBridge.v
Finality.v
Solvency.v
Near2EthRelay.v
RelaySystem.v
Watchdog.v
WatchSystem.v
Config.v
Cli.v
Accounts.v
Setup.v
Rlp.v
SolMemory.v
BridgeStorage.v
HeaderStorage.v
EthProver.v
EthClient.v
EthClientInv.v
Eth2NearSystem.v
ProofExtractor.v
EthToNear.v
FileNames.v
EthDump.v
NearDump.v
Milestones.v
TransferLog.v
Status.v
Utils.v
Tokens.v
AddressWatcher.v
Upgrade.v
Hardhat.v
StartCommands.v
LocalCommands.v
TransferToNear.v
TransferFromNear.v
Adapter.v
