(* ===== verification/Prelude.v ===== *)
(** * Rainbow Bridge: a verification library for the bridge's programs

    The bridge connects Ethereum and NEAR.  Its JavaScript programs are two
    relays, a watchdog and a command line.  The Ethereum-to-NEAR relay
    (eth2near/eth2near-block-relay) submits Ethereum headers to a client
    contract on NEAR.  The NEAR-to-Ethereum relay
    (near2eth/near2eth-block-relay) submits NEAR light client blocks to the
    NearBridge contract on Ethereum, where a block becomes valid after a
    challenge period; the watchdog (near2eth/watchdog) checks the
    signatures of a submitted block and challenges a wrong one.  All of them
    share a library (utils): Borsh serialization, retries, sending of
    transactions, accounts and configuration.  The command line (cli)
    deploys the contracts and runs the programs as daemons.

    ** Conventions

    A JavaScript computation is an [outcome]: a value, a thrown error, an
    exit of the process, or [OutOfFuel] in a model that takes fuel.  A
    program that talks to services is [eff W E A]: it runs against a world
    [W], records events [E], and ends in an outcome.  Services, packages
    and the other chain are parameters: a [Record] of operations or a
    [Class], whose laws, where a theorem needs them, are a second class or
    a named hypothesis stating documented behaviour.  Integers are [Z], with
    the width written where the code truncates or rejects; delays are
    binary64 numbers ([Robust.number]).  Values of mixed type are [val].

    ** Files

    - Prelude: outcomes, effects, values, bytes, strings; the hint database
      [bridge]; [returns] and [returns_in] (programs that always return,
      the second while the world keeps an invariant) and [respects]
      (relations on traces kept by composition).
    - Interfaces: classes for BN, base58, hex and the Borsh writer of
      near-api-js with their laws, and a reference instance of each.
    - Borsh: utils/borsh.js, serialization.  Round trip on well-typed values,
      prefix freedom, rejection of trailing bytes, reads within bounds.
    - LightClientBlock: [borshify] and [borshifyInitialValidators] of
      utils/borsh.js; Module Contract is the decoder of Borsh.sol and
      NearDecoder.sol.  What is encoded is what the contract decodes.
    - OutcomeProof: utils/borshify-proof.js and the Merkle functions of
      nearprover/utils/utils.js; Module Prover is ProofDecoder.sol and
      NearProver.sol.  The contract accepts an encoded proof exactly when
      the off-chain computation gives the block's Merkle root.
    - BinarySearch: [binarySearchWithEstimate]; the first true position for
      every estimate, in a logarithmic number of calls, and, for a predicate
      that is only right near the estimate, within that window.
    - Robust: utils/robust.js up to [promiseWithTimeout]; delays of
      [backoff], the gas price escalation and termination of
      [callContract].
    - Metrics: utils/http-prometheus.js; the metrics the services register
      and report.
    - NearTx: [signAndSendTransaction] and the methods of [BorshContract];
      nonces, bounds, and what a returned result means: it is the outcome of
      the transaction that was signed and broadcast last.
    - EthOnNearClient: eth-on-near-client.js and eth-on-near-prover.js;
      schemas in which every type named by a method resolves, initialization
      that is checked.
    - Eth2NearRelay: one round of the Ethereum-to-NEAR relay; the fork
      point, contiguous batches, arguments the client contract can read.
    - NearBridge: NearBridge.sol as a state machine ([step], [reachable],
      [bridge_inv]), its sums of times and heights modulo 2^256 and 2^64; the
      height never decreases, a challenge is covered by the submitter's
      stake.  [history] adds adminSstore, adminSstoreWithMask and
      adminDelegatecall of AdminControlled.sol and counts them.
    - Finality: what the views of that contract have once answered for a
      height they answer from then on, in every history in which the admin
      does not write to the storage directly.  Module
      NearProver is NearProver.sol with its constructor and pausing; an
      outcome proof into a relayed block is accepted once the challenge
      period of the block is over, and stays so.
    - Solvency: the ether of the contract, with the admin's transactions of
      AdminControlled.sol; the recorded balances are covered as long
      as the admin takes no ether out and writes nothing directly.
    - Near2EthRelay: the class of the NEAR-to-Ethereum relay and the commands
      that start it; a round submits exactly what the contract would accept.
    - RelaySystem: that relay run against that contract, through the
      interface [ClientOk] with time passing between requests.
      Initialization leaves the contract ready for the loop, and the endless
      loop carries the confirmed height to every block NEAR offers, within a
      number of rounds that is given, sending only what adds an offered
      block.
    - Watchdog: one round of the watchdog; it challenges the first wrong
      signature and only a wrong one, and its challenge undoes the block.
    - WatchSystem: the watchdog run against the NearBridge contract, through
      the interface [WatchdogOk], with time passing; a round sends a
      challenge of a pending block with a wrong signature, which removes the
      block whenever it is mined while the block is pending.
    - Config: utils/config/index.js; precedence and persistence of
      parameters.
    - Cli: cli/index.js, cli/commands/start, cli/commands/stop; declared
      options, daemon arguments, starting and stopping processes, tokens
      looked up by name.
    - Accounts: utils/helpers.js against a ledger.
    - Setup: cli/init/eth-contracts.js and near-contracts.js; deployment
      that ends, constructor arguments the contract accepts, contracts that
      are in place before they are initialized.
    - Rlp: the item trees of the rlp packages as a class with laws, and the
      encoding of the specification as its instance.
    - SolMemory: Utils.sol, Borsh.sol and NearDecoder.sol over the memory of
      the virtual machine (Modules Utils and Mem): byte swaps by masks and
      shifts, a cursor modulo 2^256, the copy loop of [memoryToBytes].  They
      compute the decoders of LightClientBlock ([refines]).
    - BridgeStorage: the loops of NearBridge.sol over its packed stakes and
      its bit set of signatures, and the message that is signed; they
      compute what NearBridge.v says.
    - HeaderStorage: the Borsh format in which the client contract stores
      headers (eth-types/src/lib.rs), its round trip, and the fallback for
      older headers, which does not work.
    - EthProver: the prover contract on NEAR (contracts/near/eth-prover and
      eth-types, in Rust).  Accepted proofs whose hashed nodes do not
      collide fix the receipt under the header's root.
    - EthClient: the Ethereum light client contract on NEAR
      (contracts/near/eth-client, in Rust): header validation, the choice of
      the canonical chain and the garbage collection, for the default build
      (feature eip1559); ethash and SHA-256 are parameters.
    - EthClientInv: its invariant ([client_inv]) on [reachable] states; the
      canonical chain is that of the heaviest header, and a log the prover
      accepts is in a canonical, confirmed header that was submitted.
    - Eth2NearSystem: the Ethereum-to-NEAR relay run against that contract,
      through the interfaces [MainChain] and [ServicesOk]; the loop carries
      the client to the head of the main chain, also off a fork.
    - ProofExtractor: eth-proof-extractor.js.  The proof it prints is one
      the prover contract accepts; Module RefTrie is a trie for the laws of
      the third-party package.
    - EthToNear: relay, client contract, extractor and prover contract
      together; an event of the main chain is accepted on NEAR.
    - FileNames, EthDump, NearDump: the dump commands.  Complete ranges,
      accepted proofs, names that are not used twice, and a NEAR dump that
      ends when the chain keeps growing.
    - Milestones: specifications of programs by the calls of given names
      ([achieves], [finishes]); the shared library makes none of them.
    - StartCommands: the foreground branches of the start commands; batches
      that fit in the gas of a block, however long the relay runs.
    - TransferLog, TransferToNear, TransferFromNear: the transfer commands of
      testing/transfer-eth-erc20.  The log of a transfer is read back as it
      was written; a transfer to NEAR ends in a deposit whose proof the
      prover contract accepts, one from NEAR in an unlocking for a block the
      bridge has, and nothing is unlocked that was not proved.
    - Adapter: testing/adapter, the functions for the Python tests, what
      they print and how they end.
    - Status: cli/commands/status.js; what is printed, and which checks
      cannot succeed.
    - Utils: utils/utils.js; hex normal forms, key stores, set-up.
    - Tokens: near-token-factory.js and deploy-token.js; contracts in place
      before they are initialized.
    - AddressWatcher: address-watcher.js; one round
      measures every account, no two gauges share a name.
    - Upgrade: the Ledger signer and the upgrade scripts of
      nearprover/utils, and AdminControlled.sol; consent before an upgrade,
      its effect on the storage, a bounded number of device calls.
    - Hardhat: nearprover/hardhat.config.js and utils/deploy_contracts.js;
      the tasks that run the upgrade scripts and which of their parameters
      hardhat insists on.
    - LocalCommands: the clean, prepare, local node and test token commands
      and utils/get-config.js; what cleaning removes, and local endpoints
      that later processes read.

    ** How the parts fit together

    The contracts' Solidity and Rust are modelled where a JavaScript program
    depends on them, so that a theorem about a program can end in what the
    contract does: LightClientBlock and OutcomeProof give the encoders their
    decoders, NearBridge takes the blocks of Near2EthRelay and the challenges
    of Watchdog, EthClient takes the headers of Eth2NearRelay and answers
    EthProver, which takes the proofs of ProofExtractor, EthDump and
    TransferToNear, and Prover (in OutcomeProof) those of TransferFromNear.
    Two theorems go all the way: eth_event_accepted (EthToNear) from an
    event on Ethereum to the prover on NEAR, near_outcome_accepted
    (Finality) from a NEAR block to the prover on Ethereum.

    Where the Solidity code is optimized it is modelled twice, once as the
    state machine or decoder over lists that the other files use and once
    as it is written, with a refinement between the two (SolMemory,
    BridgeStorage).

    ** Fuel

    [serialize] and [deserialize] take the depth of the schema; 8 is enough
    for both contract schemas ([EthOnNearClient.schema_fuel]).
    [callContract] needs at most 45 rounds when nonce and connection errors
    do not recur, as the price doubles below a fixed limit
    (callContract_terminates).  The binary search takes the interval's
    length.  The predicate of a relay round and the wait for a final block
    retry for as long as the network fails: their theorems assume that it
    answers.  A NEAR dump polls until the chain has grown: its theorem holds
    for all fuel from some amount on (near_dump_completes), as do those of
    the transfers and the adapter ([ends]), which wait for blocks.  An
    endless run of the relay is the sequence of worlds its rounds start in
    ([RelaySystem.endless]), one of the other relay a chain of rounds
    ([Eth2NearSystem.runs]).  The rewriting of the canonical chain and the
    collections of EthClient count a block number down and need no fuel.
    The copy loop of SolMemory takes a round for each 32 bytes
    (decodeBytes_copies), the vote loop of BridgeStorage at most one for
    each of the 100 block producers.
    All other loops have the source's bound.

    ** Not modelled

    Logging and the construction of clients are left out.  The ethashproof
    executable, ethash, ed25519, SHA-256 and keccak256, the shell, pm2,
    hardhat and the packages of npm are parameters.  Of the
    Solidity contracts the ed25519 arithmetic, gas and the mocks are left
    out.  A direct write to the storage by the admin (adminSstore,
    adminSstoreWithMask, adminDelegatecall) is a step to an arbitrary state:
    [write_changes_confirmed] of Finality shows that the properties of a
    history need not survive one, and they are stated for histories without.
    A receipt is its untyped RLP form: the typed receipts that eth-types
    also reads are left out.  Commander and the handlers of cli/index.js that only
    forward their arguments are left out.  The
    configuration of coverage runs and the test suites have no behaviour of
    the bridge.  The log of a transfer from NEAR is typed progress instead
    of JSON text. *)

From Stdlib Require Export ZArith Lia Ascii.
From stdpp Require Export base option list strings gmap numbers.

#[global] Open Scope string_scope.
#[global] Open Scope list_scope.
#[global] Open Scope Z_scope.

(** ** JavaScript outcomes

    A JavaScript computation returns a value, throws an error object, or
    ends the process.  [OutOfFuel] is the extra outcome of a model that
    ran out of fuel; it is never caught, and the theorems that claim a
    result show that it does not occur. *)

Record js_error := JsError { err_name : string; err_message : string }.

#[global] Instance js_error_eq_dec : EqDecision js_error.
Proof. solve_decision. Defined.

Inductive outcome (A : Type) : Type :=
| Ret (a : A)
| Throw (e : js_error)
| Exit (code : Z)
| OutOfFuel.

Arguments Ret {A} a.
Arguments Throw {A} e.
Arguments Exit {A} code.
Arguments OutOfFuel {A}.

#[global] Instance outcome_eq_dec {A} `{EqDecision A} : EqDecision (outcome A).
Proof. solve_decision. Defined.

#[global] Instance outcome_ret : MRet outcome := fun A a => Ret a.
#[global] Instance outcome_bind : MBind outcome := fun A B k m =>
  match m with
  | Ret a => k a
  | Throw e => Throw e
  | Exit c => Exit c
  | OutOfFuel => OutOfFuel
  end.

(** The errors of the source: [new Error(msg)] and the built-in subclasses. *)
Definition Error (msg : string) : js_error := JsError "Error" msg.
Definition TypeError (msg : string) : js_error := JsError "TypeError" msg.
Definition RangeError (msg : string) : js_error := JsError "RangeError" msg.

Definition is_ret {A} (o : outcome A) : bool :=
  match o with Ret _ => true | _ => false end.

(** ** Effectful programs

    [eff W E A] is a program that runs against a world [W] (the services
    it calls), records the events [E] it performs, and ends in an
    [outcome A].  Services are not part of the repository: each enters
    the models as an operation [W -> outcome A * W]. *)

Definition eff (W E A : Type) : Type := W -> outcome A * W * list E.

Definition service (W A : Type) : Type := W -> outcome A * W.

#[global] Instance eff_ret {W E} : MRet (eff W E) := fun A a w => (Ret a, w, []).
#[global] Instance eff_bind {W E} : MBind (eff W E) := fun A B k m w =>
  match m w with
  | (Ret a, w1, t1) => let '(o, w2, t2) := k a w1 in (o, w2, (t1 ++ t2)%list)
  | (Throw e, w1, t1) => (Throw e, w1, t1)
  | (Exit c, w1, t1) => (Exit c, w1, t1)
  | (OutOfFuel, w1, t1) => (OutOfFuel, w1, t1)
  end.

Section EffOps.
Context {W E : Type}.

Definition lift {A} (o : outcome A) : eff W E A := fun w => (o, w, []).
Definition throw {A} (e : js_error) : eff W E A := lift (Throw e).
Definition exit {A} (code : Z) : eff W E A := lift (Exit code).
Definition stuck {A} : eff W E A := lift OutOfFuel.

(** Record an event that has no response. *)
Definition emit (e : E) : eff W E unit := fun w => (Ret tt, w, [e]).

(** Call a service, recording the call. *)
Definition perform {A} (e : E) (op : service W A) : eff W E A :=
  fun w => let '(o, w') := op w in (o, w', [e]).

(** Call a service without recording it. *)
Definition query {A} (op : service W A) : eff W E A :=
  fun w => let '(o, w') := op w in (o, w', []).

(** [try { m } catch (e) { h(e) }]: only a thrown error is caught. *)
Definition try_catch {A} (m : eff W E A) (h : js_error -> eff W E A) : eff W E A :=
  fun w =>
    match m w with
    | (Throw e, w1, t1) => let '(o, w2, t2) := h e w1 in (o, w2, (t1 ++ t2)%list)
    | r => r
    end.

(** [Promise.all(ps)]: every promise runs, and the first rejection in the
    list is the result.  The requests are taken in the order of the list. *)
Fixpoint promise_all {A} (ps : list (eff W E A)) : eff W E (list A) :=
  match ps with
  | [] => fun w => (Ret [], w, [])
  | p :: ps' => fun w =>
      match p w with
      | (Ret a, w1, t1) =>
          let '(os, w2, t2) := promise_all ps' w1 in
          (os ≫= fun l => Ret (a :: l), w2, (t1 ++ t2)%list)
      | (Throw e, w1, t1) =>
          let '(os, w2, t2) := promise_all ps' w1 in
          (match os with Exit c => Exit c | OutOfFuel => OutOfFuel | _ => Throw e end, w2, (t1 ++ t2)%list)
      | (Exit c, w1, t1) => (Exit c, w1, t1)
      | (OutOfFuel, w1, t1) => (OutOfFuel, w1, t1)
      end
  end.

End EffOps.

(** The three parts of a run. *)
Definition out_of {W E A} (r : outcome A * W * list E) : outcome A := r.1.1.
Definition world_of {W E A} (r : outcome A * W * list E) : W := r.1.2.
Definition trace_of {W E A} (r : outcome A * W * list E) : list E := r.2.

(** ** JavaScript values

    Numbers and big numbers (BN) are integers; a string is a sequence of
    code units below 256; [VBytes] is a Buffer or Uint8Array; an object
    is the list of its own properties in insertion order. *)

Inductive val : Type :=
| VUndef
| VNull
| VBool (b : bool)
| VNum (n : Z)
| VStr (s : string)
| VBytes (bs : list Z)
| VArr (vs : list val)
| VObj (fs : list (string * val)).

(** JavaScript truthiness, the condition of [if], [?:], [||] and [!]. *)
Definition truthy (v : val) : bool :=
  match v with
  | VUndef | VNull => false
  | VBool b => b
  | VNum n => negb (n =? 0)
  | VStr s => negb (String.eqb s "")
  | VBytes _ | VArr _ | VObj _ => true
  end.

(** [a || b] *)
Definition js_or (a b : val) : val := if truthy a then a else b.

Fixpoint assoc {A} (k : string) (l : list (string * A)) : option A :=
  match l with
  | [] => None
  | (k', v) :: l' => if String.eqb k k' then Some v else assoc k l'
  end.

(** [o[k] = v]: overwrite an own property in place, or add it at the end. *)
Fixpoint assoc_set {A} (k : string) (v : A) (l : list (string * A)) : list (string * A) :=
  match l with
  | [] => [(k, v)]
  | (k', v') :: l' => if String.eqb k k' then (k, v) :: l' else (k', v') :: assoc_set k v l'
  end.

(** [v[name]] *)
Definition get_prop (v : val) (name : string) : outcome val :=
  match v with
  | VUndef => Throw (TypeError ("Cannot read property '" +:+ name +:+ "' of undefined"))
  | VNull => Throw (TypeError ("Cannot read property '" +:+ name +:+ "' of null"))
  | VStr s => Ret (if String.eqb name "length" then VNum (Z.of_nat (String.length s)) else VUndef)
  | VBytes bs => Ret (if String.eqb name "length" then VNum (Z.of_nat (length bs)) else VUndef)
  | VArr vs => Ret (if String.eqb name "length" then VNum (Z.of_nat (length vs)) else VUndef)
  | VObj fs => Ret (default VUndef (assoc name fs))
  | VBool _ | VNum _ => Ret VUndef
  end.

(** The items an array-like value yields to [for (const x of v)]. *)
Definition items_of (v : val) : option (list val) :=
  match v with
  | VArr vs => Some vs
  | VBytes bs => Some (map VNum bs)
  | _ => None
  end.

(** ** Bytes and little-endian integers *)

Definition is_byte (b : Z) : Prop := 0 <= b < 256.
Definition bytes_ok (bs : list Z) : Prop := Forall is_byte bs.

#[global] Instance is_byte_dec b : Decision (is_byte b).
Proof. unfold is_byte. apply _. Defined.

Fixpoint le_bytes (n : nat) (z : Z) : list Z :=
  match n with
  | O => []
  | S n' => (z mod 256) :: le_bytes n' (z / 256)
  end.

Fixpoint le_value (bs : list Z) : Z :=
  match bs with
  | [] => 0
  | b :: bs' => b + 256 * le_value bs'
  end.

(** [Buffer.from(s, 'utf8')]: a code unit below 128 is one byte, the
    others below 256 are two. *)
Definition utf8_unit (c : Ascii.ascii) : list Z :=
  let n := Z.of_N (Ascii.N_of_ascii c) in
  if n <? 128 then [n] else [192 + n / 64; 128 + n mod 64].

Fixpoint utf8_bytes (s : string) : list Z :=
  match s with
  | EmptyString => []
  | String c s' => (utf8_unit c ++ utf8_bytes s')%list
  end.

Fixpoint is_ascii_string (s : string) : bool :=
  match s with
  | EmptyString => true
  | String c s' => (Z.of_N (Ascii.N_of_ascii c) <? 128) && is_ascii_string s'
  end.

(** [s.substr(from)] and [s.substr(0, n)] for a non-negative argument. *)
Fixpoint str_drop (n : nat) (s : string) : string :=
  match n, s with
  | O, _ => s
  | S _, EmptyString => EmptyString
  | S n', String _ s' => str_drop n' s'
  end.

Fixpoint str_take (n : nat) (s : string) : string :=
  match n, s with
  | O, _ => EmptyString
  | S _, EmptyString => EmptyString
  | S n', String c s' => String c (str_take n' s')
  end.

Arguments str_drop : simpl never.
Arguments str_take : simpl never.

(** [s.includes(t)] *)
Fixpoint str_includes (t s : string) : bool :=
  String.prefix t s ||
  match s with
  | EmptyString => false
  | String _ s' => str_includes t s'
  end.

(** [s.toLowerCase()] on the ASCII letters. *)
Definition lower_char (c : Ascii.ascii) : Ascii.ascii :=
  let n := Ascii.N_of_ascii c in
  if ((65 <=? n) && (n <=? 90))%N then Ascii.ascii_of_N (n + 32)%N else c.

Fixpoint str_lower (s : string) : string :=
  match s with
  | EmptyString => EmptyString
  | String c s' => String (lower_char c) (str_lower s')
  end.

(** [Array.prototype.filter((_, index) => index % 2 === 0)] *)
Fixpoint even_positions {A} (l : list A) : list A :=
  match l with
  | [] => []
  | [x] => [x]
  | x :: _ :: l' => x :: even_positions l'
  end.

(** ** Automation *)

Create HintDb bridge.

(** Split a run of the [eff] monad into its outcome, world and trace. *)
Ltac split_run :=
  repeat match goal with
  | H : context [match ?m ?w with (_, _) => _ end] |- _ =>
      let o := fresh "o" in let w' := fresh "w" in let t := fresh "t" in
      destruct (m w) as [[o w'] t] eqn:?
  | |- context [match ?m ?w with (_, _) => _ end] =>
      let o := fresh "o" in let w' := fresh "w" in let t := fresh "t" in
      destruct (m w) as [[o w'] t] eqn:?
  end.

(** Case analysis on the innermost scrutinee of a goal or hypothesis. *)
Ltac case_goal :=
  match goal with
  | |- context [match ?x with _ => _ end] =>
      lazymatch x with
      | context [match _ with _ => _ end] => fail
      | _ => destruct x eqn:?
      end
  end.

Ltac case_hyp H :=
  match type of H with
  | context [match ?x with _ => _ end] =>
      lazymatch x with
      | context [match _ with _ => _ end] => fail
      | _ => destruct x eqn:?
      end
  end.

(** Turn boolean comparisons of the source into propositions. *)
Ltac zbool :=
  repeat match goal with
  | H : (_ <? _) = true |- _ => apply Z.ltb_lt in H
  | H : (_ <? _) = false |- _ => apply Z.ltb_ge in H
  | H : (_ <=? _) = true |- _ => apply Z.leb_le in H
  | H : (_ <=? _) = false |- _ => apply Z.leb_gt in H
  | H : (_ =? _) = true |- _ => apply Z.eqb_eq in H
  | H : (_ =? _) = false |- _ => apply Z.eqb_neq in H
  | H : negb _ = true |- _ => apply negb_true_iff in H
  | H : negb _ = false |- _ => apply negb_false_iff in H
  | H : (_ && _)%bool = true |- _ => apply andb_true_iff in H; destruct H
  | H : (_ || _)%bool = false |- _ => apply orb_false_iff in H; destruct H
  end.

(** ** Shared lemmas *)

Lemma outcome_bind_ret {A B} (a : A) (k : A -> outcome B) : (Ret a ≫= k) = k a.
Proof. reflexivity. Qed.

Lemma Ret_inj {A} (a b : A) : Ret a = Ret b -> a = b.
Proof. congruence. Qed.

Lemma outcome_bind_inv {A B} (m : outcome A) (k : A -> outcome B) b :
  (m ≫= k) = Ret b -> exists a, m = Ret a /\ k a = Ret b.
Proof. destruct m; simpl; intros H; try discriminate; eauto. Qed.

Lemma outcome_bind_assoc {A B C} (m : outcome A) (k : A -> outcome B) (k' : B -> outcome C) :
  ((m ≫= k) ≫= k') = (m ≫= fun a => k a ≫= k').
Proof. by destruct m. Qed.

#[export] Hint Rewrite @outcome_bind_ret @outcome_bind_assoc : bridge.

Lemma length_le_bytes n z : length (le_bytes n z) = n.
Proof. revert z. induction n; simpl; auto. Qed.

Lemma le_bytes_ok n z : bytes_ok (le_bytes n z).
Proof.
  revert z. induction n; intros z; constructor.
  - apply Z.mod_pos_bound. lia.
  - apply IHn.
Qed.

Lemma le_value_le_bytes n z : le_value (le_bytes n z) = z mod 256 ^ Z.of_nat n.
Proof.
  revert z. induction n as [|n IH]; intros z; cbn [le_bytes le_value].
  - by rewrite Z.mod_1_r.
  - rewrite IH, Nat2Z.inj_succ, Z.pow_succ_r by lia.
    rewrite Z.rem_mul_r by (try apply Z.pow_nonzero; lia). lia.
Qed.

Lemma le_value_small n z : 0 <= z < 256 ^ Z.of_nat n -> le_value (le_bytes n z) = z.
Proof. intros H. rewrite le_value_le_bytes. by apply Z.mod_small. Qed.

Lemma le_bytes_le_value bs : bytes_ok bs -> le_bytes (length bs) (le_value bs) = bs.
Proof.
  induction 1 as [|b bs Hb Hbs IH]; cbn [length le_bytes le_value]; [done|].
  unfold is_byte in Hb. f_equal.
  - rewrite Z.mul_comm, Z_mod_plus_full. by apply Z.mod_small.
  - rewrite Z.mul_comm, Z.div_add, Z.div_small, Z.add_0_l by lia. apply IH.
Qed.

Lemma le_value_bound bs : bytes_ok bs -> 0 <= le_value bs < 256 ^ Z.of_nat (length bs).
Proof.
  induction 1 as [|b bs Hb Hbs IH]; cbn [length le_value]; [lia|].
  unfold is_byte in Hb. rewrite Nat2Z.inj_succ, Z.pow_succ_r by lia. lia.
Qed.

#[export] Hint Resolve le_bytes_ok : bridge.
#[export] Hint Rewrite length_le_bytes : bridge.

Lemma utf8_unit_ok c : bytes_ok (utf8_unit c).
Proof.
  unfold utf8_unit. pose proof (Ascii.N_ascii_bounded c) as Hb.
  set (n := Z.of_N (Ascii.N_of_ascii c)) in *.
  assert (0 <= n < 256) by lia.
  pose proof (Z.mod_pos_bound n 64). pose proof (Z.div_le_mono n 255 64).
  pose proof (Z.div_pos n 64). change (255 / 64) with 3 in *.
  case_match; zbool; repeat constructor; unfold is_byte; lia.
Qed.

Lemma utf8_bytes_ok s : bytes_ok (utf8_bytes s).
Proof.
  induction s as [|c s IH]; simpl; [constructor|].
  apply Forall_app; split; [apply utf8_unit_ok | apply IH].
Qed.

Lemma length_utf8_ascii s :
  is_ascii_string s = true -> length (utf8_bytes s) = String.length s.
Proof.
  induction s as [|c s IH]; simpl; [done|]. intros H.
  apply andb_true_iff in H as [Hc Hs].
  unfold utf8_unit. rewrite Hc. simpl. by rewrite IH.
Qed.

#[export] Hint Resolve utf8_bytes_ok : bridge.

Lemma bytes_ok_app bs1 bs2 : bytes_ok bs1 -> bytes_ok bs2 -> bytes_ok (bs1 ++ bs2).
Proof. intros. by apply Forall_app. Qed.

Lemma bytes_ok_one b : 0 <= b < 256 -> bytes_ok [b].
Proof. intros. by apply Forall_singleton. Qed.

#[export] Hint Resolve bytes_ok_app bytes_ok_one : bridge.

(** Reading a byte list at the position where its second part starts. *)
Lemma take_drop_middle {A} (pre bs post : list A) n :
  n = length bs -> take n (drop (length pre) (pre ++ bs ++ post)) = bs.
Proof. intros ->. by rewrite drop_app_length, take_app_length. Qed.

Lemma assoc_fst_NoDup {A} (l : list (string * A)) k v :
  NoDup l.*1 -> (k, v) ∈ l -> assoc k l = Some v.
Proof.
  induction l as [|[k' v'] l IH]; simpl; intros Hnd Hin; [by apply not_elem_of_nil in Hin|].
  apply list.NoDup_cons in Hnd as [Hn Hnd].
  apply elem_of_cons in Hin as [Heq | Hin].
  - injection Heq as -> ->. by rewrite String.eqb_refl.
  - destruct (String.eqb_spec k k') as [->|_]; [|by apply IH].
    exfalso. apply Hn. apply list_elem_of_fmap. by exists (k', v).
Qed.

Lemma assoc_set_fresh {A} k (v : A) l : k ∉ l.*1 -> assoc_set k v l = (l ++ [(k, v)])%list.
Proof.
  induction l as [|[k' v'] l IH]; simpl; intros Hn; [done|].
  apply not_elem_of_cons in Hn as [Hne Hn].
  destruct (String.eqb_spec k k') as [->|_]; [done|]. by rewrite IH.
Qed.

Lemma assoc_set_same {A} k (v : A) l : assoc k (assoc_set k v l) = Some v.
Proof.
  induction l as [|[k' v'] l IH]; cbn; [by rewrite String.eqb_refl|].
  destruct (String.eqb k k') eqn:E; cbn; [by rewrite String.eqb_refl | by rewrite E].
Qed.

Lemma assoc_set_other {A} k k0 (v : A) l : k <> k0 -> assoc k (assoc_set k0 v l) = assoc k l.
Proof.
  intros Hne. induction l as [|[k' v'] l IH]; cbn.
  - by rewrite (proj2 (String.eqb_neq _ _) Hne).
  - destruct (String.eqb_spec k0 k') as [->|]; cbn; [by rewrite (proj2 (String.eqb_neq _ _) Hne)|].
    by rewrite IH.
Qed.

(** The least index at which a test holds. *)
Lemma least_true (f : nat -> bool) n :
  f n = true -> exists k, (k <= n)%nat /\ f k = true /\ forall j, (j < k)%nat -> f j = false.
Proof.
  revert f. induction n as [|n IH]; intros f Hn.
  - exists 0%nat. split; [lia|]. split; [done|]. lia.
  - destruct (f 0%nat) eqn:H0; [exists 0%nat; split; [lia|]; split; [done|]; lia|].
    destruct (IH (fun k => f (S k)) Hn) as (k & Hk & Hf & Hj). exists (S k). split; [lia|]. split; [done|].
    intros [|j] Hlt; [done|]. apply Hj. lia.
Qed.

(** ** Facts about runs *)

Section EffLemmas.
Context {W E A B : Type}.
Implicit Types (m : eff W E A) (k : A -> eff W E B).

Lemma eff_bind_eq m k w :
  (m ≫= k) w =
  match m w with
  | (Ret a, w1, t1) => (out_of (k a w1), world_of (k a w1), (t1 ++ trace_of (k a w1))%list)
  | (Throw e, w1, t1) => (Throw e, w1, t1)
  | (Exit c, w1, t1) => (Exit c, w1, t1)
  | (OutOfFuel, w1, t1) => (OutOfFuel, w1, t1)
  end.
Proof.
  unfold mbind, eff_bind. destruct (m w) as [[[a|e|c|] w1] t1]; try reflexivity.
  by destruct (k a w1) as [[o w2] t2].
Qed.

(** Run both halves of a bind. *)
Lemma eff_bind_run m k w a w1 t1 o w2 t2 :
  m w = (Ret a, w1, t1) -> k a w1 = (o, w2, t2) -> (m ≫= k) w = (o, w2, (t1 ++ t2)%list).
Proof. intros Hm Hk. rewrite eff_bind_eq, Hm, Hk. reflexivity. Qed.

Lemma emit_bind (e : E) (m : eff W E B) w :
  (_ ← emit e; m) w = let '(o, w', t) := m w in (o, w', e :: t).
Proof. unfold mbind, eff_bind, emit. by destruct (m w) as [[[a|err|c|] w'] t]. Qed.

Lemma perform_run (e : E) (op : service W A) w o w' : op w = (o, w') -> perform e op w = (o, w', [e]).
Proof. unfold perform. by intros ->. Qed.

Lemma query_run (op : service W A) w o w' : op w = (o, w') -> query (E:=E) op w = (o, w', []).
Proof. unfold query. by intros ->. Qed.

(** A bind that returned went through both halves. *)
Lemma eff_bind_ret_inv m k w b :
  out_of ((m ≫= k) w) = Ret b ->
  exists a, out_of (m w) = Ret a /\ out_of (k a (world_of (m w))) = Ret b.
Proof.
  rewrite eff_bind_eq. destruct (m w) as [[[a|e|c|] w1] t1]; cbn; intros H; try discriminate.
  exists a. by rewrite <- H.
Qed.

Lemma eff_bind_run_inv m k w b w' t :
  (m ≫= k) w = (Ret b, w', t) ->
  exists a w1 t1 t2, m w = (Ret a, w1, t1) /\ k a w1 = (Ret b, w', t2) /\ t = (t1 ++ t2)%list.
Proof.
  rewrite eff_bind_eq. destruct (m w) as [[[a|e|c|] w1] t1]; intros H; try discriminate.
  destruct (k a w1) as [[o w2] t2] eqn:Hk. injection H as <- <- <-. by exists a, w1, t1, t2.
Qed.

Lemma perform_run_inv (e : E) (op : service W A) w a w' t : perform e op w = (Ret a, w', t) -> op w = (Ret a, w') /\ t = [e].
Proof. unfold perform. destruct (op w) as [o w1]. by intros [= -> -> <-]. Qed.

Lemma query_run_inv (op : service W A) w a w' t : query (E := E) op w = (Ret a, w', t) -> op w = (Ret a, w') /\ t = [].
Proof. unfold query. destruct (op w) as [o w1]. by intros [= -> -> <-]. Qed.

Lemma trace_bind_ret m k w a :
  out_of (m w) = Ret a ->
  trace_of ((m ≫= k) w) = (trace_of (m w) ++ trace_of (k a (world_of (m w))))%list.
Proof.
  rewrite eff_bind_eq. destruct (m w) as [[[a'|e|c|] w1] t1]; cbn; intros H; try discriminate.
  by injection H as ->.
Qed.

End EffLemmas.

(** ** Programs that always return

    [returns m Q]: from every world [m] ends in a value, and the value and
    the events of the run satisfy [Q]. *)

Definition returns {W E A} (m : eff W E A) (Q : A -> list E -> Prop) : Prop :=
  forall w, exists a w' t, m w = (Ret a, w', t) /\ Q a t.

Section Returns.
Context {W E : Type}.

Lemma returns_ret {A} (a : A) (Q : A -> list E -> Prop) : Q a [] -> returns (W := W) (mret a) Q.
Proof. intros H w. by exists a, w, []. Qed.

Lemma returns_bind {A B} (m : eff W E A) (k : A -> eff W E B) Q R :
  returns m Q ->
  (forall a t, Q a t -> returns (k a) (fun b t' => R b (t ++ t')%list)) ->
  returns (m ≫= k) R.
Proof.
  intros Hm Hk w. destruct (Hm w) as (a & w1 & t1 & Em & HQ).
  destruct (Hk a t1 HQ w1) as (b & w2 & t2 & Ek & HR).
  exists b, w2, (t1 ++ t2)%list. unfold mbind, eff_bind. rewrite Em, Ek. done.
Qed.

Lemma returns_mono {A} (m : eff W E A) (Q R : A -> list E -> Prop) :
  returns m Q -> (forall a t, Q a t -> R a t) -> returns m R.
Proof. intros Hm HR w. destruct (Hm w) as (a & w1 & t1 & Em & HQ). exists a, w1, t1. auto. Qed.

Lemma returns_emit (e : E) (Q : unit -> list E -> Prop) : Q tt [e] -> returns (W := W) (emit e) Q.
Proof. intros H w. by exists tt, w, [e]. Qed.

Lemma returns_perform {A} (e : E) (op : service W A) a (Q : A -> list E -> Prop) :
  (forall w, exists w', op w = (Ret a, w')) -> Q a [e] -> returns (perform e op) Q.
Proof. intros Hop HQ w. destruct (Hop w) as [w' Hw]. exists a, w', [e]. unfold perform. by rewrite Hw. Qed.

Lemma returns_lift {A} (o : outcome A) a (Q : A -> list E -> Prop) : o = Ret a -> Q a [] -> returns (W := W) (lift o) Q.
Proof. intros -> HQ w. by exists a, w, []. Qed.

Lemma returns_try {A} (m : eff W E A) h Q : returns m Q -> returns (try_catch m h) Q.
Proof. intros Hm w. destruct (Hm w) as (a & w' & t & Em & HQ). exists a, w', t. unfold try_catch. by rewrite Em. Qed.

(** Promises that all return known values, with events of which [Q] holds. *)
Lemma returns_promise_all {A} (Q : list E -> Prop) (ps : list (eff W E A)) l :
  Q [] -> (forall t1 t2, Q t1 -> Q t2 -> Q (t1 ++ t2)%list) ->
  Forall2 (fun p a => returns p (fun b t => b = a /\ Q t)) ps l ->
  returns (promise_all ps) (fun b t => b = l /\ Q t).
Proof.
  intros Hnil Happ. induction 1 as [|p a ps l Hp _ IH]; intros w; [by exists [], w, []|].
  destruct (Hp w) as (? & w1 & t1 & Ep & -> & Ht1). destruct (IH w1) as (? & w2 & t2 & Eps & -> & Ht2).
  exists (a :: l), w2, (t1 ++ t2)%list. cbn [promise_all]. rewrite Ep, Eps. auto.
Qed.

End Returns.

(** Programs that return from the worlds with a property, and keep it. *)
Definition returns_in {W E A} (I : W -> Prop) (m : eff W E A) (Q : A -> list E -> Prop) : Prop :=
  forall w, I w -> exists a w' t, m w = (Ret a, w', t) /\ I w' /\ Q a t.

Section ReturnsIn.
Context {W E : Type} (I : W -> Prop).

Lemma returns_in_ret {A} (a : A) (Q : A -> list E -> Prop) : Q a [] -> returns_in I (mret a) Q.
Proof. intros HQ w Hw. by exists a, w, []. Qed.

Lemma returns_in_bind {A B} (m : eff W E A) (k : A -> eff W E B) Q R :
  returns_in I m Q -> (forall a t, Q a t -> returns_in I (k a) (fun b t' => R b (t ++ t')%list)) -> returns_in I (m ≫= k) R.
Proof.
  intros Hm Hk w Hw. destruct (Hm w Hw) as (a & w1 & t1 & E1 & H1 & HQ). destruct (Hk a t1 HQ w1 H1) as (b & w2 & t2 & E2 & H2 & HR).
  exists b, w2, (t1 ++ t2)%list. split; [by eapply eff_bind_run | done].
Qed.

Lemma returns_in_mono {A} (m : eff W E A) (Q R : A -> list E -> Prop) :
  returns_in I m Q -> (forall a t, Q a t -> R a t) -> returns_in I m R.
Proof. intros Hm HR w Hw. destruct (Hm w Hw) as (a & w' & t & Em & Hw' & HQ). exists a, w', t. auto. Qed.

Lemma returns_in_lift {A} (o : outcome A) a (Q : A -> list E -> Prop) : o = Ret a -> Q a [] -> returns_in I (lift o) Q.
Proof. intros -> HQ w Hw. by exists a, w, []. Qed.

Lemma returns_in_emit (e : E) (Q : unit -> list E -> Prop) : Q tt [e] -> returns_in I (emit e) Q.
Proof. intros HQ w Hw. by exists tt, w, [e]. Qed.

Lemma returns_in_perform {A} (e : E) (op : service W A) (Q : A -> list E -> Prop) :
  (forall w, I w -> exists a w', op w = (Ret a, w') /\ I w' /\ Q a [e]) -> returns_in I (perform e op) Q.
Proof. intros Hop w Hw. destruct (Hop w Hw) as (a & w' & Eo & Hw' & HQ). exists a, w', [e]. split; [by apply perform_run | done]. Qed.

Lemma returns_in_try {A} (m : eff W E A) h (Q : A -> list E -> Prop) : returns_in I m Q -> returns_in I (try_catch m h) Q.
Proof. intros Hm w Hw. destruct (Hm w Hw) as (a & w' & t & Em & H). exists a, w', t. unfold try_catch. by rewrite Em. Qed.

Lemma returns_in_always {A} (m : eff W E A) (Q : A -> list E -> Prop) : returns m Q <-> returns_in (fun _ => True) m Q.
Proof.
  split.
  - intros H w _. destruct (H w) as (a & w' & t & Em & HQ). by exists a, w', t.
  - intros H w. destruct (H w Logic.I) as (a & w' & t & Em & _ & HQ). by exists a, w', t.
Qed.

End ReturnsIn.

(** ** Loops that wait

    [m] takes fuel; [ends m w o w' t]: with all fuel from some amount on,
    its run from [w] is the same one. *)

Definition ends {W E A} (m : nat -> eff W E A) (w : W) (o : outcome A) (w' : W) (t : list E) : Prop :=
  exists n, forall fuel, (n <= fuel)%nat -> m fuel w = (o, w', t).

(** Repeated requests give, after finitely many, an answer with [P]. *)
Inductive eventually {W A} (op : service W A) (P : A -> Prop) : W -> Prop :=
| eventually_now w a w' : op w = (Ret a, w') -> P a -> eventually op P w
| eventually_later w a w' : op w = (Ret a, w') -> ~ P a -> eventually op P w' -> eventually op P w.

(** From every world in [P], [m] ends in a value with [Q]. *)
Definition completes {W E A} (P : W -> Prop) (m : nat -> eff W E A) (Q : A -> W -> list E -> Prop) : Prop :=
  forall w, P w -> exists a w' t, ends m w (Ret a) w' t /\ Q a w' t.

Section Waiting.
Context {W E : Type}.

Lemma ends_const {A} (m : eff W E A) w o w' t : m w = (o, w', t) -> ends (fun _ => m) w o w' t.
Proof. intros H. by exists 0%nat. Qed.

Lemma ends_bind {A B} (m : nat -> eff W E A) (k : nat -> A -> eff W E B) w a w1 t1 o w2 t2 :
  ends m w (Ret a) w1 t1 -> ends (fun fuel => k fuel a) w1 o w2 t2 ->
  ends (fun fuel => m fuel ≫= k fuel) w o w2 (t1 ++ t2)%list.
Proof.
  intros [n1 H1] [n2 H2]. exists (max n1 n2). intros fuel Hf.
  eapply eff_bind_run; [apply H1; lia | apply H2; lia].
Qed.

(** A loop that asks [q] and goes on as [k] with one unit of fuel less. *)
Lemma ends_poll {A B} (m : nat -> eff W E B) (q : eff W E A) (k : nat -> A -> eff W E B) w a w1 t1 o w2 t2 :
  (forall fuel, m (S fuel) w = (q ≫= k fuel) w) -> q w = (Ret a, w1, t1) -> ends (fun fuel => k fuel a) w1 o w2 t2 ->
  ends m w o w2 (t1 ++ t2)%list.
Proof.
  intros Hm Hq [n Hn]. exists (S n). intros [|fuel] Hf; [lia|]. rewrite Hm.
  eapply eff_bind_run; [exact Hq | apply Hn; lia].
Qed.

Lemma completes_bind {A B} P (m : nat -> eff W E A) (k : nat -> A -> eff W E B) Q R :
  completes P m Q ->
  (forall a t, completes (fun w => Q a w t) (fun fuel => k fuel a) (fun b w t' => R b w (t ++ t')%list)) ->
  completes P (fun fuel => m fuel ≫= k fuel) R.
Proof.
  intros Hm Hk w Hw. destruct (Hm w Hw) as (a & w1 & t1 & E1 & H1).
  destruct (Hk a t1 w1 H1) as (b & w2 & t2 & E2 & H2). exists b, w2, (t1 ++ t2)%list. split; [by eapply ends_bind | done].
Qed.

(** A program without a loop that always returns. *)
Lemma completes_returns {A} (P : W -> Prop) (m : eff W E A) Q :
  returns m Q -> completes P (fun _ => m) (fun a _ t => Q a t).
Proof. intros Hm w _. destruct (Hm w) as (a & w' & t & Hr & HQ). exists a, w', t. split; [by apply ends_const | done]. Qed.

Lemma completes_mono {A} (P P' : W -> Prop) (m : nat -> eff W E A) Q R :
  completes P' m Q -> (forall w, P w -> P' w) -> (forall a w t, Q a w t -> R a w t) -> completes P m R.
Proof. intros Hm HP HR w Hw. destruct (Hm w (HP w Hw)) as (a & w' & t & He & HQ). exists a, w', t. auto. Qed.

Lemma completes_try {A} P (m : nat -> eff W E A) h Q :
  completes P m Q -> completes P (fun fuel => try_catch (m fuel) (h fuel)) Q.
Proof.
  intros Hm w Hw. destruct (Hm w Hw) as (a & w' & t & [n Hn] & HQ). exists a, w', t. split; [|done].
  exists n. intros fuel Hf. unfold try_catch. by rewrite (Hn fuel Hf).
Qed.

End Waiting.

(** ** Relations between the ends and the events of a run

    [respects I m]: every run of [m], however it ends, relates its first
    world, its last world and its events by [I].  A relation that holds of
    an empty run and of two runs in sequence is respected by every program
    whose primitive steps respect it. *)

Definition respects {W E A} (I : W -> W -> list E -> Prop) (m : eff W E A) : Prop :=
  forall w, I w (world_of (m w)) (trace_of (m w)).

Class TraceRel {W E} (I : W -> W -> list E -> Prop) : Prop := {
  trace_rel_nil : forall w, I w w [];
  trace_rel_app : forall w1 w2 w3 t1 t2, I w1 w2 t1 -> I w2 w3 t2 -> I w1 w3 (t1 ++ t2)%list
}.

Section Respects.
Context {W E : Type} (I : W -> W -> list E -> Prop) `{!TraceRel I}.

Lemma respects_lift {A} (o : outcome A) : respects I (lift o).
Proof. intros w. apply trace_rel_nil. Qed.

Lemma respects_ret {A} (a : A) : respects I (mret a).
Proof. intros w. apply trace_rel_nil. Qed.

Lemma respects_throw {A} e : respects I (throw (A := A) e).
Proof. intros w. apply trace_rel_nil. Qed.

Lemma respects_exit {A} c : respects I (exit (A := A) c).
Proof. intros w. apply trace_rel_nil. Qed.

(** The second part may count on what the first has returned. *)
Lemma respects_bind_ret {A B} (m : eff W E A) (k : A -> eff W E B) :
  respects I m -> (forall w a, out_of (m w) = Ret a -> respects I (k a)) -> respects I (m ≫= k).
Proof.
  intros Hm Hk w. specialize (Hm w). specialize (Hk w). rewrite eff_bind_eq.
  destruct (m w) as [[[a|e|c|] w1] t1]; try exact Hm.
  exact (trace_rel_app _ _ _ _ _ Hm (Hk a eq_refl w1)).
Qed.

Lemma respects_bind {A B} (m : eff W E A) (k : A -> eff W E B) :
  respects I m -> (forall a, respects I (k a)) -> respects I (m ≫= k).
Proof. intros Hm Hk. apply respects_bind_ret; [exact Hm|]. by intros w a _. Qed.

Lemma respects_try {A} (m : eff W E A) h :
  respects I m -> (forall e, respects I (h e)) -> respects I (try_catch m h).
Proof.
  intros Hm Hh w. specialize (Hm w). unfold try_catch.
  destruct (m w) as [[[a|e|c|] w1] t1]; try exact Hm.
  specialize (Hh e w1). destruct (h e w1) as [[o w2] t2].
  exact (trace_rel_app _ _ _ _ _ Hm Hh).
Qed.

Lemma respects_perform {A} (e : E) (op : service W A) :
  (forall w, I w (op w).2 [e]) -> respects I (perform e op).
Proof. intros H w. specialize (H w). unfold perform. by destruct (op w). Qed.

Lemma respects_query {A} (op : service W A) :
  (forall w, I w (op w).2 []) -> respects I (query op).
Proof. intros H w. specialize (H w). unfold query. by destruct (op w). Qed.

Lemma respects_emit (e : E) : (forall w, I w w [e]) -> respects I (emit e).
Proof. intros H w. apply H. Qed.

End Respects.

#[export] Hint Resolve respects_lift respects_ret respects_throw respects_exit respects_bind respects_try respects_perform
  respects_query respects_emit : bridge.
#[export] Hint Extern 0 (TraceRel _) => exact _ : bridge.
