(* ===== verification/Interfaces.v ===== *)
(** * Interfaces to the packages the bridge programs call

    The repository calls bn.js, web3.utils, bs58 and the [BinaryWriter] of
    near-api-js; their code is not part of it.  Each enters as a class of
    operations, and a second class states the documented behaviour the
    programs rely on.  [Module Reference] gives one concrete instance of
    every class, so that the hypotheses are seen to be satisfiable and the
    models can be run. *)

From S2P Require Import Prelude.

(** ** bn.js and web3.utils.toBN

    Big numbers are integers; the operations below are the conversions.
    [newBN v] is [new BN(v)], which refuses numbers of 2^53 and above;
    [bn_toBuffer_le n len] is [n.toBuffer('le', len)], [bn_from_le bs] is
    [new BN(bs, 'le')]. *)

Class BnLib := {
  toBN : val -> outcome Z;
  newBN : val -> outcome Z;
  bn_toBuffer_le : Z -> nat -> outcome (list Z);
  bn_from_le : list Z -> Z
}.

Class BnLibOk `{BnLib} := {
  toBN_num : forall n, 0 <= n -> toBN (VNum n) = Ret n;
  newBN_num : forall n, 0 <= n < 2 ^ 53 -> newBN (VNum n) = Ret n;
  bn_toBuffer_fits : forall n len,
    0 <= n < 256 ^ Z.of_nat len -> bn_toBuffer_le n len = Ret (le_bytes len n);
  bn_toBuffer_overflow : forall n len,
    256 ^ Z.of_nat len <= n -> exists e, bn_toBuffer_le n len = Throw e;
  bn_from_le_value : forall bs, bytes_ok bs -> bn_from_le bs = le_value bs
}.

(** ** bs58 *)

Class Base58Lib := {
  bs58_decode : string -> outcome (list Z);
  bs58_encode : list Z -> string
}.

Class Base58Ok `{Base58Lib} := {
  bs58_decode_bytes : forall s bs, bs58_decode s = Ret bs -> bytes_ok bs
}.

(** ** web3.utils.hexToBytes, bytesToHex and padLeft *)

Class HexLib := {
  hexToBytes : val -> outcome (list Z);
  bytesToHex : list Z -> string;
  padLeft : val -> nat -> outcome string
}.

Class HexLibOk `{HexLib} := {
  hexToBytes_bytes : forall v bs, hexToBytes v = Ret bs -> bytes_ok bs;
  hexToBytes_bytesToHex : forall bs, bytes_ok bs -> hexToBytes (VStr (bytesToHex bs)) = Ret bs;
  bytesToHex_app : forall bs1 bs2,
    bytesToHex (bs1 ++ bs2) = bytesToHex bs1 +:+ str_drop 2 (bytesToHex bs2)
}.

(** ** near-api-js BinaryWriter *)

Class BinaryWriter := {
  writer : Type;
  new_writer : writer;
  write_u8 : val -> writer -> outcome writer;
  write_u64 : val -> writer -> outcome writer;
  write_u128 : val -> writer -> outcome writer;
  write_string : val -> writer -> outcome writer;
  write_buffer : list Z -> writer -> outcome writer;
  write_fixed_array : val -> writer -> outcome writer;
  write_array : val -> (val -> writer -> outcome writer) -> writer -> outcome writer;
  toArray : writer -> list Z
}.

(** [writes f bs]: the write [f] succeeds and appends [bs]. *)
Definition writes `{BinaryWriter} (f : writer -> outcome writer) (bs : list Z) : Prop :=
  forall w, exists w', f w = Ret w' /\ toArray w' = toArray w ++ bs.

(** The Borsh format of each write. *)
Class BinaryWriterOk `{BinaryWriter} := {
  toArray_new : toArray new_writer = [];
  write_u8_ok : forall n, 0 <= n < 256 -> writes (write_u8 (VNum n)) [n];
  write_u64_ok : forall n, 0 <= n < 2 ^ 64 -> writes (write_u64 (VNum n)) (le_bytes 8 n);
  write_u128_ok : forall n, 0 <= n < 2 ^ 128 -> writes (write_u128 (VNum n)) (le_bytes 16 n);
  write_string_ok : forall s, Z.of_nat (length (utf8_bytes s)) < 2 ^ 32 ->
    writes (write_string (VStr s))
      (le_bytes 4 (Z.of_nat (length (utf8_bytes s))) ++ utf8_bytes s);
  write_buffer_ok : forall bs, bytes_ok bs -> writes (write_buffer bs) bs;
  write_fixed_array_ok : forall bs, bytes_ok bs -> writes (write_fixed_array (VBytes bs)) bs;
  write_array_ok : forall v items fn bss,
    items_of v = Some items ->
    Z.of_nat (length items) < 2 ^ 32 ->
    Forall2 (fun item bs => writes (fn item) bs) items bss ->
    writes (write_array v fn) (le_bytes 4 (Z.of_nat (length items)) ++ concat bss)
}.

Lemma writes_seq `{BinaryWriter} f g bs1 bs2 :
  writes f bs1 -> writes g bs2 -> writes (fun w => f w ≫= g) (bs1 ++ bs2).
Proof.
  intros Hf Hg w. destruct (Hf w) as (w1 & Hw1 & E1). destruct (Hg w1) as (w2 & Hw2 & E2).
  exists w2. rewrite Hw1. simpl. split; [done|]. by rewrite E2, E1, app_assoc.
Qed.

(** ** One concrete instance of each interface *)

Module Reference.

Definition ref_toBN (v : val) : outcome Z :=
  match v with
  | VNum n => Ret n
  | _ => Throw (Error "Given input is not a number")
  end.

Definition ref_newBN (v : val) : outcome Z :=
  match v with
  | VNum n => if n <? 2 ^ 53 then Ret n else Throw (Error "Assertion failed")
  | _ => Throw (Error "Invalid character")
  end.

Definition ref_toBuffer (n : Z) (len : nat) : outcome (list Z) :=
  if (0 <=? n) && (n <? 256 ^ Z.of_nat len) then Ret (le_bytes len n)
  else Throw (Error "byte array longer than desired length").

#[global] Instance ref_bn : BnLib :=
  {| toBN := ref_toBN; newBN := ref_newBN; bn_toBuffer_le := ref_toBuffer; bn_from_le := le_value |}.

#[global] Instance ref_bn_ok : BnLibOk.
Proof.
  split; cbn; try done.
  - intros n [_ Hn]. apply Z.ltb_lt in Hn. by rewrite Hn.
  - intros n len [H1 H2]. unfold ref_toBuffer.
    apply Z.leb_le in H1. apply Z.ltb_lt in H2. by rewrite H1, H2.
  - intros n len H. unfold ref_toBuffer. apply Z.ltb_ge in H. rewrite H.
    destruct (0 <=? n); simpl; eauto.
Qed.

Definition hex_digit (n : Z) : Ascii.ascii :=
  Ascii.ascii_of_N (Z.to_N (if n <? 10 then 48 + n else 87 + n)).

Definition hex_value (c : Ascii.ascii) : option Z :=
  let n := Z.of_N (Ascii.N_of_ascii c) in
  if (48 <=? n) && (n <=? 57) then Some (n - 48)
  else if (97 <=? n) && (n <=? 102) then Some (n - 87)
  else if (65 <=? n) && (n <=? 70) then Some (n - 55)
  else None.

Fixpoint hex_chars (bs : list Z) : string :=
  match bs with
  | [] => ""
  | b :: bs' => String (hex_digit (b / 16)) (String (hex_digit (b mod 16)) (hex_chars bs'))
  end.

Fixpoint hex_parse (s : string) : option (list Z) :=
  match s with
  | EmptyString => Some []
  | String a (String b s') =>
      x ← hex_value a; y ← hex_value b; bs ← hex_parse s'; Some (16 * x + y :: bs)
  | _ => None
  end.

Definition ref_hexToBytes (v : val) : outcome (list Z) :=
  match v with
  | VStr (String "0"%char (String "x"%char s)) =>
      match hex_parse s with
      | Some bs => Ret bs
      | None => Throw (Error "Given value is not a valid hex string.")
      end
  | _ => Throw (Error "Given value is not a valid hex string.")
  end.

Fixpoint zeros (n : nat) (s : string) : string :=
  match n with O => s | S n' => String "0"%char (zeros n' s) end.

Definition ref_padLeft (v : val) (chars : nat) : outcome string :=
  match v with
  | VStr (String "0"%char (String "x"%char s)) =>
      Ret (String "0"%char (String "x"%char (zeros (chars - String.length s) s)))
  | VStr s => Ret (zeros (chars - String.length s) s)
  | _ => Throw (TypeError "Cannot read property 'toString' of undefined")
  end.

#[global] Instance ref_hex : HexLib :=
  {| hexToBytes := ref_hexToBytes; bytesToHex bs := String "0"%char (String "x"%char (hex_chars bs));
     padLeft := ref_padLeft |}.

Lemma hex_chars_app bs1 bs2 : hex_chars (bs1 ++ bs2) = hex_chars bs1 +:+ hex_chars bs2.
Proof. induction bs1 as [|b bs1 IH]; cbn; [done|]. by rewrite IH. Qed.

Lemma hex_value_range c x : hex_value c = Some x -> 0 <= x < 16.
Proof. unfold hex_value. repeat case_match; intros; simplify_eq; zbool; lia. Qed.

Lemma hex_parse_bytes n s bs : (String.length s < n)%nat -> hex_parse s = Some bs -> bytes_ok bs.
Proof.
  revert s bs. induction n as [|n IH]; intros s bs Hn H; [lia|].
  destruct s as [|a [|b s]]; simpl in *; simplify_eq; [constructor|].
  destruct (hex_value a) as [x|] eqn:Ha; simpl in H; [|done].
  destruct (hex_value b) as [y|] eqn:Hb; simpl in H; [|done].
  destruct (hex_parse s) as [bs'|] eqn:Hs; simpl in H; simplify_eq.
  apply hex_value_range in Ha, Hb. constructor; [unfold is_byte; lia|].
  apply (IH s); [lia|done].
Qed.

Lemma hex_value_digit x : 0 <= x < 16 -> hex_value (hex_digit x) = Some x.
Proof.
  intros H. assert (x = 0 \/ x = 1 \/ x = 2 \/ x = 3 \/ x = 4 \/ x = 5 \/ x = 6 \/ x = 7 \/
    x = 8 \/ x = 9 \/ x = 10 \/ x = 11 \/ x = 12 \/ x = 13 \/ x = 14 \/ x = 15) as Hc by lia.
  repeat (destruct Hc as [-> | Hc]; [reflexivity|]). by subst.
Qed.

Lemma hex_parse_chars bs : bytes_ok bs -> hex_parse (hex_chars bs) = Some bs.
Proof.
  induction 1 as [|b bs Hb _ IH]; simpl; [done|]. unfold is_byte in Hb.
  pose proof (Z.mod_pos_bound b 16). pose proof (Z.div_pos b 16).
  pose proof (Z.div_lt_upper_bound b 16 16).
  rewrite !hex_value_digit by lia. simpl. rewrite IH. simpl. do 2 f_equal.
  pose proof (Z.div_mod b 16). lia.
Qed.

#[global] Instance ref_hex_ok : HexLibOk.
Proof.
  split; cbn.
  - intros v bs. unfold ref_hexToBytes. repeat case_match; intros; simplify_eq.
    eapply hex_parse_bytes; [|done]. apply Nat.lt_succ_diag_r.
  - intros bs Hbs. by rewrite hex_parse_chars.
  - intros bs1 bs2. by rewrite hex_chars_app.
Qed.

(** Base 58: leading ['1']s are zero bytes, the rest is a big-endian number. *)
Definition b58_alphabet : string := "123456789ABCDEFGHJKLMNPQRSTUVWXYZabcdefghijkmnopqrstuvwxyz".

Fixpoint char_index (c : Ascii.ascii) (s : string) (i : Z) : option Z :=
  match s with
  | EmptyString => None
  | String c' s' => if Ascii.eqb c c' then Some i else char_index c s' (i + 1)
  end.

Fixpoint b58_number (s : string) (acc : Z) : option Z :=
  match s with
  | EmptyString => Some acc
  | String c s' => i ← char_index c b58_alphabet 0; b58_number s' (58 * acc + i)
  end.

Fixpoint b58_zeros (s : string) : nat :=
  match s with
  | String "1"%char s' => S (b58_zeros s')
  | _ => O
  end.

(** The number of bytes of a positive number. *)
Definition byte_len (n : Z) : nat := Z.to_nat ((Z.log2 n + 8) / 8).

Definition ref_b58_decode (s : string) : outcome (list Z) :=
  match b58_number s 0 with
  | Some n =>
      Ret (replicate (b58_zeros s) 0 ++
           (if n =? 0 then [] else reverse (le_bytes (byte_len n) n)))
  | None => Throw (Error "Non-base58 character")
  end.

Fixpoint b58_digits (fuel : nat) (n : Z) (acc : string) : string :=
  match fuel with
  | O => acc
  | S fuel' =>
      if n =? 0 then acc
      else
        let c := default "1"%char (String.get (Z.to_nat (n mod 58)) b58_alphabet) in
        b58_digits fuel' (n / 58) (String c acc)
  end.

Fixpoint b58_ones (bs : list Z) (s : string) : string :=
  match bs with
  | 0 :: bs' => String "1"%char (b58_ones bs' s)
  | _ => s
  end.

Definition ref_b58_encode (bs : list Z) : string :=
  b58_ones bs (b58_digits (2 * length bs) (le_value (reverse bs)) "").

#[global] Instance ref_b58 : Base58Lib :=
  {| bs58_decode := ref_b58_decode; bs58_encode := ref_b58_encode |}.

#[global] Instance ref_b58_ok : Base58Ok.
Proof.
  split. intros s bs. cbn. unfold ref_b58_decode. destruct (b58_number s 0); intros [= <-].
  apply bytes_ok_app; [apply Forall_replicate; unfold is_byte; lia|].
  case_match; [constructor|]. apply Forall_reverse, le_bytes_ok.
Qed.

Definition append (bs : list Z) (w : list Z) : outcome (list Z) := Ret (w ++ bs).

Definition ref_num (v : val) (len : nat) (w : list Z) : outcome (list Z) :=
  match v with
  | VNum n => bs ← ref_toBuffer n len; append bs w
  | _ => Throw (TypeError "The value argument must be of type number")
  end.

Fixpoint ref_each (items : list val) (fn : val -> list Z -> outcome (list Z)) (w : list Z)
    : outcome (list Z) :=
  match items with
  | [] => Ret w
  | item :: items' => w' ← fn item w; ref_each items' fn w'
  end.

#[global] Instance ref_writer : BinaryWriter := {|
  writer := list Z;
  new_writer := [];
  write_u8 v := ref_num v 1;
  write_u64 v := ref_num v 8;
  write_u128 v := ref_num v 16;
  write_string v := fun w =>
    match v with
    | VStr s => w' ← ref_num (VNum (Z.of_nat (length (utf8_bytes s)))) 4 w; append (utf8_bytes s) w'
    | _ => Throw (TypeError "The first argument must be of type string")
    end;
  write_buffer := append;
  write_fixed_array v := fun w =>
    match v with
    | VBytes bs => append bs w
    | _ => Throw (TypeError "The first argument must be an array")
    end;
  write_array v fn := fun w =>
    match items_of v with
    | Some items => w' ← ref_num (VNum (Z.of_nat (length items))) 4 w; ref_each items fn w'
    | None => Throw (TypeError "array is not iterable")
    end;
  toArray w := w
|}.

Lemma ref_num_writes n len :
  0 <= n < 256 ^ Z.of_nat len -> writes (ref_num (VNum n) len) (le_bytes len n).
Proof.
  intros H w. exists (w ++ le_bytes len n). split; [|done].
  cbn [ref_num]. unfold append. change (ref_toBuffer n len) with (bn_toBuffer_le n len).
  by rewrite bn_toBuffer_fits.
Qed.

Lemma ref_each_writes items fn bss :
  Forall2 (fun item bs => writes (fn item) bs) items bss -> writes (ref_each items fn) (concat bss).
Proof.
  induction 1 as [|item bs items bss Hw _ IH]; simpl.
  - intros w. exists w. simpl. by rewrite app_nil_r.
  - exact (writes_seq _ _ _ _ Hw IH).
Qed.

#[global] Instance ref_writer_ok : BinaryWriterOk.
Proof.
  split.
  - done.
  - intros n H. cbn [write_u8 ref_writer]. replace [n] with (le_bytes 1 n).
    + apply ref_num_writes. cbn. lia.
    + cbn. by rewrite Z.mod_small.
  - intros n H. apply ref_num_writes. change (256 ^ Z.of_nat 8) with (2 ^ 64). lia.
  - intros n H. apply ref_num_writes. change (256 ^ Z.of_nat 16) with (2 ^ 128). lia.
  - intros s H. cbn [write_string ref_writer].
    apply (writes_seq (H:=ref_writer) _ (append (utf8_bytes s))).
    + apply ref_num_writes. change (256 ^ Z.of_nat 4) with (2 ^ 32). lia.
    + intros w. by exists (w ++ utf8_bytes s).
  - intros bs _ w. by exists (w ++ bs).
  - intros bs _ w. by exists (w ++ bs).
  - intros v items fn bss Hi Hl Hf. cbn [write_array ref_writer]. rewrite Hi.
    apply (writes_seq (H:=ref_writer) _ (ref_each items fn)).
    + apply ref_num_writes. change (256 ^ Z.of_nat 4) with (2 ^ 32). lia.
    + by apply ref_each_writes.
Qed.

End Reference.
