(* ===== verification/Borsh.v ===== *)
(** * Schema-driven Borsh serialization (utils/borsh.js)

    [serializeField]/[serialize] and [BinaryReader]/[deserializeField]/
    [deserialize] over dynamic JavaScript values.  The schema may refer to
    itself, so both directions take fuel; [has_type sch d t v] bounds the
    nesting depth [d] of a value, and fuel above [d] is enough for the
    round trip. *)

From S2P Require Import Prelude Interfaces.

(** ** Data *)

(** A field type is a name, an array with a number first ([[n]], a byte
    array of fixed length), or an array with a type first ([[t]]). *)
Inductive fieldType : Type :=
| FName (name : string)
| FFixed (len : Z)
| FArray (t : fieldType).

(** [class BinaryReader]: a buffer and the offset of the next byte. *)
Record BinaryReader := mkReader { rbuf : list Z; roffset : nat }.

Inductive structSchema : Type :=
| SOption (type : fieldType)
| SStruct (fields : list (string * fieldType))
| SFunction (ser : val -> outcome (list Z)) (deser : BinaryReader -> outcome (val * BinaryReader))
| SOtherKind (kind : string).

Abbreviation schema := (gmap string structSchema).

Definition BorshError (msg : string) : js_error := JsError "BorshError" msg.

Definition missing_schema (name : string) : js_error :=
  Error ("Schema type " +:+ name +:+ " is missing in schema").

Definition bad_kind (kind name : string) : js_error :=
  Error ("Unexpected schema kind: " +:+ kind +:+ " for " +:+ name).

(** ** Writing *)

Section Serialize.
Context {BW : BinaryWriter}.

(** [structSchema.fields.map(([fieldName, fieldType]) => ...)] *)
Fixpoint serializeFields (rec : val -> fieldType -> writer -> outcome writer)
    (value : val) (fields : list (string * fieldType)) (w : writer) : outcome writer :=
  match fields with
  | [] => Ret w
  | (fieldName, ft) :: fields' =>
      v ← get_prop value fieldName;
      w' ← rec v ft w;
      serializeFields rec value fields' w'
  end.

Fixpoint serializeField (fuel : nat) (sch : schema) (value : val) (ft : fieldType) (w : writer)
    : outcome writer :=
  match fuel with
  | O => OutOfFuel
  | S fuel' =>
      match ft with
      | FName name =>
          if String.eqb name "u8" then write_u8 value w
          else if String.eqb name "u64" then write_u64 value w
          else if String.eqb name "u128" then write_u128 value w
          else if String.eqb name "bool" then write_u8 (VNum (if truthy value then 1 else 0)) w
          else if String.eqb name "string" then write_string value w
          else
            match sch !! name with
            | None => Throw (missing_schema name)
            | Some (SOption t) =>
                match value with
                | VNull => write_u8 (VNum 0) w
                | _ => w' ← write_u8 (VNum 1) w; serializeField fuel' sch value t w'
                end
            | Some (SStruct fields) =>
                serializeFields (fun v t => serializeField fuel' sch v t) value fields w
            | Some (SFunction ser _) => bs ← ser value; write_buffer bs w
            | Some (SOtherKind kind) => Throw (bad_kind kind name)
            end
      | FFixed len =>
          l ← get_prop value "length";
          match l with
          | VNum n =>
              if n =? len then write_fixed_array value w
              else Throw (Error "Expecting byte array of another length")
          | _ => Throw (Error "Expecting byte array of another length")
          end
      | FArray t => write_array value (fun item => serializeField fuel' sch item t) w
      end
  end.

(** [serialize(schema, fieldType, obj)]; a [null] field type is [None]. *)
Definition serialize (fuel : nat) (sch : schema) (ft : option fieldType) (obj : val)
    : outcome (list Z) :=
  match ft with
  | None => Ret []
  | Some t => w ← serializeField fuel sch obj t new_writer; Ret (toArray w)
  end.

End Serialize.

(** ** Reading *)

Section Deserialize.
Context {BN : BnLib}.

Definition readU8 (r : BinaryReader) : outcome (Z * BinaryReader) :=
  match rbuf r !! roffset r with
  | Some value => Ret (value, mkReader (rbuf r) (roffset r + 1))
  | None => Throw (RangeError "The value of offset is out of range")
  end.

Definition readU32 (r : BinaryReader) : outcome (Z * BinaryReader) :=
  if decide (roffset r + 4 <= length (rbuf r))%nat then
    Ret (le_value (take 4 (drop (roffset r) (rbuf r))), mkReader (rbuf r) (roffset r + 4))
  else Throw (RangeError "The value of offset is out of range").

Definition readBuffer (len : nat) (r : BinaryReader) : outcome (list Z * BinaryReader) :=
  if decide (length (rbuf r) < roffset r + len)%nat then
    Throw (BorshError "Expected buffer length isn't within bounds")
  else
    Ret (take len (drop (roffset r) (rbuf r)), mkReader (rbuf r) (roffset r + len)).

Definition readU64 (r : BinaryReader) : outcome (Z * BinaryReader) :=
  '(buf, r') ← readBuffer 8 r; Ret (bn_from_le buf, r').

Definition readU128 (r : BinaryReader) : outcome (Z * BinaryReader) :=
  '(buf, r') ← readBuffer 16 r; Ret (bn_from_le buf, r').

(** [TextDecoder()] is called without [new], and [TextDecoder] is a class:
    the call throws before the [try] that decodes the text. *)
Definition readString (r : BinaryReader) : outcome (string * BinaryReader) :=
  '(len, r1) ← readU32 r;
  '(buf, r2) ← readBuffer (Z.to_nat len) r1;
  Throw (TypeError "Class constructor TextDecoder cannot be invoked without 'new'").

Definition readFixedArray (len : nat) (r : BinaryReader) : outcome (list Z * BinaryReader) :=
  readBuffer len r.

(** The [for] loop of [readArray]: [n] calls of [fn]. *)
Fixpoint readMany (n : nat) (fn : BinaryReader -> outcome (val * BinaryReader)) (r : BinaryReader)
    : outcome (list val * BinaryReader) :=
  match n with
  | O => Ret ([], r)
  | S n' =>
      '(v, r1) ← fn r;
      '(vs, r2) ← readMany n' fn r1;
      Ret (v :: vs, r2)
  end.

Definition readArray (fn : BinaryReader -> outcome (val * BinaryReader)) (r : BinaryReader)
    : outcome (list val * BinaryReader) :=
  '(len, r1) ← readU32 r; readMany (Z.to_nat len) fn r1.

(** [for (const [fieldName, fieldType] of structSchema.fields)]: [acc] is
    the object built so far. *)
Fixpoint deserializeFields (rec : fieldType -> BinaryReader -> outcome (val * BinaryReader))
    (fields : list (string * fieldType)) (acc : list (string * val)) (r : BinaryReader)
    : outcome (val * BinaryReader) :=
  match fields with
  | [] => Ret (VObj acc, r)
  | (fieldName, ft) :: fields' =>
      '(v, r1) ← rec ft r;
      deserializeFields rec fields' (assoc_set fieldName v acc) r1
  end.

Fixpoint deserializeField (fuel : nat) (sch : schema) (ft : fieldType) (r : BinaryReader)
    : outcome (val * BinaryReader) :=
  match fuel with
  | O => OutOfFuel
  | S fuel' =>
      match ft with
      | FName name =>
          if String.eqb name "u8" then '(n, r') ← readU8 r; Ret (VNum n, r')
          else if String.eqb name "u64" then '(n, r') ← readU64 r; Ret (VNum n, r')
          else if String.eqb name "u128" then '(n, r') ← readU128 r; Ret (VNum n, r')
          else if String.eqb name "bool" then
            '(n, r') ← readU8 r; Ret (VBool (truthy (VNum n)), r')
          else if String.eqb name "string" then '(s, r') ← readString r; Ret (VStr s, r')
          else
            match sch !! name with
            | None => Throw (missing_schema name)
            | Some (SOption t) =>
                '(optionRes, r') ← readU8 r;
                if optionRes =? 0 then Ret (VNull, r')
                else if optionRes =? 1 then deserializeField fuel' sch t r'
                else Throw (Error "Unexpected option flag")
            | Some (SStruct fields) =>
                deserializeFields (fun t => deserializeField fuel' sch t) fields [] r
            | Some (SFunction _ deser) => deser r
            | Some (SOtherKind kind) => Throw (bad_kind kind name)
            end
      | FFixed len =>
          '(bs, r') ← readFixedArray (Z.to_nat len) r; Ret (VBytes bs, r')
      | FArray t =>
          '(vs, r') ← readArray (fun r1 => deserializeField fuel' sch t r1) r; Ret (VArr vs, r')
      end
  end.

Definition deserialize (fuel : nat) (sch : schema) (ft : option fieldType) (buffer : list Z)
    : outcome val :=
  match ft with
  | None => Ret VNull
  | Some t =>
      '(result, r) ← deserializeField fuel sch t (mkReader buffer 0);
      if decide (roffset r < length buffer)%nat then
        Throw (Error "Unexpected bytes after deserialized data")
      else Ret result
  end.

End Deserialize.

(** ** Values of a field type

    [has_type sch d t v]: [v] is a value that a field of type [t] carries,
    with at most [d] nested schema steps.  There is no rule for ['string']:
    [readString] never returns. *)

(** [decodes deser bs v]: reading [bs] anywhere in a buffer gives [v] and
    moves the offset past it. *)
Definition decodes {A} (deser : BinaryReader -> outcome (A * BinaryReader)) (bs : list Z) (v : A)
    : Prop :=
  forall pre post,
    deser (mkReader (pre ++ bs ++ post) (length pre)) =
    Ret (v, mkReader (pre ++ bs ++ post) (length pre + length bs)).

Definition is_builtin (name : string) : bool :=
  String.eqb name "u8" || String.eqb name "u64" || String.eqb name "u128" ||
  String.eqb name "bool" || String.eqb name "string".

Inductive has_type (sch : schema) : nat -> fieldType -> val -> Prop :=
| ht_u8 d n : 0 <= n < 256 -> has_type sch d (FName "u8") (VNum n)
| ht_u64 d n : 0 <= n < 2 ^ 64 -> has_type sch d (FName "u64") (VNum n)
| ht_u128 d n : 0 <= n < 2 ^ 128 -> has_type sch d (FName "u128") (VNum n)
| ht_bool d b : has_type sch d (FName "bool") (VBool b)
| ht_fixed d len bs :
    bytes_ok bs -> len = Z.of_nat (length bs) -> has_type sch d (FFixed len) (VBytes bs)
| ht_array d t vs :
    Z.of_nat (length vs) < 2 ^ 32 ->
    Forall (has_type sch d t) vs ->
    has_type sch (S d) (FArray t) (VArr vs)
| ht_none d name t :
    is_builtin name = false -> sch !! name = Some (SOption t) ->
    has_type sch d (FName name) VNull
| ht_some d name t v :
    is_builtin name = false -> sch !! name = Some (SOption t) ->
    v <> VNull -> has_type sch d t v ->
    has_type sch (S d) (FName name) v
| ht_struct d name fields vs :
    is_builtin name = false -> sch !! name = Some (SStruct fields) ->
    NoDup fields.*1 ->
    Forall2 (fun ft v => has_type sch d ft.2 v) fields vs ->
    has_type sch (S d) (FName name) (VObj (zip fields.*1 vs))
| ht_function d name ser deser v bs :
    is_builtin name = false -> sch !! name = Some (SFunction ser deser) ->
    ser v = Ret bs -> bytes_ok bs -> decodes deser bs v ->
    has_type sch d (FName name) v.

(** The induction principle with the nested [Forall]s unfolded. *)
Section HasTypeInd.
Context (sch : schema) (P : nat -> fieldType -> val -> Prop).
Context (Hu8 : forall d n, 0 <= n < 256 -> P d (FName "u8") (VNum n)).
Context (Hu64 : forall d n, 0 <= n < 2 ^ 64 -> P d (FName "u64") (VNum n)).
Context (Hu128 : forall d n, 0 <= n < 2 ^ 128 -> P d (FName "u128") (VNum n)).
Context (Hbool : forall d b, P d (FName "bool") (VBool b)).
Context (Hfixed : forall d len bs,
  bytes_ok bs -> len = Z.of_nat (length bs) -> P d (FFixed len) (VBytes bs)).
Context (Harray : forall d t vs,
  Z.of_nat (length vs) < 2 ^ 32 -> Forall (P d t) vs -> P (S d) (FArray t) (VArr vs)).
Context (Hnone : forall d name t,
  is_builtin name = false -> sch !! name = Some (SOption t) -> P d (FName name) VNull).
Context (Hsome : forall d name t v,
  is_builtin name = false -> sch !! name = Some (SOption t) -> v <> VNull ->
  P d t v -> P (S d) (FName name) v).
Context (Hstruct : forall d name fields vs,
  is_builtin name = false -> sch !! name = Some (SStruct fields) -> NoDup fields.*1 ->
  Forall2 (fun ft v => P d ft.2 v) fields vs ->
  P (S d) (FName name) (VObj (zip fields.*1 vs))).
Context (Hfun : forall d name ser deser v bs,
  is_builtin name = false -> sch !! name = Some (SFunction ser deser) ->
  ser v = Ret bs -> bytes_ok bs -> decodes deser bs v -> P d (FName name) v).

Fixpoint has_type_ind' d t v (H : has_type sch d t v) {struct H} : P d t v :=
  match H in has_type _ d' t' v' return P d' t' v' with
  | ht_u8 _ d n Hn => Hu8 d n Hn
  | ht_u64 _ d n Hn => Hu64 d n Hn
  | ht_u128 _ d n Hn => Hu128 d n Hn
  | ht_bool _ d b => Hbool d b
  | ht_fixed _ d len bs Hb Hl => Hfixed d len bs Hb Hl
  | ht_array _ d t vs Hl Hf =>
      Harray d t vs Hl
        ((fix go vs (Hf : Forall (has_type sch d t) vs) : Forall (P d t) vs :=
            match Hf with
            | List.Forall_nil _ => List.Forall_nil _
            | List.Forall_cons _ x l Hx Hl => List.Forall_cons _ x l (has_type_ind' _ _ _ Hx) (go l Hl)
            end) vs Hf)
  | ht_none _ d name t Hb Hs => Hnone d name t Hb Hs
  | ht_some _ d name t v Hb Hs Hv Ht => Hsome d name t v Hb Hs Hv (has_type_ind' _ _ _ Ht)
  | ht_struct _ d name fields vs Hb Hs Hn Hf =>
      Hstruct d name fields vs Hb Hs Hn
        ((fix go fields vs (Hf : Forall2 (fun ft v => has_type sch d ft.2 v) fields vs)
            : Forall2 (fun ft v => P d ft.2 v) fields vs :=
            match Hf with
            | List.Forall2_nil _ => List.Forall2_nil _
            | List.Forall2_cons x y Hx Hl =>
                List.Forall2_cons x y (has_type_ind' _ _ _ Hx) (go _ _ Hl)
            end) fields vs Hf)
  | ht_function _ d name ser deser v bs Hb Hs Hser Hbs Hd =>
      Hfun d name ser deser v bs Hb Hs Hser Hbs Hd
  end.

End HasTypeInd.

(** ** Reading lemmas *)

Lemma decodes_ret {A} (a : A) : decodes (fun r => Ret (a, r)) [] a.
Proof. intros pre post. simpl. by rewrite Nat.add_0_r. Qed.

Lemma decodes_bind {A B} (p : BinaryReader -> outcome (A * BinaryReader))
    (q : A -> BinaryReader -> outcome (B * BinaryReader)) bs1 bs2 a b :
  decodes p bs1 a -> decodes (q a) bs2 b ->
  decodes (fun r => '(x, r') ← p r; q x r') (bs1 ++ bs2) b.
Proof.
  intros Hp Hq pre post. rewrite <- app_assoc, Hp. simpl.
  specialize (Hq (pre ++ bs1) post). rewrite length_app, <- app_assoc in Hq. rewrite Hq.
  by rewrite length_app, Nat.add_assoc.
Qed.

Lemma decodes_map {A B} (p : BinaryReader -> outcome (A * BinaryReader)) (f : A -> B) bs a :
  decodes p bs a -> decodes (fun r => '(x, r') ← p r; Ret (f x, r')) bs (f a).
Proof.
  intros Hp. rewrite <- (app_nil_r bs).
  apply (decodes_bind p (fun x r => Ret (f x, r)) bs [] a); [done | apply decodes_ret].
Qed.

Lemma decodes_readU8 b : decodes readU8 [b] b.
Proof.
  intros pre post. unfold readU8. cbn [rbuf roffset].
  rewrite lookup_app_r by lia. by rewrite Nat.sub_diag.
Qed.

Lemma decodes_readBuffer bs : decodes (readBuffer (length bs)) bs bs.
Proof.
  intros pre post. unfold readBuffer. cbn [rbuf roffset].
  rewrite !length_app. rewrite decide_False by lia.
  by rewrite drop_app_length, take_app_length.
Qed.

Lemma decodes_readU32 n : 0 <= n < 2 ^ 32 -> decodes readU32 (le_bytes 4 n) n.
Proof.
  intros Hn pre post. unfold readU32. cbn [rbuf roffset].
  rewrite !length_app, length_le_bytes, decide_True by lia.
  rewrite drop_app_length, take_app_length' by (by rewrite length_le_bytes).
  rewrite le_value_small; [done|]. change (256 ^ Z.of_nat 4) with (2 ^ 32). lia.
Qed.

Lemma decodes_readMany fn bss vs :
  Forall2 (decodes fn) bss vs -> decodes (readMany (length vs) fn) (concat bss) vs.
Proof.
  induction 1 as [|bs v bss vs Hd _ IH]; cbn [readMany length concat]; [apply decodes_ret|].
  eapply decodes_bind; [exact Hd|]. by apply (decodes_map _ (cons v)).
Qed.

Lemma decodes_readArray fn bss vs :
  Z.of_nat (length vs) < 2 ^ 32 -> Forall2 (decodes fn) bss vs ->
  decodes (readArray fn) (le_bytes 4 (Z.of_nat (length vs)) ++ concat bss) vs.
Proof.
  intros Hl Hd. unfold readArray. eapply decodes_bind; [apply decodes_readU32; lia|].
  rewrite Nat2Z.id. by apply decodes_readMany.
Qed.

Section BnReads.
Context {BN : BnLib} {BNok : BnLibOk}.

Lemma decodes_readU64 n : 0 <= n < 2 ^ 64 -> decodes readU64 (le_bytes 8 n) n.
Proof.
  intros Hn. unfold readU64. rewrite <- (le_value_small 8 n) at 2
    by (change (256 ^ Z.of_nat 8) with (2 ^ 64); lia).
  rewrite <- bn_from_le_value by auto with bridge.
  rewrite <- (length_le_bytes 8 n) at 1. apply decodes_map, decodes_readBuffer.
Qed.

Lemma decodes_readU128 n : 0 <= n < 2 ^ 128 -> decodes readU128 (le_bytes 16 n) n.
Proof.
  intros Hn. unfold readU128. rewrite <- (le_value_small 16 n) at 2
    by (change (256 ^ Z.of_nat 16) with (2 ^ 128); lia).
  rewrite <- bn_from_le_value by auto with bridge.
  rewrite <- (length_le_bytes 16 n) at 1. apply decodes_map, decodes_readBuffer.
Qed.

End BnReads.

(** ** Dispatch on a schema name *)

Lemma is_builtin_false name :
  is_builtin name = false ->
  String.eqb name "u8" = false /\ String.eqb name "u64" = false /\
  String.eqb name "u128" = false /\ String.eqb name "bool" = false /\
  String.eqb name "string" = false.
Proof. unfold is_builtin. rewrite !orb_false_iff. tauto. Qed.

Ltac schema_name H :=
  apply is_builtin_false in H;
  let H1 := fresh in let H2 := fresh in let H3 := fresh in let H4 := fresh in let H5 := fresh in
  destruct H as (H1 & H2 & H3 & H4 & H5);
  cbn [serializeField deserializeField]; rewrite H1, H2, H3, H4, H5.

(** ** Round trip *)

(** [codes sch d t v bs]: with fuel above [d], [v] is written as [bs] and
    [bs] is read back as [v]. *)
Definition codes `{BinaryWriter, BnLib} (sch : schema) (d : nat) (t : fieldType) (v : val)
    (bs : list Z) : Prop :=
  bytes_ok bs /\
  forall fuel, (d < fuel)%nat ->
    writes (serializeField fuel sch v t) bs /\ decodes (deserializeField fuel sch t) bs v.

Section RoundTrip.
Context {BW : BinaryWriter} {BWok : BinaryWriterOk} {BN : BnLib} {BNok : BnLibOk}.

Lemma codes_list (sch : schema) d (ft : val -> fieldType) vs :
  Forall (fun v => exists bs, codes sch d (ft v) v bs) vs ->
  exists bss, Forall2 (fun v bs => codes sch d (ft v) v bs) vs bss.
Proof.
  induction 1 as [|v vs [bs Hbs] _ [bss IH]]; [by exists []|]. exists (bs :: bss). by constructor.
Qed.

Lemma bytes_ok_concat bss : Forall bytes_ok bss -> bytes_ok (concat bss).
Proof. induction 1; simpl; [constructor | by apply bytes_ok_app]. Qed.

Lemma codes_u8 sch d n : 0 <= n < 256 -> codes sch d (FName "u8") (VNum n) [n].
Proof.
  intros Hn. split; [by apply bytes_ok_one|]. intros [|fuel] Hf; [lia|].
  split; [by apply write_u8_ok | apply decodes_map, decodes_readU8].
Qed.

Lemma codes_u64 sch d n : 0 <= n < 2 ^ 64 -> codes sch d (FName "u64") (VNum n) (le_bytes 8 n).
Proof.
  intros Hn. split; [apply le_bytes_ok|]. intros [|fuel] Hf; [lia|].
  split; [by apply write_u64_ok | by apply decodes_map, decodes_readU64].
Qed.

Lemma codes_array_of sch d t vs bss :
  Z.of_nat (length vs) < 2 ^ 32 -> Forall2 (codes sch d t) vs bss ->
  codes sch (S d) (FArray t) (VArr vs) (le_bytes 4 (Z.of_nat (length vs)) ++ concat bss).
Proof.
  intros Hl Hbss. split.
  - apply bytes_ok_app; [apply le_bytes_ok|]. apply bytes_ok_concat.
    clear Hl. induction Hbss as [|v bs vs' bss' [Hb _] _ IH]; constructor; auto.
  - intros [|fuel] Hf; [lia|]. cbn [serializeField deserializeField]. split.
    + eapply write_array_ok; [done|done|]. eapply Forall2_impl; [|exact Hbss].
      intros v bs [_ Hc]. apply Hc. lia.
    + apply decodes_map, decodes_readArray; [done|]. apply Forall2_flip.
      eapply Forall2_impl; [|exact Hbss]. intros v bs [_ Hc]. apply Hc. lia.
Qed.

Lemma codes_array sch d t vs :
  Z.of_nat (length vs) < 2 ^ 32 ->
  Forall (fun v => exists bs, codes sch d t v bs) vs ->
  exists bs, codes sch (S d) (FArray t) (VArr vs) bs.
Proof.
  intros Hl Hvs. destruct (codes_list sch d (fun _ => t) vs Hvs) as [bss Hbss].
  eexists. by apply codes_array_of.
Qed.

(** Bytes as an array, and as a Buffer, are written in the same way. *)
Definition bytes_code (bs : list Z) : list Z := le_bytes 4 (Z.of_nat (length bs)) ++ bs.

Lemma concat_singletons (bs : list Z) : concat (map (fun b => [b]) bs) = bs.
Proof. induction bs as [|b bs IH]; cbn; by rewrite ?IH. Qed.

Lemma codes_bytes sch d bs : bytes_ok bs -> Z.of_nat (length bs) < 2 ^ 32 ->
  codes sch (S d) (FArray (FName "u8")) (VArr (map VNum bs)) (bytes_code bs).
Proof.
  intros Hb Hl. replace (bytes_code bs) with (le_bytes 4 (Z.of_nat (length (map VNum bs))) ++ concat (map (fun b => [b]) bs))
    by (by rewrite concat_singletons, length_map).
  apply codes_array_of; [by rewrite length_map|]. apply Forall2_fmap. apply Forall_Forall2_diag.
  eapply Forall_impl; [|exact Hb]. intros b Hx. by apply codes_u8.
Qed.

Lemma buffer_writes sch fuel bs : (1 < fuel)%nat -> bytes_ok bs -> Z.of_nat (length bs) < 2 ^ 32 ->
  writes (serializeField fuel sch (VBytes bs) (FArray (FName "u8"))) (bytes_code bs).
Proof.
  intros Hf Hb Hl. destruct fuel as [|fuel]; [lia|]. cbn [serializeField].
  replace (bytes_code bs) with (le_bytes 4 (Z.of_nat (length (map VNum bs))) ++ concat (map (fun b => [b]) bs))
    by (by rewrite concat_singletons, length_map).
  eapply write_array_ok; [done | by rewrite length_map|].
  apply Forall2_fmap. apply Forall_Forall2_diag. eapply Forall_impl; [|exact Hb]. intros b Hx.
  destruct (codes_u8 sch 0 b Hx) as [_ Hc]. apply Hc. lia.
Qed.

(** Writing the fields of an object whose other properties do not matter. *)
Lemma writes_fields (sch : schema) fuel (fields : list (string * fieldType)) vs bss obj :
  Forall3 (fun ft v bs => writes (serializeField fuel sch v ft.2) bs) fields vs bss ->
  Forall2 (fun ft v => get_prop obj ft.1 = Ret v) fields vs ->
  writes (serializeFields (fun v t => serializeField fuel sch v t) obj fields) (concat bss).
Proof.
  intros H3. induction H3 as [|[name t] v bs fields vs bss Hw _ IH];
    cbn [serializeFields concat]; intros Hp.
  - intros w. exists w. simpl. by rewrite app_nil_r.
  - apply Forall2_cons_1 in Hp as [Hv Hp]. cbn [fst snd] in *. rewrite Hv. cbn [mbind outcome_bind].
    apply writes_seq; [done | by apply IH].
Qed.

Lemma decodes_fields (sch : schema) d fuel (fields : list (string * fieldType)) vs bss acc :
  (d < fuel)%nat ->
  NoDup (acc.*1 ++ fields.*1) ->
  Forall3 (fun ft v bs => codes sch d ft.2 v bs) fields vs bss ->
  decodes (deserializeFields (fun t => deserializeField fuel sch t) fields acc)
    (concat bss) (VObj (acc ++ zip fields.*1 vs)).
Proof.
  intros Hf Hnd H3. revert acc Hnd.
  induction H3 as [|[name t] v bs fields vs bss [_ Hc] _ IH];
    intros acc Hnd; cbn [deserializeFields concat].
  - cbn [fmap list_fmap zip zip_with]. rewrite app_nil_r. apply decodes_ret.
  - cbn [fmap list_fmap fst snd] in Hnd |- *. eapply decodes_bind; [by apply Hc|].
    rewrite assoc_set_fresh.
    + cbn [zip zip_with].
      replace (acc ++ (name, v) :: zip fields.*1 vs) with ((acc ++ [(name, v)]) ++ zip fields.*1 vs)
        by by rewrite <- app_assoc.
      apply IH. rewrite fmap_app. cbn. by rewrite <- app_assoc.
    + intros Hin. apply list.NoDup_app in Hnd as (_ & Hdis & _). apply (Hdis _ Hin). by left.
Qed.

Lemma get_prop_zip (fields : list (string * fieldType)) (vs : list val) :
  NoDup fields.*1 -> length fields = length vs ->
  Forall2 (fun ft v => get_prop (VObj (zip fields.*1 vs)) ft.1 = Ret v) fields vs.
Proof.
  intros Hnd Hlen. assert (NoDup (zip fields.*1 vs).*1) as Hnd'.
  { by rewrite fst_zip by (rewrite length_fmap; lia). }
  apply Forall2_same_length_lookup. split; [done|]. intros i [name t] v Hft Hv. cbn [fst].
  cbn [get_prop]. erewrite assoc_fst_NoDup; [reflexivity | done |].
  apply list_elem_of_lookup. exists i. apply lookup_zip_Some.
  split; [|done]. by rewrite list_lookup_fmap, Hft.
Qed.

Lemma struct_writes (sch : schema) fuel name fields vs bss obj :
  is_builtin name = false -> sch !! name = Some (SStruct fields) ->
  Forall3 (fun ft v bs => writes (serializeField fuel sch v ft.2) bs) fields vs bss ->
  Forall2 (fun ft v => get_prop obj ft.1 = Ret v) fields vs ->
  writes (serializeField (S fuel) sch obj (FName name)) (concat bss).
Proof. intros Hb Hs H3 Hp. schema_name Hb. rewrite Hs. by eapply writes_fields. Qed.

Lemma codes_struct_of (sch : schema) d name fields vs bss :
  is_builtin name = false -> sch !! name = Some (SStruct fields) -> NoDup fields.*1 ->
  Forall3 (fun ft v bs => codes sch d ft.2 v bs) fields vs bss ->
  codes sch (S d) (FName name) (VObj (zip fields.*1 vs)) (concat bss).
Proof.
  intros Hb Hs Hnd H3. split.
  { apply bytes_ok_concat. clear Hs Hnd. induction H3 as [|ft v bs ? ? ? [Hok _] _ IH]; by constructor. }
  intros [|fuel] Hf; [lia|]. schema_name Hb. rewrite Hs. split.
  - eapply writes_fields.
    + eapply Forall3_impl; [exact H3|]. intros ft v bs [_ Hc]. apply Hc. lia.
    + apply get_prop_zip; [done|]. by eapply Forall3_length_lm.
  - apply (decodes_fields sch d fuel fields vs bss []); [lia | done | done].
Qed.

Lemma codes_struct (sch : schema) d name fields vs :
  is_builtin name = false -> sch !! name = Some (SStruct fields) -> NoDup fields.*1 ->
  Forall2 (fun ft v => exists bs, codes sch d ft.2 v bs) fields vs ->
  exists bs, codes sch (S d) (FName name) (VObj (zip fields.*1 vs)) bs.
Proof.
  intros Hb Hs Hnd H2.
  assert (exists bss, Forall3 (fun ft v bs => codes sch d ft.2 v bs) fields vs bss) as [bss H3].
  { clear Hs Hnd. induction H2 as [|ft v fields vs [bs Hbs] _ [bss IH]];
      [by exists []; constructor|]. exists (bs :: bss). by constructor. }
  eexists. by apply codes_struct_of.
Qed.

Lemma has_type_codes sch d t v : has_type sch d t v -> exists bs, codes sch d t v bs.
Proof.
  intros Ht. induction Ht using has_type_ind'.
  - eexists. by apply codes_u8.
  - eexists. by apply codes_u64.
  - exists (le_bytes 16 n). split; [apply le_bytes_ok|]. intros [|fuel] Hf; [lia|]. split.
    + by apply write_u128_ok.
    + by apply decodes_map, decodes_readU128.
  - exists [if b then 1 else 0]. split; [apply bytes_ok_one; destruct b; lia|].
    intros [|fuel] Hf; [lia|]. split.
    + destruct b; apply write_u8_ok; lia.
    + replace (VBool b) with (VBool (truthy (VNum (if b then 1 else 0)))) by by destruct b.
      apply (decodes_map _ (fun n => VBool (truthy (VNum n)))), decodes_readU8.
  - exists bs. split; [done|]. intros [|fuel] Hf; [lia|]. subst len.
    cbn [serializeField deserializeField get_prop String.eqb]. split.
    + cbn. rewrite Z.eqb_refl. by apply write_fixed_array_ok.
    + rewrite Nat2Z.id. apply decodes_map, decodes_readBuffer.
  - by apply codes_array.
  - exists [0]. split; [apply bytes_ok_one; lia|]. intros [|fuel] Hf; [lia|].
    schema_name H. rewrite H0. split; [apply write_u8_ok; lia|].
    change [0] with ([0] ++ []). eapply decodes_bind; [apply decodes_readU8 | apply decodes_ret].
  - destruct IHHt as (bs & Hok & Hc). exists (1 :: bs).
    split; [constructor; [unfold is_byte; lia | done]|]. intros [|fuel] Hf; [lia|].
    destruct (Hc fuel) as [Hw Hd]; [lia|]. schema_name H. rewrite H0. change (1 :: bs) with ([1] ++ bs).
    split.
    + destruct v; try done; apply writes_seq; (done || (apply write_u8_ok; lia)).
    + eapply decodes_bind; [apply decodes_readU8 | done].
  - by eapply codes_struct.
  - exists bs. split; [done|]. intros [|fuel] Hf; [lia|]. schema_name H. rewrite H0. split; [|done].
    rewrite H1. cbn. by apply write_buffer_ok.
Qed.

End RoundTrip.

(** ** Bounds of the reader

    A step of the reader keeps the buffer and moves the offset forward,
    never past the end of the buffer. *)

Definition reads_within {A} (p : BinaryReader -> outcome (A * BinaryReader)) : Prop :=
  forall r a r', (roffset r <= length (rbuf r))%nat -> p r = Ret (a, r') ->
    rbuf r' = rbuf r /\ (roffset r <= roffset r' <= length (rbuf r))%nat.

(** A schema whose custom decoders stay within the buffer. *)
Definition schema_within (sch : schema) : Prop :=
  forall name ser deser, sch !! name = Some (SFunction ser deser) -> reads_within deser.

Lemma reads_within_bind {A B} (p : BinaryReader -> outcome (A * BinaryReader))
    (q : A -> BinaryReader -> outcome (B * BinaryReader)) :
  reads_within p -> (forall a, reads_within (q a)) ->
  reads_within (fun r => '(x, r') ← p r; q x r').
Proof.
  intros Hp Hq r b r'' Hr H. apply outcome_bind_inv in H as ([a r1] & Ha & Hb).
  destruct (Hp _ _ _ Hr Ha) as [E1 B1]. rewrite <- E1 in B1 |- *.
  destruct (Hq a r1 b r'') as [E2 B2]; [lia | done |]. rewrite E2 in *. split; [done | lia].
Qed.

Lemma reads_within_ret {A} (a : A) : reads_within (fun r => Ret (a, r)).
Proof. intros r a' r' Hr [= <- <-]. split; [done | lia]. Qed.

Lemma reads_within_throw {A} e : reads_within (A := A) (fun _ => Throw e).
Proof. intros r a r' _ H. discriminate. Qed.

Lemma readU8_within : reads_within readU8.
Proof.
  intros r a r' Hr. unfold readU8. destruct (rbuf r !! roffset r) eqn:E; intros [= <- <-]. cbn.
  apply lookup_lt_Some in E. split; [done | lia].
Qed.

Lemma readU32_within : reads_within readU32.
Proof. intros r a r' Hr. unfold readU32. case_decide; intros [= <- <-]. cbn. split; [done | lia]. Qed.

Lemma readBuffer_within len : reads_within (readBuffer len).
Proof. intros r a r' Hr. unfold readBuffer. case_decide; intros [= <- <-]. cbn. split; [done | lia]. Qed.

#[export] Hint Resolve reads_within_ret reads_within_throw readU8_within readU32_within
  readBuffer_within : bridge.

Lemma readMany_within n fn : reads_within fn -> reads_within (readMany n fn).
Proof.
  intros Hfn. induction n as [|n IH]; cbn [readMany]; auto with bridge.
  apply reads_within_bind; [done|]. intros v. apply reads_within_bind; auto with bridge.
Qed.

Lemma deserializeFields_within rec fields acc :
  (forall t, reads_within (rec t)) -> reads_within (deserializeFields rec fields acc).
Proof.
  intros Hrec. revert acc.
  induction fields as [|[name t] fields IH]; intros acc; cbn [deserializeFields]; auto with bridge.
  apply reads_within_bind; auto.
Qed.

Section Bounds.
Context {BN : BnLib}.

Lemma deserializeField_within (sch : schema) fuel t :
  schema_within sch -> reads_within (deserializeField fuel sch t).
Proof.
  intros Hs. revert t. induction fuel as [|fuel IH]; intros t; [by intros r a r' _ H|].
  cbn [deserializeField]. destruct t as [name|len|t].
  - repeat (destruct (String.eqb name _);
      [repeat (apply reads_within_bind; [auto with bridge | intros ?]); auto with bridge|]).
    destruct (sch !! name) as [[t|fields|ser deser|kind]|] eqn:Hn; auto with bridge.
    + apply reads_within_bind; [auto with bridge|]. intros flag.
      repeat case_match; auto with bridge.
    + apply deserializeFields_within. auto.
    + by eapply Hs.
  - apply reads_within_bind; auto with bridge.
  - apply reads_within_bind; auto with bridge. unfold readArray.
    apply reads_within_bind; auto with bridge. intros n. by apply readMany_within.
Qed.

End Bounds.

(** ** Properties *)

Section Properties.
Context {BW : BinaryWriter} {BWok : BinaryWriterOk} {BN : BnLib} {BNok : BnLibOk}.

Lemma serialize_codes (sch : schema) d t v bs fuel :
  codes sch d t v bs -> (d < fuel)%nat -> serialize fuel sch (Some t) v = Ret bs.
Proof.
  intros [_ Hc] Hf. destruct (Hc fuel Hf) as [Hw _].
  destruct (Hw new_writer) as (w' & Hw' & E). unfold serialize. rewrite Hw'. cbn.
  by rewrite E, toArray_new.
Qed.

Lemma deserialize_codes (sch : schema) d t v bs extra fuel :
  codes sch d t v bs -> (d < fuel)%nat ->
  deserialize fuel sch (Some t) (bs ++ extra) =
    match extra with
    | [] => Ret v
    | _ => Throw (Error "Unexpected bytes after deserialized data")
    end.
Proof.
  intros [_ Hc] Hf. destruct (Hc fuel Hf) as [_ Hd]. specialize (Hd [] extra).
  unfold deserialize. cbn [app length] in Hd. rewrite Hd. cbn [mbind outcome_bind roffset].
  rewrite length_app. destruct extra; cbn [length].
  - by rewrite decide_False by lia.
  - by rewrite decide_True by lia.
Qed.

(** C1: every value of a field type (any schema made of numbers, booleans,
    byte arrays, arrays, options, structs and lawful custom codecs) that
    [serialize] writes is read back unchanged by [deserialize]; both
    return with any fuel above the value's nesting depth. *)
Theorem serialize_roundtrip (sch : schema) d t v fuel :
  has_type sch d t v -> (d < fuel)%nat ->
  exists bs, serialize fuel sch (Some t) v = Ret bs /\ deserialize fuel sch (Some t) bs = Ret v.
Proof.
  intros Ht Hf. destruct (has_type_codes _ _ _ _ Ht) as [bs Hbs]. exists bs. split.
  - by eapply serialize_codes.
  - rewrite <- (app_nil_r bs). by rewrite (deserialize_codes _ _ _ _ _ [] _ Hbs Hf).
Qed.

(** The encoding of a field type is prefix-free: when the bytes of one
    value start the bytes of another value of the same type, the two
    values are equal, so no encoding can be mistaken for a truncation or
    an extension of another. *)
Theorem serialize_prefix_free (sch : schema) d t v1 v2 fuel bs1 bs2 extra :
  has_type sch d t v1 -> has_type sch d t v2 -> (d < fuel)%nat ->
  serialize fuel sch (Some t) v1 = Ret bs1 -> serialize fuel sch (Some t) v2 = Ret bs2 ->
  bs2 = bs1 ++ extra -> v1 = v2.
Proof.
  intros Ht1 Ht2 Hf H1 H2 ->.
  destruct (has_type_codes _ _ _ _ Ht1) as [b1 C1], (has_type_codes _ _ _ _ Ht2) as [b2 C2].
  rewrite (serialize_codes _ _ _ _ _ _ C1 Hf) in H1. rewrite (serialize_codes _ _ _ _ _ _ C2 Hf) in H2.
  simplify_eq. destruct C1 as [_ D1], C2 as [_ D2].
  destruct (D1 fuel Hf) as [_ R1], (D2 fuel Hf) as [_ R2].
  specialize (R1 [] extra). specialize (R2 [] []). rewrite app_nil_r in R2. cbn in R1, R2. congruence.
Qed.

(** Bytes left over after a complete value are an error: [deserialize]
    throws "Unexpected bytes" on every proper extension of an encoding. *)
Theorem deserialize_rejects_extra (sch : schema) d t v fuel bs b extra :
  has_type sch d t v -> (d < fuel)%nat -> serialize fuel sch (Some t) v = Ret bs ->
  deserialize fuel sch (Some t) (bs ++ b :: extra) =
    Throw (Error "Unexpected bytes after deserialized data").
Proof.
  intros Ht Hf Hs. destruct (has_type_codes _ _ _ _ Ht) as [b1 C1].
  rewrite (serialize_codes _ _ _ _ _ _ C1 Hf) in Hs. injection Hs as <-.
  by rewrite (deserialize_codes _ _ _ _ _ (b :: extra) _ C1 Hf).
Qed.

End Properties.

Section ReaderProperties.
Context {BN : BnLib}.

(** C35: the reader never runs out of its buffer.  For a schema whose custom
    decoders stay within the buffer, and a reader whose offset is not past
    the end, whatever the type and the bytes, a [deserializeField] that
    returns leaves the buffer as it was and an offset between the old one
    and the buffer's length. *)
Theorem deserializeField_in_bounds (sch : schema) fuel t r v r' :
  schema_within sch -> (roffset r <= length (rbuf r))%nat ->
  deserializeField fuel sch t r = Ret (v, r') ->
  rbuf r' = rbuf r /\ (roffset r <= roffset r' <= length (rbuf r))%nat.
Proof. intros Hs Hr H. exact (deserializeField_within sch fuel t Hs r v r' Hr H). Qed.

(** A field of type ['string'] is never read back: on every buffer
    [deserializeField] ends in a throw, because [readString] calls the
    [TextDecoder] class without [new]. *)
Theorem string_field_unreadable (sch : schema) fuel r :
  exists e, deserializeField (S fuel) sch (FName "string") r = Throw e.
Proof.
  cbn. unfold readString, readU32, readBuffer. case_decide; cbn; [|eauto].
  case_decide; cbn; eauto.
Qed.

End ReaderProperties.

(** ** Witnesses *)

Module Witness.
Import Reference.

(** A struct with every kind of field the schemas of the repository use. *)
Definition entry_schema : schema :=
  {[ "Entry" := SStruct [("log_index", FName "u64"); ("data", FArray (FName "u8"));
                          ("safe", FName "bool"); ("parent", FName "?Entry")];
     "?Entry" := SOption (FName "Entry") ]}.

Definition entry : val :=
  VObj [("log_index", VNum 7); ("data", VArr [VNum 1; VNum 255]); ("safe", VBool true);
        ("parent", VNull)].

Lemma entry_typed : has_type entry_schema 2 (FName "Entry") entry.
Proof.
  apply (ht_struct entry_schema 1 "Entry" [("log_index", FName "u64"); ("data", FArray (FName "u8"));
    ("safe", FName "bool"); ("parent", FName "?Entry")]
    [VNum 7; VArr [VNum 1; VNum 255]; VBool true; VNull]); [done|done| |].
  - apply (bool_decide_unpack _). vm_compute. exact I.
  - repeat constructor; cbn; try lia. by eapply ht_none.
Qed.

Lemma serialize_roundtrip_witness :
  exists bs, serialize 3 entry_schema (Some (FName "Entry")) entry = Ret bs /\
    deserialize 3 entry_schema (Some (FName "Entry")) bs = Ret entry.
Proof. apply (serialize_roundtrip entry_schema 2); [apply entry_typed | lia]. Defined.

Lemma serialize_prefix_free_witness : entry = entry.
Proof.
  refine (serialize_prefix_free entry_schema 2 (FName "Entry") entry entry 3
    [7; 0; 0; 0; 0; 0; 0; 0; 2; 0; 0; 0; 1; 255; 1; 0]
    [7; 0; 0; 0; 0; 0; 0; 0; 2; 0; 0; 0; 1; 255; 1; 0] [] entry_typed entry_typed _ _ _ _).
  - lia.
  - vm_compute. reflexivity.
  - vm_compute. reflexivity.
  - reflexivity.
Defined.

Lemma deserialize_rejects_extra_witness :
  deserialize 3 entry_schema (Some (FName "Entry"))
    ([7; 0; 0; 0; 0; 0; 0; 0; 2; 0; 0; 0; 1; 255; 1; 0] ++ 9 :: []) =
  Throw (Error "Unexpected bytes after deserialized data").
Proof.
  apply (deserialize_rejects_extra entry_schema 2 (FName "Entry") entry 3);
    [apply entry_typed | lia | vm_compute; reflexivity].
Defined.

(** A struct with a custom decoder, read from the middle of a buffer. *)
Definition tag_decoder (r : BinaryReader) : outcome (val * BinaryReader) := '(n, r') ← readU8 r; Ret (VBool (n =? 1), r').

Definition tagged_schema : schema :=
  {[ "Tagged" := SStruct [("tag", FName "Tag"); ("value", FArray (FName "u8"))]; "Tag" := SFunction (fun _ => Ret []) tag_decoder ]}.

Lemma tagged_within : schema_within tagged_schema.
Proof.
  intros name ser deser H. unfold tagged_schema in H. apply lookup_insert_Some in H as [[_ H]|[_ H]]; [discriminate|].
  apply lookup_singleton_Some in H as [_ H]. injection H as _ <-.
  apply reads_within_bind; [exact readU8_within | intros n r a r' Hr [= _ <-]; split; [done | lia]].
Qed.

Lemma deserializeField_in_bounds_witness :
  rbuf (mkReader [9; 1; 2; 0; 0; 0; 7; 8; 5] 8) = rbuf (mkReader [9; 1; 2; 0; 0; 0; 7; 8; 5] 1) /\ (1 <= 8 <= 9)%nat.
Proof.
  apply (deserializeField_in_bounds tagged_schema 4 (FName "Tagged") (mkReader [9; 1; 2; 0; 0; 0; 7; 8; 5] 1)
    (VObj [("tag", VBool true); ("value", VArr [VNum 7; VNum 8])]) (mkReader [9; 1; 2; 0; 0; 0; 7; 8; 5] 8)).
  - exact tagged_within.
  - cbn. lia.
  - vm_compute. reflexivity.
Defined.

End Witness.
