(* ===== verification/LightClientBlock.v ===== *)
(** * NEAR light client blocks: encoder and contract decoder

    [borshify] and [borshifyInitialValidators] (utils/borsh.js) encode what
    the NEAR RPC returns; [NearDecoder.sol] and [Borsh.sol]
    (contracts/eth/nearbridge/contracts) decode it on Ethereum.  The
    theorems relate the two: on blocks whose validators all have version
    V1 the contract reads back exactly what the RPC said; with a V2
    validator the two disagree. *)

From S2P Require Import Prelude Interfaces.

(** ** Data of the RPC *)

(** [block.inner_lite]; numbers arrive as JSON numbers or decimal strings. *)
Record InnerLite := {
  il_height : val;
  il_epoch_id : string;
  il_next_epoch_id : string;
  il_prev_state_root : string;
  il_outcome_root : string;
  il_timestamp_nanosec : val;
  il_timestamp : val;
  il_next_bp_hash : string;
  il_block_merkle_root : string
}.

(** An entry of [block.next_bps]; [None] when the object has no own
    property [validator_stake_struct_version]. *)
Record NextBp := {
  bp_version : option string;
  bp_account_id : string;
  bp_public_key : string;
  bp_stake : val
}.

(** [next_bps] is [None] for [null]; an approval is [None] for [null]. *)
Record LightClientBlock := {
  lb_prev_block_hash : string;
  lb_next_block_inner_hash : string;
  lb_inner_lite : InnerLite;
  lb_inner_rest_hash : string;
  lb_next_bps : option (list NextBp);
  lb_approvals_after_next : list (option string)
}.

(** ** Encoder *)

(** [Buffer.concat([...])]: the parts are evaluated from left to right. *)
Fixpoint buffer_concat (parts : list (outcome (list Z))) : outcome (list Z) :=
  match parts with
  | [] => Ret []
  | p :: parts' => bs ← p; rest ← buffer_concat parts'; Ret (bs ++ rest)
  end.

Definition VALIDATOR_STAKE_V1 : Z := 0.
Definition VALIDATOR_STAKE_V2 : Z := 1.

Section Encoder.
Context {BN : BnLib} {B58 : Base58Lib}.

(** [Web3.utils.toBN(v).toBuffer('le', len)] *)
Definition num_le (v : val) (len : nat) : outcome (list Z) :=
  n ← toBN v; bn_toBuffer_le n len.

Definition len_le (n : nat) : outcome (list Z) := num_le (VNum (Z.of_nat n)) 4.

(** [x.substr(0, 8) === 'ed25519:' ? Buffer.from([0]) : Buffer.from([1])] *)
Definition key_type (s : string) : list Z :=
  if String.eqb (str_take 8 s) "ed25519:" then [0] else [1].

Definition borshifyNextBp (nextBp : NextBp) : outcome (list Z) :=
  buffer_concat [
    Ret (match bp_version nextBp with
         | Some v => if String.eqb v "V2" then [VALIDATOR_STAKE_V2] else [VALIDATOR_STAKE_V1]
         | None => [VALIDATOR_STAKE_V1]
         end);
    len_le (String.length (bp_account_id nextBp));
    Ret (utf8_bytes (bp_account_id nextBp));
    Ret (key_type (bp_public_key nextBp));
    bs58_decode (str_drop 8 (bp_public_key nextBp));
    num_le (bp_stake nextBp) 16
  ].

Definition borshifyApproval (signature : option string) : outcome (list Z) :=
  match signature with
  | None => Ret [0]
  | Some s => buffer_concat [Ret [1]; Ret (key_type s); bs58_decode (str_drop 8 s)]
  end.

Definition borshifyInnerLite (il : InnerLite) : outcome (list Z) :=
  buffer_concat [
    num_le (il_height il) 8;
    bs58_decode (il_epoch_id il);
    bs58_decode (il_next_epoch_id il);
    bs58_decode (il_prev_state_root il);
    bs58_decode (il_outcome_root il);
    num_le (js_or (il_timestamp_nanosec il) (il_timestamp il)) 8;
    bs58_decode (il_next_bp_hash il);
    bs58_decode (il_block_merkle_root il)
  ].

Definition borshify (block : LightClientBlock) : outcome (list Z) :=
  match lb_next_bps block with
  | None =>
      _ ← buffer_concat [
        bs58_decode (lb_prev_block_hash block);
        bs58_decode (lb_next_block_inner_hash block);
        borshifyInnerLite (lb_inner_lite block);
        bs58_decode (lb_inner_rest_hash block)
      ];
      Throw (TypeError "Cannot read property 'length' of null")
  | Some next_bps =>
      buffer_concat [
        bs58_decode (lb_prev_block_hash block);
        bs58_decode (lb_next_block_inner_hash block);
        borshifyInnerLite (lb_inner_lite block);
        bs58_decode (lb_inner_rest_hash block);
        Ret [1];
        len_le (length next_bps);
        buffer_concat (map borshifyNextBp next_bps);
        len_le (length (lb_approvals_after_next block));
        buffer_concat (map borshifyApproval (lb_approvals_after_next block))
      ]
  end.

Definition borshifyInitialValidators (initialValidators : list NextBp) : outcome (list Z) :=
  buffer_concat [
    len_le (length initialValidators);
    buffer_concat (map borshifyNextBp initialValidators)
  ].

End Encoder.

(** ** Contract decoder

    A [Borsh.Data] is the list of bytes between [ptr] and [end]; a revert
    is a throw with the revert reason. *)

Module Contract.

Definition data := list Z.

Definition revert {A} (reason : string) : outcome A := Throw (Error reason).

(** [requireSpace] followed by the read of [n] bytes. *)
Definition read (n : nat) (d : data) : outcome (list Z * data) :=
  if decide (n <= length d)%nat then Ret (take n d, drop n d)
  else revert "Parse error: unexpected EOI".

(** [Borsh.done()] *)
Definition done_ok (d : data) : outcome unit :=
  match d with [] => Ret tt | _ => revert "Parse error: EOI expected" end.

Definition decodeUint (n : nat) (d : data) : outcome (Z * data) :=
  '(bs, d1) ← read n d; Ret (le_value bs, d1).

Definition decodeU8 : data -> outcome (Z * data) := decodeUint 1.
Definition decodeU32 : data -> outcome (Z * data) := decodeUint 4.
Definition decodeU64 : data -> outcome (Z * data) := decodeUint 8.
Definition decodeU128 : data -> outcome (Z * data) := decodeUint 16.
Definition decodeBytes32 : data -> outcome (list Z * data) := read 32.

Definition decodeBool (d : data) : outcome (bool * data) :=
  '(res, d1) ← decodeU8 d;
  if res <=? 1 then Ret (negb (res =? 0), d1) else revert "Parse error: invalid bool".

Definition skipBytes (d : data) : outcome (unit * data) :=
  '(len, d1) ← decodeU32 d;
  '(_, d2) ← read (Z.to_nat len) d1;
  Ret (tt, d2).

Definition decodeBytes (d : data) : outcome (list Z * data) :=
  '(len, d1) ← decodeU32 d; read (Z.to_nat len) d1.

(** The [for] loops that fill an array of a decoded length. *)
Fixpoint decodeMany {A} (n : nat) (f : data -> outcome (A * data)) (d : data)
    : outcome (list A * data) :=
  match n with
  | O => Ret ([], d)
  | S n' => '(a, d1) ← f d; '(l, d2) ← decodeMany n' f d1; Ret (a :: l, d2)
  end.

Definition decodePublicKey (d : data) : outcome (list Z * data) :=
  '(t, d1) ← decodeU8 d;
  if t =? 0 then decodeBytes32 d1 else revert "Parse error: invalid key type".

Record Signature := { sig_r : list Z; sig_s : list Z }.

Definition decodeSignature (d : data) : outcome (Signature * data) :=
  '(t, d1) ← decodeU8 d;
  if t =? 0 then
    '(r, d2) ← decodeBytes32 d1;
    '(s, d3) ← decodeBytes32 d2;
    Ret ({| sig_r := r; sig_s := s |}, d3)
  else revert "Parse error: invalid signature type".

Record BlockProducer := { publicKey : list Z; stake : Z; isChunkOnly : bool }.

Definition VALIDATOR_V2 : Z := 1.

Definition decodeBlockProducer (d : data) : outcome (BlockProducer * data) :=
  '(validator_version, d1) ← decodeU8 d;
  '(_, d2) ← skipBytes d1;
  '(k, d3) ← decodePublicKey d2;
  '(s, d4) ← decodeU128 d3;
  if validator_version =? VALIDATOR_V2 then
    '(c, d5) ← decodeU8 d4;
    Ret ({| publicKey := k; stake := s; isChunkOnly := negb (c =? 0) |}, d5)
  else Ret ({| publicKey := k; stake := s; isChunkOnly := false |}, d4).

Definition decodeBlockProducers (d : data) : outcome (list BlockProducer * data) :=
  '(len, d1) ← decodeU32 d; decodeMany (Z.to_nat len) decodeBlockProducer d1.

Definition decodeOptionalSignature (d : data) : outcome (option Signature * data) :=
  '(some, d1) ← decodeBool d;
  if some : bool then '(s, d2) ← decodeSignature d1; Ret (Some s, d2) else Ret (None, d1).

Record BlockHeaderInnerLite := {
  height : Z;
  epoch_id : list Z;
  next_epoch_id : list Z;
  prev_state_root : list Z;
  outcome_root : list Z;
  timestamp : Z;
  next_bp_hash : list Z;
  block_merkle_root : list Z;
  inner_hash : list Z
}.

Record DecodedBlock := {
  prev_block_hash : list Z;
  next_block_inner_hash : list Z;
  inner_lite : BlockHeaderInnerLite;
  inner_rest_hash : list Z;
  next_bps : option (list BlockProducer * list Z);
  approvals_after_next : list (option Signature);
  hash : list Z;
  next_hash : list Z
}.

Section Hashing.
Context (sha256 : list Z -> list Z).

(** [decodeOptionalBlockProducers]: the hash covers the bytes between the
    start of the list and its end. *)
Definition decodeOptionalBlockProducers (d : data)
    : outcome (option (list BlockProducer * list Z) * data) :=
  '(some, d1) ← decodeBool d;
  if some : bool then
    '(bps, d2) ← decodeBlockProducers d1;
    Ret (Some (bps, sha256 (take (length d1 - length d2) d1)), d2)
  else Ret (None, d1).

Definition peekSha256 (n : nat) (d : data) : outcome (list Z) :=
  '(bs, _) ← read n d; Ret (sha256 bs).

Definition decodeBlockHeaderInnerLite (d : data) : outcome (BlockHeaderInnerLite * data) :=
  h ← peekSha256 208 d;
  '(ht, d) ← decodeU64 d;
  '(e, d) ← decodeBytes32 d;
  '(ne, d) ← decodeBytes32 d;
  '(ps, d) ← decodeBytes32 d;
  '(o, d) ← decodeBytes32 d;
  '(ts, d) ← decodeU64 d;
  '(nb, d) ← decodeBytes32 d;
  '(mr, d) ← decodeBytes32 d;
  Ret ({| height := ht; epoch_id := e; next_epoch_id := ne; prev_state_root := ps;
          outcome_root := o; timestamp := ts; next_bp_hash := nb; block_merkle_root := mr;
          inner_hash := h |}, d).

Definition decodeLightClientBlock (d : data) : outcome (DecodedBlock * data) :=
  '(pb, d) ← decodeBytes32 d;
  '(nb, d) ← decodeBytes32 d;
  '(il, d) ← decodeBlockHeaderInnerLite d;
  '(ir, d) ← decodeBytes32 d;
  '(bps, d) ← decodeOptionalBlockProducers d;
  '(len, d) ← decodeU32 d;
  '(appr, d) ← decodeMany (Z.to_nat len) decodeOptionalSignature d;
  let h := sha256 (sha256 (inner_hash il ++ ir) ++ pb) in
  Ret ({| prev_block_hash := pb; next_block_inner_hash := nb; inner_lite := il;
          inner_rest_hash := ir; next_bps := bps; approvals_after_next := appr;
          hash := h; next_hash := sha256 (nb ++ h) |}, d).

End Hashing.

End Contract.

(** ** What the contract should read

    [bp_denotes], [approval_denotes], [inner_lite_denotes] and
    [block_denotes] say which decoded value an RPC value stands for. *)

Section Denotation.
Context {BN : BnLib} {B58 : Base58Lib}.
Context (sha256 : list Z -> list Z).
Import Contract.

Definition hash_denotes (s : string) (bs : list Z) : Prop :=
  bs58_decode s = Ret bs /\ length bs = 32%nat.

Definition num_denotes (v : val) (bits : Z) (n : Z) : Prop :=
  toBN v = Ret n /\ 0 <= n < 2 ^ bits.

(** The part shared by both versions. *)
Record bp_common (nb : NextBp) (bp : BlockProducer) : Prop := {
  bpd_account : is_ascii_string (bp_account_id nb) = true;
  bpd_account_len : Z.of_nat (String.length (bp_account_id nb)) < 2 ^ 32;
  bpd_key_type : str_take 8 (bp_public_key nb) = "ed25519:";
  bpd_key : hash_denotes (str_drop 8 (bp_public_key nb)) (publicKey bp);
  bpd_stake : num_denotes (bp_stake nb) 128 (stake bp)
}.

Record bp_denotes (nb : NextBp) (bp : BlockProducer) : Prop := {
  bpd_common :> bp_common nb bp;
  bpd_v1 : bp_version nb <> Some "V2";
  bpd_chunk : isChunkOnly bp = false
}.

Definition approval_denotes (a : option string) (s : option Signature) : Prop :=
  match a, s with
  | None, None => True
  | Some a, Some s =>
      str_take 8 a = "ed25519:" /\ bs58_decode (str_drop 8 a) = Ret (sig_r s ++ sig_s s) /\
      length (sig_r s) = 32%nat /\ length (sig_s s) = 32%nat
  | _, _ => False
  end.

Definition inner_lite_bytes (x : BlockHeaderInnerLite) : list Z :=
  le_bytes 8 (height x) ++ epoch_id x ++ next_epoch_id x ++ prev_state_root x ++
  outcome_root x ++ le_bytes 8 (timestamp x) ++ next_bp_hash x ++ block_merkle_root x.

Record inner_lite_denotes (il : InnerLite) (x : BlockHeaderInnerLite) : Prop := {
  ild_height : num_denotes (il_height il) 64 (height x);
  ild_epoch : hash_denotes (il_epoch_id il) (epoch_id x);
  ild_next_epoch : hash_denotes (il_next_epoch_id il) (next_epoch_id x);
  ild_prev_state : hash_denotes (il_prev_state_root il) (prev_state_root x);
  ild_outcome : hash_denotes (il_outcome_root il) (outcome_root x);
  ild_timestamp : num_denotes (js_or (il_timestamp_nanosec il) (il_timestamp il)) 64 (timestamp x);
  ild_next_bp : hash_denotes (il_next_bp_hash il) (next_bp_hash x);
  ild_merkle : hash_denotes (il_block_merkle_root il) (block_merkle_root x);
  ild_hash : inner_hash x = sha256 (inner_lite_bytes x)
}.

Record block_denotes (b : LightClientBlock) (x : DecodedBlock) : Prop := {
  bd_prev : hash_denotes (lb_prev_block_hash b) (prev_block_hash x);
  bd_next_inner : hash_denotes (lb_next_block_inner_hash b) (next_block_inner_hash x);
  bd_inner : inner_lite_denotes (lb_inner_lite b) (inner_lite x);
  bd_rest : hash_denotes (lb_inner_rest_hash b) (inner_rest_hash x);
  bd_bps : exists nbs bps bs,
    lb_next_bps b = Some nbs /\ Forall2 bp_denotes nbs bps /\ Z.of_nat (length nbs) < 2 ^ 32 /\
    borshifyInitialValidators nbs = Ret bs /\ next_bps x = Some (bps, sha256 bs);
  bd_approvals : Forall2 approval_denotes (lb_approvals_after_next b) (approvals_after_next x);
  bd_approvals_len : Z.of_nat (length (lb_approvals_after_next b)) < 2 ^ 32;
  bd_hash : hash x = sha256 (sha256 (inner_hash (inner_lite x) ++ inner_rest_hash x) ++ prev_block_hash x);
  bd_next_hash : next_hash x = sha256 (next_block_inner_hash x ++ hash x)
}.

End Denotation.

(** ** Parsing lemmas *)

(** [parses p bs a]: [p] reads exactly [bs] and returns [a]. *)
Definition parses {A} (p : Contract.data -> outcome (A * Contract.data)) (bs : list Z) (a : A) : Prop :=
  forall rest, p (bs ++ rest) = Ret (a, rest).

Lemma parses_ret {A} (a : A) : parses (fun d => Ret (a, d)) [] a.
Proof. done. Qed.

Lemma parses_bind {A B} (p : Contract.data -> outcome (A * Contract.data))
    (q : A -> Contract.data -> outcome (B * Contract.data)) bs1 bs2 a b :
  parses p bs1 a -> parses (q a) bs2 b -> parses (fun d => '(x, d') ← p d; q x d') (bs1 ++ bs2) b.
Proof. intros Hp Hq rest. rewrite <- app_assoc, Hp. apply Hq. Qed.

(** The last read of a chain: nothing is left for the continuation. *)
Lemma parses_last {A B} (p : Contract.data -> outcome (A * Contract.data))
    (q : A -> Contract.data -> outcome (B * Contract.data)) bs a b :
  parses p bs a -> parses (q a) [] b -> parses (fun d => '(x, d') ← p d; q x d') bs b.
Proof. intros Hp Hq. rewrite <- (app_nil_r bs). by eapply parses_bind. Qed.

Lemma parses_read n bs : length bs = n -> parses (Contract.read n) bs bs.
Proof.
  intros <- rest. unfold Contract.read. rewrite decide_True by (rewrite length_app; lia).
  by rewrite take_app_length, drop_app_length.
Qed.

Lemma parses_uint n z : 0 <= z < 256 ^ Z.of_nat n -> parses (Contract.decodeUint n) (le_bytes n z) z.
Proof.
  intros Hz. unfold Contract.decodeUint. eapply parses_last; [apply parses_read, length_le_bytes|].
  rewrite le_value_small by done. apply parses_ret.
Qed.

Lemma parses_u8 z : 0 <= z < 256 -> parses Contract.decodeU8 [z] z.
Proof.
  intros Hz. unfold Contract.decodeU8. replace [z] with (le_bytes 1 z).
  - apply parses_uint. cbn. lia.
  - cbn. by rewrite Z.mod_small.
Qed.

Lemma parses_u32 z : 0 <= z < 2 ^ 32 -> parses Contract.decodeU32 (le_bytes 4 z) z.
Proof. apply (parses_uint 4). Qed.

Lemma parses_many {A} (f : Contract.data -> outcome (A * Contract.data)) bss l :
  Forall2 (parses f) bss l -> parses (Contract.decodeMany (length l) f) (concat bss) l.
Proof.
  induction 1 as [|bs a bss l Ha _ IH]; cbn [Contract.decodeMany length concat]; [apply parses_ret|].
  eapply parses_bind; [done|]. eapply parses_last; [exact IH | apply parses_ret].
Qed.

Lemma parses_list {A} (f : Contract.data -> outcome (A * Contract.data)) n bss l :
  Z.of_nat n < 2 ^ 32 -> n = length l -> Forall2 (parses f) bss l ->
  parses (fun d => '(len, d1) ← Contract.decodeU32 d; Contract.decodeMany (Z.to_nat len) f d1)
    (le_bytes 4 (Z.of_nat n) ++ concat bss) l.
Proof.
  intros Hn -> Hl. eapply parses_bind; [apply parses_u32; lia|]. rewrite Nat2Z.id. by apply parses_many.
Qed.

#[export] Hint Resolve parses_ret parses_u8 parses_u32 : bridge.

(** ** Encoding lemmas *)

Lemma buffer_concat_rets bss : buffer_concat (map Ret bss) = Ret (concat bss).
Proof. induction bss as [|bs bss IH]; cbn; [done|]. by rewrite IH. Qed.

Section EncoderLemmas.
Context {BN : BnLib} {BNok : BnLibOk} {B58 : Base58Lib}.
Import Contract.

Lemma num_le_fits v n z : toBN v = Ret z -> 0 <= z < 256 ^ Z.of_nat n -> num_le v n = Ret (le_bytes n z).
Proof. intros Hv Hz. unfold num_le. rewrite Hv. cbn. by apply bn_toBuffer_fits. Qed.

Lemma len_le_fits n : Z.of_nat n < 2 ^ 32 -> len_le n = Ret (le_bytes 4 (Z.of_nat n)).
Proof.
  intros Hn. apply num_le_fits; [apply toBN_num; lia|]. change (256 ^ Z.of_nat 4) with (2 ^ 32). lia.
Qed.

Lemma borshify_map {A B} (enc : A -> outcome (list Z)) (p : data -> outcome (B * data)) xs ys :
  Forall2 (fun x y => exists bs, enc x = Ret bs /\ parses p bs y) xs ys ->
  exists bss, map enc xs = map Ret bss /\ Forall2 (parses p) bss ys /\
    buffer_concat (map enc xs) = Ret (concat bss).
Proof.
  intros H. assert (exists bss, map enc xs = map Ret bss /\ Forall2 (parses p) bss ys) as (bss & E & F).
  { induction H as [|x y xs ys (bs & Hx & Hp) _ (bss & IH1 & IH2)]; [by exists []|].
    exists (bs :: bss). cbn. rewrite Hx, IH1. auto. }
  exists bss. rewrite E. by rewrite buffer_concat_rets.
Qed.

(** The bytes of a validator after its version tag. *)
Definition bp_body (nb : NextBp) (bp : BlockProducer) : list Z :=
  le_bytes 4 (Z.of_nat (String.length (bp_account_id nb))) ++ utf8_bytes (bp_account_id nb) ++
  [0] ++ publicKey bp ++ le_bytes 16 (stake bp).

Lemma borshify_bp_common nb bp :
  bp_common nb bp ->
  borshifyNextBp nb =
    Ret ((if decide (bp_version nb = Some "V2") then [1] else [0]) ++ bp_body nb bp).
Proof.
  intros [Ha Hl Hk [Hd Hlen] [Hs Hb]]. unfold borshifyNextBp, bp_body, key_type. cbn [buffer_concat].
  rewrite len_le_fits by done. rewrite Hk, Hd. cbn [mbind outcome_bind].
  rewrite (num_le_fits _ 16 (stake bp)) by (done || (change (256 ^ Z.of_nat 16) with (2 ^ 128); lia)).
  cbn [mbind outcome_bind]. rewrite String.eqb_refl, app_nil_r. f_equal. f_equal.
  destruct (bp_version nb) as [v|]; [|by rewrite decide_False].
  destruct (String.eqb_spec v "V2") as [->|Hne]; [by rewrite decide_True|].
  by rewrite decide_False by congruence.
Qed.

Lemma parses_bp_body {B} nb bp (q : list Z -> Z -> data -> outcome (B * data)) tail b :
  bp_common nb bp -> parses (q (publicKey bp) (stake bp)) tail b ->
  parses (fun d => '(_, d2) ← skipBytes d; '(k, d3) ← decodePublicKey d2;
                   '(s, d4) ← decodeU128 d3; q k s d4) (bp_body nb bp ++ tail) b.
Proof.
  intros [Ha Hl Hk [Hd Hlen] [Hs Hb]] Hq. unfold bp_body.
  rewrite <- (length_utf8_ascii _ Ha) in Hl |- *. rewrite !(assoc_L (++)).
  rewrite <- !(assoc_L (++)). rewrite (assoc_L (++) (le_bytes 4 _)).
  eapply parses_bind.
  { unfold skipBytes. eapply parses_bind; [apply parses_u32; lia|]. rewrite Nat2Z.id.
    eapply parses_last; [by apply parses_read | apply parses_ret]. }
  rewrite (assoc_L (++) [0]). eapply parses_bind.
  { unfold decodePublicKey. eapply parses_bind; [apply parses_u8; lia|]. cbn. by apply parses_read. }
  eapply parses_bind; [|exact Hq]. apply parses_uint. change (256 ^ Z.of_nat 16) with (2 ^ 128). lia.
Qed.

Lemma borshify_bp nb bp :
  bp_denotes nb bp -> exists bs, borshifyNextBp nb = Ret bs /\ parses decodeBlockProducer bs bp.
Proof.
  intros [Hc Hv Hch]. eexists. split; [by apply borshify_bp_common|].
  rewrite decide_False by done. unfold decodeBlockProducer.
  eapply parses_bind; [apply parses_u8; lia|]. rewrite <- (app_nil_r (bp_body nb bp)).
  apply (parses_bp_body nb bp (fun k s d => if 0 =? VALIDATOR_V2 then _ else
    Ret ({| publicKey := k; stake := s; isChunkOnly := false |}, d))); [done|].
  destruct bp. cbn in *. subst. apply parses_ret.
Qed.

Lemma parses_bool (b : bool) : parses decodeBool [if b then 1 else 0] b.
Proof.
  unfold decodeBool. eapply parses_last; [apply parses_u8; destruct b; lia|].
  destruct b; apply parses_ret.
Qed.

Lemma borshify_approval a s :
  approval_denotes a s -> exists bs, borshifyApproval a = Ret bs /\ parses decodeOptionalSignature bs s.
Proof.
  destruct a as [a|], s as [s|]; cbn; try done.
  - intros (Hk & Hd & Hr & Hs). unfold key_type. rewrite Hk, Hd, String.eqb_refl. cbn.
    rewrite app_nil_r. eexists. split; [done|].
    change (1 :: 0 :: sig_r s ++ sig_s s) with ([1] ++ ([0] ++ (sig_r s ++ sig_s s))).
    unfold decodeOptionalSignature. eapply parses_bind; [exact (parses_bool true)|].
    eapply parses_last; [|apply parses_ret]. unfold decodeSignature.
    eapply parses_bind; [apply parses_u8; lia|]. eapply parses_bind; [by apply parses_read|].
    eapply parses_last; [by apply parses_read|]. destruct s. apply parses_ret.
  - intros _. eexists. split; [done|]. unfold decodeOptionalSignature.
    eapply parses_last; [exact (parses_bool false) | apply parses_ret].
Qed.

(** The validator list, as both the initial set and a block carry it. *)
Lemma borshify_validators nbs bps :
  Forall2 bp_denotes nbs bps -> Z.of_nat (length nbs) < 2 ^ 32 ->
  exists bss, buffer_concat (map borshifyNextBp nbs) = Ret (concat bss) /\
    borshifyInitialValidators nbs = Ret (le_bytes 4 (Z.of_nat (length nbs)) ++ concat bss) /\
    parses decodeBlockProducers (le_bytes 4 (Z.of_nat (length nbs)) ++ concat bss) bps.
Proof.
  intros H Hl. pose proof (Forall2_length H) as Hlen.
  destruct (borshify_map borshifyNextBp decodeBlockProducer nbs bps) as (bss & _ & Hp & Hc).
  { eapply Forall2_impl; [|exact H]. intros nb bp. apply borshify_bp. }
  exists bss. split; [done|]. split.
  - unfold borshifyInitialValidators. cbn [buffer_concat]. rewrite len_le_fits, Hc by done.
    cbn. by rewrite app_nil_r.
  - by apply parses_list.
Qed.

Lemma borshify_approvals apps sigs :
  Forall2 approval_denotes apps sigs ->
  exists bss, buffer_concat (map borshifyApproval apps) = Ret (concat bss) /\
    Forall2 (parses decodeOptionalSignature) bss sigs.
Proof.
  intros H. destruct (borshify_map borshifyApproval decodeOptionalSignature apps sigs) as (bss & _ & Hp & Hc).
  { eapply Forall2_impl; [|exact H]. intros a s. apply borshify_approval. }
  by exists bss.
Qed.

Lemma borshify_inner_lite sha256 il x :
  inner_lite_denotes sha256 il x ->
  borshifyInnerLite il = Ret (inner_lite_bytes x) /\
  parses (decodeBlockHeaderInnerLite sha256) (inner_lite_bytes x) x.
Proof.
  intros [[Hh Hhb] [He Hel] [Hn Hnl] [Hp Hpl] [Ho Hol] [Ht Htb] [Hb Hbl] [Hm Hml] Hhash]. split.
  - unfold borshifyInnerLite, inner_lite_bytes. cbn [buffer_concat].
    rewrite (num_le_fits _ 8 _ Hh), (num_le_fits _ 8 _ Ht), He, Hn, Hp, Ho, Hb, Hm
      by (change (256 ^ Z.of_nat 8) with (2 ^ 64); lia).
    cbn. by rewrite app_nil_r.
  - intros rest. unfold decodeBlockHeaderInnerLite.
    assert (peekSha256 sha256 208 (inner_lite_bytes x ++ rest) = Ret (inner_hash x)) as ->.
    { unfold peekSha256. rewrite (parses_read 208 (inner_lite_bytes x)); [by rewrite Hhash|].
      unfold inner_lite_bytes. rewrite !length_app, !length_le_bytes. lia. }
    cbn [mbind outcome_bind]. revert rest. unfold inner_lite_bytes.
    change (parses (fun d => '(ht, d) ← decodeU64 d; '(e, d) ← decodeBytes32 d;
      '(ne, d) ← decodeBytes32 d; '(ps, d) ← decodeBytes32 d; '(o, d) ← decodeBytes32 d;
      '(ts, d) ← decodeU64 d; '(nb, d) ← decodeBytes32 d; '(mr, d) ← decodeBytes32 d;
      Ret ({| height := ht; epoch_id := e; next_epoch_id := ne; prev_state_root := ps;
        outcome_root := o; timestamp := ts; next_bp_hash := nb; block_merkle_root := mr;
        inner_hash := inner_hash x |}, d))
      (le_bytes 8 (height x) ++ epoch_id x ++ next_epoch_id x ++ prev_state_root x ++
       outcome_root x ++ le_bytes 8 (timestamp x) ++ next_bp_hash x ++ block_merkle_root x) x).
    eapply parses_bind; [by apply (parses_uint 8)|].
    do 4 (eapply parses_bind; [by apply parses_read|]).
    eapply parses_bind; [by apply (parses_uint 8)|].
    eapply parses_bind; [by apply parses_read|].
    eapply parses_last; [by apply parses_read|]. destruct x. apply parses_ret.
Qed.

End EncoderLemmas.

(** ** A V2 validator at the end of the list *)

Section V2.
Context {BN : BnLib} {BNok : BnLibOk} {B58 : Base58Lib}.
Import Contract.

Lemma decode_v2_at_end nb bp :
  bp_common nb bp ->
  decodeBlockProducer (1 :: bp_body nb bp) = revert "Parse error: unexpected EOI".
Proof.
  intros Hc. unfold decodeBlockProducer.
  change (1 :: bp_body nb bp) with ([1] ++ bp_body nb bp). rewrite (parses_u8 1) by lia.
  cbn [mbind outcome_bind].
  pose proof (parses_bp_body nb bp (fun k s d => Ret ((k, s), d)) [] _ Hc (parses_ret _) []) as Hp.
  rewrite !app_nil_r in Hp.
  destruct (skipBytes (bp_body nb bp)) as [[[] d2]| | |]; cbn [mbind outcome_bind] in *; try discriminate.
  destruct (decodePublicKey d2) as [[k d3]| | |]; cbn [mbind outcome_bind] in *; try discriminate.
  destruct (decodeU128 d3) as [[s d4]| | |]; cbn [mbind outcome_bind] in *; simplify_eq.
  by rewrite Z.eqb_refl.
Qed.

Lemma decodeMany_prefix {A} (f : data -> outcome (A * data)) bss l n tail :
  Forall2 (parses f) bss l ->
  decodeMany (length l + n) f (concat bss ++ tail) =
    ('(l2, d) ← decodeMany n f tail; Ret (l ++ l2, d)).
Proof.
  induction 1 as [|bs a bss l Ha _ IH]; cbn [decodeMany length concat Nat.add].
  - cbn. by destruct (decodeMany n f tail) as [[? ?]| | |].
  - rewrite <- app_assoc, Ha. cbn [mbind outcome_bind]. rewrite IH.
    by destruct (decodeMany n f tail) as [[? ?]| | |].
Qed.

End V2.

(** ** Inversion of the encoder *)

Lemma buffer_concat_inv parts bs :
  buffer_concat parts = Ret bs -> Forall (fun p => exists b, p = Ret b) parts.
Proof.
  revert bs. induction parts as [|p parts IH]; intros bs H; constructor.
  - cbn in H. apply outcome_bind_inv in H as (b & -> & _). by exists b.
  - cbn in H. apply outcome_bind_inv in H as (b & _ & H).
    apply outcome_bind_inv in H as (b' & H & _). by eapply IH.
Qed.

Lemma num_le_inv {BN : BnLib} {BNok : BnLibOk} v len bs n :
  num_le v len = Ret bs -> toBN v = Ret n -> n < 256 ^ Z.of_nat len.
Proof.
  unfold num_le. intros H Hv. rewrite Hv in H. cbn in H.
  destruct (Z.lt_ge_cases n (256 ^ Z.of_nat len)) as [|Hge]; [done|].
  destruct (bn_toBuffer_overflow n len Hge) as [e He]. congruence.
Qed.

(** ** Properties *)

Section Properties.
Context {BN : BnLib} {BNok : BnLibOk} {B58 : Base58Lib}.
Context (sha256 : list Z -> list Z).
Import Contract.

(** The bytes of a block, as the contract reads them. *)
Lemma borshify_parses b x :
  block_denotes sha256 b x ->
  exists bs, borshify b = Ret bs /\ parses (decodeLightClientBlock sha256) bs x.
Proof.
  intros [[Hp Hpl] [Hn Hnl] Hi [Hr Hrl] (nbs & bps & vbs & Hnb & Hbp & Hbl & Hvb & Hx) Ha Hal Hh Hnh].
  destruct (borshify_inner_lite sha256 _ _ Hi) as [Hie Hip].
  destruct (borshify_validators nbs bps Hbp Hbl) as (bss & Hc & Hv & Hbps).
  destruct (borshify_approvals _ _ Ha) as (ass & Hac & Hap).
  rewrite Hv in Hvb. injection Hvb as <-.
  eexists. split.
  - unfold borshify. rewrite Hnb. cbn [buffer_concat].
    rewrite Hp, Hn, Hie, Hr, !len_le_fits, Hc, Hac by done. cbn [mbind outcome_bind].
    rewrite app_nil_r. reflexivity.
  - assert (parses (decodeLightClientBlock sha256)
      (prev_block_hash x ++ next_block_inner_hash x ++ inner_lite_bytes (inner_lite x) ++
       inner_rest_hash x ++ ([1] ++ (le_bytes 4 (Z.of_nat (length nbs)) ++ concat bss)) ++
       le_bytes 4 (Z.of_nat (length (lb_approvals_after_next b))) ++ concat ass) x) as HP.
    { unfold decodeLightClientBlock. do 2 (eapply parses_bind; [by apply parses_read|]).
      eapply parses_bind; [exact Hip|]. eapply parses_bind; [by apply parses_read|].
      eapply parses_bind.
      { instantiate (1 := next_bps x). rewrite Hx. intros rest.
        unfold decodeOptionalBlockProducers. rewrite <- app_assoc, (parses_bool true).
        cbn [mbind outcome_bind]. rewrite (Hbps rest). cbn [mbind outcome_bind].
        rewrite (length_app _ rest), Nat.add_sub, take_app_length. done. }
      eapply parses_bind; [apply parses_u32; lia|]. rewrite Nat2Z.id, (Forall2_length Ha).
      eapply parses_last; [by apply parses_many|]. rewrite <- Hh, <- Hnh. destruct x. apply parses_ret. }
    by rewrite <- !app_assoc in HP.
Qed.

(** C2: encoder and contract agree: for every light client block whose
    fields are in range and whose validators have version V1, [borshify]
    returns bytes that the contract's [decodeLightClientBlock] consumes to
    the last byte (so [Borsh.done] passes), and it reads exactly the
    heights, hashes, validators, signatures and derived hashes the RPC
    block stands for. *)
Theorem borshify_decodes b x :
  block_denotes sha256 b x ->
  exists bs, borshify b = Ret bs /\
    ('(y, d) ← decodeLightClientBlock sha256 bs; _ ← done_ok d; Ret y) = Ret x.
Proof.
  intros H. destruct (borshify_parses b x H) as (bs & He & Hp). exists bs. split; [done|].
  specialize (Hp []). rewrite app_nil_r in Hp. by rewrite Hp.
Qed.

(** The same for the initial validator set: the contract's
    [decodeBlockProducers] reads back exactly the encoded V1 validators
    and leaves no byte. *)
Theorem borshifyInitialValidators_decodes nbs bps :
  Forall2 bp_denotes nbs bps -> Z.of_nat (length nbs) < 2 ^ 32 ->
  exists bs, borshifyInitialValidators nbs = Ret bs /\ decodeBlockProducers bs = Ret (bps, []).
Proof.
  intros H Hl. destruct (borshify_validators nbs bps H Hl) as (bss & _ & He & Hp).
  eexists. split; [exact He|]. specialize (Hp []). by rewrite app_nil_r in Hp.
Qed.

(** A V2 validator breaks the agreement: the encoder writes the V2 tag
    but not the [is_chunk_only] byte that the contract reads after the
    stake, so a validator set of V1 entries followed by one V2 entry is
    encoded without error and then rejected by the contract. *)
Theorem borshifyInitialValidators_v2_rejected nbs bps nb bp :
  Forall2 bp_denotes nbs bps -> bp_common nb bp -> bp_version nb = Some "V2" ->
  Z.of_nat (length (nbs ++ [nb])) < 2 ^ 32 ->
  exists bs, borshifyInitialValidators (nbs ++ [nb]) = Ret bs /\
    decodeBlockProducers bs = Throw (Error "Parse error: unexpected EOI").
Proof.
  intros H Hc Hv Hl.
  destruct (borshify_map borshifyNextBp decodeBlockProducer nbs bps) as (bss & Hm & Hp & _).
  { eapply Forall2_impl; [|exact H]. intros nb' bp'. apply borshify_bp. }
  eexists. split.
  - unfold borshifyInitialValidators. cbn [buffer_concat]. rewrite len_le_fits by done.
    rewrite map_app, Hm. cbn [map]. rewrite (borshify_bp_common nb bp Hc), decide_True by done.
    change [Ret ([1] ++ bp_body nb bp)] with (map Ret [[1] ++ bp_body nb bp]).
    rewrite <- map_app, buffer_concat_rets, concat_app.
    cbn [mbind outcome_bind concat]. rewrite !app_nil_r. reflexivity.
  - unfold decodeBlockProducers. rewrite (parses_u32 (Z.of_nat (length (nbs ++ [nb])))) by lia.
    cbn [mbind outcome_bind]. rewrite Nat2Z.id, length_app, (Forall2_length H). cbn [length].
    rewrite (decodeMany_prefix _ bss bps 1) by done. cbn [decodeMany].
    change ([1] ++ bp_body nb bp) with (1 :: bp_body nb bp). by rewrite (decode_v2_at_end nb bp Hc).
Qed.

(** A block whose [next_bps] is [null] is never encoded: [borshify]
    reads [next_bps.length] without a check. *)
Theorem borshify_null_next_bps b bs : lb_next_bps b = None -> borshify b <> Ret bs.
Proof.
  intros Hn H. unfold borshify in H. rewrite Hn in H.
  apply outcome_bind_inv in H as (? & _ & H). discriminate.
Qed.

(** Nothing is silently truncated: when [borshify] returns, the height
    and the timestamp of the block fit 64 bits and every stake fits 128
    bits. *)
Theorem borshify_no_truncation b bs nbs h t :
  borshify b = Ret bs -> lb_next_bps b = Some nbs ->
  toBN (il_height (lb_inner_lite b)) = Ret h ->
  toBN (js_or (il_timestamp_nanosec (lb_inner_lite b)) (il_timestamp (lb_inner_lite b))) = Ret t ->
  h < 2 ^ 64 /\ t < 2 ^ 64 /\
  Forall (fun nb => forall s, toBN (bp_stake nb) = Ret s -> s < 2 ^ 128) nbs.
Proof.
  intros H Hn Hh Ht. unfold borshify in H. rewrite Hn in H. apply buffer_concat_inv in H.
  rewrite !Forall_cons_iff in H. destruct H as (_ & _ & [ib Hi] & _ & _ & _ & [vb Hv] & _).
  apply buffer_concat_inv in Hi, Hv. rewrite !Forall_cons_iff in Hi.
  destruct Hi as ([hb Hhb] & _ & _ & _ & _ & [tb Htb] & _).
  split; [exact (num_le_inv _ 8 _ _ Hhb Hh)|]. split; [exact (num_le_inv _ 8 _ _ Htb Ht)|].
  apply Forall_forall. intros nb Hnb s Hs.
  rewrite Forall_forall in Hv. destruct (Hv (borshifyNextBp nb)) as [b' Hb]; [by apply in_map|].
  apply buffer_concat_inv in Hb. rewrite !Forall_cons_iff in Hb.
  destruct Hb as (_ & _ & _ & _ & _ & [sb Hsb] & _). exact (num_le_inv _ 16 _ _ Hsb Hs).
Qed.

End Properties.

(** ** Witnesses *)

Module Witness.
Import Reference Contract.

Definition hash0 : string := "11111111111111111111111111111111".
Definition key0 : string := "ed25519:" +:+ hash0.
Definition zeros32 : list Z := replicate 32 0.
Definition toy_hash (bs : list Z) : list Z := le_bytes 32 (le_value bs + Z.of_nat (length bs)).

Definition validator (version : option string) (account : string) (stake : Z) : NextBp :=
  {| bp_version := version; bp_account_id := account; bp_public_key := key0; bp_stake := VNum stake |}.

Definition producer (stake : Z) : BlockProducer :=
  {| publicKey := zeros32; stake := stake; isChunkOnly := false |}.

Definition lite : InnerLite :=
  {| il_height := VNum 1000; il_epoch_id := hash0; il_next_epoch_id := hash0;
     il_prev_state_root := hash0; il_outcome_root := hash0;
     il_timestamp_nanosec := VUndef; il_timestamp := VNum 1600000000000000000;
     il_next_bp_hash := hash0; il_block_merkle_root := hash0 |}.

Definition block : LightClientBlock :=
  {| lb_prev_block_hash := hash0; lb_next_block_inner_hash := hash0; lb_inner_lite := lite;
     lb_inner_rest_hash := hash0;
     lb_next_bps := Some [validator (Some "V1") "node0" 7; validator None "node1.near" 5];
     lb_approvals_after_next := [None; Some (key0 +:+ hash0)] |}.

Definition header : BlockHeaderInnerLite :=
  let h0 := {| height := 1000; epoch_id := zeros32; next_epoch_id := zeros32;
     prev_state_root := zeros32; outcome_root := zeros32; timestamp := 1600000000000000000;
     next_bp_hash := zeros32; block_merkle_root := zeros32; inner_hash := [] |} in
  {| height := 1000; epoch_id := zeros32; next_epoch_id := zeros32;
     prev_state_root := zeros32; outcome_root := zeros32; timestamp := 1600000000000000000;
     next_bp_hash := zeros32; block_merkle_root := zeros32;
     inner_hash := toy_hash (inner_lite_bytes h0) |}.

Definition validators_bytes : list Z :=
  match borshifyInitialValidators [validator (Some "V1") "node0" 7; validator None "node1.near" 5] with
  | Ret bs => bs
  | _ => []
  end.

Definition decoded : DecodedBlock :=
  let h := toy_hash (toy_hash (inner_hash header ++ zeros32) ++ zeros32) in
  {| prev_block_hash := zeros32; next_block_inner_hash := zeros32; inner_lite := header;
     inner_rest_hash := zeros32; next_bps := Some ([producer 7; producer 5], toy_hash validators_bytes);
     approvals_after_next := [None; Some {| sig_r := zeros32; sig_s := zeros32 |}];
     hash := h; next_hash := toy_hash (zeros32 ++ h) |}.

Ltac denote := repeat split; try (vm_compute; reflexivity); try (vm_compute; discriminate); try lia.

Lemma validator_denotes v a n :
  v <> Some "V2" -> is_ascii_string a = true -> Z.of_nat (String.length a) < 2 ^ 32 ->
  0 <= n < 2 ^ 128 -> bp_denotes (validator v a n) (producer n).
Proof. intros. split; [split; cbn; try done; split; done | done | done]. Qed.

Lemma hash0_denotes : hash_denotes hash0 zeros32.
Proof. denote. Qed.

Lemma block_denotes_decoded : block_denotes toy_hash block decoded.
Proof.
  split; try exact hash0_denotes; cbn [block decoded lb_inner_lite inner_lite].
  - split; try exact hash0_denotes; denote.
  - exists [validator (Some "V1") "node0" 7; validator None "node1.near" 5], [producer 7; producer 5],
      validators_bytes.
    split; [reflexivity|]. split; [|denote].
    constructor; [apply validator_denotes; denote|].
    constructor; [apply validator_denotes; denote|constructor].
  - constructor; [exact I|]. constructor; [denote|constructor].
  - denote.
  - denote.
  - denote.
Qed.

Lemma borshify_decodes_witness :
  exists bs, borshify block = Ret bs /\
    ('(y, d) ← decodeLightClientBlock toy_hash bs; _ ← done_ok d; Ret y) = Ret decoded.
Proof. apply (borshify_decodes toy_hash block decoded). exact block_denotes_decoded. Defined.

Lemma borshifyInitialValidators_decodes_witness :
  exists bs, borshifyInitialValidators [validator None "node1.near" 5] = Ret bs /\
    decodeBlockProducers bs = Ret ([producer 5], []).
Proof.
  apply borshifyInitialValidators_decodes; [|denote].
  constructor; [apply validator_denotes; denote | constructor].
Defined.

Lemma borshifyInitialValidators_v2_rejected_witness :
  exists bs, borshifyInitialValidators ([validator None "a" 5] ++ [validator (Some "V2") "b" 9]) = Ret bs /\
    decodeBlockProducers bs = Throw (Error "Parse error: unexpected EOI").
Proof.
  apply (borshifyInitialValidators_v2_rejected _ [producer 5] _ (producer 9)).
  - constructor; [apply validator_denotes; denote | constructor].
  - split; denote.
  - reflexivity.
  - denote.
Defined.

Lemma borshify_null_next_bps_witness :
  borshify {| lb_prev_block_hash := hash0; lb_next_block_inner_hash := hash0; lb_inner_lite := lite;
     lb_inner_rest_hash := hash0; lb_next_bps := None; lb_approvals_after_next := [] |} <> Ret [].
Proof. apply borshify_null_next_bps. reflexivity. Defined.

Lemma borshify_no_truncation_witness :
  1000 < 2 ^ 64 /\ 1600000000000000000 < 2 ^ 64 /\
  Forall (fun nb => forall s, toBN (bp_stake nb) = Ret s -> s < 2 ^ 128)
    [validator (Some "V1") "node0" 7; validator None "node1.near" 5].
Proof.
  eapply (borshify_no_truncation block _ _ 1000 1600000000000000000);
    vm_compute; reflexivity.
Defined.

End Witness.
