(* ===== verification/OutcomeProof.v ===== *)
(** * Outcome proofs: encoder, contract decoder and Merkle roots

    [borshifyOutcomeProof] (utils/borshify-proof.js) encodes the light
    client proof that [unlockToken] is called with; [ProofDecoder.sol] and
    [NearProver.sol] (contracts/eth/nearprover/contracts) decode and check
    it; [computeMerkleRoot] (contracts/eth/nearprover/utils/utils.js) is
    the JavaScript computation of the block Merkle root that the mock
    bridge is fed with. *)

From S2P Require Import Prelude Interfaces LightClientBlock.

(** ** Data of the RPC *)

Record MerkleStep := { ms_hash : string; ms_direction : string }.

(** [status]: which of the two supported keys are own properties. *)
Record OutcomeStatus := {
  st_success_value : option string;
  st_success_receipt_id : option string
}.

Record Outcome := {
  oc_logs : list string;
  oc_receipt_ids : list string;
  oc_gas_burnt : val;
  oc_tokens_burnt : val;
  oc_executor_id : string;
  oc_status : OutcomeStatus
}.

Record LightClientProof := {
  lp_proof : list MerkleStep;
  lp_block_hash : string;
  lp_id : string;
  lp_outcome : Outcome;
  lp_prev_block_hash : string;
  lp_inner_rest_hash : string;
  lp_inner_lite : InnerLite;
  lp_block_proof : list MerkleStep
}.

(** ** [Buffer.from(s, 'base64')]

    Characters outside the alphabet (the padding included) are skipped;
    a trailing group of two or three characters gives one or two bytes. *)

Definition base64_digit (c : Ascii.ascii) : option Z :=
  let n := Z.of_N (Ascii.N_of_ascii c) in
  if (65 <=? n) && (n <=? 90) then Some (n - 65)
  else if (97 <=? n) && (n <=? 122) then Some (n - 71)
  else if (48 <=? n) && (n <=? 57) then Some (n + 4)
  else if (n =? 43) || (n =? 45) then Some 62
  else if (n =? 47) || (n =? 95) then Some 63
  else None.

Fixpoint base64_digits (s : string) : list Z :=
  match s with
  | EmptyString => []
  | String c s' =>
      match base64_digit c with
      | Some d => d :: base64_digits s'
      | None => base64_digits s'
      end
  end.

Fixpoint base64_group (ds : list Z) : list Z :=
  match ds with
  | a :: b :: c :: d :: ds' =>
      (4 * a + b / 16) :: (16 * (b mod 16) + c / 4) :: (64 * (c mod 4) + d) :: base64_group ds'
  | [a; b; c] => [4 * a + b / 16; 16 * (b mod 16) + c / 4]
  | [a; b] => [4 * a + b / 16]
  | _ => []
  end.

Definition base64_bytes (s : string) : list Z := base64_group (base64_digits s).

(** ** Encoder *)

Section Encoder.
Context {BN : BnLib} {B58 : Base58Lib}.

Definition statusToBuffer (status : OutcomeStatus) : outcome (list Z) :=
  match st_success_value status with
  | Some v =>
      let data := base64_bytes v in
      buffer_concat [Ret [2]; len_le (length data); Ret data]
  | None =>
      match st_success_receipt_id status with
      | Some id => buffer_concat [Ret [3]; bs58_decode id]
      | None => Throw (Error "status not supported")
      end
  end.

Definition borshifyStep (p : MerkleStep) : outcome (list Z) :=
  buffer_concat [
    bs58_decode (ms_hash p);
    Ret [if String.eqb (ms_direction p) "Right" then 1 else 0]
  ].

Definition borshifyOutcomeProof (proof : LightClientProof) : outcome (list Z) :=
  buffer_concat [
    len_le (length (lp_proof proof));
    buffer_concat (map borshifyStep (lp_proof proof));
    bs58_decode (lp_block_hash proof);
    bs58_decode (lp_id proof);
    buffer_concat [
      len_le (length (oc_logs (lp_outcome proof)));
      len_le (length (oc_receipt_ids (lp_outcome proof)));
      buffer_concat (map bs58_decode (oc_receipt_ids (lp_outcome proof)));
      num_le (oc_gas_burnt (lp_outcome proof)) 8;
      num_le (oc_tokens_burnt (lp_outcome proof)) 16;
      len_le (String.length (oc_executor_id (lp_outcome proof)));
      Ret (utf8_bytes (oc_executor_id (lp_outcome proof)));
      statusToBuffer (oc_status (lp_outcome proof));
      num_le (VNum 0) 4;
      bs58_decode (lp_prev_block_hash proof);
      bs58_decode (lp_inner_rest_hash proof);
      borshifyInnerLite (lp_inner_lite proof);
      len_le (length (lp_block_proof proof));
      buffer_concat (map borshifyStep (lp_block_proof proof))
    ]
  ].

End Encoder.

(** ** [computeMerkleRoot] of the prover's utilities *)

Section MerkleRoot.
Context {BN : BnLib} {B58 : Base58Lib}.
Context (sha256 : list Z -> list Z).

Definition combine (data0 data1 : list Z) : list Z := sha256 (data0 ++ data1).

(** The [forEach] of [computeRoot]. *)
Fixpoint computeRoot (node : list Z) (proof : list MerkleStep) : outcome (list Z) :=
  match proof with
  | [] => Ret node
  | step :: proof' =>
      h ← bs58_decode (ms_hash step);
      if String.eqb (ms_direction step) "Left" then computeRoot (combine h node) proof'
      else computeRoot (combine node h) proof'
  end.

(** [new BN(v).toBuffer('le', len)] *)
Definition new_num_le (v : val) (len : nat) : outcome (list Z) :=
  n ← newBN v; bn_toBuffer_le n len.

Definition blockHeaderInnerLiteHash (data : InnerLite) : outcome (list Z) :=
  buffer ← buffer_concat [
    new_num_le (il_height data) 8;
    bs58_decode (il_epoch_id data);
    bs58_decode (il_next_epoch_id data);
    bs58_decode (il_prev_state_root data);
    bs58_decode (il_outcome_root data);
    new_num_le (js_or (il_timestamp_nanosec data) (il_timestamp data)) 8;
    bs58_decode (il_next_bp_hash data);
    bs58_decode (il_block_merkle_root data)
  ];
  Ret (sha256 buffer).

Definition computeMerkleRoot (proof : LightClientProof) : outcome (list Z) :=
  inner_lite_hash ← blockHeaderInnerLiteHash (lp_inner_lite proof);
  inner_rest ← bs58_decode (lp_inner_rest_hash proof);
  prev ← bs58_decode (lp_prev_block_hash proof);
  computeRoot (combine (combine inner_lite_hash inner_rest) prev) (lp_block_proof proof).

End MerkleRoot.

(** ** Contract decoder and check *)

Module Prover.
Import Contract.

Record MerklePathItem := { item_hash : list Z; item_direction : Z }.

Definition decodeMerklePathItem (d : data) : outcome (MerklePathItem * data) :=
  '(h, d) ← decodeBytes32 d;
  '(dir, d) ← decodeU8 d;
  if dir <? 2 then Ret ({| item_hash := h; item_direction := dir |}, d)
  else revert "ProofDecoder: MerklePathItem direction should be 0 or 1".

Definition decodeMerklePath (d : data) : outcome (list MerklePathItem * data) :=
  '(len, d1) ← decodeU32 d; decodeMany (Z.to_nat len) decodeMerklePathItem d1.

Inductive ExecutionStatus : Type :=
| StatusUnknown
| StatusFailed
| SuccessValue (bs : list Z)
| SuccessReceiptId (id : list Z).

Definition decodeExecutionStatus (d : data) : outcome (ExecutionStatus * data) :=
  '(i, d) ← decodeU8 d;
  if i =? 0 then Ret (StatusUnknown, d)
  else if i =? 1 then Ret (StatusFailed, d)
  else if i =? 2 then '(bs, d) ← decodeBytes d; Ret (SuccessValue bs, d)
  else if i =? 3 then '(id, d) ← decodeBytes32 d; Ret (SuccessReceiptId id, d)
  else revert "NearDecoder: decodeExecutionStatus index out of range".

Record ExecutionOutcome := {
  logs : list (list Z);
  receipt_ids : list (list Z);
  gas_burnt : Z;
  tokens_burnt : Z;
  executor_id : list Z;
  status : ExecutionStatus;
  merkelization_hashes : list (list Z)
}.

Record BlockHeaderLight := {
  hd_prev_block_hash : list Z;
  hd_inner_rest_hash : list Z;
  hd_inner_lite : BlockHeaderInnerLite;
  hd_hash : list Z
}.

Record FullOutcomeProof := {
  fp_proof : list MerklePathItem;
  fp_block_hash : list Z;
  fp_id : list Z;
  fp_outcome : ExecutionOutcome;
  fp_outcome_hash : list Z;
  fp_outcome_root_proof : list MerklePathItem;
  fp_header : BlockHeaderLight;
  fp_block_proof : list MerklePathItem
}.

Section Hashing.
Context (sha256 : list Z -> list Z).

Definition decodeExecutionOutcome (d : data) : outcome (ExecutionOutcome * data) :=
  '(nlogs, d) ← decodeU32 d;
  '(ls, start) ← decodeMany (Z.to_nat nlogs) decodeBytes d;
  '(nids, d) ← decodeU32 start;
  '(ids, d) ← decodeMany (Z.to_nat nids) decodeBytes32 d;
  '(gas, d) ← decodeU64 d;
  '(tokens, d) ← decodeU128 d;
  '(ex, d) ← decodeBytes d;
  '(st, d) ← decodeExecutionStatus d;
  Ret ({| logs := ls; receipt_ids := ids; gas_burnt := gas; tokens_burnt := tokens;
          executor_id := ex; status := st;
          merkelization_hashes :=
            sha256 (take (length start - length d) start) :: map sha256 ls |}, d).

Definition outcome_hash (id : list Z) (o : ExecutionOutcome) : list Z :=
  sha256 (le_bytes 4 (1 + Z.of_nat (length (merkelization_hashes o))) ++ id ++
          concat (merkelization_hashes o)).

Definition decodeBlockHeaderLight (d : data) : outcome (BlockHeaderLight * data) :=
  '(pb, d) ← decodeBytes32 d;
  '(ir, d) ← decodeBytes32 d;
  '(il, d) ← decodeBlockHeaderInnerLite sha256 d;
  Ret ({| hd_prev_block_hash := pb; hd_inner_rest_hash := ir; hd_inner_lite := il;
          hd_hash := sha256 (sha256 (inner_hash il ++ ir) ++ pb) |}, d).

Definition decodeFullOutcomeProof (d : data) : outcome (FullOutcomeProof * data) :=
  '(path, d) ← decodeMerklePath d;
  '(bh, d) ← decodeBytes32 d;
  '(id, d) ← decodeBytes32 d;
  '(o, d) ← decodeExecutionOutcome d;
  '(rootp, d) ← decodeMerklePath d;
  '(hd, d) ← decodeBlockHeaderLight d;
  '(bp, d) ← decodeMerklePath d;
  Ret ({| fp_proof := path; fp_block_hash := bh; fp_id := id; fp_outcome := o;
          fp_outcome_hash := outcome_hash id o; fp_outcome_root_proof := rootp;
          fp_header := hd; fp_block_proof := bp |}, d).

(** [_computeRoot] of NearProver.sol *)
Fixpoint contractComputeRoot (node : list Z) (items : list MerklePathItem) : list Z :=
  match items with
  | [] => node
  | item :: items' =>
      if item_direction item =? 0 then contractComputeRoot (sha256 (item_hash item ++ node)) items'
      else contractComputeRoot (sha256 (node ++ item_hash item)) items'
  end.

Definition proveOutcome (blockMerkleRoots : Z -> list Z) (proofData : list Z) (blockHeight : Z)
    : outcome bool :=
  '(p, d) ← decodeFullOutcomeProof proofData;
  _ ← done_ok d;
  let h := sha256 (contractComputeRoot (fp_outcome_hash p) (fp_proof p)) in
  if decide (contractComputeRoot h (fp_outcome_root_proof p) = outcome_root (hd_inner_lite (fp_header p)))
  then
    if decide (contractComputeRoot (hd_hash (fp_header p)) (fp_block_proof p) =
               blockMerkleRoots blockHeight)
    then Ret true
    else revert "NearProver: block proof is not valid"
  else revert "NearProver: outcome merkle proof is not valid".

End Hashing.

End Prover.

(** ** What the contract should read *)

Section Denotation.
Context {BN : BnLib} {B58 : Base58Lib}.
Context (sha256 : list Z -> list Z).
Import Contract Prover.

Definition step_denotes (s : MerkleStep) (i : MerklePathItem) : Prop :=
  hash_denotes (ms_hash s) (item_hash i) /\
  ((ms_direction s = "Left" /\ item_direction i = 0) \/
   (ms_direction s = "Right" /\ item_direction i = 1)).

Definition path_denotes (p : list MerkleStep) (x : list MerklePathItem) : Prop :=
  Forall2 step_denotes p x /\ Z.of_nat (length p) < 2 ^ 32.

Definition status_denotes (s : OutcomeStatus) (x : ExecutionStatus) : Prop :=
  match st_success_value s with
  | Some v => x = SuccessValue (base64_bytes v) /\ Z.of_nat (length (base64_bytes v)) < 2 ^ 32
  | None => exists id bs, st_success_receipt_id s = Some id /\ hash_denotes id bs /\ x = SuccessReceiptId bs
  end.

Definition status_bytes (x : ExecutionStatus) : list Z :=
  match x with
  | StatusUnknown => [0]
  | StatusFailed => [1]
  | SuccessValue bs => [2] ++ le_bytes 4 (Z.of_nat (length bs)) ++ bs
  | SuccessReceiptId id => [3] ++ id
  end.

(** The bytes covered by the first Merkle hash of an outcome. *)
Definition outcome_bytes (o : ExecutionOutcome) : list Z :=
  (le_bytes 4 (Z.of_nat (length (receipt_ids o))) ++ concat (receipt_ids o)) ++
  le_bytes 8 (gas_burnt o) ++ le_bytes 16 (tokens_burnt o) ++
  (le_bytes 4 (Z.of_nat (length (executor_id o))) ++ executor_id o) ++ status_bytes (status o).

Record outcome_denotes (o : Outcome) (x : ExecutionOutcome) : Prop := {
  od_logs : oc_logs o = [];
  od_xlogs : logs x = [];
  od_ids : Forall2 hash_denotes (oc_receipt_ids o) (receipt_ids x);
  od_ids_len : Z.of_nat (length (oc_receipt_ids o)) < 2 ^ 32;
  od_gas : num_denotes (oc_gas_burnt o) 64 (gas_burnt x);
  od_tokens : num_denotes (oc_tokens_burnt o) 128 (tokens_burnt x);
  od_ascii : is_ascii_string (oc_executor_id o) = true;
  od_exec : executor_id x = utf8_bytes (oc_executor_id o);
  od_exec_len : Z.of_nat (length (executor_id x)) < 2 ^ 32;
  od_status : status_denotes (oc_status o) (status x);
  od_hashes : merkelization_hashes x = [sha256 (outcome_bytes x)]
}.

Record header_denotes (p : LightClientProof) (x : BlockHeaderLight) : Prop := {
  hdd_prev : hash_denotes (lp_prev_block_hash p) (hd_prev_block_hash x);
  hdd_rest : hash_denotes (lp_inner_rest_hash p) (hd_inner_rest_hash x);
  hdd_inner : inner_lite_denotes sha256 (lp_inner_lite p) (hd_inner_lite x);
  hdd_hash : hd_hash x =
    sha256 (sha256 (inner_hash (hd_inner_lite x) ++ hd_inner_rest_hash x) ++ hd_prev_block_hash x)
}.

Record proof_denotes (p : LightClientProof) (x : FullOutcomeProof) : Prop := {
  pd_path : path_denotes (lp_proof p) (fp_proof x);
  pd_block_hash : hash_denotes (lp_block_hash p) (fp_block_hash x);
  pd_id : hash_denotes (lp_id p) (fp_id x);
  pd_outcome : outcome_denotes (lp_outcome p) (fp_outcome x);
  pd_outcome_hash : fp_outcome_hash x = outcome_hash sha256 (fp_id x) (fp_outcome x);
  pd_root_proof : fp_outcome_root_proof x = [];
  pd_header : header_denotes p (fp_header x);
  pd_block_proof : path_denotes (lp_block_proof p) (fp_block_proof x)
}.

End Denotation.

(** ** Lemmas *)

Section Lemmas.
Context {BN : BnLib} {BNok : BnLibOk} {B58 : Base58Lib}.
Import Contract Prover.

Lemma parses_bytes bs :
  Z.of_nat (length bs) < 2 ^ 32 -> parses decodeBytes (le_bytes 4 (Z.of_nat (length bs)) ++ bs) bs.
Proof.
  intros Hl. unfold decodeBytes. eapply parses_bind; [apply parses_u32; lia|].
  rewrite Nat2Z.id. by apply parses_read.
Qed.

Lemma borshify_step s i :
  step_denotes s i -> exists bs, borshifyStep s = Ret bs /\ parses decodeMerklePathItem bs i.
Proof.
  intros [[Hd Hl] Hdir]. unfold borshifyStep. cbn [buffer_concat]. rewrite Hd. cbn [mbind outcome_bind].
  eexists. split; [done|]. rewrite app_nil_r. unfold decodeMerklePathItem.
  eapply parses_bind; [by apply parses_read|]. destruct i as [h dir]. cbn in *.
  destruct Hdir as [[-> ->]|[-> ->]]; cbn;
    (eapply parses_last; [apply parses_u8; lia | apply parses_ret]).
Qed.

Lemma borshify_path p x :
  path_denotes p x ->
  exists bss, len_le (length p) = Ret (le_bytes 4 (Z.of_nat (length p))) /\
    buffer_concat (map borshifyStep p) = Ret (concat bss) /\
    parses decodeMerklePath (le_bytes 4 (Z.of_nat (length p)) ++ concat bss) x.
Proof.
  intros [H Hl]. destruct (borshify_map borshifyStep decodeMerklePathItem p x) as (bss & _ & Hp & Hc).
  { eapply Forall2_impl; [|exact H]. intros s i. apply borshify_step. }
  exists bss. split; [by apply len_le_fits|]. split; [done|].
  apply parses_list; [done| |done]. by apply Forall2_length in H.
Qed.

Lemma borshify_ids ids xs :
  Forall2 hash_denotes ids xs ->
  buffer_concat (map bs58_decode ids) = Ret (concat xs) /\ Forall2 (parses decodeBytes32) xs xs.
Proof.
  intros H. assert (map bs58_decode ids = map Ret xs) as ->.
  { induction H as [|id x ids xs [Hd _] _ IH]; cbn; [done|]. by rewrite Hd, IH. }
  split; [apply buffer_concat_rets|].
  induction H as [|id x ids xs [_ Hl] _ IH]; constructor; [by apply parses_read | done].
Qed.

Lemma borshify_status s x :
  status_denotes s x ->
  statusToBuffer s = Ret (status_bytes x) /\ parses decodeExecutionStatus (status_bytes x) x.
Proof.
  unfold status_denotes, statusToBuffer. destruct (st_success_value s) as [v|].
  - intros [-> Hl]. cbn [buffer_concat]. rewrite len_le_fits by done. cbn [mbind outcome_bind].
    rewrite app_nil_r. split; [done|]. cbn [status_bytes]. unfold decodeExecutionStatus.
    eapply parses_bind; [apply parses_u8; lia|]. cbn [Z.eqb Pos.eqb].
    eapply parses_last; [by apply parses_bytes | apply parses_ret].
  - intros (id & bs & -> & [Hd Hl] & ->). cbn [buffer_concat]. rewrite Hd. cbn [mbind outcome_bind].
    rewrite app_nil_r. split; [done|]. cbn [status_bytes]. unfold decodeExecutionStatus.
    eapply parses_bind; [apply parses_u8; lia|]. cbn [Z.eqb Pos.eqb].
    eapply parses_last; [by apply parses_read | apply parses_ret].
Qed.

Lemma parses_outcome sha256 o x :
  outcome_denotes sha256 o x ->
  parses (decodeExecutionOutcome sha256) (le_bytes 4 0 ++ outcome_bytes x) x.
Proof.
  intros [Hlg Hxl Hids Hidl [Hg Hgb] [Ht Htb] Ha Hex Hexl Hst Hh] rest.
  unfold decodeExecutionOutcome. rewrite <- app_assoc, (parses_u32 0) by lia.
  cbn [mbind outcome_bind]. change (Z.to_nat 0) with 0%nat. cbn [decodeMany mbind outcome_bind].
  set (start := outcome_bytes x ++ rest).
  enough (parses (fun d => '(nids, d) ← decodeU32 d;
    '(ids, d) ← decodeMany (Z.to_nat nids) decodeBytes32 d; '(gas, d) ← decodeU64 d;
    '(tokens, d) ← decodeU128 d; '(ex, d) ← decodeBytes d; '(st, d) ← decodeExecutionStatus d;
    Ret ((ids, gas, tokens, ex, st), d)) (outcome_bytes x)
    (receipt_ids x, gas_burnt x, tokens_burnt x, executor_id x, status x)) as HP.
  { specialize (HP rest). cbv beta in HP. fold start in HP.
    repeat match goal with
    | |- context [mbind _ ?m] => destruct m as [[? ?]| | |]; cbn [mbind outcome_bind] in *; try discriminate
    end.
    simplify_eq. unfold start. rewrite length_app, Nat.add_sub, take_app_length. cbn [map].
    rewrite <- Hh, <- Hxl. by destruct x. }
  unfold outcome_bytes.
  destruct (borshify_ids _ _ Hids) as [_ Hpids]. pose proof (Forall2_length Hids) as Hlen.
  rewrite <- (assoc_L (++) (le_bytes 4 _)).
  eapply parses_bind; [apply parses_u32; lia|]. rewrite Nat2Z.id.
  eapply parses_bind; [by apply parses_many|].
  eapply parses_bind; [by apply (parses_uint 8)|].
  eapply parses_bind; [by apply (parses_uint 16)|].
  eapply parses_bind; [by apply parses_bytes|].
  destruct (borshify_status _ _ Hst) as [_ Hps].
  eapply parses_last; [exact Hps | apply parses_ret].
Qed.

Lemma parses_header sha256 p x :
  header_denotes sha256 p x ->
  parses (decodeBlockHeaderLight sha256)
    (hd_prev_block_hash x ++ hd_inner_rest_hash x ++ inner_lite_bytes (hd_inner_lite x)) x.
Proof.
  intros [[Hp Hpl] [Hr Hrl] Hi Hh]. destruct (borshify_inner_lite sha256 _ _ Hi) as [_ Hip].
  unfold decodeBlockHeaderLight. do 2 (eapply parses_bind; [by apply parses_read|]).
  eapply parses_last; [exact Hip|]. rewrite <- Hh. destruct x. apply parses_ret.
Qed.

(** The encoding of a proof and the contract's reading of it. *)
Lemma outcome_proof_codes sha256 p x :
  proof_denotes sha256 p x ->
  exists bs, borshifyOutcomeProof p = Ret bs /\ parses (decodeFullOutcomeProof sha256) bs x.
Proof.
  intros [Hpath [Hb Hbl] [Hi Hil] Ho Hoh Hrp Hhd Hbp].
  destruct (borshify_path _ _ Hpath) as (bss & Hl1 & Hc1 & Hp1).
  destruct (borshify_path _ _ Hbp) as (bss2 & Hl2 & Hc2 & Hp2).
  pose proof (parses_outcome _ _ _ Ho) as Hpo. pose proof (parses_header _ _ _ Hhd) as Hph.
  destruct Ho as [Hlg Hxl Hids Hidl [Hg Hgb] [Ht Htb] Ha Hex Hexl Hst Hh].
  destruct Hhd as [[Hpv Hpvl] [Hrs Hrsl] Hin _].
  destruct (borshify_ids _ _ Hids) as [Hidc _]. destruct (borshify_status _ _ Hst) as [Hsc _].
  destruct (borshify_inner_lite sha256 _ _ Hin) as [Hic _].
  assert (Z.of_nat (String.length (oc_executor_id (lp_outcome p))) < 2 ^ 32) as Hexl'.
  { by rewrite <- (length_utf8_ascii _ Ha), <- Hex. }
  eexists. split.
  - unfold borshifyOutcomeProof. cbn [buffer_concat].
    rewrite Hl1, Hc1, Hb, Hi, Hlg, (len_le_fits 0), (len_le_fits (length (oc_receipt_ids _))), Hidc,
      (num_le_fits _ 8 _ Hg), (num_le_fits _ 16 _ Ht), (len_le_fits (String.length _)), Hsc,
      (num_le_fits (VNum 0) 4 0), Hpv, Hrs, Hic, Hl2, Hc2
      by (done || (apply toBN_num; lia) || (cbn; lia)).
    cbn [mbind outcome_bind]. rewrite !app_nil_r. reflexivity.
  - match goal with |- parses _ ?l _ =>
      replace l with ((le_bytes 4 (Z.of_nat (length (lp_proof p))) ++ concat bss) ++ fp_block_hash x ++
        fp_id x ++ (le_bytes 4 0 ++ outcome_bytes (fp_outcome x)) ++ (le_bytes 4 (Z.of_nat 0) ++ concat []) ++
        (hd_prev_block_hash (fp_header x) ++ hd_inner_rest_hash (fp_header x) ++
          inner_lite_bytes (hd_inner_lite (fp_header x))) ++
        (le_bytes 4 (Z.of_nat (length (lp_block_proof p))) ++ concat bss2))
    end.
    + unfold decodeFullOutcomeProof. eapply parses_bind; [exact Hp1|].
      do 2 (eapply parses_bind; [by apply parses_read|]). eapply parses_bind; [exact Hpo|].
      eapply parses_bind; [apply (parses_list decodeMerklePathItem 0 [] []); [done | done | constructor]|].
      eapply parses_bind; [exact Hph|]. eapply parses_last; [exact Hp2|].
      rewrite <- Hrp, <- Hoh. destruct x. apply parses_ret.
    + unfold outcome_bytes. rewrite Hex, (length_utf8_ascii _ Ha), <- (Forall2_length Hids).
      cbn [concat length]. rewrite app_nil_r. by rewrite <- !app_assoc.
Qed.

(** The two Merkle folds agree step by step. *)
Lemma computeRoot_agrees sha256 node p x :
  Forall2 step_denotes p x -> computeRoot sha256 node p = Ret (contractComputeRoot sha256 node x).
Proof.
  intros H. revert node. induction H as [|s i p x [[Hd _] Hdir] _ IH]; intros node; [done|].
  cbn. rewrite Hd. cbn. destruct Hdir as [[-> ->]|[-> ->]]; cbn; apply IH.
Qed.

Lemma blockHeaderInnerLiteHash_agrees sha256 il x :
  inner_lite_denotes sha256 il x ->
  newBN (il_height il) = toBN (il_height il) ->
  newBN (js_or (il_timestamp_nanosec il) (il_timestamp il)) =
    toBN (js_or (il_timestamp_nanosec il) (il_timestamp il)) ->
  blockHeaderInnerLiteHash sha256 il = Ret (inner_hash x).
Proof.
  intros Hi Hh Ht. destruct (borshify_inner_lite sha256 _ _ Hi) as [He _].
  unfold blockHeaderInnerLiteHash, new_num_le. rewrite Hh, Ht.
  change (buffer_concat _) with (borshifyInnerLite il). rewrite He. cbn.
  by rewrite (ild_hash _ _ _ Hi).
Qed.

Lemma computeMerkleRoot_root sha256 p x :
  proof_denotes sha256 p x ->
  newBN (il_height (lp_inner_lite p)) = toBN (il_height (lp_inner_lite p)) ->
  newBN (js_or (il_timestamp_nanosec (lp_inner_lite p)) (il_timestamp (lp_inner_lite p))) =
    toBN (js_or (il_timestamp_nanosec (lp_inner_lite p)) (il_timestamp (lp_inner_lite p))) ->
  computeMerkleRoot sha256 p =
    Ret (contractComputeRoot sha256 (hd_hash (fp_header x)) (fp_block_proof x)).
Proof.
  intros [_ _ _ _ _ _ [[Hpv _] [Hrs _] Hin Hh] [Hbp _]] Hb Ht. unfold computeMerkleRoot.
  rewrite (blockHeaderInnerLiteHash_agrees sha256 _ _ Hin Hb Ht), Hrs, Hpv.
  cbn [mbind outcome_bind]. unfold combine. rewrite <- Hh. by apply computeRoot_agrees.
Qed.

(** An answer of [proveOutcome] is always [true]. *)
Lemma proveOutcome_true sha256 roots bs h b : proveOutcome sha256 roots bs h = Ret b -> b = true.
Proof using.
  unfold proveOutcome. destruct (decodeFullOutcomeProof sha256 bs) as [[p d]|e|c|]; [|discriminate..]. cbn [mbind outcome_bind].
  destruct (done_ok d); [|discriminate..]. cbn [mbind outcome_bind]. cbv zeta. repeat case_decide; intros Hb; by inversion Hb.
Qed.

(** The root a proven outcome has off chain is the one stored. *)
Lemma proved_root sha256 roots p x bs h b :
  proof_denotes sha256 p x ->
  newBN (il_height (lp_inner_lite p)) = toBN (il_height (lp_inner_lite p)) ->
  newBN (js_or (il_timestamp_nanosec (lp_inner_lite p)) (il_timestamp (lp_inner_lite p))) =
    toBN (js_or (il_timestamp_nanosec (lp_inner_lite p)) (il_timestamp (lp_inner_lite p))) ->
  borshifyOutcomeProof p = Ret bs -> proveOutcome sha256 roots bs h = Ret b ->
  computeMerkleRoot sha256 p = Ret (roots h).
Proof.
  intros H Hh Ht He. rewrite (computeMerkleRoot_root sha256 p x H Hh Ht).
  destruct (outcome_proof_codes sha256 p x H) as (bs' & He' & Hp). rewrite He' in He. apply Ret_inj in He as <-.
  specialize (Hp []). rewrite app_nil_r in Hp. unfold proveOutcome. rewrite Hp. cbn [mbind outcome_bind done_ok]. cbv zeta.
  repeat case_decide; [intros _; congruence | discriminate..].
Qed.

End Lemmas.

(** ** Properties *)

Section Properties.
Context {BN : BnLib} {BNok : BnLibOk} {B58 : Base58Lib}.
Context (sha256 : list Z -> list Z).
Import Contract Prover.

(** An outcome proof without logs survives the trip to Ethereum:
    [borshifyOutcomeProof] returns bytes that the contract's
    [decodeFullOutcomeProof] reads to the last byte, giving exactly the
    proof path, receipts, gas, tokens, executor, status, header and block
    proof the RPC proof stands for. *)
Theorem borshifyOutcomeProof_decodes p x :
  proof_denotes sha256 p x ->
  exists bs, borshifyOutcomeProof p = Ret bs /\ decodeFullOutcomeProof sha256 bs = Ret (x, []).
Proof.
  intros H. destruct (outcome_proof_codes sha256 p x H) as (bs & He & Hp).
  exists bs. split; [done|]. specialize (Hp []). by rewrite app_nil_r in Hp.
Qed.

(** C3: JavaScript and contract compute the same block Merkle root.  For a
    proof of an outcome without logs, whose numbers of height and timestamp
    [new BN] reads as [web3.utils.toBN] does (no JavaScript numbers of 2^53
    and above), and whose outcome path is valid, [proveOutcome] of the
    contract accepts the encoding of the proof exactly when the root stored
    for the height is the one [computeMerkleRoot] returns. *)
Theorem proveOutcome_iff_computeMerkleRoot p x bs roots h root :
  proof_denotes sha256 p x ->
  newBN (il_height (lp_inner_lite p)) = toBN (il_height (lp_inner_lite p)) ->
  newBN (js_or (il_timestamp_nanosec (lp_inner_lite p)) (il_timestamp (lp_inner_lite p))) =
    toBN (js_or (il_timestamp_nanosec (lp_inner_lite p)) (il_timestamp (lp_inner_lite p))) ->
  borshifyOutcomeProof p = Ret bs ->
  computeMerkleRoot sha256 p = Ret root ->
  sha256 (contractComputeRoot sha256 (fp_outcome_hash x) (fp_proof x)) =
    outcome_root (hd_inner_lite (fp_header x)) ->
  proveOutcome sha256 roots bs h =
    (if decide (roots h = root) then Ret true
     else Throw (Error "NearProver: block proof is not valid")).
Proof.
  intros H Hb Ht He Hr Ho. destruct (outcome_proof_codes sha256 p x H) as (bs' & He' & Hp).
  rewrite He' in He. injection He as ->. specialize (Hp []). rewrite app_nil_r in Hp.
  rewrite (computeMerkleRoot_root sha256 p x H Hb Ht) in Hr. injection Hr as <-.
  unfold proveOutcome. rewrite Hp. cbn [mbind outcome_bind done_ok].
  rewrite (pd_root_proof _ _ _ H). cbn [contractComputeRoot]. rewrite decide_True by done.
  by destruct (decide (_ = roots h)), (decide (roots h = _)); try congruence.
Qed.

(** Log messages are not encoded: two proofs that differ only in the
    contents of equally many logs have the same encoding, although the
    contract reads each log and hashes it into the outcome. *)
Theorem borshifyOutcomeProof_drops_logs p o logs' :
  lp_outcome p = o -> length logs' = length (oc_logs o) ->
  borshifyOutcomeProof
    {| lp_proof := lp_proof p; lp_block_hash := lp_block_hash p; lp_id := lp_id p;
       lp_outcome := {| oc_logs := logs'; oc_receipt_ids := oc_receipt_ids o;
         oc_gas_burnt := oc_gas_burnt o; oc_tokens_burnt := oc_tokens_burnt o;
         oc_executor_id := oc_executor_id o; oc_status := oc_status o |};
       lp_prev_block_hash := lp_prev_block_hash p; lp_inner_rest_hash := lp_inner_rest_hash p;
       lp_inner_lite := lp_inner_lite p; lp_block_proof := lp_block_proof p |} =
  borshifyOutcomeProof p.
Proof.
  intros <- Hl. unfold borshifyOutcomeProof.
  cbn [lp_proof lp_block_hash lp_id lp_outcome lp_prev_block_hash lp_inner_rest_hash lp_inner_lite
       lp_block_proof oc_logs oc_receipt_ids oc_gas_burnt oc_tokens_burnt oc_executor_id oc_status].
  by rewrite Hl.
Qed.

(** A failed or unknown outcome is never encoded: when the status has
    neither ['SuccessValue'] nor ['SuccessReceiptId'], [borshifyOutcomeProof]
    does not return. *)
Theorem borshifyOutcomeProof_failed_status p bs :
  st_success_value (oc_status (lp_outcome p)) = None ->
  st_success_receipt_id (oc_status (lp_outcome p)) = None ->
  borshifyOutcomeProof p <> Ret bs.
Proof.
  intros Hv Hr H. apply buffer_concat_inv in H. rewrite !Forall_cons_iff in H.
  destruct H as (_ & _ & _ & _ & [b Hb] & _). apply buffer_concat_inv in Hb.
  rewrite !Forall_cons_iff in Hb. destruct Hb as (_ & _ & _ & _ & _ & _ & _ & [s Hs] & _).
  unfold statusToBuffer in Hs. by rewrite Hv, Hr in Hs.
Qed.

End Properties.

(** ** Witnesses *)

Module Witness.
Import Reference Contract Prover LightClientBlock.Witness.

Definition exec_outcome : Outcome :=
  {| oc_logs := []; oc_receipt_ids := [hash0]; oc_gas_burnt := VNum 2428000000000;
     oc_tokens_burnt := VNum 5; oc_executor_id := "bridge.near";
     oc_status := {| st_success_value := Some "AQID"; st_success_receipt_id := None |} |}.

Definition exec_decoded : ExecutionOutcome :=
  let o := {| logs := []; receipt_ids := [zeros32]; gas_burnt := 2428000000000; tokens_burnt := 5;
     executor_id := utf8_bytes "bridge.near"; status := SuccessValue [1; 2; 3];
     merkelization_hashes := [] |} in
  {| logs := []; receipt_ids := [zeros32]; gas_burnt := 2428000000000; tokens_burnt := 5;
     executor_id := utf8_bytes "bridge.near"; status := SuccessValue [1; 2; 3];
     merkelization_hashes := [toy_hash (outcome_bytes o)] |}.

Definition right_step : MerkleStep := {| ms_hash := hash0; ms_direction := "Right" |}.
Definition left_step : MerkleStep := {| ms_hash := hash0; ms_direction := "Left" |}.
Definition right_item : MerklePathItem := {| item_hash := zeros32; item_direction := 1 |}.
Definition left_item : MerklePathItem := {| item_hash := zeros32; item_direction := 0 |}.

(** The outcome root that makes the outcome path valid. *)
Definition root_hash : list Z :=
  toy_hash (contractComputeRoot toy_hash (outcome_hash toy_hash zeros32 exec_decoded) [right_item]).

Definition proof_lite : InnerLite :=
  {| il_height := VNum 1000; il_epoch_id := hash0; il_next_epoch_id := hash0;
     il_prev_state_root := hash0; il_outcome_root := bs58_encode root_hash;
     il_timestamp_nanosec := VUndef; il_timestamp := VNum 1600000000000;
     il_next_bp_hash := hash0; il_block_merkle_root := hash0 |}.

Definition inner (h : list Z) : BlockHeaderInnerLite :=
  {| height := 1000; epoch_id := zeros32; next_epoch_id := zeros32;
     prev_state_root := zeros32; outcome_root := root_hash; timestamp := 1600000000000;
     next_bp_hash := zeros32; block_merkle_root := zeros32; inner_hash := h |}.

Definition proof_inner : BlockHeaderInnerLite := inner (toy_hash (inner_lite_bytes (inner []))).

Definition outcome_proof : LightClientProof :=
  {| lp_proof := [right_step]; lp_block_hash := hash0; lp_id := hash0; lp_outcome := exec_outcome;
     lp_prev_block_hash := hash0; lp_inner_rest_hash := hash0; lp_inner_lite := proof_lite;
     lp_block_proof := [left_step; right_step] |}.

Definition full_proof : FullOutcomeProof :=
  {| fp_proof := [right_item]; fp_block_hash := zeros32; fp_id := zeros32; fp_outcome := exec_decoded;
     fp_outcome_hash := outcome_hash toy_hash zeros32 exec_decoded; fp_outcome_root_proof := [];
     fp_header := {| hd_prev_block_hash := zeros32; hd_inner_rest_hash := zeros32;
       hd_inner_lite := proof_inner;
       hd_hash := toy_hash (toy_hash (inner_hash proof_inner ++ zeros32) ++ zeros32) |};
     fp_block_proof := [left_item; right_item] |}.

Definition block_root : list Z :=
  contractComputeRoot toy_hash (hd_hash (fp_header full_proof)) [left_item; right_item].

Lemma proof_denotes_full : proof_denotes toy_hash outcome_proof full_proof.
Proof.
  assert (step_denotes left_step left_item) as Hl by (split; [exact hash0_denotes | by left]).
  assert (step_denotes right_step right_item) as Hr by (split; [exact hash0_denotes | by right]).
  split; try exact hash0_denotes; try reflexivity.
  - split; [by repeat constructor | denote].
  - split; try (vm_compute; reflexivity); try (denote; fail).
    constructor; [exact hash0_denotes | constructor].
  - split; try exact hash0_denotes; try reflexivity.
    split; try exact hash0_denotes; denote.
  - split; [by repeat constructor | denote].
Qed.

Lemma borshifyOutcomeProof_decodes_witness :
  exists bs, borshifyOutcomeProof outcome_proof = Ret bs /\
    decodeFullOutcomeProof toy_hash bs = Ret (full_proof, []).
Proof. apply (borshifyOutcomeProof_decodes toy_hash). exact proof_denotes_full. Defined.

Lemma proveOutcome_iff_computeMerkleRoot_witness :
  exists bs, proveOutcome toy_hash (fun h => if h =? 1001 then block_root else []) bs 1001 = Ret true.
Proof.
  destruct (borshifyOutcomeProof outcome_proof) as [bs| | |] eqn:He; try (vm_compute in He; discriminate).
  exists bs. rewrite (proveOutcome_iff_computeMerkleRoot toy_hash outcome_proof full_proof bs _ _ block_root).
  - by rewrite decide_True.
  - exact proof_denotes_full.
  - vm_compute. reflexivity.
  - vm_compute. reflexivity.
  - exact He.
  - vm_compute. reflexivity.
  - vm_compute. reflexivity.
Defined.

Definition logged_proof (log : string) : LightClientProof :=
  {| lp_proof := [right_step]; lp_block_hash := hash0; lp_id := hash0;
     lp_outcome := {| oc_logs := [log]; oc_receipt_ids := [hash0]; oc_gas_burnt := VNum 7;
       oc_tokens_burnt := VNum 5; oc_executor_id := "bridge.near";
       oc_status := {| st_success_value := Some "AQID"; st_success_receipt_id := None |} |};
     lp_prev_block_hash := hash0; lp_inner_rest_hash := hash0; lp_inner_lite := proof_lite;
     lp_block_proof := [left_step; right_step] |}.

Lemma borshifyOutcomeProof_drops_logs_witness :
  borshifyOutcomeProof (logged_proof "burned 1") = borshifyOutcomeProof (logged_proof "burned 2").
Proof.
  exact (borshifyOutcomeProof_drops_logs (logged_proof "burned 2") _ ["burned 1"] eq_refl eq_refl).
Defined.

Lemma borshifyOutcomeProof_failed_status_witness :
  borshifyOutcomeProof
    {| lp_proof := []; lp_block_hash := hash0; lp_id := hash0;
       lp_outcome := {| oc_logs := []; oc_receipt_ids := []; oc_gas_burnt := VNum 1;
         oc_tokens_burnt := VNum 1; oc_executor_id := "a";
         oc_status := {| st_success_value := None; st_success_receipt_id := None |} |};
       lp_prev_block_hash := hash0; lp_inner_rest_hash := hash0; lp_inner_lite := proof_lite;
       lp_block_proof := [] |} <> Ret [].
Proof. apply borshifyOutcomeProof_failed_status; reflexivity. Defined.

End Witness.
