(* ===== verification/BinarySearch.v ===== *)
(** * [binarySearchWithEstimate] (eth2near/eth2near-block-relay/index.js)

    The relay looks for the newest block of its client that is also on the
    main chain.  The search starts at an estimate, doubles its step away
    from it, and bisects the interval it is left with.  The theorems show
    what it returns for a monotone predicate, that it terminates, and that
    the number of predicate calls is logarithmic in the distance between
    estimate and result. *)

From S2P Require Import Prelude.

(** ** The search *)

Section Search.
Context {W E : Type}.
Context (predicate : Z -> eff W E bool).

(** [while (hi - step > lo && await predicate(hi - step)) step *= 2] *)
Fixpoint stepDown (fuel : nat) (lo hi step : Z) : eff W E Z :=
  match fuel with
  | O => stuck
  | S fuel' =>
      if lo <? hi - step then
        b ← predicate (hi - step);
        if b : bool then stepDown fuel' lo hi (step * 2) else mret step
      else mret step
  end.

(** [while (lo + step < hi && !await predicate(lo + step)) step *= 2] *)
Fixpoint stepUp (fuel : nat) (lo hi step : Z) : eff W E Z :=
  match fuel with
  | O => stuck
  | S fuel' =>
      if lo + step <? hi then
        b ← predicate (lo + step);
        if b : bool then mret step else stepUp fuel' lo hi (step * 2)
      else mret step
  end.

(** [while (lo + 1 < hi) ...; return hi] *)
Fixpoint bisect (fuel : nat) (lo hi : Z) : eff W E Z :=
  match fuel with
  | O => stuck
  | S fuel' =>
      if lo + 1 <? hi then
        let mid := (lo + hi) / 2 in
        b ← predicate mid;
        if b : bool then bisect fuel' lo mid else bisect fuel' mid hi
      else mret hi
  end.

Definition binarySearchWithEstimate (fuel : nat) (limitLo limitHi estimatedPosition : Z)
    : eff W E Z :=
  value ← predicate estimatedPosition;
  if value : bool then
    step ← stepDown fuel limitLo estimatedPosition 1;
    let hi := estimatedPosition - step / 2 in
    bisect fuel (Z.max limitLo (hi - step)) hi
  else
    step ← stepUp fuel estimatedPosition limitHi 1;
    let lo := estimatedPosition + step / 2 in
    bisect fuel lo (Z.min limitHi (lo + step)).

End Search.

(** ** Correctness for a monotone predicate *)

Definition monotone (P : Z -> bool) : Prop :=
  forall u v, u <= v -> P u = true -> P v = true.

(** The number of doublings needed to cover a distance. *)
Definition doublings (delta : Z) : Z := Z.log2_up (delta + 1).

Lemma doublings_spec delta k :
  0 < k -> 2 ^ (k - 1) <= delta -> k <= doublings delta.
Proof.
  intros Hk H. unfold doublings.
  assert (k - 1 < Z.log2_up (delta + 1)); [|lia].
  apply Z.log2_up_lt_pow2; [|lia]. pose proof (Z.pow_pos_nonneg 2 (k - 1)). lia.
Qed.

(** The last passed test is that of the previous step or an earlier one. *)
Ltac last_doubling j k Hlast :=
  destruct (decide (Z.succ j = k)) as [<-|]; [replace (Z.succ j - 1) with j by lia | apply Hlast; lia].

Section Correct.
Context {W E : Type} (predicate : Z -> eff W E bool) (P : Z -> bool).

(** The worlds the search runs in: the calls of the predicate keep this. *)
Context (I : W -> Prop).

(** [cost] counts events; it is the sum over the parts of a trace. *)
Context (cost : list E -> Z).
Hypothesis cost_nil : cost [] = 0.
Hypothesis cost_app : forall t1 t2, cost (t1 ++ t2)%list = cost t1 + cost t2.

(** Every call of the predicate on the interval answers [P] and costs at
    most one. *)
Context (base top : Z).
Hypothesis answers : forall v, base <= v <= top -> returns_in I (predicate v) (fun b t => b = P v /\ cost t <= 1).
Hypothesis mono : monotone P.

Lemma mono_false u v : u <= v -> P v = false -> P u = false.
Proof. intros Hle Hv. destruct (P u) eqn:Eu; [|done]. by rewrite (mono u v) in Hv. Qed.

Lemma stepDown_spec fuel lo hi j :
  base <= lo -> hi <= top -> 0 <= j -> (0 < fuel)%nat -> hi - lo <= 2 ^ (j + Z.of_nat fuel - 1) ->
  returns_in I (stepDown predicate fuel lo hi (2 ^ j)) (fun step t => exists k,
    j <= k /\ step = 2 ^ k /\ cost t <= k - j + 1 /\
    (j < k -> lo < hi - 2 ^ (k - 1) /\ P (hi - 2 ^ (k - 1)) = true) /\
    (lo < hi - 2 ^ k -> P (hi - 2 ^ k) = false)).
Proof.
  revert j. induction fuel as [|fuel IH]; intros j Hbase Htop Hj Hf Hd; [lia|]. cbn [stepDown].
  destruct (lo <? hi - 2 ^ j) eqn:Hlo; zbool.
  - eapply returns_in_bind; [apply answers; lia|]. intros b t [-> Hc].
    destruct (P (hi - 2 ^ j)) eqn:HP.
    + destruct fuel as [|fuel].
      { replace (j + Z.of_nat 1 - 1) with j in Hd by lia. lia. }
      rewrite Z.mul_comm, <- Z.pow_succ_r by lia.
      eapply returns_in_mono; [apply (IH (Z.succ j)); [lia | lia | lia | lia |]|].
      { replace (Z.succ j + Z.of_nat (S fuel) - 1) with (j + Z.of_nat (S (S fuel)) - 1) by lia. done. }
      intros step t' (k & Hk & -> & Hc' & Hlast & Hstop). exists k. rewrite cost_app.
      repeat split; try lia; try done; by last_doubling j k Hlast.
    + apply returns_in_ret. exists j. rewrite app_nil_r. repeat split; try lia; done.
  - apply returns_in_ret. exists j. rewrite cost_nil. repeat split; try lia.
Qed.

Lemma stepUp_spec fuel lo hi j :
  base <= lo -> hi <= top -> 0 <= j -> (0 < fuel)%nat -> hi - lo <= 2 ^ (j + Z.of_nat fuel - 1) ->
  returns_in I (stepUp predicate fuel lo hi (2 ^ j)) (fun step t => exists k,
    j <= k /\ step = 2 ^ k /\ cost t <= k - j + 1 /\
    (j < k -> lo + 2 ^ (k - 1) < hi /\ P (lo + 2 ^ (k - 1)) = false) /\
    (lo + 2 ^ k < hi -> P (lo + 2 ^ k) = true)).
Proof.
  revert j. induction fuel as [|fuel IH]; intros j Hbase Htop Hj Hf Hd; [lia|]. cbn [stepUp].
  destruct (lo + 2 ^ j <? hi) eqn:Hlo; zbool.
  - eapply returns_in_bind; [apply answers; lia|]. intros b t [-> Hc].
    destruct (P (lo + 2 ^ j)) eqn:HP.
    + apply returns_in_ret. exists j. rewrite app_nil_r. repeat split; try lia; done.
    + destruct fuel as [|fuel].
      { replace (j + Z.of_nat 1 - 1) with j in Hd by lia. lia. }
      rewrite Z.mul_comm, <- Z.pow_succ_r by lia.
      eapply returns_in_mono; [apply (IH (Z.succ j)); [lia | lia | lia | lia |]|].
      { replace (Z.succ j + Z.of_nat (S fuel) - 1) with (j + Z.of_nat (S (S fuel)) - 1) by lia. done. }
      intros step t' (k & Hk & -> & Hc' & Hlast & Hstop). exists k. rewrite cost_app.
      repeat split; try lia; try done; by last_doubling j k Hlast.
  - apply returns_in_ret. exists j. rewrite cost_nil. repeat split; try lia.
Qed.

Lemma bisect_spec fuel lo hi k :
  base <= lo -> hi <= top -> 0 <= k -> hi - lo <= 2 ^ k -> k < Z.of_nat fuel ->
  returns_in I (bisect predicate fuel lo hi) (fun r t =>
    cost t <= k /\ r <= hi /\ (r = hi \/ lo < r) /\ (r = hi \/ P r = true) /\
    (forall v, lo < v < r -> P v = false)).
Proof.
  revert lo hi k. induction fuel as [|fuel IH]; intros lo hi k Hbase Htop Hk Hd Hf; [lia|]. cbn [bisect].
  destruct (lo + 1 <? hi) eqn:Hlo; zbool.
  - assert (0 < k) as Hk0. { destruct (decide (k = 0)) as [->|]; [cbn in Hd; lia|lia]. }
    replace k with (Z.succ (k - 1)) in Hd by lia. rewrite Z.pow_succ_r in Hd by lia.
    set (mid := (lo + hi) / 2).
    assert (lo < mid < hi) as Hmid by (unfold mid; split;
      [apply Z.lt_le_trans with (lo + 1); [lia|apply Z.div_le_lower_bound; lia] |
       apply Z.div_lt_upper_bound; lia]).
    assert (2 * mid <= lo + hi < 2 * mid + 2) as Hm2.
    { unfold mid. pose proof (Z.div_mod (lo + hi) 2). pose proof (Z.mod_pos_bound (lo + hi) 2). lia. }
    eapply returns_in_bind; [apply answers; lia|]. intros b t [-> Hc].
    destruct (P mid) eqn:HP.
    + eapply returns_in_mono; [apply (IH lo mid (k - 1)); lia|].
      intros r t' (Hct & Hr & Hlr & HPr & Hv). rewrite cost_app. repeat split; try lia.
      * right. destruct HPr as [->|]; done.
      * done.
    + eapply returns_in_mono; [apply (IH mid hi (k - 1)); lia|].
      intros r t' (Hct & Hr & Hlr & HPr & Hv). rewrite cost_app. repeat split; try lia; try done.
      intros v Hlv. destruct (Z.le_gt_cases v mid); [by apply (mono_false v mid)|]. apply Hv. lia.
  - apply returns_in_ret. rewrite cost_nil. repeat split; try lia; auto.
Qed.

Lemma half_pow k : 0 < k -> 2 ^ k / 2 = 2 ^ (k - 1).
Proof.
  intros Hk. replace k with (Z.succ (k - 1)) at 1 by lia.
  by rewrite Z.pow_succ_r, Z.mul_comm, Z.div_mul by lia.
Qed.

Lemma pow_lt_fuel k d fuel : 0 < k -> 2 ^ (k - 1) < d -> d <= 2 ^ (0 + Z.of_nat fuel - 1) -> k < Z.of_nat fuel.
Proof.
  intros Hk H1 H2. assert (k - 1 < 0 + Z.of_nat fuel - 1); [|lia].
  apply (Z.pow_lt_mono_r_iff 2); [lia | | lia].
  destruct (Z.le_gt_cases 0 (0 + Z.of_nat fuel - 1)); [done|].
  rewrite (Z.pow_neg_r 2 (0 + _ - 1)) in H2 by done. pose proof (Z.pow_pos_nonneg 2 (k - 1)). lia.
Qed.

(** What the search establishes, [from] being the lower end it looks at. *)
Definition found (from hi est r : Z) (t : list E) : Prop :=
  from <= r <= hi /\ (from < est -> from < r) /\ (r = hi \/ P r = true) /\ (forall v, from < v < r -> P v = false) /\
  cost t <= 2 * doublings (Z.abs (est - r)) + 2 /\ (P est = true -> r <= est).

Lemma search_down lo hi est fuel t0 :
  base <= lo -> est <= top -> est <= hi -> P est = true -> cost t0 <= 1 -> (0 < fuel)%nat -> est - lo <= 2 ^ (0 + Z.of_nat fuel - 1) ->
  returns_in I
    (step ← stepDown predicate fuel lo est 1;
     bisect predicate fuel (Z.max lo (est - step / 2 - step)) (est - step / 2))
    (fun r t => found (Z.min lo est) hi est r (t0 ++ t)).
Proof.
  intros Hbase Htop He HP Ht0 Hf Hfuel. change 1 with (2 ^ 0).
  eapply returns_in_bind; [by apply (stepDown_spec fuel lo est 0)|].
  intros step t (k & Hk & -> & Hc & Hlast & Hstop).
  assert (0 < 2 ^ k) by (apply Z.pow_pos_nonneg; lia).
  assert (exists hi', est - 2 ^ k / 2 = hi' /\ hi' <= est /\ P hi' = true /\ k < Z.of_nat fuel /\
    (forall r, r <= hi' -> k <= doublings (Z.abs (est - r))) /\ est - 2 ^ k < hi' /\ (lo < est -> lo < hi') /\ (est <= lo -> hi' = est))
    as (hi' & -> & Hhi & HPhi & Hkf & Hdbl & Hgap & Hlo & Heq).
  { destruct (decide (k = 0)) as [->|Hk0].
    - exists est. change (2 ^ 0 / 2) with 0. repeat split; try lia; try done.
      intros. apply Z.log2_up_nonneg.
    - destruct Hlast as [Hl HPl]; [lia|]. exists (est - 2 ^ (k - 1)). rewrite half_pow by lia.
      assert (0 < 2 ^ (k - 1)) by (apply Z.pow_pos_nonneg; lia).
      assert (2 ^ k = 2 * 2 ^ (k - 1)) by (rewrite <- Z.pow_succ_r by lia; f_equal; lia).
      repeat split; try lia; try done.
      + eapply pow_lt_fuel; [| |exact Hfuel]; lia.
      + intros r Hr. apply doublings_spec; lia. }
  eapply returns_in_mono; [apply (bisect_spec fuel _ hi' k); lia|].
  intros r t' (Hct & Hr & Hlr & HPr & Hv). unfold found. rewrite !cost_app.
  specialize (Hdbl r Hr). repeat split; try lia.
  - destruct HPr as [->|]; auto.
  - intros v Hvr. destruct (Z.le_gt_cases v (Z.max lo (hi' - 2 ^ k))); [|apply Hv; lia].
    apply (mono_false v (est - 2 ^ k)); [lia|]. apply Hstop. lia.
Qed.

Lemma search_up lo hi est fuel t0 :
  base <= est -> hi <= top -> est <= hi -> P est = false -> cost t0 <= 1 -> (0 < fuel)%nat -> hi - est <= 2 ^ (0 + Z.of_nat fuel - 1) ->
  returns_in I
    (step ← stepUp predicate fuel est hi 1;
     bisect predicate fuel (est + step / 2) (Z.min hi (est + step / 2 + step)))
    (fun r t => found (Z.min lo est) hi est r (t0 ++ t)).
Proof.
  intros Hbase Htop He HP Ht0 Hf Hfuel. change 1 with (2 ^ 0).
  eapply returns_in_bind; [by apply (stepUp_spec fuel est hi 0)|].
  intros step t (k & Hk & -> & Hc & Hlast & Hstop).
  assert (0 < 2 ^ k) by (apply Z.pow_pos_nonneg; lia).
  assert (exists lo', est + 2 ^ k / 2 = lo' /\ est <= lo' /\ P lo' = false /\ k < Z.of_nat fuel /\
    (forall r, lo' < r -> k <= doublings (Z.abs (est - r))) /\
    (lo' < hi \/ k = 0 /\ lo' = hi))
    as (lo' & -> & Hlo & HPlo & Hkf & Hdbl & Hgap).
  { destruct (decide (k = 0)) as [->|Hk0].
    - exists est. change (2 ^ 0 / 2) with 0. repeat split; try lia; try done.
      intros. apply Z.log2_up_nonneg.
    - destruct Hlast as [Hl HPl]; [lia|]. exists (est + 2 ^ (k - 1)). rewrite half_pow by lia.
      assert (0 < 2 ^ (k - 1)) by (apply Z.pow_pos_nonneg; lia).
      repeat split; try lia; try done.
      + eapply pow_lt_fuel; [| |exact Hfuel]; lia.
      + intros r Hr. apply doublings_spec; lia. }
  eapply returns_in_mono; [apply (bisect_spec fuel lo' _ k); lia|].
  intros r t' (Hct & Hr & Hlr & HPr & Hv). unfold found. rewrite !cost_app.
  assert (k <= doublings (Z.abs (est - r))).
  { destruct Hgap as [|[-> ->]]; [apply Hdbl; lia | apply Z.log2_up_nonneg]. }
  repeat split; try lia.
  - destruct (decide (r = hi)); [auto|]. right. destruct HPr as [->|]; [|done].
    apply (mono (est + 2 ^ k)); [lia|]. apply Hstop. lia.
  - intros v Hvr. destruct (Z.le_gt_cases v lo'); [by apply (mono_false v lo') | apply Hv; lia].
  - congruence.
Qed.

Lemma search_found lo hi est fuel :
  base = Z.min lo est -> top = hi -> est <= hi -> doublings (hi - Z.min lo est) < Z.of_nat fuel ->
  returns_in I (binarySearchWithEstimate predicate fuel lo hi est) (found (Z.min lo est) hi est).
Proof.
  intros Hbase Htop He Hfuel.
  assert (0 <= doublings (hi - Z.min lo est)) as H0 by apply Z.log2_up_nonneg.
  assert (hi - Z.min lo est <= 2 ^ (0 + Z.of_nat fuel - 1)) as Hd.
  { unfold doublings in *. transitivity (2 ^ Z.log2_up (hi - Z.min lo est + 1)).
    - destruct (Z.le_gt_cases (hi - Z.min lo est) 0) as [Hz|Hz].
      + pose proof (Z.pow_pos_nonneg 2 (Z.log2_up (hi - Z.min lo est + 1))). lia.
      + pose proof (Z.log2_up_spec (hi - Z.min lo est + 1)). lia.
    - apply Z.pow_le_mono_r; lia. }
  unfold binarySearchWithEstimate. eapply returns_in_bind; [apply answers; lia|]. intros b t [-> Hc].
  destruct (P est) eqn:HP; [apply search_down | apply search_up]; try done; lia.
Qed.

End Correct.

(** ** A predicate that is a threshold near the estimate only

    The client forgets old blocks, so far from the estimate the predicate is
    false again.  The search does not look that far. *)

Section Window.
Context {W E : Type} (predicate : Z -> eff W E bool) (I : W -> Prop) (d base top : Z).
Hypothesis answers : forall v, base <= v <= top -> returns_in I (predicate v) (fun b _ => b = (d <=? v)).

Lemma bisect_window fuel lo hi k :
  base <= lo -> hi <= top + 1 -> 0 <= k -> hi - lo <= 2 ^ k -> k < Z.of_nat fuel -> lo < d <= hi ->
  returns_in I (bisect predicate fuel lo hi) (fun r _ => r = d).
Proof.
  revert lo hi k. induction fuel as [|fuel IH]; intros lo hi k Hb Ht Hk Hd Hf Hr; [lia|]. cbn [bisect].
  destruct (lo + 1 <? hi) eqn:Hlo; zbool; [|apply returns_in_ret; lia].
  assert (0 < k) as Hk0. { destruct (decide (k = 0)) as [->|]; [cbn in Hd; lia | lia]. }
  replace k with (Z.succ (k - 1)) in Hd by lia. rewrite Z.pow_succ_r in Hd by lia.
  pose proof (Z.div_mod (lo + hi) 2 ltac:(lia)). pose proof (Z.mod_pos_bound (lo + hi) 2 ltac:(lia)).
  set (mid := (lo + hi) / 2) in *. eapply returns_in_bind; [apply answers; lia|]. intros b t ->.
  destruct (d <=? mid) eqn:Em; zbool; (eapply returns_in_mono; [apply (IH _ _ (k - 1)); lia | done]).
Qed.

Lemma stepUp_window est hi fuel j :
  base <= est -> est < d -> d <= hi -> 3 * d - 2 * est <= top + 1 -> 0 <= j -> (j = 0 \/ 2 ^ (j - 1) < d - est) -> (0 < fuel)%nat ->
  d - est <= 2 ^ (j + Z.of_nat fuel - 1) ->
  returns_in I (stepUp predicate fuel est hi (2 ^ j)) (fun step _ => exists k,
    0 <= k < j + Z.of_nat fuel /\ step = 2 ^ k /\ (k = 0 \/ 2 ^ (k - 1) < d - est) /\ (hi <= est + 2 ^ k \/ d - est <= 2 ^ k)).
Proof.
  intros Hb He Hh Ht. revert j. induction fuel as [|fuel IH]; intros j Hj Hprev Hf Hfuel; [lia|]. cbn [stepUp].
  assert (2 ^ j < 2 * (d - est)) as Hj2.
  { destruct Hprev as [->|Hp]; [cbn; lia|]. destruct (decide (j = 0)) as [->|]; [cbn; lia|].
    replace j with (Z.succ (j - 1)) by lia. rewrite Z.pow_succ_r by lia. lia. }
  pose proof (Z.pow_pos_nonneg 2 j ltac:(lia) Hj).
  destruct (est + 2 ^ j <? hi) eqn:Hlt; zbool; [|apply returns_in_ret; exists j; repeat split; auto; lia].
  eapply returns_in_bind; [apply answers; lia|]. intros b t ->. destruct (d <=? est + 2 ^ j) eqn:Ed; zbool.
  - apply returns_in_ret. exists j. repeat split; auto; lia.
  - destruct fuel as [|fuel].
    { replace (j + Z.of_nat 1 - 1) with j in Hfuel by lia. lia. }
    rewrite Z.mul_comm, <- Z.pow_succ_r by lia.
    eapply returns_in_mono; [apply (IH (Z.succ j)); [lia | right | lia |]|].
    + replace (Z.succ j - 1) with j by lia. lia.
    + replace (Z.succ j + Z.of_nat (S fuel) - 1) with (j + Z.of_nat (S (S fuel)) - 1) by lia. done.
    + intros step t' (k & Hk & Hrest). exists k. split; [lia | done].
Qed.

(** From an estimate at most at the threshold, the threshold is found; the
    positions looked at are at most three times as far from the estimate. *)
Lemma search_window lo hi est fuel :
  base <= est - 1 -> est <= d <= hi -> est < d \/ lo <= d -> 3 * d - 2 * est <= top + 1 -> d <= top -> doublings (d - est) + 1 < Z.of_nat fuel ->
  returns_in I (binarySearchWithEstimate predicate fuel lo hi est) (fun r _ => r = d).
Proof.
  intros Hb [He Hh] Hlo Ht Hdt Hf. assert (0 <= doublings (d - est)) as Hd0 by apply Z.log2_up_nonneg.
  unfold binarySearchWithEstimate. eapply returns_in_bind; [apply answers; lia|]. intros b t ->.
  destruct (d <=? est) eqn:Ed; zbool.
  - assert (est = d) as -> by lia.
    assert (returns_in I (stepDown predicate fuel lo d 1) (fun step _ => step = 1)) as Hsd.
    { destruct fuel as [|fuel]; [lia|]. cbn [stepDown]. destruct (lo <? d - 1); [|by apply returns_in_ret].
      eapply returns_in_bind; [apply answers; lia|]. intros b t' ->. rewrite (proj2 (Z.leb_gt d (d - 1))) by lia. by apply returns_in_ret. }
    eapply returns_in_bind; [exact Hsd|]. intros step t' ->. change (1 / 2) with 0. rewrite Z.sub_0_r.
    destruct fuel as [|fuel]; [lia|]. cbn [bisect]. rewrite (proj2 (Z.ltb_ge _ _)) by lia. by apply returns_in_ret.
  - eapply returns_in_bind; [apply (stepUp_window est hi fuel 0); try done; try lia; auto|].
    { unfold doublings in Hf. destruct (Z.log2_up_spec (d - est + 1) ltac:(lia)) as [_ Hle].
      etransitivity; [|apply (Z.pow_le_mono_r 2 (Z.log2_up (d - est + 1))); lia]. lia. }
    intros step t' (k & Hk & -> & Hprev & Hstop). pose proof (Z.pow_pos_nonneg 2 k ltac:(lia) ltac:(lia)).
    assert (est + 2 ^ k / 2 < d /\ est <= est + 2 ^ k / 2 /\ 2 ^ k < 2 * (d - est)) as (Hl1 & Hl2 & Hl3).
    { destruct Hprev as [->|Hp]; [change (2 ^ 0 / 2) with 0; change (2 ^ 0) with 1; lia|].
      destruct (decide (k = 0)) as [->|]; [change (2 ^ 0 / 2) with 0; change (2 ^ 0) with 1; lia|]. rewrite half_pow by lia.
      assert (2 ^ k = 2 * 2 ^ (k - 1)) by (rewrite <- Z.pow_succ_r by lia; f_equal; lia). lia. }
    eapply returns_in_mono; [apply (bisect_window fuel _ _ k); lia | done].
Qed.

End Window.

(** The first position where a monotone predicate holds is unique. *)
Lemma found_unique {E} P (cost : list E -> Z) base hi est r t p :
  monotone P -> found P cost base hi est r t -> P p = true -> P (p - 1) = false -> base < p <= hi -> r = p.
Proof.
  intros Hm (Hr & Hb & HPr & Hv & _) Hp Hp1 Hlt.
  destruct (Z.lt_trichotomy r p) as [Hl|[->|Hg]]; [|done|].
  - assert (P r = false) by (apply (mono_false P Hm r (p - 1)); [lia | done]).
    destruct HPr as [->|HPr]; [lia|congruence].
  - rewrite Hv in Hp by lia. discriminate.
Qed.

(** ** Properties *)

Section Properties.
Context {W E : Type}.

(** A predicate that answers [P] on an interval, from every world. *)
Definition computes (lo hi : Z) (predicate : Z -> eff W E bool) (P : Z -> bool) : Prop :=
  forall v, lo <= v <= hi -> returns (predicate v) (fun b _ => b = P v).

Lemma search_computes predicate P lo hi est fuel :
  computes (Z.min lo est) hi predicate P -> monotone P -> est <= hi -> doublings (hi - Z.min lo est) < Z.of_nat fuel ->
  returns (binarySearchWithEstimate predicate fuel lo hi est)
    (found P (fun _ => 0) (Z.min lo est) hi est).
Proof.
  intros Ha Hm He Hf. apply returns_in_always, (search_found _ _ _) with (base := Z.min lo est) (top := hi); try done.
  intros v Hv. apply returns_in_always. eapply returns_mono; [by apply Ha|]. intros b t ->. split; [done|lia].
Qed.

(** C21: with logarithmic fuel the search returns, from every estimate that
    is at most the upper limit: for a monotone predicate the result lies
    between the lower end (or the estimate, when that is below it) and the
    upper limit, the predicate holds there or it is the upper limit, and it
    is false everywhere strictly between the lower end and the result. *)
Theorem binarySearch_finds_first predicate P lo hi est fuel :
  computes (Z.min lo est) hi predicate P -> monotone P -> est <= hi -> doublings (hi - Z.min lo est) < Z.of_nat fuel ->
  returns (binarySearchWithEstimate predicate fuel lo hi est) (fun r _ =>
    Z.min lo est <= r <= hi /\ (r = hi \/ P r = true) /\
    (forall v, Z.min lo est < v < r -> P v = false)).
Proof.
  intros Ha Hm He Hf. eapply returns_mono; [by apply (search_computes predicate P)|].
  intros r t (? & ? & ? & ? & _). done.
Qed.

(** Any two estimates find the same position: the first one above the
    lower end where the predicate holds. *)
Theorem binarySearch_estimate_irrelevant predicate P lo hi est fuel p :
  computes (Z.min lo est) hi predicate P -> monotone P -> est <= hi -> doublings (hi - Z.min lo est) < Z.of_nat fuel ->
  P p = true -> P (p - 1) = false -> Z.min lo est < p <= hi ->
  returns (binarySearchWithEstimate predicate fuel lo hi est) (fun r _ => r = p).
Proof.
  intros Ha Hm He Hf Hp Hp1 Hlt. eapply returns_mono; [by apply (search_computes predicate P)|].
  intros r t H. by eapply found_unique.
Qed.

(** The position [limitLo] is only returned when it is the estimate:
    with the estimate above it the search stops at [limitLo + 1], although
    the predicate already holds at [limitLo]. *)
Theorem binarySearch_skips_limitLo predicate P lo hi est fuel :
  computes (Z.min lo est) hi predicate P -> monotone P -> lo < est <= hi -> doublings (hi - Z.min lo est) < Z.of_nat fuel ->
  P lo = true ->
  returns (binarySearchWithEstimate predicate fuel lo hi est) (fun r _ => r = lo + 1).
Proof.
  intros Ha Hm He Hf HP. eapply returns_mono; [apply (search_computes predicate P); try done; lia|].
  intros r t (Hr & Hb & HPr & Hv & _).
  destruct (Z.le_gt_cases r (lo + 1)) as [|Hgt]; [lia|].
  assert (P (lo + 1) = true) as HP1 by (apply (Hm lo); [lia|done]).
  rewrite Hv in HP1 by lia. discriminate.
Qed.

(** The same, with every call recorded as one event. *)
Definition recorded (lo hi : Z) (predicate : Z -> eff W E bool) (P : Z -> bool) : Prop :=
  forall v, lo <= v <= hi -> returns (predicate v) (fun b t => b = P v /\ length t = 1%nat).

Lemma search_recorded predicate P lo hi est fuel :
  recorded (Z.min lo est) hi predicate P -> monotone P -> est <= hi -> doublings (hi - Z.min lo est) < Z.of_nat fuel ->
  returns (binarySearchWithEstimate predicate fuel lo hi est)
    (found P (fun t => Z.of_nat (length t)) (Z.min lo est) hi est).
Proof.
  intros Ha Hm He Hf. apply returns_in_always, (search_found _ _ _) with (base := Z.min lo est) (top := hi); try done.
  - intros t1 t2. rewrite length_app. lia.
  - intros v Hv. apply returns_in_always. eapply returns_mono; [by apply Ha|]. intros b t [-> Ht]. split; [done|lia].
Qed.

(** The search is logarithmic in the distance between the estimate and
    the position it returns: at most [2 * log2_up (distance + 1) + 2] calls
    of the predicate. *)
Theorem binarySearch_calls predicate P lo hi est fuel :
  recorded (Z.min lo est) hi predicate P -> monotone P -> est <= hi -> doublings (hi - Z.min lo est) < Z.of_nat fuel ->
  returns (binarySearchWithEstimate predicate fuel lo hi est) (fun r t =>
    Z.of_nat (length t) <= 2 * Z.log2_up (Z.abs (est - r) + 1) + 2).
Proof.
  intros Ha Hm He Hf. eapply returns_mono; [by apply (search_recorded predicate P)|].
  intros r t (_ & _ & _ & _ & H & _). exact H.
Qed.

(** When the estimate is the right position, the predicate is called at
    most twice and the estimate is returned. *)
Theorem binarySearch_exact_estimate predicate P lo hi est fuel :
  recorded (Z.min lo est) hi predicate P -> monotone P -> lo < est <= hi -> doublings (hi - Z.min lo est) < Z.of_nat fuel ->
  P est = true -> P (est - 1) = false ->
  returns (binarySearchWithEstimate predicate fuel lo hi est) (fun r t =>
    r = est /\ (length t <= 2)%nat).
Proof.
  intros Ha Hm He Hf Hp Hp1.
  eapply returns_mono; [apply (search_recorded predicate P); try done; lia|].
  intros r t H. assert (r = est) as -> by (eapply found_unique; eauto; lia).
  destruct H as (_ & _ & _ & _ & Hc & _).
  rewrite Z.sub_diag in Hc. change (doublings (Z.abs 0)) with 0 in Hc. split; [done|lia].
Qed.

End Properties.

(** ** Witnesses *)

Module Witness.

(** Blocks of the client up to 37 below its head are not on the main chain. *)
Definition fork37 (v : Z) : bool := 37 <=? v.

Definition probe (v : Z) : eff unit Z bool := _ ← emit v; mret (fork37 v).

Lemma fork37_monotone : monotone fork37.
Proof. intros u v. unfold fork37. intros Hle Hu. zbool. apply Z.leb_le. lia. Qed.

Lemma probe_recorded lo hi : recorded lo hi probe fork37.
Proof. intros v _ w. by exists (fork37 v), w, [v]. Qed.

Lemma probe_computes lo hi : computes lo hi probe fork37.
Proof. intros v _ w. by exists (fork37 v), w, [v]. Qed.

Example search_run : binarySearchWithEstimate probe 64 0 1000 30 tt = (Ret 37, tt, [30; 31; 32; 34; 38; 38; 36; 37]).
Proof. vm_compute. reflexivity. Qed.

Lemma binarySearch_finds_first_witness :
  returns (binarySearchWithEstimate probe 64 0 1000 30) (fun r _ =>
    Z.min 0 30 <= r <= 1000 /\ (r = 1000 \/ fork37 r = true) /\
    (forall v, Z.min 0 30 < v < r -> fork37 v = false)).
Proof.
  apply binarySearch_finds_first; [apply probe_computes | exact fork37_monotone | lia | reflexivity].
Defined.

Lemma binarySearch_estimate_irrelevant_witness :
  returns (binarySearchWithEstimate probe 64 0 1000 900) (fun r _ => r = 37).
Proof.
  apply (binarySearch_estimate_irrelevant probe fork37);
    [apply probe_computes | exact fork37_monotone | lia | reflexivity | reflexivity | reflexivity | lia].
Defined.

Lemma binarySearch_skips_limitLo_witness :
  returns (binarySearchWithEstimate (E := Z) (fun _ => mret (M := eff unit Z) true) 64 0 1000 5) (fun r _ => r = 0 + 1).
Proof.
  apply (binarySearch_skips_limitLo _ (fun _ => true)); try reflexivity; try lia.
  - intros v _ w. by exists true, w, [].
  - done.
Defined.

Lemma binarySearch_calls_witness :
  returns (binarySearchWithEstimate probe 64 0 1000 30) (fun r t =>
    Z.of_nat (length t) <= 2 * Z.log2_up (Z.abs (30 - r) + 1) + 2).
Proof.
  apply (binarySearch_calls probe fork37); [apply probe_recorded | exact fork37_monotone | lia | reflexivity].
Defined.

Lemma binarySearch_exact_estimate_witness :
  returns (binarySearchWithEstimate probe 64 0 1000 37) (fun r t => r = 37 /\ (length t <= 2)%nat).
Proof.
  apply (binarySearch_exact_estimate probe fork37);
    [apply probe_recorded | exact fork37_monotone | lia | reflexivity | reflexivity | reflexivity].
Defined.

End Witness.
