(* ===== verification/Robust.v ===== *)
(** * Retrying wrappers (utils/robust.js)

    [retry] and [backoff], the [RobustWeb3] wrapper of an Ethereum node, and
    [promiseWithTimeout].  The node itself is a record of services; the
    events of a run are its calls and the sleeps between them.  Console
    output is not recorded. *)

From Stdlib Require Import SpecFloat.
From stdpp Require Import pretty.
From S2P Require Import Prelude.

(** ** JavaScript numbers of the delays

    Delays are doubles: [delay * wait] is the correctly rounded product. *)

Definition number : Type := spec_float.
Definition num_mul (x y : number) : number := SFmul 53 1024 x y.
Definition num_of_Z (n : Z) : number := binary_normalize 53 1024 n 0 false.

(** ** Events *)

Inductive event : Type :=
| Sleep (ms : number)
| SetProvider (url : string)
| Call (name : string) (args : list val).

Definition RETRY : nat := 10.
Definition DELAY : number := num_of_Z 500.
(** The double nearest to 1.2. *)
Definition BACKOFF : number := S754_finite false 5404319552844595 (-52).

Definition err_toString (e : js_error) : string := err_name e +:+ ": " +:+ err_message e.

Section Retry.
Context {W A : Type}.
Implicit Types fn : eff W event A.

Fixpoint retry (retries : nat) fn : eff W event A :=
  try_catch fn (fun err =>
    match retries with
    | S retries' => if (1 <? retries)%nat then retry retries' fn else throw err
    | O => throw err
    end).

Definition sleep (duration : number) : eff W event unit := emit (Sleep duration).

(** [backoff (retries - 1) fn (delay * wait)]: the recursive call leaves
    out [wait], which is [BACKOFF] again from the second failure on. *)
Fixpoint backoff_with (retries : nat) fn (delay wait : number) : eff W event A :=
  try_catch fn (fun err =>
    match retries with
    | S retries' =>
        if (1 <? retries)%nat then
          _ ← sleep delay; backoff_with retries' fn (num_mul delay wait) BACKOFF
        else throw err
    | O => throw err
    end).

Definition backoff (retries : nat) fn : eff W event A := backoff_with retries fn DELAY BACKOFF.

End Retry.

(** ** [promiseWithTimeout]

    A promise that settles is its time of settling (in ms from now) and
    its outcome; one that never settles is [None].  In the race the timer
    loses against a promise that settles earlier. *)

Definition promise (A : Type) : Type := option (Z * outcome A).

Definition promiseWithTimeout {A} (timeoutMs : Z) (p : promise A) (failureMessage : string) : outcome A :=
  match p with
  | Some (time, o) => if time <? timeoutMs then o else Throw (Error failureMessage)
  | None => Throw (Error failureMessage)
  end.

Definition SLOW_TX_ERROR_MSG : string := "transaction not executed within 5 minutes".

(** [RobustWeb3.destroy]: only a WebSocket connection can be closed. *)
Definition destroy {W} (connection : val) (close : service W unit) : eff W event unit :=
  if truthy connection then
    canClose ← lift (get_prop connection "close");
    if truthy canClose then perform (Call "connection.close" []) close else mret tt
  else mret tt.

(** [normalizeEthKey] *)
Definition normalizeEthKey (key : string) : string :=
  let result := str_lower key in
  if String.prefix "0x" result then result else "0x" +:+ result.

(** ** The Ethereum node *)

Record Tx := {
  tx_from : val;
  tx_to : string;
  tx_handleRevert : val;
  tx_gas : val;
  tx_gasPrice : val;
  tx_nonce : val;
  tx_data : string
}.

Definition tx_args (tx : Tx) : list val :=
  [tx_from tx; VStr (tx_to tx); tx_handleRevert tx; tx_gas tx; tx_gasPrice tx; tx_nonce tx; VStr (tx_data tx)].

(** A decoded log: its event name, if the ABI knows one, and its content. *)
Record DecodedEvent := { ev_event : option string; ev_data : val }.

(** A property of [receipt.events]: one event, or an array of several. *)
Inductive eventSlot : Type :=
| One (ev : DecodedEvent)
| Many (evs : list DecodedEvent).

(** [logs] is [None] when the receipt has no array of logs. *)
Record Receipt := {
  rc_logs : option (list val);
  rc_events : list (string * eventSlot);
  rc_rest : val
}.

Record Web3Node (W : Type) := {
  node_getBlockNumber : service W val;
  node_getBlock : val -> service W val;
  node_getTransactionReceipt : val -> service W val;
  node_getGasPrice : service W Z;
  node_getTransactionCount : val -> service W Z;
  node_call : Tx -> service W val;
  node_sendTransaction : Tx -> W -> promise Receipt * W
}.

Arguments node_getBlockNumber {W} _.
Arguments node_getBlock {W} _ _.
Arguments node_getTransactionReceipt {W} _ _.
Arguments node_getGasPrice {W} _.
Arguments node_getTransactionCount {W} _ _.
Arguments node_call {W} _ _.
Arguments node_sendTransaction {W} _ _ _.

Definition not_open (e : js_error) : bool := String.eqb (err_toString e) "Error: connection not open".

Section RobustWeb3.
Context {W : Type} (ethNodeUrl : string) (node : Web3Node W).

(** [try { m } catch (e) { if (not open) setProvider; throw e }] *)
Definition reconnecting {A} (m : eff W event A) : eff W event A :=
  try_catch m (fun e =>
    if not_open e then _ ← emit (SetProvider ethNodeUrl); throw e else throw e).

Definition getBlockNumber : eff W event val :=
  backoff RETRY (reconnecting (perform (Call "eth.getBlockNumber" []) (node_getBlockNumber node))).

Definition getBlock (b : val) : eff W event val :=
  backoff RETRY (reconnecting (
    block ← perform (Call "eth.getBlock" [b]) (node_getBlock node b);
    match block with
    | VNull => throw (Error "web3.eth.getBlock returns null")
    | _ => mret block
    end)).

Definition getTransactionReceipt (t : val) : eff W event val :=
  backoff RETRY (reconnecting (
    perform (Call "eth.getTransactionReceipt" [t]) (node_getTransactionReceipt node t))).

End RobustWeb3.

(** ** [callContract] *)

(** [options] of a call; [gasPrice] is [VUndef] when it is not given. *)
Record CallOptions := {
  co_from : val;
  co_gas : val;
  co_gasPrice : val;
  co_handleRevert : val
}.

(** The [events.forEach] that keys the decoded events by name. *)
Definition add_event (st : list (string * eventSlot) * Z) (ev : DecodedEvent) : list (string * eventSlot) * Z :=
  let '(events, count) := st in
  match ev_event ev with
  | Some name =>
      match assoc name events with
      | Some (Many evs) => (assoc_set name (Many (evs ++ [ev])) events, count)
      | Some (One ev0) => (assoc_set name (Many [ev0; ev]) events, count)
      | None => (assoc_set name (One ev) events, count)
      end
  | None => (assoc_set (pretty count) (One ev) events, count + 1)
  end.

Definition group_events (events : list DecodedEvent) : list (string * eventSlot) :=
  (fold_left add_event events ([], 0)).1.

(** [receipt] with its logs decoded; the receipt is updated in place. *)
Definition decode_receipt (decodeEventABI : val -> DecodedEvent) (receipt : Receipt) : Receipt :=
  match rc_logs receipt with
  | Some logs =>
      {| rc_logs := None; rc_events := group_events (map decodeEventABI logs); rc_rest := rc_rest receipt |}
  | None => receipt
  end.

Definition nonce_error (e : js_error) : bool :=
  str_includes "the tx doesn't have the correct nonce" (err_message e) ||
  str_includes "replacement transaction underpriced" (err_message e).

Section CallContract.
Context {W : Type} (ethNodeUrl : string) (node : Web3Node W).
(** [Web3.utils.toHex] of a number and of the gas option, and the contract
    object: its address, the encoded call and the decoder of its logs. *)
Context (toHex : Z -> val) (toHexVal : val -> val).
Context (address : string) (encodeABI : outcome string) (decodeEventABI : val -> DecodedEvent).
Context (options : CallOptions).

Definition call_tx (gasPrice nonce : Z) (data : string) : Tx :=
  {| tx_from := co_from options; tx_to := address; tx_handleRevert := co_handleRevert options;
     tx_gas := toHexVal (co_gas options);
     tx_gasPrice := js_or (co_gasPrice options) (toHex gasPrice);
     tx_nonce := toHex nonce; tx_data := data |}.

(** [web3.eth.sendTransaction(tx)] under the five-minute timer. *)
Definition send_with_timeout (tx : Tx) : eff W event Receipt :=
  perform (Call "eth.sendTransaction" (tx_args tx)) (fun w =>
    let '(p, w') := node_sendTransaction node tx w in
    (promiseWithTimeout (5 * 60 * 1000) p SLOW_TX_ERROR_MSG, w')).

(** The body of the [try]. *)
Definition attempt (gasPrice nonce : Z) : eff W event Receipt :=
  data ← lift encodeABI;
  let tx := call_tx gasPrice nonce data in
  _ ← try_catch (perform (Call "eth.call" (tx_args tx)) (node_call node tx)) (fun _ => mret VUndef);
  receipt ← send_with_timeout tx;
  mret (decode_receipt decodeEventABI receipt).

(** [while (gasPrice < 10000 * 1e9) ...] *)
Fixpoint call_loop (fuel : nat) (gasPrice nonce : Z) : eff W event Receipt :=
  match fuel with
  | O => stuck
  | S fuel' =>
      if gasPrice <? 10000 * 1000000000 then
        try_catch (attempt gasPrice nonce) (fun e =>
          if String.eqb (err_message e) SLOW_TX_ERROR_MSG then call_loop fuel' (gasPrice * 2) nonce
          else if nonce_error e then
            call_loop fuel' gasPrice (nonce + 1)
          else if not_open e then
            _ ← emit (SetProvider ethNodeUrl); call_loop fuel' gasPrice nonce
          else throw e)
      else throw (Error "Cannot finish txn within 1e13 gas")
  end.

Definition callContract (fuel : nat) : eff W event Receipt :=
  gasPrice ← perform (Call "eth.getGasPrice" []) (node_getGasPrice node);
  nonce ← perform (Call "eth.getTransactionCount" [co_from options; VStr "pending"])
            (node_getTransactionCount node (co_from options));
  call_loop fuel gasPrice nonce.

End CallContract.

(** ** Lemmas on [backoff] *)

(** The sleeps of a trace. *)
Definition sleeps (t : list event) : list number :=
  omap (fun e => match e with Sleep d => Some d | _ => None end) t.

Arguments sleeps : simpl never.

Lemma sleeps_app t1 t2 : sleeps (t1 ++ t2) = (sleeps t1 ++ sleeps t2)%list.
Proof. apply omap_app. Qed.

Section BackoffLemmas.
Context {W A : Type} (fn : eff W event A).

(** [n] failing attempts, each followed by its sleep. *)
Inductive failing : nat -> number -> number -> W -> W -> list event -> Prop :=
| failing_none d k w : failing 0 d k w w []
| failing_more n d k w e w1 t1 w2 t2 :
    fn w = (Throw e, w1, t1) -> failing n (num_mul d k) BACKOFF w1 w2 t2 ->
    failing (S n) d k w w2 (t1 ++ Sleep d :: t2)%list.

Definition settles : Prop :=
  forall w, match out_of (fn w) with Ret _ | Throw _ => True | _ => False end.

Lemma backoff_runs_aux retries d k w :
  settles ->
  exists n w1 t1, failing n d k w w1 t1 /\ (n < Nat.max 1 retries)%nat /\
    backoff_with retries fn d k w = (out_of (fn w1), world_of (fn w1), t1 ++ trace_of (fn w1))%list /\
    (is_ret (out_of (fn w1)) = true \/ S n = Nat.max 1 retries).
Proof.
  intros Hs. revert d k w. induction retries as [|r IH]; intros d k w;
    (specialize (Hs w); destruct (fn w) as [[[a|e| |] w1] t1] eqn:Ef; try done; clear Hs);
    cbn [backoff_with]; unfold try_catch; rewrite ?Ef.
  1, 3: exists 0%nat, w, []; rewrite Ef; split; [apply failing_none|]; cbn; repeat split; auto; lia.
  - exists 0%nat, w, []. rewrite Ef. split; [apply failing_none|]. cbn. rewrite app_nil_r. repeat split; auto; lia.
  - destruct (1 <? S r)%nat eqn:Hr.
    + apply Nat.ltb_lt in Hr. destruct (IH (num_mul d k) BACKOFF w1) as (n & w2 & t2 & Hf & Hn & Hb & Ho).
      exists (S n), w2, (t1 ++ Sleep d :: t2)%list. rewrite eff_bind_eq. cbn. rewrite Hb. cbn.
      repeat split; [by econstructor | lia | by rewrite <- app_assoc |].
      destruct Ho; [by left | right; lia].
    + apply Nat.ltb_ge in Hr. exists 0%nat, w, []. rewrite Ef. split; [apply failing_none|].
      cbn. rewrite app_nil_r. repeat split; auto; lia.
Qed.

Fixpoint schedule (n : nat) (d k : number) : list number :=
  match n with
  | O => []
  | S n' => d :: schedule n' (num_mul d k) BACKOFF
  end.

Lemma failing_sleeps n d k w w' t :
  (forall v, sleeps (trace_of (fn v)) = []) -> failing n d k w w' t -> sleeps t = schedule n d k.
Proof.
  intros Hq. induction 1 as [|n d k w e w1 t1 w2 t2 Ef _ IH]; [done|].
  rewrite sleeps_app. specialize (Hq w). rewrite Ef in Hq.
  change (sleeps t1 = []) in Hq. rewrite Hq. cbn. unfold sleeps in *. cbn. by f_equal.
Qed.

End BackoffLemmas.

Lemma backoff_respects {W A} (I : W -> W -> list event -> Prop) `{!TraceRel I} retries (fn : eff W event A) d k :
  (forall ms w, I w w [Sleep ms]) -> respects I fn -> respects I (backoff_with retries fn d k).
Proof.
  intros Hs Hf. revert d k. induction retries as [|r IH]; intros d k; cbn [backoff_with];
    (apply respects_try; [apply _ | done | intros e]); [apply respects_lift, _|].
  case_match; [|apply respects_lift, _].
  apply respects_bind; [apply _ | by apply respects_emit | intros _; apply IH].
Qed.

Lemma reconnecting_settles {W A} url (m : eff W event A) : settles m -> settles (reconnecting url m).
Proof.
  intros Hm w. specialize (Hm w). unfold reconnecting, try_catch.
  destruct (m w) as [[[a|e|c|] w1] t1]; try done. by destruct (not_open e).
Qed.

Lemma reconnecting_quiet {W A} url (m : eff W event A) w :
  sleeps (trace_of (m w)) = [] -> sleeps (trace_of (reconnecting url m w)) = [].
Proof.
  unfold reconnecting, try_catch. destruct (m w) as [[[a|e|c|] w1] t1]; unfold trace_of; cbn [snd]; try done.
  intros H. destruct (not_open e); rewrite ?eff_bind_eq; cbn; rewrite ?sleeps_app, ?app_nil_r, H; done.
Qed.

Lemma reconnecting_ret {W A} url (m : eff W event A) w a :
  out_of (reconnecting url m w) = Ret a -> out_of (m w) = Ret a.
Proof.
  unfold reconnecting, try_catch. destruct (m w) as [[[a'|e|c|] w1] t1]; cbn; try done.
  by destruct (not_open e).
Qed.

(** ** Lemmas on [callContract] *)

(** Gas price and nonce of the transactions a run sends. *)
Definition sent (t : list event) : list (val * val) :=
  omap (fun e =>
    match e with
    | Call "eth.sendTransaction" [_; _; _; _; price; nonce; _] => Some (price, nonce)
    | _ => None
    end) t.

Arguments sent : simpl never.

Lemma sent_app t1 t2 : sent (t1 ++ t2) = (sent t1 ++ sent t2)%list.
Proof. apply omap_app. Qed.

Lemma sent_call tx : sent [Call "eth.call" (tx_args tx)] = [].
Proof. reflexivity. Qed.

Lemma sent_send tx : sent [Call "eth.sendTransaction" (tx_args tx)] = [(tx_gasPrice tx, tx_nonce tx)].
Proof. reflexivity. Qed.

Definition PRICE_LIMIT : Z := 10000 * 1000000000.

(** How one attempt leads to the next: twice the price for the same nonce,
    the next nonce for the same price, or both as they were. *)
Definition escalates (a b : Z * Z) : Prop :=
  (b.1 = a.1 * 2 /\ b.2 = a.2) \/ (b.1 = a.1 /\ b.2 = a.2 + 1) \/ (b.1 = a.1 /\ b.2 = a.2).

Inductive escalation : Z * Z -> list (Z * Z) -> Prop :=
| escalation_end a : escalation a []
| escalation_last a : a.1 < PRICE_LIMIT -> escalation a [a]
| escalation_next a b l : a.1 < PRICE_LIMIT -> escalates a b -> escalation b l -> escalation a (a :: l).

Section CallLemmas.
Context {W : Type} (url : string) (node : Web3Node W) (toHex : Z -> val) (toHexVal : val -> val).
Context (address data : string) (decodeEventABI : val -> DecodedEvent) (options : CallOptions).

Let attempt := attempt node toHex toHexVal address (Ret data) decodeEventABI options.
Let loop := call_loop url node toHex toHexVal address (Ret data) decodeEventABI options.

Definition shown (pn : Z * Z) : val * val :=
  (js_or (co_gasPrice options) (toHex pn.1), toHex pn.2).

(** Services of the node return or throw. *)
Definition node_settles : Prop :=
  (forall tx w, match (node_call node tx w).1 with Ret _ | Throw _ => True | _ => False end) /\
  (forall tx w, match (node_sendTransaction node tx w).1 with
                | Some (_, Ret _) | Some (_, Throw _) | None => True
                | _ => False
                end).

Lemma attempt_sends p n w :
  node_settles ->
  sent (trace_of (attempt p n w)) = [shown (p, n)] /\
  match out_of (attempt p n w) with Ret _ | Throw _ => True | _ => False end.
Proof.
  intros [Hcall Hsend]. set (tx := call_tx toHex toHexVal address options p n data).
  unfold attempt, Robust.attempt. rewrite eff_bind_eq. cbn. fold tx. rewrite eff_bind_eq.
  assert (exists w1, try_catch (perform (Call "eth.call" (tx_args tx)) (node_call node tx))
      (fun _ => mret VUndef) w = (Ret (match (node_call node tx w).1 with Ret v => v | _ => VUndef end), w1,
      [Call "eth.call" (tx_args tx)])) as [w1 ->].
  { unfold try_catch, perform. specialize (Hcall tx w).
    destruct (node_call node tx w) as [[v|e|c|] w1]; try done; by exists w1. }
  rewrite eff_bind_eq. unfold send_with_timeout, perform. specialize (Hsend tx w1).
  unfold out_of, trace_of, world_of in *.
  destruct (node_sendTransaction node tx w1) as [[[time o]|] w2]; cbn [promiseWithTimeout].
  - destruct (time <? _), o as [r|e|c|]; try done; cbn; rewrite ?app_nil_r;
      (split; [|done]); reflexivity.
  - split; [reflexivity | done].
Qed.

(** The branch taken after a failed attempt. *)
Lemma loop_step fuel p n w :
  node_settles -> p < PRICE_LIMIT ->
  let '(o, w1, t1) := attempt p n w in
  loop (S fuel) p n w =
    match o with
    | Throw e =>
        let '(o2, w2, t2) :=
          (if String.eqb (err_message e) SLOW_TX_ERROR_MSG then loop fuel (p * 2) n
           else if nonce_error e then
             loop fuel p (n + 1)
           else if not_open e then _ ← emit (SetProvider url); loop fuel p n
           else throw e) w1 in
        (o2, w2, t1 ++ t2)%list
    | _ => (o, w1, t1)
    end.
Proof.
  intros Hn Hp. destruct (attempt p n w) as [[o w1] t1] eqn:Ea. unfold loop. cbn [call_loop].
  change (10000 * 1000000000) with PRICE_LIMIT. rewrite (proj2 (Z.ltb_lt _ _) Hp).
  unfold try_catch. fold attempt. rewrite Ea. by destruct o.
Qed.

Lemma loop_sends fuel p n w :
  node_settles ->
  exists l, escalation (p, n) l /\ ((0 < fuel)%nat -> p < PRICE_LIMIT -> l <> []) /\ sent (trace_of (loop fuel p n w)) = map shown l.
Proof.
  intros Hn. revert p n w. induction fuel as [|fuel IH]; intros p n w.
  { exists []. split; [constructor|]. split; [lia | done]. }
  destruct (Z.lt_ge_cases p PRICE_LIMIT) as [Hp|Hp].
  - destruct (attempt_sends p n w Hn) as [Hs Ho]. pose proof (loop_step fuel p n w Hn Hp) as Hst.
    destruct (attempt p n w) as [[o w1] t1]. rewrite Hst. cbn in Hs.
    destruct o as [r|e|c|]; try done.
    { exists [(p, n)]. split; [by apply escalation_last|]. by split. }
    assert (forall p' n' (m : eff W event Receipt), escalates (p, n) (p', n') ->
      (sent (trace_of (m w1)) = sent (trace_of (loop fuel p' n' w1)) \/ sent (trace_of (m w1)) = []) ->
      exists l, escalation (p, n) l /\ ((0 < S fuel)%nat -> p < PRICE_LIMIT -> l <> []) /\
        sent (trace_of (let '(o2, w2, t2) := m w1 in (o2, w2, t1 ++ t2)%list)) = map shown l) as Hnext.
    { intros p' n' m He Hm. destruct (IH p' n' w1) as (l & Hl & _ & Et).
      destruct (m w1) as [[o2 w2] t2]. cbn in Hm |- *. rewrite sent_app, Hs.
      destruct Hm as [-> | ->].
      - exists ((p, n) :: l). split; [by eapply escalation_next|]. split; [done | by rewrite Et].
      - exists [(p, n)]. split; [by apply escalation_last|]. by split. }
    destruct (String.eqb _ SLOW_TX_ERROR_MSG); [apply (Hnext (p * 2) n); [left; auto | by left]|].
    destruct (nonce_error e); [apply (Hnext p (n + 1)); [right; left; auto | by left]|].
    destruct (not_open e); apply (Hnext p n); try (right; right; auto; fail).
    + left. rewrite eff_bind_eq. reflexivity.
    + by right.
  - exists []. split; [constructor|]. split; [lia|]. unfold loop. cbn [call_loop].
    change (10000 * 1000000000) with PRICE_LIMIT. by rewrite (proj2 (Z.ltb_ge _ _) Hp).
Qed.

(** Sends fail neither for their nonce nor for a lost connection. *)
Definition node_orderly : Prop :=
  forall tx w time e, (node_sendTransaction node tx w).1 = Some (time, Throw e) ->
    nonce_error e = false /\ not_open e = false.

Lemma attempt_error p n w e :
  node_settles -> node_orderly -> out_of (attempt p n w) = Throw e ->
  err_message e = SLOW_TX_ERROR_MSG \/ (nonce_error e = false /\ not_open e = false).
Proof.
  intros [Hcall _] Ho. unfold attempt, Robust.attempt. rewrite eff_bind_eq. cbn. rewrite eff_bind_eq.
  set (tx := call_tx _ _ _ _ _ _ _). unfold try_catch, perform. specialize (Hcall tx w).
  destruct (node_call node tx w) as [[v|e'|c|] w1]; try done; cbn;
    unfold send_with_timeout, perform; rewrite eff_bind_eq;
    pose proof (Ho tx w1) as Hx;
    destruct (node_sendTransaction node tx w1) as [[[time o]|] w2]; cbn [promiseWithTimeout fst] in *;
    try (destruct (time <? _), o as [r|e1|c1|]); cbn; intros [= <-]; auto; right; by eapply Hx.
Qed.

Lemma loop_terminates fuel p n w :
  node_settles -> node_orderly -> (0 < fuel)%nat -> PRICE_LIMIT <= p * 2 ^ (Z.of_nat fuel - 1) ->
  out_of (loop fuel p n w) <> OutOfFuel.
Proof.
  intros Hn Ho. revert p n w. induction fuel as [|fuel IH]; intros p n w Hf Hp; [lia|].
  destruct (Z.lt_ge_cases p PRICE_LIMIT) as [Hlt|Hge].
  - destruct (attempt_sends p n w Hn) as [_ Hs]. pose proof (loop_step fuel p n w Hn Hlt) as Hst.
    pose proof (fun e => attempt_error p n w e Hn Ho) as Herr.
    destruct (attempt p n w) as [[o w1] t1]. rewrite Hst. cbn in Hs, Herr.
    destruct o as [r|e|c|]; try done.
    destruct fuel as [|fuel]; [cbn in Hp; lia|].
    destruct (String.eqb _ SLOW_TX_ERROR_MSG) eqn:Hslow.
    + specialize (IH (p * 2) n w1 ltac:(lia)).
      destruct (loop (S fuel) (p * 2) n w1) as [[o2 w2] t2]. apply IH.
      replace (Z.of_nat (S (S fuel)) - 1) with (Z.succ (Z.of_nat (S fuel) - 1)) in Hp by lia.
      rewrite Z.pow_succ_r in Hp by lia. lia.
    + apply String.eqb_neq in Hslow. destruct (Herr e eq_refl) as [?|[-> ->]]; done.
  - unfold loop. cbn [call_loop]. change (10000 * 1000000000) with PRICE_LIMIT.
    by rewrite (proj2 (Z.ltb_ge _ _) Hge).
Qed.

End CallLemmas.

(** A node that answers, and that executes the transaction with this
    address and these data in time. *)
Record node_sends {W} (node : Web3Node W) (address data : string) (receipt : Receipt) : Prop := {
  sends_gasPrice w : exists p w', node_getGasPrice node w = (Ret p, w') /\ p < 10000 * 1000000000;
  sends_count a w : exists n w', node_getTransactionCount node a w = (Ret n, w');
  sends_call tx w : match (node_call node tx w).1 with Ret _ | Throw _ => True | _ => False end;
  sends_tx tx w : tx_to tx = address -> tx_data tx = data ->
    exists time w', node_sendTransaction node tx w = (Some (time, Ret receipt), w') /\ time < 5 * 60 * 1000
}.

Lemma callContract_sends {W} url (node : Web3Node W) toHex toHexVal address data decode options receipt (P : W -> Prop) :
  node_sends node address data receipt ->
  completes P (fun fuel => callContract url node toHex toHexVal address (Ret data) decode options fuel)
    (fun r _ _ => r = decode_receipt decode receipt).
Proof.
  intros Hn w _. destruct (sends_gasPrice _ _ _ _ Hn w) as (p & w1 & Hp & Hlt).
  destruct (sends_count _ _ _ _ Hn (co_from options) w1) as (n & w2 & Hc).
  set (tx := call_tx toHex toHexVal address options p n data). pose proof (sends_call _ _ _ _ Hn tx w2) as Hcall.
  assert (Ha : exists w3 t, attempt node toHex toHexVal address (Ret data) decode options p n w2 = (Ret (decode_receipt decode receipt), w3, t)).
  { unfold attempt. destruct (node_call node tx w2) as [o w3] eqn:Ec.
    destruct (sends_tx _ _ _ _ Hn tx w3 eq_refl eq_refl) as (time & w4 & Hs & Ht). eexists w4, _.
    eapply eff_bind_run; [reflexivity|]. cbv zeta. fold tx. eapply (eff_bind_run _ _ _ (match o with Ret v => v | _ => VUndef end) w3).
    { unfold try_catch. rewrite (perform_run _ _ _ _ _ Ec). destruct o; try done; reflexivity. }
    eapply eff_bind_run; [|reflexivity]. apply perform_run. rewrite Hs. unfold promiseWithTimeout. by rewrite (proj2 (Z.ltb_lt _ _) Ht). }
  destruct Ha as (w3 & t & Ha). eexists _, w3, _. split; [|done]. exists 1%nat. intros [|fuel] Hf; [lia|].
  eapply eff_bind_run; [by apply perform_run|]. eapply eff_bind_run; [by apply perform_run|].
  cbn [call_loop]. rewrite (proj2 (Z.ltb_lt _ _) Hlt). unfold try_catch. by rewrite Ha.
Qed.

(** ** Lemmas on the decoded events *)

Definition slot_events (s : option eventSlot) : list DecodedEvent :=
  match s with
  | None => []
  | Some (One ev) => [ev]
  | Some (Many evs) => evs
  end.

Lemma add_event_named name events count ev :
  (forall i : Z, name <> pretty i) ->
  slot_events (assoc name (add_event (events, count) ev).1) =
    (slot_events (assoc name events) ++ (if decide (ev_event ev = Some name) then [ev] else []))%list.
Proof.
  intros Hn. unfold add_event. destruct (ev_event ev) as [m|].
  - destruct (decide (Some m = Some name)) as [[= ->]|Hne].
    + destruct (assoc name events) as [[ev0|evs]|]; cbn; by rewrite assoc_set_same.
    + assert (name <> m) by congruence.
      destruct (assoc m events) as [[ev0|evs]|]; cbn; rewrite assoc_set_other by done; by rewrite app_nil_r.
  - rewrite decide_False by done. cbn. rewrite assoc_set_other by done. by rewrite app_nil_r.
Qed.

Lemma fold_add_event name evs st :
  (forall i : Z, name <> pretty i) ->
  slot_events (assoc name (fold_left add_event evs st).1) =
    (slot_events (assoc name st.1) ++ filter (fun ev => ev_event ev = Some name) evs)%list.
Proof.
  intros Hn. revert st. induction evs as [|ev evs IH]; intros [events count]; cbn [fold_left].
  - by rewrite app_nil_r.
  - rewrite IH, add_event_named, <- app_assoc by done. f_equal. rewrite filter_cons. by case_decide.
Qed.

(** ** Properties *)

(** The integer part of a delay, which is what the timer uses. *)
Definition num_floor (x : number) : Z :=
  match x with
  | S754_finite false m e => Z.shiftl (Zpos m) e
  | S754_finite true m e => - Z.shiftl (Zpos m) e
  | _ => 0
  end.

(** How often a trace calls a service. *)
Definition calls (name : string) (t : list event) : nat :=
  length (omap (fun e => match e with Call n _ => if String.eqb n name then Some tt else None | _ => None end) t).

Lemma calls_app name t1 t2 : calls name (t1 ++ t2) = (calls name t1 + calls name t2)%nat.
Proof. unfold calls. by rewrite omap_app, length_app. Qed.

Lemma failing_calls {W A} (fn : eff W event A) name n d k w w' t :
  (forall v, calls name (trace_of (fn v)) = 1%nat) -> failing fn n d k w w' t -> calls name t = n.
Proof.
  intros Hq. induction 1 as [|n d k w e w1 t1 w2 t2 Ef _ IH]; [done|].
  rewrite calls_app. specialize (Hq w). rewrite Ef in Hq. change (calls name t1 = 1%nat) in Hq.
  rewrite Hq. cbn. by f_equal.
Qed.

Arguments calls : simpl never.

Lemma calls_sleep name ms t : calls name (Sleep ms :: t) = calls name t.
Proof. reflexivity. Qed.

Lemma calls_hit name args t : calls name (Call name args :: t) = S (calls name t).
Proof. unfold calls. cbn. by rewrite String.eqb_refl. Qed.

Lemma calls_nil name : calls name [] = 0%nat.
Proof. reflexivity. Qed.

#[export] Hint Rewrite calls_sleep calls_hit calls_nil : bridge.

Section BackoffProperties.
Context {W A : Type}.

(** [backoff] is exactly a bounded retry: for a call that returns or
    throws it always ends, after [n] failed attempts with their sleeps
    and one last attempt, [n] below the number of retries; it ends with
    the outcome of that last attempt, and that is a success unless all
    attempts are used up (the last error is rethrown). *)
Theorem backoff_runs (fn : eff W event A) retries d k w :
  settles fn ->
  exists n w1 t1, failing fn n d k w w1 t1 /\ (n < Nat.max 1 retries)%nat /\
    backoff_with retries fn d k w = (out_of (fn w1), world_of (fn w1), t1 ++ trace_of (fn w1))%list /\
    (is_ret (out_of (fn w1)) = true \/ S n = Nat.max 1 retries).
Proof. apply backoff_runs_aux. Qed.

(** The ten attempts of a default [backoff] are separated by at most
    nine sleeps, of 500 ms growing by the factor 1.2 in double
    arithmetic; no run waits in any other way. *)
Theorem backoff_schedule (fn : eff W event A) w :
  settles fn -> (forall v, sleeps (trace_of (fn v)) = []) ->
  exists n, (n <= 9)%nat /\
    map num_floor (sleeps (trace_of (backoff RETRY fn w))) =
      take n [500; 600; 720; 864; 1036; 1244; 1492; 1791; 2149].
Proof.
  intros Hs Hq. destruct (backoff_runs_aux fn RETRY DELAY BACKOFF w Hs) as (n & w1 & t1 & Hf & Hn & Hb & _).
  exists n. unfold backoff. rewrite Hb. cbn [trace_of snd]. rewrite sleeps_app, Hq, app_nil_r.
  rewrite (failing_sleeps fn _ _ _ _ _ _ Hq Hf). cbn in Hn. split; [lia|].
  do 10 (destruct n as [|n]; [vm_compute; reflexivity|]). lia.
Qed.

End BackoffProperties.

Section RobustWeb3Properties.
Context {W : Type} (url : string) (node : Web3Node W).

(** [getBlock] never returns [null] (a null block is an error that is
    retried) and asks the node at least once and at most ten times. *)
Theorem getBlock_not_null b w :
  (forall v, match (node_getBlock node b v).1 with Ret _ | Throw _ => True | _ => False end) ->
  out_of (getBlock url node b w) <> Ret VNull /\
  (1 <= calls "eth.getBlock" (trace_of (getBlock url node b w)) <= 10)%nat.
Proof.
  intros Hs. unfold getBlock. set (fn := reconnecting url _).
  assert (forall v, match out_of (fn v) with Ret x => x <> VNull | Throw _ => True | _ => False end /\
    calls "eth.getBlock" (trace_of (fn v)) = 1%nat) as Hfn.
  { intros v. specialize (Hs v). unfold fn, reconnecting, try_catch. rewrite eff_bind_eq. unfold perform.
    destruct (node_getBlock node b v) as [[x|e|c|] v1]; try done; [destruct x; done|].
    cbn. destruct (not_open e); rewrite ?eff_bind_eq; done. }
  assert (settles fn) as Hset.
  { intros v. destruct (Hfn v) as [H _]. by destruct (out_of (fn v)). }
  destruct (backoff_runs_aux fn RETRY DELAY BACKOFF w Hset) as (n & w1 & t1 & Hf & Hn & Hb & _).
  unfold backoff. rewrite Hb. destruct (Hfn w1) as [Ho Hc]. cbn in Hn. split.
  - cbn. intros Hx. rewrite Hx in Ho. done.
  - cbn [trace_of snd]. rewrite calls_app, Hc, (failing_calls fn _ _ _ _ _ _ _ (fun v => proj2 (Hfn v)) Hf). lia.
Qed.

Context (toHex : Z -> val) (toHexVal : val -> val).
Context (address data : string) (decodeEventABI : val -> DecodedEvent) (options : CallOptions).

(** Either one of the first two requests fails and nothing is sent, or the
    loop runs at the price and nonce they gave. *)
Lemma callContract_cases fuel w :
  let run := callContract url node toHex toHexVal address (Ret data) decodeEventABI options fuel w in
  (sent (trace_of run) = [] /\
    (out_of run = OutOfFuel -> (node_getGasPrice node w).1 = OutOfFuel \/
      exists w1, (node_getTransactionCount node (co_from options) w1).1 = OutOfFuel)) \/
  (exists p n w1 w2, node_getGasPrice node w = (Ret p, w1) /\
    let loop := call_loop url node toHex toHexVal address (Ret data) decodeEventABI options fuel p n w2 in
    out_of run = out_of loop /\ sent (trace_of run) = sent (trace_of loop)).
Proof.
  cbv zeta. unfold callContract. rewrite eff_bind_eq. unfold perform.
  destruct (node_getGasPrice node w) as [[p|e|c|] w1].
  2, 3, 4: left; split; [done|]; cbn; intros; by auto.
  rewrite eff_bind_eq.
  destruct (node_getTransactionCount node (co_from options) w1) as [[n|e|c|] w2] eqn:En.
  2, 3, 4: left; split; [done|]; cbn; intros; first [done | right; exists w1; by rewrite En].
  right. exists p, n, w1, w2. split; [done|]. split; reflexivity.
Qed.

(** C20: the transactions [callContract] sends without [options.gasPrice]
    are attempts to get one transaction through.  When the node answers the
    gas price [p] and the transaction count [n], and whatever it answers
    after that, at least one transaction is sent if [p] is below 10^13, and
    the transactions sent carry, one after the other: [p] and [n] first,
    then each time twice the gas price and the same nonce, or the same gas
    price and the next nonce, or the same two again; and none is sent at a
    gas price of 10^13 or more. *)
Theorem callContract_escalation fuel w p n w1 w2 :
  node_settles node -> truthy (co_gasPrice options) = false ->
  node_getGasPrice node w = (Ret p, w1) -> node_getTransactionCount node (co_from options) w1 = (Ret n, w2) ->
  exists l, escalation (p, n) l /\ ((0 < fuel)%nat -> p < PRICE_LIMIT -> l <> []) /\
    sent (trace_of (callContract url node toHex toHexVal address (Ret data) decodeEventABI options fuel w)) =
      map (fun pn => (toHex pn.1, toHex pn.2)) l.
Proof.
  intros Hn Ho Hp Hc. unfold callContract. rewrite eff_bind_eq. unfold perform. rewrite Hp, eff_bind_eq, Hc.
  cbn [out_of world_of trace_of fst snd]. rewrite !sent_app.
  destruct (loop_sends url node toHex toHexVal address data decodeEventABI options fuel p n w2 Hn) as (l & Hl & Hne & ->).
  exists l. split; [exact Hl|]. split; [exact Hne|]. cbn [app]. apply map_ext. intros pn. unfold shown, js_or. by rewrite Ho.
Qed.

(** C36: [callContract] ends: with a positive gas price and a node that
    reports neither nonce errors nor lost connections, 45 rounds are
    enough, since the price doubles each time. *)
Theorem callContract_terminates w :
  node_settles node -> node_orderly node ->
  (forall v, match (node_getGasPrice node v).1 with Ret p => 0 < p | Throw _ => True | _ => False end) ->
  (forall v, match (node_getTransactionCount node (co_from options) v).1 with Ret _ | Throw _ => True | _ => False end) ->
  out_of (callContract url node toHex toHexVal address (Ret data) decodeEventABI options 45 w) <> OutOfFuel.
Proof.
  intros Hn Ho Hp Hc. destruct (callContract_cases 45 w) as [[_ Hout]|(p & n & w1 & w2 & Eg & -> & _)].
  - intros H. destruct (Hout H) as [E|[w1 E]]; [specialize (Hp w) | specialize (Hc w1)]; by rewrite E in *.
  - specialize (Hp w). rewrite Eg in Hp. cbn in Hp. apply loop_terminates; try done; [lia|].
    change (Z.of_nat 45 - 1) with 44. unfold PRICE_LIMIT. lia.
Qed.

(** With [options.gasPrice] the resend loop does not escalate: every
    transaction is sent at that same price, whatever was logged about
    doubling it. *)
Theorem callContract_fixed_gasPrice fuel w :
  node_settles node -> truthy (co_gasPrice options) = true ->
  Forall (fun pn => pn.1 = co_gasPrice options)
    (sent (trace_of (callContract url node toHex toHexVal address (Ret data) decodeEventABI options fuel w))).
Proof.
  intros Hn Hg. destruct (callContract_cases fuel w) as [[-> _]|(p & n & w1 & w2 & _ & _ & ->)]; [constructor|].
  destruct (loop_sends url node toHex toHexVal address data decodeEventABI options fuel p n w2 Hn)
    as (l & _ & _ & ->).
  apply Forall_fmap, Forall_true. intros [p' n']. cbn. unfold js_or. by rewrite Hg.
Qed.

End RobustWeb3Properties.

(** Decoding a receipt loses no event: under every event name,
    [receipt.events] holds exactly the events of that name, in the order
    of the logs, whether there is one (stored directly) or several (stored
    as an array). *)
Theorem decode_receipt_events decodeEventABI receipt logs name :
  rc_logs receipt = Some logs -> (forall i : Z, name <> pretty i) ->
  slot_events (assoc name (rc_events (decode_receipt decodeEventABI receipt))) =
    filter (fun ev => ev_event ev = Some name) (map decodeEventABI logs).
Proof.
  intros Hl Hn. unfold decode_receipt, group_events. rewrite Hl. cbn [rc_events].
  by rewrite fold_add_event.
Qed.

(** ** Witnesses *)

Module Witness.

(** A node that answers from a script: a world is the list of answers to
    come; every transaction sent times out. *)
Definition script : Type := list (outcome val).

Definition next (w : script) : outcome val * script :=
  match w with
  | [] => (Throw (Error "connection not open"), [])
  | o :: w' => (match o with Ret v => Ret v | Throw e => Throw e | _ => Throw (Error "down") end, w')
  end.

Definition scripted : Web3Node script := {|
  node_getBlockNumber := next;
  node_getBlock := fun _ => next;
  node_getTransactionReceipt := fun _ => next;
  node_getGasPrice := fun w => (Ret 20000000000, w);
  node_getTransactionCount := fun _ w => (Ret 7, w);
  node_call := fun _ w => (Ret VUndef, w);
  node_sendTransaction := fun _ w => (None, w)
|}.

Definition call_options : CallOptions :=
  {| co_from := VStr "0xabc"; co_gas := VNum 5000000; co_gasPrice := VUndef; co_handleRevert := VBool true |}.

Definition fixed_options : CallOptions :=
  {| co_from := VStr "0xabc"; co_gas := VNum 5000000; co_gasPrice := VNum 9; co_handleRevert := VBool true |}.

Definition no_decode (v : val) : DecodedEvent := {| ev_event := Some "Event"; ev_data := v |}.

Lemma next_settles w : match (next w).1 with Ret _ | Throw _ => True | _ => False end.
Proof. by destruct w as [|[] w]. Qed.

Lemma scripted_settles : node_settles scripted.
Proof. split; intros; exact I. Qed.

(** Nine resends at doubled prices; then the price limit is reached. *)
Example scripted_call :
  out_of (callContract "ws" scripted VNum id "0xdef" (Ret "data") no_decode call_options 45 []) =
    Throw (Error "Cannot finish txn within 1e13 gas") /\
  sent (trace_of (callContract "ws" scripted VNum id "0xdef" (Ret "data") no_decode call_options 45 [])) =
    map (fun k => (VNum (20000000000 * 2 ^ k), VNum 7)) [0; 1; 2; 3; 4; 5; 6; 7; 8].
Proof. split; vm_compute; reflexivity. Qed.

Definition ask : eff script event val := perform (Call "ask" []) next.

Lemma ask_settles : settles ask.
Proof. intros w. unfold ask, perform. destruct w as [|[] w]; exact I. Qed.

Lemma backoff_runs_witness :
  exists n w1 t1, failing ask n DELAY BACKOFF [Throw (Error "a"); Ret (VNum 3)] w1 t1 /\ (n < Nat.max 1 10)%nat /\
    backoff_with 10 ask DELAY BACKOFF [Throw (Error "a"); Ret (VNum 3)] =
      (out_of (ask w1), world_of (ask w1), t1 ++ trace_of (ask w1))%list /\
    (is_ret (out_of (ask w1)) = true \/ S n = Nat.max 1 10).
Proof. apply backoff_runs. exact ask_settles. Defined.

Lemma backoff_schedule_witness :
  exists n, (n <= 9)%nat /\
    map num_floor (sleeps (trace_of (backoff RETRY ask []))) =
      take n [500; 600; 720; 864; 1036; 1244; 1492; 1791; 2149].
Proof.
  apply backoff_schedule; [exact ask_settles|].
  intros w. unfold ask, perform. by destruct w as [|[] w].
Defined.

Lemma getBlock_not_null_witness :
  out_of (getBlock "ws" scripted (VNum 5) [Ret VNull; Ret (VNum 5)]) <> Ret VNull /\
  (1 <= calls "eth.getBlock" (trace_of (getBlock "ws" scripted (VNum 5) [Ret VNull; Ret (VNum 5)])) <= 10)%nat.
Proof. apply getBlock_not_null. exact next_settles. Defined.

Lemma callContract_escalation_witness :
  exists l, escalation (20000000000, 7) l /\ ((0 < 45)%nat -> 20000000000 < PRICE_LIMIT -> l <> []) /\
    sent (trace_of (callContract "ws" scripted VNum id "0xdef" (Ret "data") no_decode call_options 45 [])) =
      map (fun pn => (VNum pn.1, VNum pn.2)) l.
Proof. eapply callContract_escalation; [exact scripted_settles | reflexivity | reflexivity | reflexivity]. Defined.

Lemma callContract_terminates_witness :
  out_of (callContract "ws" scripted VNum id "0xdef" (Ret "data") no_decode call_options 45 []) <> OutOfFuel.
Proof.
  apply callContract_terminates; [exact scripted_settles | by intros tx w time e | intros v; cbn; lia | done].
Defined.

Lemma callContract_fixed_gasPrice_witness :
  Forall (fun pn => pn.1 = co_gasPrice fixed_options)
    (sent (trace_of (callContract "ws" scripted VNum id "0xdef" (Ret "data") no_decode fixed_options 5 []))).
Proof. apply callContract_fixed_gasPrice; [exact scripted_settles | reflexivity]. Defined.

Lemma pretty_digit (c : Ascii.ascii) s (i : Z) : String c s = pretty i -> (c = "-" \/ exists n, c = pretty_N_char n)%char.
Proof.
  unfold pretty, pretty_Z, pretty, pretty_N.
  assert (forall n acc, (exists m, acc = "" \/ exists r, acc = String (pretty_N_char m) r) ->
    pretty_N_go n acc = "" \/ exists m r, pretty_N_go n acc = String (pretty_N_char m) r) as Hgo.
  { intros n. induction (N.lt_wf_0 n) as [n _ IH]. intros acc Hacc.
    destruct (decide (n = 0)%N) as [->|Hn].
    - rewrite pretty_N_go_0. destruct Hacc as [m [->|[r ->]]]; eauto.
    - rewrite pretty_N_go_step by lia. apply IH; [apply N.div_lt; lia|]. eauto. }
  intros H. destruct i as [|p|p].
  - injection H as -> _. right. by exists 0%N.
  - change (String c s = pretty_N_go (N.pos p) "") in H.
    destruct (Hgo (N.pos p) "") as [E|(m & r & E)]; [exists 0%N; by left | rewrite E in H; discriminate|].
    rewrite E in H. injection H as -> _. eauto.
  - injection H as -> _. by left.
Qed.

Lemma decode_receipt_events_witness :
  slot_events (assoc "Event" (rc_events (decode_receipt no_decode
    {| rc_logs := Some [VNum 1; VNum 2; VNum 3]; rc_events := []; rc_rest := VUndef |}))) =
    filter (fun ev => ev_event ev = Some "Event") (map no_decode [VNum 1; VNum 2; VNum 3]).
Proof.
  apply decode_receipt_events; [reflexivity|]. intros i H.
  destruct (pretty_digit _ _ _ H) as [E|[n E]]; [discriminate|].
  unfold pretty_N_char in E. by repeat case_match.
Defined.

End Witness.
