(* ===== verification/Metrics.v ===== *)
(** * Metrics (utils/http-prometheus.js)

    [HttpPrometheus]: the server of the metrics endpoint and the registry
    that gauges and counters are created in.  prom-client is a parameter: a
    metric is known by its name, and setting it is an event. *)

From S2P Require Import Prelude Robust.

(** The registry holds the names of the metrics; prom-client refuses a
    name that is taken. *)
Definition register (metricsPrefix name : string) (registry : list string) : outcome (string * list string) :=
  let full := metricsPrefix +:+ name in
  if existsb (String.eqb full) registry then
    Throw (Error ("A metric with the name " +:+ full +:+ " has already been registered."))
  else Ret (full, full :: registry).

Definition gauge := register.
Definition counter := register.

(** The port the server listens on: none for the string 'null'. *)
Definition HttpPrometheus_listens (port : val) : bool :=
  match port with VStr s => negb (String.eqb s "null") | _ => true end.

(** The answer of the server for a path. *)
Definition serve (metrics url : string) : string := if String.eqb url "/metrics" then metrics else "Not Found".

Section Metrics.
Context {W : Type}.

(** [new HttpPrometheus(port)] *)
Definition new_HttpPrometheus (port : val) : eff W event unit :=
  if HttpPrometheus_listens port then emit (Call "server.listen" [port]) else mret tt.

(** [gauge.set(v)] *)
Definition set_gauge (name : string) (v : Z) : eff W event unit := emit (Call "gauge.set" [VStr name; VNum v]).

(** [counter.inc(1)] *)
Definition inc_counter (name : string) : eff W event unit := emit (Call "counter.inc" [VStr name]).

(** Metrics created one after the other. *)
Fixpoint register_all (metricsPrefix : string) (names : list string) (registry : list string) : outcome (list string) :=
  match names with
  | [] => Ret registry
  | name :: names' => '(_, registry') ← register metricsPrefix name registry; register_all metricsPrefix names' registry'
  end.

End Metrics.
