(* ===== verification/NearTx.v ===== *)
(** * Sending NEAR transactions

    [signAndSendTransaction] and [nearJsonContractFunctionCall]
    (utils/robust.js), [signAndSendTransactionAsync], [txnStatus] and the
    methods of [BorshContract] (utils/borsh.js).  The access key object is
    shared by all calls of an account, so its nonce is part of the world;
    the RPC provider and the signer are a record of services. *)

From stdpp Require Import pretty.
From S2P Require Import Prelude Interfaces Borsh OutcomeProof Robust.

(** ** Provider and signer *)

(** [result.status]: one of the two final answers (the failure as JSON
    text), or neither. *)
Inductive TxStatus : Type :=
| SuccessValue (value : string)
| Failure (json : string)
| Pending.

(** An entry of [receipts_outcome]; [ro_success_receipt_id] is the property
    [SuccessReceiptId] of its status, if it has one. *)
Record ReceiptOutcome := { ro_id : string; ro_block_hash : string; ro_success_receipt_id : option string }.

(** [transaction_outcome.outcome.receipt_ids] and [receipts_outcome] are
    the parts of a result that its readers use. *)
Record TxResult := {
  tr_status : TxStatus;
  tr_logs : list string;
  tr_receipt_ids : list string;
  tr_receipts_outcome : list ReceiptOutcome
}.

(** A signed transaction: its hash and its encoded bytes (base64). *)
Record SignedTx := { stx_hash : string; stx_bytes : string }.

Record FunctionCall := { fc_method : string; fc_args : list Z; fc_gas : val; fc_amount : val }.

Record QueryResult := { qr_result : option (list Z); qr_logs : list string }.

Record NearNode (N : Type) := {
  near_status : service N string;
  near_sign : string -> Z -> list FunctionCall -> string -> outcome SignedTx;
  near_broadcast : string -> service N unit;
  near_txStatus : string -> service N TxResult;
  near_query : string -> list Z -> service N QueryResult
}.

Arguments near_status {N} _.
Arguments near_sign {N} _ _ _ _ _.
Arguments near_broadcast {N} _ _.
Arguments near_txStatus {N} _ _.
Arguments near_query {N} _ _ _.

(** The nonce of the access key object, and the network. *)
Record KeyWorld (N : Type) := mkKey { key_nonce : Z; key_net : N }.
Arguments mkKey {N} _ _.
Arguments key_nonce {N} _.
Arguments key_net {N} _.

Definition RETRY_SEND_TX : nat := 10.
Definition RETRY_TX_STATUS : nat := 10.

Section Sending.
Context {N : Type} (node : NearNode N).

Abbreviation prog := (eff (KeyWorld N) event).

(** A service of the network seen from the world with the key. *)
Definition net {A} (op : service N A) : service (KeyWorld N) A :=
  fun w => let '(o, n) := op (key_net w) in (o, mkKey (key_nonce w) n).

(** [++accessKey.nonce] *)
Definition bump_nonce : service (KeyWorld N) Z :=
  fun w => (Ret (key_nonce w + 1), mkKey (key_nonce w + 1) (key_net w)).

(** Fetch a block hash and sign the actions under the next nonce. *)
Definition sign_next (receiverId : string) (actions : list FunctionCall) : prog SignedTx :=
  latest_block_hash ← perform (Call "provider.status" []) (net (near_status node));
  nonce ← query bump_nonce;
  perform (Call "signTransaction" [VStr receiverId; VNum nonce])
    (fun w => (near_sign node receiverId nonce actions latest_block_hash, w)).

Definition sendTxnAsync (tx : SignedTx) : prog unit :=
  perform (Call "broadcast_tx_async" [VStr (stx_bytes tx)]) (net (near_broadcast node (stx_bytes tx))).

(** [try { m } catch (e) { errorMsg = e.message }] *)
Definition catch_message {A} (m : prog A) : prog (A + string) :=
  try_catch (a ← m; mret (inl a)) (fun e => mret (inr (err_message e))).

(** The first [try] of the loop: resend the last transaction or sign a new
    one.  [last] is the transaction that [txHash] and [sendTxnAsync] stand
    for; the answer is an error message, or nothing. *)
Definition broadcast_phase (receiverId : string) (actions : list FunctionCall)
    (last : option SignedTx) (resendLast : bool) : prog (option string * option SignedTx) :=
  match resendLast, last with
  | true, Some tx =>
      r ← catch_message (sendTxnAsync tx);
      mret (match r with inl _ => None | inr m => Some m end, last)
  | true, None => mret (Some "sendTxnAsync is not a function", last)
  | false, _ =>
      s ← catch_message (sign_next receiverId actions);
      match s with
      | inr m => mret (Some m, last)
      | inl tx =>
          r ← catch_message (sendTxnAsync tx);
          mret (match r with inl _ => None | inr m => Some m end, Some tx)
      end
  end.

Definition is_final (s : TxStatus) : bool :=
  match s with SuccessValue _ | Failure _ => true | Pending => false end.

(** [for (let j = 0; j < RETRY_TX_STATUS; j++)]: [n] rounds are left, [j]
    is the index of the next. *)
Fixpoint poll_status (n : nat) (j : Z) (txHash : string) (result : option TxResult)
    (errorMsg : option string) : prog (option TxResult * option string) :=
  match n with
  | O => mret (result, errorMsg)
  | S n' =>
      r ← catch_message (perform (Call "txStatus" [VStr txHash]) (net (near_txStatus node txHash)));
      match r with
      | inl res =>
          if is_final (tr_status res) then mret (Some res, errorMsg)
          else poll_status n' (j + 1) txHash (Some res) errorMsg
      | inr m =>
          _ ← sleep (num_of_Z ((j + 1) * 500));
          poll_status n' (j + 1) txHash result (Some m)
      end
  end.

(** [for (let i = 0; i < RETRY_SEND_TX; i++)] and the final throw. *)
Fixpoint send_loop (n : nat) (receiverId : string) (actions : list FunctionCall)
    (last : option SignedTx) (resendLast : bool) (errorMsg : option string) : prog TxResult :=
  match n with
  | O => throw (Error (default "" errorMsg))
  | S n' =>
      '(failed, last') ← broadcast_phase receiverId actions last resendLast;
      match failed, last' with
      | Some m, _ =>
          _ ← sleep (num_of_Z 500);
          send_loop n' receiverId actions last' resendLast (Some m)
      | None, None => throw (TypeError "txHash")
      | None, Some tx =>
          '(result, errorMsg') ← poll_status RETRY_TX_STATUS 0 (stx_hash tx) None errorMsg;
          match result with
          | Some res =>
              match tr_status res with
              | SuccessValue _ => mret res
              | Failure json =>
                  if str_includes "Transaction nonce" json then
                    send_loop n' receiverId actions last' false (Some json)
                  else throw (Error json)
              | Pending => throw (TypeError "Cannot read property 'includes' of undefined")
              end
          | None => send_loop n' receiverId actions last' true errorMsg'
          end
      end
  end.

Definition signAndSendTransaction (receiverId : string) (actions : list FunctionCall) : prog TxResult :=
  send_loop RETRY_SEND_TX receiverId actions None false None.

(** [JSON.stringify] is a parameter: [args_json] is its result. *)
Definition nearJsonContractFunctionCall (contractId method args_json : string) (gas amount : val)
    : prog TxResult :=
  signAndSendTransaction contractId
    [{| fc_method := method; fc_args := utf8_bytes args_json; fc_gas := gas; fc_amount := amount |}].

(** ** utils/borsh.js *)

Definition signAndSendTransactionAsync (receiverId : string) (actions : list FunctionCall) : prog string :=
  tx ← sign_next receiverId actions;
  _ ← sendTxnAsync tx;
  mret (stx_hash tx).

Fixpoint txnStatus_loop (retries : nat) (txHash : string) (wait : Z) (result : option TxResult)
    : prog (option TxResult) :=
  match retries with
  | O => mret result
  | S retries' =>
      r ← catch_message (perform (Call "txStatus" [VStr txHash]) (net (near_txStatus node txHash)));
      match r with
      | inl res =>
          if is_final (tr_status res) then mret (Some res)
          else txnStatus_loop retries' txHash wait (Some res)
      | inr _ => _ ← sleep (num_of_Z wait); txnStatus_loop retries' txHash wait result
      end
  end.

Definition txnStatus (txHash : string) (retries : nat) (wait : Z) : prog TxResult :=
  result ← txnStatus_loop retries txHash wait None;
  match result with
  | None =>
      throw (Error ("Transaction " +:+ txHash +:+ " didn't finish after " +:+
                    pretty (Z.of_nat retries * wait / 1000) +:+ " seconds"))
  | Some res =>
      match tr_status res with
      | SuccessValue _ => mret res
      | Failure json => throw (Error json)
      | Pending => throw (Error "")
      end
  end.

(** ** [BorshContract] *)

Record MethodSpec := {
  methodName : string;
  inputFieldType : option fieldType;
  outputFieldType : option fieldType
}.

Section BorshContract.
Context {BW : BinaryWriter} {BN : BnLib}.
(** [schema_fuel] is the fuel of both Borsh directions. *)
Context (schema_fuel : nat) (borshSchema : schema) (contractId : string).

Definition DEFAULT_FUNC_CALL_AMOUNT : val := VNum 300000000000000.

Definition viewMethod (d : MethodSpec) (args : val) : prog val :=
  bytes ← lift (serialize schema_fuel borshSchema (inputFieldType d) args);
  result ← backoff 10 (perform (Call "query" [VStr ("call/" +:+ contractId +:+ "/" +:+ methodName d)])
             (net (near_query node ("call/" +:+ contractId +:+ "/" +:+ methodName d) bytes)));
  match qr_result result with
  | None => mret VUndef
  | Some [] => mret (VBool false)
  | Some bs => lift (deserialize schema_fuel borshSchema (outputFieldType d) bs)
  end.

Definition method_call (d : MethodSpec) (bytes : list Z) (gas amount : val) : FunctionCall :=
  {| fc_method := methodName d; fc_args := bytes; fc_gas := js_or gas DEFAULT_FUNC_CALL_AMOUNT;
     fc_amount := amount |}.

(** [getBorshTransactionLastResult]: only a success has bytes. *)
Definition getBorshTransactionLastResult (r : TxResult) : outcome (list Z) :=
  match tr_status r with
  | SuccessValue v => Ret (base64_bytes v)
  | _ => Throw (TypeError "The first argument must be of type string")
  end.

Definition changeMethod (d : MethodSpec) (args gas amount : val) : prog val :=
  bytes ← lift (serialize schema_fuel borshSchema (inputFieldType d) args);
  rawResult ← signAndSendTransaction contractId [method_call d bytes gas amount];
  result ← lift (getBorshTransactionLastResult rawResult);
  lift (deserialize schema_fuel borshSchema (outputFieldType d) result).

Definition changeMethod_async (d : MethodSpec) (args gas amount : val) : prog string :=
  bytes ← lift (serialize schema_fuel borshSchema (inputFieldType d) args);
  signAndSendTransactionAsync contractId [method_call d bytes gas amount].

End BorshContract.

(** [accessKeyInit]: [key] is what [findAccessKey] resolves to. *)
Definition accessKeyInit (accountId : string) (findAccessKey : service N (option Z)) : prog unit :=
  key ← perform (Call "findAccessKey" []) (net findAccessKey);
  match key with
  | Some nonce => query (fun w => (Ret tt, mkKey nonce (key_net w)))
  | None => throw (Error ("Can not sign transactions for account " +:+ accountId +:+
                          ", no matching key pair found in Signer."))
  end.

End Sending.

(** ** Lemmas *)

(** Nonces of the signatures, and bytes of the broadcasts, of a run. *)
Definition signed_nonces (t : list event) : list Z :=
  omap (fun e => match e with Call "signTransaction" [_; VNum n] => Some n | _ => None end) t.

Definition broadcasts (t : list event) : list string :=
  omap (fun e => match e with Call "broadcast_tx_async" [VStr b] => Some b | _ => None end) t.

Arguments signed_nonces : simpl never.
Arguments broadcasts : simpl never.

Lemma broadcasts_app t1 t2 : broadcasts (t1 ++ t2) = (broadcasts t1 ++ broadcasts t2)%list.
Proof. apply omap_app. Qed.

Lemma signed_nonces_app t1 t2 : signed_nonces (t1 ++ t2) = (signed_nonces t1 ++ signed_nonces t2)%list.
Proof. apply omap_app. Qed.

(** [k] consecutive integers from [n]. *)
Fixpoint from (n : Z) (k : nat) : list Z :=
  match k with O => [] | S k' => n :: from (n + 1) k' end.

Lemma from_app n k l : from n (k + l) = (from n k ++ from (n + Z.of_nat k) l)%list.
Proof.
  revert n. induction k as [|k IH]; intros n; cbn [from Nat.add app]; [by rewrite Z.add_0_r|].
  rewrite IH. do 3 f_equal. lia.
Qed.

(** The nonces signed are those between the nonce before and after. *)
Definition nonces_used {N} (w w' : KeyWorld N) (t : list event) : Prop :=
  exists k, signed_nonces t = from (key_nonce w + 1) k /\ key_nonce w' = key_nonce w + Z.of_nat k.

#[global] Instance nonces_used_rel {N} : TraceRel (@nonces_used N).
Proof.
  split.
  - intros w. exists 0%nat. split; [done|lia].
  - intros w1 w2 w3 t1 t2 (k1 & E1 & N1) (k2 & E2 & N2). exists (k1 + k2)%nat.
    rewrite signed_nonces_app, E1, E2, from_app, N1. split; [do 2 f_equal; lia | lia].
Qed.

(** Nothing is broadcast. *)
Definition no_broadcast {N} (w w' : KeyWorld N) (t : list event) : Prop := broadcasts t = [].

#[global] Instance no_broadcast_rel {N} : TraceRel (@no_broadcast N).
Proof.
  split; [done|]. unfold no_broadcast. intros w1 w2 w3 t1 t2 H1 H2. by rewrite broadcasts_app, H1, H2.
Qed.

Section SendLemmas.
Context {N : Type} (node : NearNode N).

Definition answers {A} (op : service N A) : Prop :=
  forall n, match (op n).1 with Ret _ | Throw _ => True | _ => False end.

(** The provider returns or throws. *)
Record node_answers : Prop := {
  status_answers : answers (near_status node);
  sign_answers : forall r n a h, match near_sign node r n a h with Ret _ | Throw _ => True | _ => False end;
  broadcast_answers : forall b, answers (near_broadcast node b);
  txStatus_answers : forall h, answers (near_txStatus node h)
}.

Lemma respects_net {A} (I : KeyWorld N -> KeyWorld N -> list event -> Prop) e (op : service N A) :
  (forall w n, I w (mkKey (key_nonce w) n) [e]) -> respects I (perform e (net op)).
Proof. intros H. apply respects_perform. intros w. unfold net. destruct (op (key_net w)). apply H. Qed.

Lemma nonces_used_unsigned (w : KeyWorld N) n e : signed_nonces [e] = [] -> nonces_used w (mkKey (key_nonce w) n) [e].
Proof. intros H. exists 0%nat. rewrite H. split; [done | cbn; lia]. Qed.

Lemma sign_next_nonces r acts : respects nonces_used (sign_next node r acts).
Proof.
  apply respects_bind; [apply _| |intros h].
  { apply respects_net. intros. by apply nonces_used_unsigned. }
  intros w. rewrite eff_bind_eq. cbn. exists 1%nat. split; [done | cbn; lia].
Qed.

Lemma sendTxnAsync_nonces tx : respects nonces_used (sendTxnAsync node tx).
Proof. apply respects_net. intros. by apply nonces_used_unsigned. Qed.

Lemma catch_message_respects {A} I `{!TraceRel I} (m : eff (KeyWorld N) event A) :
  respects I m -> respects I (catch_message m).
Proof. intros Hm. unfold catch_message. auto with bridge. Qed.

Lemma sleep_nonces ms : respects nonces_used (sleep (W := KeyWorld N) ms).
Proof. apply respects_emit. intros w. exists 0%nat. split; [done|lia]. Qed.

Lemma txStatus_nonces h :
  respects nonces_used (perform (Call "txStatus" [VStr h]) (net (near_txStatus node h))).
Proof. apply respects_net. intros. by apply nonces_used_unsigned. Qed.

Hint Resolve sign_next_nonces sendTxnAsync_nonces sleep_nonces txStatus_nonces catch_message_respects : bridge.

Lemma broadcast_phase_nonces r acts last resend :
  respects nonces_used (broadcast_phase node r acts last resend).
Proof.
  unfold broadcast_phase. destruct resend, last as [tx|];
    repeat (apply respects_bind; [apply _ | auto with bridge | intros ?]);
    repeat case_match; eauto 6 with bridge.
Qed.

Lemma poll_status_nonces n j h result err : respects nonces_used (poll_status node n j h result err).
Proof.
  revert j result err. induction n as [|n IH]; intros j result err; cbn [poll_status]; [auto with bridge|].
  apply respects_bind; [apply _ | auto with bridge | intros [res|m]].
  - destruct (is_final _); auto with bridge.
  - apply respects_bind; auto with bridge.
Qed.

Hint Resolve broadcast_phase_nonces poll_status_nonces : bridge.

Lemma send_loop_nonces n r acts last resend err :
  respects nonces_used (send_loop node n r acts last resend err).
Proof.
  revert last resend err. induction n as [|n IH]; intros last resend err; cbn [send_loop]; [apply respects_lift, _|].
  apply respects_bind; [apply _ | auto with bridge | intros [failed last']].
  destruct failed as [m|]; [apply respects_bind; auto with bridge|].
  destruct last' as [tx|]; [|apply respects_lift, _].
  apply respects_bind; [apply _ | auto with bridge | intros [result err']].
  repeat case_match; auto with bridge; apply respects_lift, _.
Qed.

Lemma catch_message_run {A} (m : eff (KeyWorld N) event A) w :
  match m w with
  | (Ret a, w', t) => catch_message m w = (Ret (inl a), w', t)
  | (Throw e, w', t) => catch_message m w = (Ret (inr (err_message e)), w', t)
  | _ => True
  end.
Proof.
  unfold catch_message, try_catch. rewrite eff_bind_eq.
  destruct (m w) as [[[a|e|c|] w'] t]; cbn; try done; by rewrite app_nil_r.
Qed.

(** A caught service call: its answer or its error message. *)
Lemma catch_service {A} e (op : service N A) w :
  answers op ->
  exists r w', catch_message (perform e (net op)) w = (Ret r, w', [e]) /\
    match r with
    | inl a => (op (key_net w)).1 = Ret a
    | inr _ => exists err, (op (key_net w)).1 = Throw err
    end.
Proof.
  intros Ho. specialize (Ho (key_net w)). pose proof (catch_message_run (perform e (net op)) w) as Hc.
  unfold perform, net in Hc |- *. destruct (op (key_net w)) as [[a|err|c|] n']; try done.
  - eexists (inl a), _. split; [exact Hc | done].
  - eexists (inr _), _. split; [exact Hc | by exists err].
Qed.

(** A transaction that a run signed for these actions: under a nonce of
    its own, with a block hash the node answered. *)
Definition signed_in (r : string) (acts : list FunctionCall) (t : list event) (tx : SignedTx) : Prop :=
  exists nonce block_hash n, Call "signTransaction" [VStr r; VNum nonce] ∈ t /\
    (near_status node n).1 = Ret block_hash /\ near_sign node r nonce acts block_hash = Ret tx.

Lemma signed_in_app r acts t1 t2 t3 tx : signed_in r acts t2 tx -> signed_in r acts (t1 ++ t2 ++ t3)%list tx.
Proof. intros (nonce & h & n & Hin & H). exists nonce, h, n. split; [|exact H]. rewrite !elem_of_app. auto. Qed.

Lemma sign_next_signed r acts w tx :
  out_of (sign_next node r acts w) = Ret tx -> signed_in r acts (trace_of (sign_next node r acts w)) tx.
Proof.
  destruct (sign_next node r acts w) as [[o w'] t] eqn:E. cbn. intros ->. revert E.
  unfold sign_next. rewrite eff_bind_eq. unfold perform at 1, net at 1.
  destruct (near_status node (key_net w)) as [[h|e|c|] n1] eqn:Es; try done. rewrite eff_bind_eq. cbn. intros [= H _ <-].
  exists (key_nonce w + 1), h, (key_net w). split; [by right; left|]. by rewrite Es.
Qed.

Lemma sign_next_caught r acts w :
  node_answers ->
  exists s w' t, catch_message (sign_next node r acts) w = (Ret s, w', t) /\ broadcasts t = [] /\
    (forall tx, s = inl tx -> signed_in r acts t tx).
Proof.
  intros Hn. pose proof (catch_message_run (sign_next node r acts) w) as Hc. pose proof (sign_next_signed r acts w) as Hsig.
  assert (respects no_broadcast (sign_next node r acts)) as Hb.
  { apply respects_bind; [apply _ | by apply respects_net | intros h].
    apply respects_bind; [apply _ | by apply respects_query | intros nonce]. by apply respects_perform. }
  specialize (Hb w). unfold no_broadcast in Hb.
  assert (match out_of (sign_next node r acts w) with Ret _ | Throw _ => True | _ => False end) as Ho.
  { unfold sign_next. rewrite eff_bind_eq. unfold perform at 1, net at 1.
    pose proof (status_answers Hn (key_net w)) as Hs.
    destruct (near_status node (key_net w)) as [[h|e|c|] n1]; try done.
    rewrite eff_bind_eq. cbn. exact (sign_answers Hn _ _ _ _). }
  destruct (sign_next node r acts w) as [[[tx|e|c|] w'] t]; try done; do 3 eexists; (split; [exact Hc|]); (split; [done|]);
    [intros ? [= <-]; by apply Hsig | done].
Qed.

(** What follows a broadcast until the next one: status requests for the
    transaction, and pauses. *)
Definition polls (tx : SignedTx) (t : list event) : Prop :=
  Forall (fun e => e = Call "txStatus" [VStr (stx_hash tx)] \/ exists ms, e = Sleep ms) t.

(** A trace that ends with the broadcast of [tx] and requests for its
    status. *)
Definition ends_with (tx : SignedTx) (t : list event) : Prop :=
  exists before after, t = (before ++ Call "broadcast_tx_async" [VStr (stx_bytes tx)] :: after)%list /\ polls tx after.

Lemma ends_with_broadcast tx : ends_with tx [Call "broadcast_tx_async" [VStr (stx_bytes tx)]].
Proof. exists [], []. split; [done | constructor]. Qed.

Lemma ends_with_polls tx t t' : ends_with tx t -> polls tx t' -> ends_with tx (t ++ t')%list.
Proof.
  intros (before & after & -> & Ha) Hp. exists before, (after ++ t')%list. split; [by rewrite <- app_assoc | by apply Forall_app].
Qed.

Lemma ends_with_app tx t t' : ends_with tx t' -> ends_with tx (t ++ t')%list.
Proof. intros (before & after & -> & Ha). exists (t ++ before)%list, after. by rewrite <- app_assoc. Qed.

(** What a round broadcasts, and the transaction it leaves behind. *)
Lemma broadcast_phase_spec r acts last resend w :
  node_answers -> (resend = true -> last <> None) ->
  exists failed last' w' t,
    broadcast_phase node r acts last resend w = (Ret (failed, last'), w', t) /\
    ((resend = false /\ failed <> None /\ last' = last /\ broadcasts t = []) \/
     (exists tx, last' = Some tx /\ broadcasts t = [stx_bytes tx] /\ (resend = true -> last = Some tx) /\
       ends_with tx t /\ (last = Some tx \/ signed_in r acts t tx) /\
       (failed <> None -> exists n e, (near_broadcast node (stx_bytes tx) n).1 = Throw e))).
Proof.
  intros Hn Hl. unfold broadcast_phase. destruct resend.
  - destruct last as [tx|]; [|by destruct (Hl eq_refl)]. rewrite eff_bind_eq.
    destruct (catch_service (Call "broadcast_tx_async" [VStr (stx_bytes tx)])
      (near_broadcast node (stx_bytes tx)) w (broadcast_answers Hn _)) as (x & w' & E & Hx).
    unfold sendTxnAsync. rewrite E. cbn. do 4 eexists. split; [done|]. right. exists tx.
    split_and!; try done; [apply ends_with_broadcast | by left|]. destruct x; [done|]. destruct Hx as [e He]. intros _. by exists (key_net w), e.
  - rewrite eff_bind_eq. destruct (sign_next_caught r acts w Hn) as (s & w1 & t1 & -> & Hb & Hsig).
    destruct s as [tx|m]; cbn.
    + rewrite eff_bind_eq.
      destruct (catch_service (Call "broadcast_tx_async" [VStr (stx_bytes tx)])
        (near_broadcast node (stx_bytes tx)) w1 (broadcast_answers Hn _)) as (x & w' & E & Hx).
      unfold sendTxnAsync. rewrite E. cbn. do 4 eexists. split; [done|]. right. exists tx.
      rewrite broadcasts_app, Hb. split_and!; try done.
      { apply ends_with_app, ends_with_broadcast. }
      { right. exact (signed_in_app r acts [] t1 _ tx (Hsig tx eq_refl)). }
      destruct x; [done|]. destruct Hx as [e He]. intros _. by exists (key_net w1), e.
    + do 4 eexists. split; [done|]. left. by rewrite app_nil_r.
Qed.

Lemma poll_status_spec n j h result err w :
  node_answers ->
  exists result' err' w' t,
    poll_status node n j h result err w = (Ret (result', err'), w', t) /\
    Forall (fun e => e = Call "txStatus" [VStr h] \/ exists ms, e = Sleep ms) t /\
    (result' = result \/ exists res n', result' = Some res /\ (near_txStatus node h n').1 = Ret res).
Proof.
  intros Hn. revert j result err w. induction n as [|n IH]; intros j result err w; cbn [poll_status].
  { do 4 eexists. split; [done|]. auto. }
  rewrite eff_bind_eq.
  destruct (catch_service (Call "txStatus" [VStr h]) (near_txStatus node h) w (txStatus_answers Hn _))
    as (x & w1 & -> & Hx).
  destruct x as [res|m].
  - destruct (is_final (tr_status res)).
    + do 4 eexists. split; [done|]. split; [by repeat constructor|]. right. by exists res, (key_net w).
    + destruct (IH (j + 1) (Some res) err w1) as (r' & e' & w' & t & E & Hb & Hr). rewrite E.
      do 4 eexists. split; [done|]. split; [constructor; [by left | exact Hb]|]. right. destruct Hr as [->|Hr]; [|done].
      by exists res, (key_net w).
  - rewrite eff_bind_eq. cbn. destruct (IH (j + 1) result (Some m) w1) as (r' & e' & w' & t & E & Hb & Hr).
    rewrite E. do 4 eexists. split; [done|]. split; [|exact Hr].
    constructor; [by left|]. constructor; [by right; eexists | exact Hb].
Qed.

Lemma polls_no_broadcast tx t : polls tx t -> broadcasts t = [].
Proof. induction 1 as [|e t [->|[ms ->]] _ IH]; [done | exact IH | exact IH]. Qed.

(** How a round of the loop ends: for good, or in another round. *)
Inductive verdict : Type :=
| Done (o : outcome TxResult)
| Again (last : option SignedTx) (resendLast : bool) (errorMsg : option string).

Definition nonce_failure (tx : SignedTx) : Prop :=
  exists n res json, (near_txStatus node (stx_hash tx) n).1 = Ret res /\ tr_status res = Failure json /\
    str_includes "Transaction nonce" json = true.

Definition broadcast_failure (tx : SignedTx) : Prop :=
  exists n e, (near_broadcast node (stx_bytes tx) n).1 = Throw e.

(** What a round did with the transaction [tx] it broadcast. *)
Definition round_ok (tx : SignedTx) (v : verdict) : Prop :=
  match v with
  | Done (Ret res) => exists val n, tr_status res = SuccessValue val /\ (near_txStatus node (stx_hash tx) n).1 = Ret res
  | Done (Throw _) => True
  | Done _ => False
  | Again last resend _ => last = Some tx /\ (resend = true \/ broadcast_failure tx \/ nonce_failure tx)
  end.

Lemma send_loop_round n r acts last resend err w :
  node_answers -> (resend = true -> last <> None) ->
  exists v w1 t1,
    send_loop node (S n) r acts last resend err w =
      match v with
      | Done o => (o, w1, t1)
      | Again l b e => let run := send_loop node n r acts l b e w1 in
                       (out_of run, world_of run, t1 ++ trace_of run)%list
      end /\
    ((broadcasts t1 = [] /\ resend = false /\ exists e, v = Again last false e) \/
     (exists tx, broadcasts t1 = [stx_bytes tx] /\ (resend = true -> last = Some tx) /\ round_ok tx v /\
       ends_with tx t1 /\ (last = Some tx \/ signed_in r acts t1 tx))).
Proof.
  intros Hn Hl. cbn [send_loop]. rewrite eff_bind_eq.
  destruct (broadcast_phase_spec r acts last resend w Hn Hl) as (failed & last' & w1 & t1 & -> & Hsp).
  destruct failed as [m|].
  - exists (Again last' resend (Some m)), w1, (t1 ++ [Sleep (num_of_Z 500)])%list.
    rewrite eff_bind_eq. cbn. split; [by rewrite <- app_assoc|]. rewrite broadcasts_app, app_nil_r.
    destruct Hsp as [(-> & _ & -> & Hb)|(tx & -> & Hb & Hr & He & Hsig & Hf)]; [left; eauto|].
    right. exists tx. split; [exact Hb|]. split; [exact Hr|]. split; [split; [done | right; left; by apply Hf] |]. split.
    + apply ends_with_polls; [exact He|]. constructor; [by right; eexists | constructor].
    + destruct Hsig as [?|Hsig]; [by left | right; exact (signed_in_app r acts [] t1 _ tx Hsig)].
  - destruct Hsp as [(_ & Hf & _)|(tx & -> & Hb & Hr & He & Hsig & _)]; [done|].
    rewrite eff_bind_eq.
    destruct (poll_status_spec RETRY_TX_STATUS 0 (stx_hash tx) None err w1 Hn)
      as (result & err' & w2 & t2 & -> & Hp2 & Hres).
    assert (broadcasts (t1 ++ t2) = [stx_bytes tx]) as Hbb by by rewrite broadcasts_app, Hb, (polls_no_broadcast tx).
    assert (ends_with tx (t1 ++ t2)%list /\ (last = Some tx \/ signed_in r acts (t1 ++ t2)%list tx)) as Hend.
    { split; [by apply ends_with_polls|]. destruct Hsig as [?|Hsig]; [by left | right; exact (signed_in_app r acts [] t1 _ tx Hsig)]. }
    destruct result as [res|].
    + destruct Hres as [?|(res' & n' & [= <-] & Hst)]; [done|].
      destruct (tr_status res) as [v|json|] eqn:Es; [|destruct (str_includes _ json) eqn:Ej|];
        cbn [out_of world_of trace_of fst snd].
      * exists (Done (Ret res)), w2, (t1 ++ t2)%list. cbn. rewrite app_nil_r. split; [done|].
        right. exists tx. cbn. eauto 8.
      * exists (Again (Some tx) false (Some json)), w2, (t1 ++ t2)%list. rewrite app_assoc. split; [done|].
        right. exists tx. unfold round_ok, nonce_failure. eauto 12.
      * exists (Done (Throw (Error json))), w2, (t1 ++ t2)%list. cbn. rewrite app_nil_r. split; [done|]. eauto 8.
      * eexists (Done (Throw _)), w2, (t1 ++ t2)%list. cbn. rewrite app_nil_r. split; [done|]. eauto 8.
    + exists (Again (Some tx) true err'), w2, (t1 ++ t2)%list. cbn. rewrite app_assoc. split; [done|].
      right. exists tx. cbn. eauto 8.
Qed.

Lemma send_loop_bounded n r acts last resend err w :
  node_answers -> (resend = true -> last <> None) ->
  let run := send_loop node n r acts last resend err w in
  (length (broadcasts (trace_of run)) <= n)%nat /\
  match out_of run with Ret _ | Throw _ => True | _ => False end.
Proof.
  intros Hn. revert last resend err w. induction n as [|n IH]; intros last resend err w Hl; [done|].
  destruct (send_loop_round n r acts last resend err w Hn Hl) as (v & w1 & t1 & -> & Hsp).
  assert (length (broadcasts t1) <= 1)%nat as Hb by (destruct Hsp as [(-> & _)|(tx & -> & _)]; cbn; lia).
  destruct v as [o|l b e]; cbn.
  - split; [lia|]. destruct Hsp as [(_ & _ & ? & ?)|(tx & _ & _ & Hv & _)]; [done|]. by destruct o.
  - destruct (IH l b e w1) as [Hlen Ho].
    { intros ->. destruct Hsp as [(_ & _ & ? & [=])|(tx & _ & _ & [-> _] & _)]; done. }
    rewrite broadcasts_app, length_app. cbn in Hlen, Ho. split; [lia | done].
Qed.

(** A result is the node's answer for the transaction broadcast last, which
    was signed for these actions. *)
Lemma send_loop_success n r acts last resend err w res :
  node_answers -> (resend = true -> last <> None) ->
  out_of (send_loop node n r acts last resend err w) = Ret res ->
  let t := trace_of (send_loop node n r acts last resend err w) in
  exists tx val m, (last = Some tx \/ signed_in r acts t tx) /\ ends_with tx t /\
    tr_status res = SuccessValue val /\ (near_txStatus node (stx_hash tx) m).1 = Ret res.
Proof.
  intros Hn. cbv zeta. revert last resend err w. induction n as [|n IH]; intros last resend err w Hl; [done|].
  destruct (send_loop_round n r acts last resend err w Hn Hl) as (v & w1 & t1 & -> & Hsp).
  destruct v as [o|l b e]; cbn [out_of world_of trace_of fst snd]; intros Hres.
  - destruct Hsp as [(_ & _ & ? & ?)|(tx & Hb & _ & Hv & He & Hsig)]; [done|]. subst o.
    destruct Hv as (val & m & Hs & Ht). by exists tx, val, m.
  - destruct (IH l b e w1) as (tx & val & m & Hsig & He & Hs & Ht); [|done|].
    { intros ->. destruct Hsp as [(_ & _ & ? & [=])|(tx & _ & _ & [-> _] & _)]; done. }
    exists tx, val, m. split; [|split; [by apply ends_with_app | done]].
    destruct Hsig as [->|Hsig]; [|right; pose proof (signed_in_app r acts t1 _ [] tx Hsig) as H; by rewrite app_nil_r in H].
    destruct Hsp as [(_ & _ & e' & [= Hl' _ _])|(tx' & _ & _ & [Hl' _] & _ & Hsig')]; [by left|]. injection Hl' as <-.
    destruct Hsig' as [?|Hsig']; [by left | right; exact (signed_in_app r acts [] t1 _ tx Hsig')].
Qed.

(** Without broadcast errors and nonce failures, one transaction only. *)
Lemma send_loop_single n r acts last resend err w :
  node_answers -> (forall tx, ~ broadcast_failure tx) -> (forall tx, ~ nonce_failure tx) ->
  (resend = true -> last <> None) ->
  exists b, Forall (eq b) (broadcasts (trace_of (send_loop node n r acts last resend err w))) /\
    (forall tx, resend = true -> last = Some tx -> b = stx_bytes tx).
Proof.
  intros Hn Hbf Hnf. revert last resend err w. induction n as [|n IH]; intros last resend err w Hl.
  { destruct last as [tx|]; [exists (stx_bytes tx) | exists ""]; (split; [constructor | congruence]). }
  destruct (send_loop_round n r acts last resend err w Hn Hl) as (v & w1 & t1 & -> & Hsp).
  destruct v as [o|l b e]; cbn [out_of world_of trace_of fst snd].
  - destruct Hsp as [(_ & _ & ? & ?)|(tx & -> & Hlast & Hv & _)]; [done|].
    exists (stx_bytes tx). split; [by repeat constructor|]. intros tx' Hr Hx.
    rewrite (Hlast Hr) in Hx. by simplify_eq.
  - destruct Hsp as [(Hb & -> & ? & [= -> -> ->])|(tx & Hb & Hlast & [-> Hv] & _)].
    + destruct (IH last false x w1) as (b & HF & _); [done|]. exists b.
      rewrite broadcasts_app, Hb. split; [done|]. by intros.
    + destruct Hv as [->|[Hv|Hv]]; [|by destruct (Hbf tx)|by destruct (Hnf tx)].
      destruct (IH (Some tx) true e w1) as (b' & HF & Hb'); [done|]. specialize (Hb' tx eq_refl eq_refl). subst b'.
      exists (stx_bytes tx). rewrite broadcasts_app, Hb. split; [by constructor|].
      intros tx' Hr Hx. rewrite (Hlast Hr) in Hx. by simplify_eq.
Qed.

Lemma txnStatus_loop_spec txHash retries wait w result :
  node_answers ->
  exists result' w' t,
    txnStatus_loop node retries txHash wait result w = (Ret result', w', t) /\
    (calls "txStatus" t <= retries)%nat /\
    (result' = result \/ exists res n, result' = Some res /\ (near_txStatus node txHash n).1 = Ret res).
Proof.
  intros Hn. revert w result. induction retries as [|k IH]; intros w result; cbn [txnStatus_loop].
  { do 3 eexists. split; [done|]. split; [done | by left]. }
  rewrite eff_bind_eq.
  destruct (catch_service (Call "txStatus" [VStr txHash]) (near_txStatus node txHash) w
    (txStatus_answers Hn _)) as (x & w1 & -> & Hx).
  destruct x as [res|m]; [destruct (is_final (tr_status res))|].
  - do 3 eexists. split; [done|]. cbn. autorewrite with bridge. split; [lia|]. right. by exists res, (key_net w).
  - destruct (IH w1 (Some res)) as (r' & w' & t & E & Hc & Hr). rewrite E. do 3 eexists.
    split; [done|]. cbn. autorewrite with bridge. split; [lia|]. right.
    destruct Hr as [->|Hr]; [by exists res, (key_net w) | done].
  - rewrite eff_bind_eq. cbn. destruct (IH w1 result) as (r' & w' & t & E & Hc & Hr). rewrite E.
    do 3 eexists. split; [done|]. cbn. autorewrite with bridge. split; [lia | done].
Qed.

End SendLemmas.

(** ** Properties *)

Section Properties.
Context {N : Type} (node : NearNode N).

(** C33: nonces are never reused: in every run of [signAndSendTransaction],
    however it ends, the signatures use the nonces directly after the
    access key's nonce, one after the other, and the access key object is
    left at the last nonce used. *)
Theorem signAndSend_nonces receiverId actions w :
  nonces_used w (world_of (signAndSendTransaction node receiverId actions w))
    (trace_of (signAndSendTransaction node receiverId actions w)).
Proof. apply send_loop_nonces. Qed.

(** [signAndSendTransaction] always ends, in a result or an error,
    after at most ten broadcasts. *)
Theorem signAndSend_bounded receiverId actions w :
  node_answers node ->
  let run := signAndSendTransaction node receiverId actions w in
  (length (broadcasts (trace_of run)) <= 10)%nat /\
  match out_of run with Ret _ | Throw _ => True | _ => False end.
Proof. intros Hn. by apply (send_loop_bounded node 10). Qed.

(** C19: when [signAndSendTransaction] returns a result, the result is a
    success, and it is the node's answer for the hash of a transaction that
    this call signed for the given receiver and actions (under a nonce of
    this call, with a block hash the node answered), whose bytes are the
    last that the call broadcast, and for whose hash alone it asked after
    that. *)
Theorem signAndSend_success receiverId actions w res :
  node_answers node ->
  out_of (signAndSendTransaction node receiverId actions w) = Ret res ->
  let t := trace_of (signAndSendTransaction node receiverId actions w) in
  exists tx val m, signed_in node receiverId actions t tx /\ ends_with tx t /\
    tr_status res = SuccessValue val /\ (near_txStatus node (stx_hash tx) m).1 = Ret res.
Proof.
  intros Hn Hr. destruct (send_loop_success node RETRY_SEND_TX receiverId actions None false None w res Hn) as (tx & val & m & Hsig & H); [done..|].
  exists tx, val, m. split; [by destruct Hsig | exact H].
Qed.

(** No double sending as long as the node acknowledges broadcasts: if
    no broadcast throws and no transaction fails for its nonce, all
    broadcasts of a call carry the same bytes, so a transaction whose
    status is unknown is resent and never signed again. *)
Theorem signAndSend_single receiverId actions w :
  node_answers node -> (forall tx, ~ broadcast_failure node tx) -> (forall tx, ~ nonce_failure node tx) ->
  exists b, Forall (eq b) (broadcasts (trace_of (signAndSendTransaction node receiverId actions w))).
Proof.
  intros Hn Hb Hf. destruct (send_loop_single node RETRY_SEND_TX receiverId actions None false None w)
    as (b & HF & _); try done. by exists b.
Qed.

Context {BW : BinaryWriter} {BWok : BinaryWriterOk} {BN : BnLib} {BNok : BnLibOk}.

(** A view method returns what the contract returned: when the node
    answers a query with the Borsh bytes of a value of the method's output
    type, [viewMethod] decodes exactly that value. *)
Theorem viewMethod_returns fuel (sch : schema) d contractId m args bytes t v b bs w q n' :
  outputFieldType m = Some t -> has_type sch d t v -> (d < fuel)%nat ->
  serialize fuel sch (inputFieldType m) args = Ret bytes ->
  serialize fuel sch (Some t) v = Ret (b :: bs) ->
  near_query node ("call/" +:+ contractId +:+ "/" +:+ methodName m) bytes (key_net w) = (Ret q, n') ->
  qr_result q = Some (b :: bs) ->
  out_of (viewMethod node fuel sch contractId m args w) = Ret v.
Proof.
  intros Ht Hv Hf Hin Hout Hq Hr. unfold viewMethod. rewrite eff_bind_eq, Hin. cbn [lift out_of].
  rewrite eff_bind_eq. unfold backoff. cbn [backoff_with]. unfold try_catch, perform, net. rewrite Hq.
  cbn [fst snd out_of world_of]. rewrite Hr, Ht. cbn.
  destruct (has_type_codes _ _ _ _ Hv) as [bs' Hc]. rewrite (serialize_codes _ _ _ _ _ _ Hc Hf) in Hout.
  injection Hout as ->. pose proof (deserialize_codes _ _ _ _ _ [] _ Hc Hf) as Hd.
  by rewrite app_nil_r in Hd.
Qed.

(** [txnStatus] polls at most [retries] times, always ends, and returns
    only successful results of the transaction asked for. *)
Theorem txnStatus_success txHash retries wait w :
  node_answers node ->
  let run := txnStatus node txHash retries wait w in
  (calls "txStatus" (trace_of run) <= retries)%nat /\
  match out_of run with
  | Ret res => exists val n, tr_status res = SuccessValue val /\ (near_txStatus node txHash n).1 = Ret res
  | Throw _ => True
  | _ => False
  end.
Proof.
  intros Hn.
  cbv zeta. unfold txnStatus. rewrite eff_bind_eq.
  destruct (txnStatus_loop_spec node txHash retries wait w None Hn) as (r & w' & t & -> & Hc & Hr).
  destruct r as [res|]; [destruct (tr_status res) eqn:Es|]; cbn; rewrite app_nil_r; split; try done.
  destruct Hr as [?|(res' & n & [= <-] & Ht)]; [done|]. by exists value, n.
Qed.

End Properties.

(** ** Witnesses *)

Module Witness.
Import Reference Borsh.Witness.

(** A node whose world is its pool of received transactions.  The byte
    string of a transaction names its nonce. *)
Definition sign_pool (receiver : string) (nonce : Z) (actions : list FunctionCall) (block : string)
    : outcome SignedTx :=
  Ret {| stx_hash := "hash " +:+ pretty nonce; stx_bytes := "tx " +:+ pretty nonce |}.

Definition executed : TxResult := {| tr_status := SuccessValue "AQ=="; tr_logs := []; tr_receipt_ids := []; tr_receipts_outcome := [] |}.

Definition pool : NearNode (list string) := {|
  near_status := fun n => (Ret "block", n);
  near_sign := sign_pool;
  near_broadcast := fun b n => (Ret tt, (n ++ [b])%list);
  near_txStatus := fun h n => (Ret executed, n);
  near_query := fun path args n =>
    (Ret {| qr_result := Some [7; 0; 0; 0; 0; 0; 0; 0; 2; 0; 0; 0; 1; 255; 1; 0]; qr_logs := [] |}, n)
|}.

(** The same node behind a connection that loses the answer to the first
    broadcast. *)
Definition lossy_pool : NearNode (list string) := {|
  near_status := near_status pool;
  near_sign := sign_pool;
  near_broadcast := fun b n =>
    (match n with [] => Throw (Error "socket hang up") | _ => Ret tt end, (n ++ [b])%list);
  near_txStatus := near_txStatus pool;
  near_query := near_query pool
|}.

Lemma pool_answers : node_answers pool.
Proof. by split. Qed.

Lemma lossy_answers : node_answers lossy_pool.
Proof. split; try done. intros b n. by destruct n. Qed.

Definition transfer : list FunctionCall :=
  [{| fc_method := "deposit"; fc_args := []; fc_gas := VNum 1; fc_amount := VUndef |}].

Definition entry_method : MethodSpec :=
  {| methodName := "entry"; inputFieldType := None; outputFieldType := Some (FName "Entry") |}.

(** An error of the broadcast request leads to a second transaction
    under a new nonce: when the node has received the first one all the
    same, the pool ends up with two transactions for one call. *)
Theorem signAndSend_double_send :
  let run := signAndSendTransaction lossy_pool "bridge" transfer (mkKey 41 []) in
  out_of run = Ret executed /\ key_net (world_of run) = ["tx 42"; "tx 43"].
Proof. vm_compute. auto. Qed.

(** A transaction that is still pending after ten immediate polls ends the
    call with a [TypeError]. *)
Example signAndSend_pending_throws :
  out_of (signAndSendTransaction {|
    near_status := near_status pool; near_sign := sign_pool; near_broadcast := near_broadcast pool;
    near_txStatus := fun h n => (Ret {| tr_status := Pending; tr_logs := []; tr_receipt_ids := []; tr_receipts_outcome := [] |}, n);
    near_query := near_query pool |} "bridge" transfer (mkKey 41 [])) =
  Throw (TypeError "Cannot read property 'includes' of undefined").
Proof. vm_compute. reflexivity. Qed.

Lemma signAndSend_bounded_witness :
  let run := signAndSendTransaction pool "bridge" transfer (mkKey 41 []) in
  (length (broadcasts (trace_of run)) <= 10)%nat /\
  match out_of run with Ret _ | Throw _ => True | _ => False end.
Proof. apply (signAndSend_bounded pool). exact pool_answers. Defined.

Lemma signAndSend_success_witness :
  let t := trace_of (signAndSendTransaction lossy_pool "bridge" transfer (mkKey 41 [])) in
  exists tx val m, signed_in lossy_pool "bridge" transfer t tx /\ ends_with tx t /\
    tr_status executed = SuccessValue val /\ (near_txStatus lossy_pool (stx_hash tx) m).1 = Ret executed.
Proof. apply (signAndSend_success lossy_pool); [exact lossy_answers | vm_compute; reflexivity]. Defined.

Lemma signAndSend_single_witness :
  exists b, Forall (eq b) (broadcasts (trace_of (signAndSendTransaction pool "bridge" transfer (mkKey 41 [])))).
Proof.
  apply (signAndSend_single pool); [exact pool_answers | by intros tx (n & e & H)|].
  intros tx (n & res & json & [= <-] & H & _). discriminate.
Defined.

Lemma viewMethod_returns_witness :
  out_of (viewMethod pool 3 entry_schema "client" entry_method VUndef (mkKey 41 [])) = Ret entry.
Proof.
  eapply (viewMethod_returns pool 3 entry_schema 2 "client" entry_method VUndef _ (FName "Entry") entry);
    try reflexivity.
  - exact entry_typed.
  - lia.
Defined.

Lemma txnStatus_success_witness :
  let run := txnStatus pool "hash 42" 10 1000 (mkKey 41 []) in
  (calls "txStatus" (trace_of run) <= 10)%nat /\
  match out_of run with
  | Ret res => exists val n, tr_status res = SuccessValue val /\ (near_txStatus pool "hash 42" n).1 = Ret res
  | Throw _ => True
  | _ => False
  end.
Proof. apply (txnStatus_success pool). exact pool_answers. Defined.

End Witness.
