(* ===== verification/EthOnNearClient.v ===== *)
(** * The Ethereum client and prover contracts on NEAR, as called

    The Borsh schemas and method tables of
    eth2near/eth2near-block-relay/eth-on-near-client.js and
    eth-on-near-prover.js, [getEthBlock], [web3BlockToRlp] and the two
    [maybeInitialize] methods. *)

From S2P Require Import Prelude Interfaces Borsh Robust NearTx.

(** ** Schema entries of kind 'function' (utils/borsh.js) *)

Section Codecs.
Context {HX : HexLib}.

Definition hexToBuffer (hex : val) : outcome (list Z) := hexToBytes hex.

Definition readerToHex (len : nat) (reader : BinaryReader) : outcome (val * BinaryReader) :=
  '(bs, reader') ← readFixedArray len reader; Ret (VStr (bytesToHex bs), reader').

Definition hashType (len : nat) : structSchema := SFunction hexToBuffer (readerToHex len).

Definition boolType : structSchema :=
  SFunction (fun b => hexToBytes (VStr (if truthy b then "0x01" else "0x00")))
    (fun z => '(h, z') ← readerToHex 1 z;
      Ret (VBool (match h with VStr s => String.eqb s "0x01" | _ => false end), z')).

(** ** eth-on-near-client.js *)

Definition borshSchema : schema := {[
  "bool" := boolType;
  "initInput" := SStruct [
    ("validate_ethash", FName "bool");
    ("dags_start_epoch", FName "u64");
    ("dags_merkle_roots", FArray (FName "H128"));
    ("first_header", FArray (FName "u8"));
    ("hashes_gc_threshold", FName "u64");
    ("finalized_gc_threshold", FName "u64");
    ("num_confirmations", FName "u64");
    ("trusted_signer", FName "?AccountId")];
  "dagMerkleRootInput" := SStruct [("epoch", FName "u64")];
  "addBlockHeaderInput" := SStruct [
    ("block_header", FArray (FName "u8"));
    ("dag_nodes", FArray (FName "DoubleNodeWithMerkleProof"))];
  "DoubleNodeWithMerkleProof" := SStruct [
    ("dag_nodes", FArray (FName "H512"));
    ("proof", FArray (FName "H128"))];
  "H128" := hashType 16;
  "H256" := hashType 32;
  "H512" := hashType 64;
  "?H256" := SOption (FName "H256");
  "?AccountId" := SOption (FName "string")
]}.

(** eth-on-near-prover.js *)
Definition proverSchema : schema := {[
  "initInput" := SStruct [("bridge_smart_contract", FName "string")];
  "assertEthbridgeHashInput" := SStruct [
    ("block_number", FName "u64");
    ("expected_block_hash", FName "H256")];
  "H256" := hashType 32;
  "verifyLogEntry" := SStruct [
    ("log_index", FName "u64");
    ("log_entry_data", FArray (FName "u8"));
    ("receipt_index", FName "u64");
    ("receipt_data", FArray (FName "u8"));
    ("header_data", FArray (FName "u8"));
    ("proof", FArray (FArray (FName "u8")));
    ("skip_bridge_call", FName "bool")]
]}.

End Codecs.

Definition spec (name : string) (input output : option fieldType) : MethodSpec :=
  {| methodName := name; inputFieldType := input; outputFieldType := output |}.

Definition clientViewMethods : list MethodSpec := [
  spec "initialized" None (Some (FName "bool"));
  spec "dag_merkle_root" (Some (FName "dagMerkleRootInput")) (Some (FName "H128"));
  spec "last_block_number" None (Some (FName "u64"));
  spec "block_hash" (Some (FName "u64")) (Some (FName "?H256"));
  spec "known_hashes" (Some (FName "u64")) (Some (FArray (FName "H256")));
  spec "block_hash_safe" (Some (FName "u64")) (Some (FName "?H256"))
].

Definition clientChangeMethods : list MethodSpec := [
  spec "init" (Some (FName "initInput")) None;
  spec "add_block_header" (Some (FName "addBlockHeaderInput")) None
].

Definition proverChangeMethods : list MethodSpec := [
  spec "verify_log_entry" (Some (FName "verifyLogEntry")) (Some (FName "bool"));
  spec "init" (Some (FName "initInput")) None;
  spec "assert_ethbridge_hash" (Some (FName "assertEthbridgeHashInput")) (Some (FName "bool"))
].

(** ** Blocks of the Ethereum node *)

Section EthBlocks.
Context {W : Type}.
(** [got.post] of [eth_getBlockByNumber]; the answer is [body.result]. *)
Context (rpc_getBlockByNumber : Z -> service W val).

Fixpoint getEthBlock_loop (attempts : nat) (number : Z) (result : val) : eff W event val :=
  match attempts with
  | O => mret result
  | S attempts' =>
      result ← perform (Call "eth_getBlockByNumber" [VNum number]) (rpc_getBlockByNumber number);
      match result with
      | VNull => _ ← sleep (num_of_Z 800); getEthBlock_loop attempts' number VNull
      | _ => mret result
      end
  end.

Definition getEthBlock (number : Z) : eff W event val := getEthBlock_loop 10 number VUndef.

End EthBlocks.

(** [header_rlp chain london blockData]: [blockFromRpc] with a [Common] of
    that chain (at the London fork with EIP-1559 when [london]) and
    [header.serialize()]. *)
Definition web3BlockToRlp (header_rlp : string -> bool -> val -> outcome (list Z))
    (blockData : val) (bridgeId : val) : outcome (list Z) :=
  let chain := match bridgeId with VStr "testnet" => "ropsten" | _ => "mainnet" end in
  fee ← get_prop blockData "baseFeePerGas";
  header_rlp chain (match fee with VUndef => false | _ => true end) blockData.

(** ** [maybeInitialize] *)

Section Initialize.
Context {N : Type} (near : NearNode N) (eth : Web3Node (KeyWorld N)) (ethNodeUrl : string).
Context (rpc_getBlockByNumber : Z -> service (KeyWorld N) val).
Context (header_rlp : string -> bool -> val -> outcome (list Z)).
Context (findAccessKey : service N (option Z)) (accountId contractId : string).
Context (dag_merkle_roots : val).
Context {BW : BinaryWriter} {BN : BnLib} {HX : HexLib}.

(** Depth enough for every type of the two schemas. *)
Definition schema_fuel : nat := 8.

Definition view (name : string) (input output : option fieldType) (args : val) : eff (KeyWorld N) event val :=
  viewMethod near schema_fuel borshSchema contractId (spec name input output) args.

Definition dag_merkle_root (epoch : Z) : eff (KeyWorld N) event val :=
  view "dag_merkle_root" (Some (FName "dagMerkleRootInput")) (Some (FName "H128")) (VObj [("epoch", VNum epoch)]).

Definition FIRST_ROOT : string := "0x55b891e842e58f58956a847cbbf67821".
Definition LAST_ROOT : string := "0x7a9010568819de327a24fa495029adcb".

Definition block_number (v : val) : Z := match v with VNum n => n | _ => 0 end.

Definition init_client (hashesGcThreshold finalizedGcThreshold numConfirmations validateEthash trustedSigner
    bridgeId : val) : eff (KeyWorld N) event val :=
  lastBlockNumber ← getBlockNumber ethNodeUrl eth;
  blockData ← getEthBlock rpc_getBlockByNumber (block_number lastBlockNumber);
  blockRlp ← lift (web3BlockToRlp header_rlp blockData bridgeId);
  changeMethod near schema_fuel borshSchema contractId (spec "init" (Some (FName "initInput")) None)
    (VObj [("validate_ethash", validateEthash); ("dags_start_epoch", VNum 0);
           ("dags_merkle_roots", dag_merkle_roots); ("first_header", VBytes blockRlp);
           ("hashes_gc_threshold", hashesGcThreshold); ("finalized_gc_threshold", finalizedGcThreshold);
           ("num_confirmations", numConfirmations); ("trusted_signer", trustedSigner)])
    (VNum 300000000000000) VUndef.

Definition maybeInitialize (hashesGcThreshold finalizedGcThreshold numConfirmations validateEthash trustedSigner
    bridgeId : val) : eff (KeyWorld N) event unit :=
  _ ← accessKeyInit accountId findAccessKey;
  initialized ← try_catch (view "initialized" None (Some (FName "bool")) VUndef) (fun _ => mret (VBool false));
  _ ← (if truthy initialized then mret VUndef
       else init_client hashesGcThreshold finalizedGcThreshold numConfirmations validateEthash trustedSigner bridgeId);
  firstRoot ← dag_merkle_root 0;
  lastRoot ← dag_merkle_root 511;
  match firstRoot, lastRoot with
  | VStr first, VStr last =>
      if String.eqb first FIRST_ROOT && String.eqb last LAST_ROOT then mret tt else exit 1
  | _, _ => exit 1
  end.

(** [EthOnNearProverContract.maybeInitialize] *)
Definition proverMaybeInitialize (ethClientAccId : string) : eff (KeyWorld N) event unit :=
  _ ← accessKeyInit accountId findAccessKey;
  try_catch
    (_ ← changeMethod near schema_fuel proverSchema contractId (spec "init" (Some (FName "initInput")) None)
           (VObj [("bridge_smart_contract", VStr ethClientAccId)]) VUndef VUndef;
     mret tt)
    (fun e =>
      if negb (String.eqb (err_message e) "") && str_includes "The contract is already initialized" (err_message e)
      then mret tt else throw e).

End Initialize.

(** ** Closed schemas *)

(** Every type reached from [t] is built in or an entry of the schema with
    a known kind, and no chain of entries is longer than [fuel]. *)
Fixpoint resolves (fuel : nat) (sch : schema) (t : fieldType) : bool :=
  match fuel with
  | O => false
  | S fuel' =>
      match t with
      | FName name =>
          is_builtin name ||
          match sch !! name with
          | Some (SOption t') => resolves fuel' sch t'
          | Some (SStruct fields) => forallb (fun f => resolves fuel' sch f.2) fields
          | Some (SFunction _ _) => true
          | Some (SOtherKind _) | None => false
          end
      | FFixed _ => true
      | FArray t' => resolves fuel' sch t'
      end
  end.

(** The failures that would be the schema's fault: a type that is missing
    in it, a kind that is none, types without end. *)
Definition schema_fault {A} (o : outcome A) : Prop :=
  o = OutOfFuel \/ exists n, o = Throw (missing_schema n) \/ exists kind, o = Throw (bad_kind kind n).

(** [f] never fails in this way. *)
Definition blameless {X A} (f : X -> outcome A) : Prop := forall x, ~ schema_fault (f x).

Lemma no_fault_ret {A} (a : A) : ~ schema_fault (Ret a).
Proof. intros [?|(n & [?|[k ?]])]; discriminate. Qed.

Lemma no_fault_bind {A B} (o : outcome A) (k : A -> outcome B) :
  ~ schema_fault o -> (forall a, o = Ret a -> ~ schema_fault (k a)) -> ~ schema_fault (o ≫= k).
Proof.
  intros Ho Hk. destruct o as [a|e|c|]; cbn [mbind outcome_bind]; [by apply Hk| | |by destruct Ho; left].
  - intros [?|(n & [H|[kd H]])]; [done| |]; apply Ho; right; exists n; [left | right; exists kd]; congruence.
  - intros [?|(n & [H|[kd H]])]; done.
Qed.

Lemma blameless_bind {R A B} (p : R -> outcome (A * R)) (q : A -> R -> outcome (B * R)) :
  blameless p -> (forall a, blameless (q a)) -> blameless (fun r => '(x, r') ← p r; q x r').
Proof. intros Hp Hq r. apply no_fault_bind; [apply Hp|]. intros [a r'] _. apply Hq. Qed.

(** An error that is not one of the two. *)
Lemma no_fault_throw {A} e : (forall n, e <> missing_schema n) -> (forall kind n, e <> bad_kind kind n) -> ~ schema_fault (A := A) (Throw e).
Proof. intros H1 H2 [?|(n & [H|[k H]])]; [done | by injection H as ->; apply (H1 n) | by injection H as ->; apply (H2 k n)]. Qed.

Ltac other_error := apply no_fault_throw; intros; discriminate.

Lemma blameless_ret {A} (a : A) : blameless (fun r : BinaryReader => Ret (a, r)).
Proof. intros r. apply no_fault_ret. Qed.

Lemma readU8_blameless : blameless readU8.
Proof. intros r. unfold readU8. case_match; [apply no_fault_ret | other_error]. Qed.

Lemma readU32_blameless : blameless readU32.
Proof. intros r. unfold readU32. case_match; [apply no_fault_ret | other_error]. Qed.

Lemma readBuffer_blameless len : blameless (readBuffer len).
Proof. intros r. unfold readBuffer. case_match; [other_error | apply no_fault_ret]. Qed.

#[export] Hint Resolve blameless_ret readU8_blameless readU32_blameless readBuffer_blameless no_fault_ret : bridge.

Lemma readString_blameless : blameless readString.
Proof. do 2 (apply blameless_bind; [auto with bridge | intros ?]). intros r. other_error. Qed.

Lemma readMany_blameless k fn : blameless fn -> blameless (readMany k fn).
Proof.
  intros Hfn. induction k as [|k IH]; cbn [readMany]; auto with bridge.
  apply blameless_bind; [done|]. intros v. apply blameless_bind; auto with bridge.
Qed.

Lemma deserializeFields_blameless rec fields acc :
  Forall (fun f => blameless (rec f.2)) fields -> blameless (deserializeFields rec fields acc).
Proof.
  intros H. revert acc. induction H as [|[name t] fields Ht _ IH]; intros acc; cbn [deserializeFields];
    auto with bridge. apply blameless_bind; auto.
Qed.

(** The custom coders of a schema have no faults of their own. *)
Definition coders_blameless (sch : schema) : Prop :=
  forall name ser deser, sch !! name = Some (SFunction ser deser) -> blameless ser /\ blameless deser.

Lemma resolves_builtin name : is_builtin name = true ->
  name = "u8" \/ name = "u64" \/ name = "u128" \/ name = "bool" \/ name = "string".
Proof. unfold is_builtin. rewrite !orb_true_iff, !String.eqb_eq. tauto. Qed.

Section Closed.
Context {BN : BnLib}.

Lemma deserializeField_blameless (sch : schema) fuel t :
  coders_blameless sch -> resolves fuel sch t = true -> blameless (deserializeField fuel sch t).
Proof.
  intros Hf. revert t. induction fuel as [|fuel IH]; intros t Ht; [done|].
  cbn [deserializeField]. destruct t as [name|len|t]; cbn [resolves] in Ht.
  - destruct (is_builtin name) eqn:Hb.
    + apply resolves_builtin in Hb as [->|[->|[->|[->| ->]]]]; cbn [String.eqb Ascii.eqb Bool.eqb];
        repeat (apply blameless_bind; [auto using readString_blameless with bridge | intros ?]); auto with bridge.
    + apply is_builtin_false in Hb as (-> & -> & -> & -> & ->).
      destruct (sch !! name) as [[t|fields|ser deser|kind]|] eqn:Hn; try done; [| |by eapply Hf].
      * apply blameless_bind; [auto with bridge|]. intros flag. destruct (flag =? 0); [auto with bridge|].
        destruct (flag =? 1); [by apply IH|]. intros r. other_error.
      * apply deserializeFields_blameless. rewrite orb_false_l, forallb_forall in Ht. apply Forall_forall.
        intros f Hin. by apply IH, Ht.
  - apply blameless_bind; auto with bridge.
  - apply blameless_bind; auto with bridge. unfold readArray.
    apply blameless_bind; auto with bridge. intros k. apply readMany_blameless. by apply IH.
Qed.

Lemma deserialize_blameless (sch : schema) fuel t : coders_blameless sch ->
  match t with Some t => resolves fuel sch t = true | None => True end -> blameless (deserialize fuel sch t).
Proof.
  intros Hf Ht bs. unfold deserialize. destruct t as [t|]; [|apply no_fault_ret].
  apply no_fault_bind; [by apply deserializeField_blameless|]. intros [v r] _. case_decide; [other_error | apply no_fault_ret].
Qed.

Context {BW : BinaryWriter}.

(** A writer whose own errors are others; an array is written by writing
    its items. *)
Class WriterBlameless : Prop := {
  wb_u8 v : blameless (write_u8 v);
  wb_u64 v : blameless (write_u64 v);
  wb_u128 v : blameless (write_u128 v);
  wb_string v : blameless (write_string v);
  wb_buffer bs : blameless (write_buffer bs);
  wb_fixed_array v : blameless (write_fixed_array v);
  wb_array v fn : (forall item, blameless (fn item)) -> blameless (write_array v fn)
}.

Context {WB : WriterBlameless}.

Lemma get_prop_no_fault v name : ~ schema_fault (get_prop v name).
Proof. destruct v; cbn [get_prop]; try apply no_fault_ret; other_error. Qed.

Lemma serializeFields_blameless rec v fields :
  Forall (fun f => forall x, blameless (rec x f.2)) fields -> blameless (serializeFields rec v fields).
Proof.
  induction 1 as [|[name t] fields Ht _ IH]; intros w; cbn [serializeFields]; [apply no_fault_ret|].
  apply no_fault_bind; [apply get_prop_no_fault | intros x _]. apply no_fault_bind; [apply Ht | intros w' _; apply IH].
Qed.

Lemma serializeField_blameless (sch : schema) fuel t v :
  coders_blameless sch -> resolves fuel sch t = true -> blameless (serializeField fuel sch v t).
Proof.
  intros Hf. revert t v. induction fuel as [|fuel IH]; intros t v Ht; [done|]. intros w.
  cbn [serializeField]. destruct t as [name|len|t]; cbn [resolves] in Ht.
  - destruct (is_builtin name) eqn:Hb.
    + apply resolves_builtin in Hb as [->|[->|[->|[->| ->]]]]; cbn [String.eqb Ascii.eqb Bool.eqb]; apply WB.
    + apply is_builtin_false in Hb as (-> & -> & -> & -> & ->).
      destruct (sch !! name) as [[t|fields|ser deser|kind]|] eqn:Hn; try done.
      * destruct v; try apply WB; (apply no_fault_bind; [apply WB | intros w' _; by apply IH]).
      * apply serializeFields_blameless. rewrite orb_false_l, forallb_forall in Ht. apply Forall_forall.
        intros f Hin x. by apply IH, Ht.
      * apply no_fault_bind; [by eapply Hf | intros bs _; apply WB].
  - apply no_fault_bind; [apply get_prop_no_fault | intros l _]. destruct l as [| |b|n|str|bs|vs|fs]; try (case_match; [apply WB | other_error]); other_error.
  - apply wb_array. intros item. by apply IH.
Qed.

Lemma serialize_blameless (sch : schema) fuel t : coders_blameless sch ->
  match t with Some t => resolves fuel sch t = true | None => True end -> blameless (serialize fuel sch t).
Proof.
  intros Hf Ht v. unfold serialize. destruct t as [t|]; [|apply no_fault_ret].
  apply no_fault_bind; [by apply serializeField_blameless | intros w _; apply no_fault_ret].
Qed.

(** A method whose types the schema resolves. *)
Definition method_resolves (sch : schema) (m : MethodSpec) : bool :=
  match inputFieldType m with Some t => resolves schema_fuel sch t | None => true end &&
  match outputFieldType m with Some t => resolves schema_fuel sch t | None => true end.

Lemma method_blameless sch m : coders_blameless sch -> method_resolves sch m = true ->
  blameless (serialize schema_fuel sch (inputFieldType m)) /\ blameless (deserialize schema_fuel sch (outputFieldType m)).
Proof.
  unfold method_resolves. intros Hf [H1 H2]%andb_true_iff. split; [apply serialize_blameless | apply deserialize_blameless]; try done.
  - by destruct (inputFieldType m).
  - by destruct (outputFieldType m).
Qed.

End Closed.

(** ** Hash values *)

Section HashTypes.
Context {HX : HexLib} {HXok : HexLibOk}.

Lemma readerToHex_decodes bs : decodes (readerToHex (length bs)) bs (VStr (bytesToHex bs)).
Proof. unfold readerToHex, readFixedArray. apply (decodes_map _ (fun bs => VStr (bytesToHex bs))), decodes_readBuffer. Qed.

Lemma hash_has_type (sch : schema) d name len bs :
  is_builtin name = false -> sch !! name = Some (hashType len) -> length bs = len -> bytes_ok bs ->
  has_type sch d (FName name) (VStr (bytesToHex bs)).
Proof.
  intros Hb Hs <- Hok. apply (ht_function sch d name hexToBuffer (readerToHex (length bs)) _ bs); try done.
  - unfold hexToBuffer. by apply hexToBytes_bytesToHex.
  - apply readerToHex_decodes.
Qed.

Lemma readerToHex_blameless len : blameless (readerToHex len).
Proof. apply blameless_bind; auto with bridge. Qed.

Lemma readerToHex_within len : reads_within (readerToHex len).
Proof. apply reads_within_bind; auto with bridge. Qed.

End HashTypes.

(** ** Lemmas on the contract calls *)

Section CallLemmas.
Context {N : Type} (near : NearNode N).

Lemma viewMethod_no_broadcast `{BinaryWriter, BnLib} fuel sch c m args :
  respects no_broadcast (viewMethod near fuel sch c m args).
Proof.
  apply respects_bind; [apply _ | apply respects_lift, _ | intros bytes].
  apply respects_bind; [apply _ | | intros q].
  - apply backoff_respects; [apply _ | done | by apply respects_net].
  - repeat case_match; auto with bridge.
Qed.

Lemma accessKeyInit_no_broadcast a f : respects no_broadcast (accessKeyInit (N := N) a f).
Proof.
  apply respects_bind; [apply _ | by apply respects_net | intros [nonce|]].
  - by apply respects_query.
  - apply respects_lift, _.
Qed.

Lemma getEthBlock_loop_spec {W} (rpc : Z -> service W val) number k init w :
  (forall v, match (rpc number v).1 with Ret _ | Throw _ => True | _ => False end) ->
  let run := getEthBlock_loop rpc k number init w in
  (calls "eth_getBlockByNumber" (trace_of run) <= k)%nat /\
  match out_of run with
  | Ret VNull => calls "eth_getBlockByNumber" (trace_of run) = k
  | Ret _ | Throw _ => True
  | _ => False
  end.
Proof.
  intros Hr. revert init w. induction k as [|k IH]; intros init w; cbn [getEthBlock_loop].
  { split; [done|]. by destruct init. }
  rewrite eff_bind_eq. unfold perform. specialize (Hr w).
  destruct (rpc number w) as [[v|e|c|] w1]; try done.
  - destruct v; cbn; autorewrite with bridge; try (split; [lia | done]).
    rewrite eff_bind_eq. cbn. specialize (IH VNull w1).
    destruct (getEthBlock_loop rpc k number VNull w1) as [[o w2] t2]. destruct IH as [Hle Ho].
    cbn in Hle, Ho |- *. autorewrite with bridge.
    split; [lia|]. destruct o as [[]| | |]; try done. by rewrite Ho.
  - cbn. autorewrite with bridge. split; [lia | done].
Qed.

Lemma getEthBlock_found {W} (rpc : Z -> service W val) n w v w' :
  rpc n w = (Ret v, w') -> v <> VNull ->
  getEthBlock rpc n w = (Ret v, w', [Call "eth_getBlockByNumber" [VNum n]]).
Proof.
  intros H Hv. unfold getEthBlock, getEthBlock_loop at 1. rewrite eff_bind_eq. unfold perform. rewrite H.
  by destruct v.
Qed.

End CallLemmas.

(** ** Properties *)

Section Properties.
Context {HX : HexLib} {BN : BnLib}.

Lemma hashType_blameless len ser deser : blameless hexToBytes -> hashType len = SFunction ser deser -> blameless ser /\ blameless deser.
Proof. intros Hh [= <- <-]. split; [exact Hh | apply readerToHex_blameless]. Qed.

Lemma boolType_blameless ser deser : blameless hexToBytes -> boolType = SFunction ser deser -> blameless ser /\ blameless deser.
Proof.
  intros Hh [= <- <-]. split; [intros v; apply Hh|]. apply blameless_bind; [apply readerToHex_blameless | auto with bridge].
Qed.

Lemma borshSchema_coders : blameless hexToBytes -> coders_blameless borshSchema.
Proof.
  intros Hh name ser deser H. unfold borshSchema in H.
  repeat (apply lookup_insert_Some in H as [[_ H]|[_ H]];
    [first [discriminate | exact (hashType_blameless _ _ _ Hh H) | exact (boolType_blameless _ _ Hh H)]|]).
  apply lookup_singleton_Some in H as [_ H]. discriminate.
Qed.

Lemma proverSchema_coders : blameless hexToBytes -> coders_blameless proverSchema.
Proof.
  intros Hh name ser deser H. unfold proverSchema in H.
  repeat (apply lookup_insert_Some in H as [[_ H]|[_ H]];
    [first [discriminate | exact (hashType_blameless _ _ _ Hh H)]|]).
  apply lookup_singleton_Some in H as [_ H]. discriminate.
Qed.

(** C38: the schemas of both contracts are complete for their methods.  For
    every method of the client and of the prover contract, whatever value
    it is given and whatever bytes the contract answers with, neither
    [serialize] with the method's input type nor [deserialize] with its
    output type fails because a type is missing in the schema, because a
    schema entry has an unknown kind, or because types refer to each other
    without end (in a writer and a hex decoder whose own errors are
    others). *)
Theorem contract_schemas_closed {BW : BinaryWriter} {WB : WriterBlameless} m v bs :
  blameless hexToBytes ->
  (m ∈ clientViewMethods ++ clientChangeMethods ->
    ~ schema_fault (serialize schema_fuel borshSchema (inputFieldType m) v) /\
    ~ schema_fault (deserialize schema_fuel borshSchema (outputFieldType m) bs)) /\
  (m ∈ proverChangeMethods ->
    ~ schema_fault (serialize schema_fuel proverSchema (inputFieldType m) v) /\
    ~ schema_fault (deserialize schema_fuel proverSchema (outputFieldType m) bs)).
Proof.
  intros Hh. split; intros Hm.
  - destruct (method_blameless borshSchema m (borshSchema_coders Hh)) as [H1 H2]; [|by split].
    repeat (apply elem_of_cons in Hm as [->|Hm]; [vm_compute; reflexivity|]). by apply not_elem_of_nil in Hm.
  - destruct (method_blameless proverSchema m (proverSchema_coders Hh)) as [H1 H2]; [|by split].
    repeat (apply elem_of_cons in Hm as [->|Hm]; [vm_compute; reflexivity|]). by apply not_elem_of_nil in Hm.
Qed.

(** [getEthBlock] asks at most ten times, and returns [null] only
    after ten answers of [null]. *)
Theorem getEthBlock_attempts {W} (rpc : Z -> service W val) number w :
  (forall v, match (rpc number v).1 with Ret _ | Throw _ => True | _ => False end) ->
  (calls "eth_getBlockByNumber" (trace_of (getEthBlock rpc number w)) <= 10)%nat /\
  (out_of (getEthBlock rpc number w) = Ret VNull ->
    calls "eth_getBlockByNumber" (trace_of (getEthBlock rpc number w)) = 10%nat) /\
  out_of (getEthBlock rpc number w) <> OutOfFuel.
Proof.
  intros Hr. destruct (getEthBlock_loop_spec rpc number 10 VUndef w Hr) as [Hle Ho].
  split; [exact Hle|]. unfold getEthBlock. split; [intros E; by rewrite E in Ho|].
  intros E. by rewrite E in Ho.
Qed.

End Properties.

Section InitializeProperties.
Context {N : Type} (near : NearNode N) (eth : Web3Node (KeyWorld N)) (ethNodeUrl : string).
Context (rpc : Z -> service (KeyWorld N) val) (header_rlp : string -> bool -> val -> outcome (list Z)).
Context (findAccessKey : service N (option Z)) (accountId contractId : string) (roots : val).
Context {BW : BinaryWriter} {BN : BnLib} {HX : HexLib}.
Context (hgc fgc conf ethash signer bridgeId : val).

Let run := maybeInitialize near eth ethNodeUrl rpc header_rlp findAccessKey accountId contractId roots
             hgc fgc conf ethash signer bridgeId.

(** [maybeInitialize] only returns when the contract answered the two
    known Merkle roots for epochs 0 and 511; with any other answer the
    process exits. *)
Theorem maybeInitialize_checked w :
  out_of (run w) = Ret tt ->
  exists w1 w2, out_of (dag_merkle_root near contractId 0 w1) = Ret (VStr FIRST_ROOT) /\
    out_of (dag_merkle_root near contractId 511 w2) = Ret (VStr LAST_ROOT).
Proof.
  unfold run, maybeInitialize. intros H. do 3 (apply eff_bind_ret_inv in H as (? & _ & H)).
  apply eff_bind_ret_inv in H as (first & Hf & H). apply eff_bind_ret_inv in H as (last & Hl & H).
  do 2 eexists.
  destruct first as [| | | |f| | |], last as [| | | |l| | |]; try discriminate.
  destruct (String.eqb_spec f FIRST_ROOT) as [->|], (String.eqb_spec l LAST_ROOT) as [->|]; try discriminate.
  split; [exact Hf | exact Hl].
Qed.

(** An initialized client is left alone: when the [initialized] view
    answers true, [maybeInitialize] broadcasts no transaction. *)
Theorem maybeInitialize_idempotent w key w1 t1 :
  accessKeyInit accountId findAccessKey w = (Ret key, w1, t1) ->
  out_of (view near contractId "initialized" None (Some (FName "bool")) VUndef w1) = Ret (VBool true) ->
  broadcasts (trace_of (run w)) = [].
Proof.
  intros Hk Hi. unfold run, maybeInitialize. rewrite eff_bind_eq, Hk. cbn [trace_of snd].
  pose proof (accessKeyInit_no_broadcast accountId findAccessKey w) as Hb. rewrite Hk in Hb.
  rewrite broadcasts_app. change (broadcasts t1 = []) in Hb. rewrite Hb. cbn [app].
  assert (respects no_broadcast (view near contractId "initialized" None (Some (FName "bool")) VUndef)) as Hv
    by apply viewMethod_no_broadcast.
  rewrite eff_bind_eq. unfold try_catch.
  specialize (Hv w1). destruct (view near contractId "initialized" None _ VUndef w1) as [[o w2] t2].
  cbn in Hi. subst o. change (broadcasts t2 = []) in Hv. cbn [trace_of snd]. rewrite broadcasts_app, Hv. cbn [app].
  match goal with |- broadcasts (trace_of (?m w2)) = [] => change (no_broadcast w2 (world_of (m w2)) (trace_of (m w2))) end.
  apply (respects_bind no_broadcast); [apply respects_ret, _ | intros _].
  do 2 (apply respects_bind; [apply _ | apply viewMethod_no_broadcast | intros ?]).
  repeat case_match; apply respects_lift, _ || apply respects_ret, _.
Qed.

(** Initializing the prover twice is harmless: an error that says the
    contract is already initialized is not an error of
    [EthOnNearProverContract.maybeInitialize]. *)
Theorem proverMaybeInitialize_again w key w1 t1 e acc :
  accessKeyInit accountId findAccessKey w = (Ret key, w1, t1) ->
  out_of (changeMethod near schema_fuel proverSchema contractId (spec "init" (Some (FName "initInput")) None)
    (VObj [("bridge_smart_contract", VStr acc)]) VUndef VUndef w1) = Throw e ->
  str_includes "The contract is already initialized" (err_message e) = true ->
  out_of (proverMaybeInitialize near findAccessKey accountId contractId acc w) = Ret tt.
Proof.
  intros Hk He Hm. unfold proverMaybeInitialize. rewrite eff_bind_eq, Hk. cbn [out_of fst].
  unfold try_catch. rewrite eff_bind_eq.
  destruct (changeMethod _ _ _ _ _ _ _ _ w1) as [[o w2] t2]. cbn in He. subst o.
  rewrite Hm. by destruct (err_message e).
Qed.

End InitializeProperties.

(** ** Witnesses *)

Module Witness.
Import Reference NearTx.Witness.

Lemma ref_num_no_fault v len w : ~ schema_fault (ref_num v len w).
Proof.
  unfold ref_num. destruct v; try other_error. unfold ref_toBuffer, append. case_match; cbn [mbind outcome_bind]; [apply no_fault_ret | other_error].
Qed.

Lemma ref_each_no_fault items fn w : (forall item, blameless (fn item)) -> ~ schema_fault (ref_each items fn w).
Proof.
  intros Hf. revert w. induction items as [|x items IH]; intros w; cbn [ref_each]; [apply no_fault_ret|].
  apply no_fault_bind; [apply Hf | intros w' _; apply IH].
Qed.

#[local] Instance ref_writer_blameless : WriterBlameless.
Proof.
  split; intros; try (intros w; apply ref_num_no_fault).
  - intros w. cbn [write_string ref_writer]. destruct v; try other_error. apply no_fault_bind; [apply ref_num_no_fault | intros; apply no_fault_ret].
  - intros w. apply no_fault_ret.
  - intros w. cbn. destruct v; try other_error. apply no_fault_ret.
  - intros w. cbn [write_array ref_writer]. destruct (items_of v); [|other_error]. apply no_fault_bind; [apply ref_num_no_fault | intros; by apply ref_each_no_fault].
Qed.

(** The answer to [verify_log_entry] that is one byte too long. *)
Lemma contract_schemas_closed_witness :
  ~ schema_fault (serialize schema_fuel borshSchema (Some (FName "addBlockHeaderInput")) (VObj [("block_header", VBytes [1]); ("dag_nodes", VArr [VNull])])) /\
  ~ schema_fault (deserialize schema_fuel proverSchema (Some (FName "bool")) [1; 0]).
Proof.
  assert (blameless hexToBytes) as Hh.
  { intros v. cbn. unfold ref_hexToBytes. repeat case_match; try other_error; apply no_fault_ret. }
  destruct (contract_schemas_closed (spec "add_block_header" (Some (FName "addBlockHeaderInput")) None)
    (VObj [("block_header", VBytes [1]); ("dag_nodes", VArr [VNull])]) [] Hh) as [H _].
  destruct (contract_schemas_closed (spec "verify_log_entry" (Some (FName "verifyLogEntry")) (Some (FName "bool"))) VNull [1; 0] Hh) as [_ H'].
  split; [apply H; apply list_elem_of_In; cbn; tauto | apply H'; apply list_elem_of_In; cbn; tauto].
Defined.

Definition root_bytes (hex : string) : list Z := match hexToBytes (VStr hex) with Ret bs => bs | _ => [] end.

(** A client contract that is initialized with the known roots. *)
Definition client_query (path : string) (args : list Z) : list Z :=
  if String.eqb path "call/client/initialized" then [1]
  else if decide (args = le_bytes 8 0) then root_bytes FIRST_ROOT else root_bytes LAST_ROOT.

Definition client_node : NearNode (list string) := {|
  near_status := near_status pool;
  near_sign := sign_pool;
  near_broadcast := near_broadcast pool;
  near_txStatus := fun h n =>
    (Ret {| tr_status := Failure "{The contract is already initialized}"; tr_logs := []; tr_receipt_ids := []; tr_receipts_outcome := [] |}, n);
  near_query := fun path args n => (Ret {| qr_result := Some (client_query path args); qr_logs := [] |}, n)
|}.

Definition eth_node : Web3Node (KeyWorld (list string)) := {|
  node_getBlockNumber := fun w => (Ret (VNum 5), w);
  node_getBlock := fun _ w => (Ret (VNum 5), w);
  node_getTransactionReceipt := fun _ w => (Ret VNull, w);
  node_getGasPrice := fun w => (Ret 1, w);
  node_getTransactionCount := fun _ w => (Ret 1, w);
  node_call := fun _ w => (Ret VUndef, w);
  node_sendTransaction := fun _ w => (None, w)
|}.

Definition key_found : service (list string) (option Z) := fun n => (Ret (Some 41), n).

(** A node that knows the block from the fourth request on. *)
Definition late (number n : Z) : outcome val * Z := (Ret (if n =? 3 then VObj [] else VNull), n + 1).

Lemma getEthBlock_attempts_witness :
  (calls "eth_getBlockByNumber" (trace_of (getEthBlock late 9%Z 0%Z)) <= 10)%nat /\
  (out_of (getEthBlock late 9%Z 0%Z) = Ret VNull ->
    calls "eth_getBlockByNumber" (trace_of (getEthBlock late 9%Z 0%Z)) = 10%nat) /\
  out_of (getEthBlock late 9%Z 0%Z) <> OutOfFuel.
Proof. apply getEthBlock_attempts. intros v. exact I. Defined.

Lemma maybeInitialize_checked_witness :
  exists w1 w2, out_of (dag_merkle_root client_node "client" 0 w1) = Ret (VStr FIRST_ROOT) /\
    out_of (dag_merkle_root client_node "client" 511 w2) = Ret (VStr LAST_ROOT).
Proof.
  apply (maybeInitialize_checked client_node eth_node "ws" (fun _ w => (Ret VNull, w)) (fun _ _ _ => Ret [])
    key_found "relay" "client" (VArr []) (VNum 1) (VNum 1) (VNum 1) (VBool true) VNull (VStr "testnet")
    (mkKey 0 [])).
  vm_compute. reflexivity.
Defined.

Lemma maybeInitialize_idempotent_witness :
  broadcasts (trace_of (maybeInitialize client_node eth_node "ws" (fun _ w => (Ret VNull, w)) (fun _ _ _ => Ret [])
    key_found "relay" "client" (VArr []) (VNum 1) (VNum 1) (VNum 1) (VBool true) VNull (VStr "testnet")
    (mkKey 0 []))) = [].
Proof. eapply maybeInitialize_idempotent; vm_compute; reflexivity. Defined.

Lemma proverMaybeInitialize_again_witness :
  out_of (proverMaybeInitialize client_node key_found "relay" "prover" "client" (mkKey 0 [])) = Ret tt.
Proof. eapply proverMaybeInitialize_again; vm_compute; reflexivity. Defined.

End Witness.
