(* ===== verification/Eth2NearRelay.v ===== *)
(** * The Ethereum-to-NEAR relay (eth2near/eth2near-block-relay/index.js)

    [Eth2NearRelay]: [initialize] with its bound on the batch size,
    [getParseBlock], [submitBlock], and one round of the endless loop of
    [run].  The predicate of a round retries for as long as a request
    fails, so it takes fuel; the other loops are bounded. *)

From stdpp Require Import pretty.
From S2P Require Import Prelude Interfaces Borsh Robust Metrics NearTx EthOnNearClient BinarySearch.

(** ** [initialize] *)

Definition MAX_GAS_PER_BLOCK : Z := 300000000000000.

Record Eth2NearRelay := { totalSubmitBlock : Z; gasPerTransaction : Z }.

(** [parseInt] is a parameter: [None] is [NaN]. *)
Definition initialize (parseInt : string -> option Z) (totalSubmitBlockArg : string) (gasPerTransactionArg : Z)
    : outcome Eth2NearRelay :=
  if gasPerTransactionArg =? 0 then Throw (Error "Assertion failed")
  else
    let limitSubmitBlock := Z.quot MAX_GAS_PER_BLOCK gasPerTransactionArg in
    match parseInt totalSubmitBlockArg with
    | None => Throw (Error ("Invalid total-submit-block (" +:+ totalSubmitBlockArg +:+ ")"))
    | Some total =>
        if limitSubmitBlock <? total then
          Throw (Error ("total-submit-block must be " +:+ pretty limitSubmitBlock +:+ " or less. Currently it is: " +:+ pretty total))
        else Ret {| totalSubmitBlock := total; gasPerTransaction := gasPerTransactionArg |}
    end.

(** ** [submitBlock] *)

(** What the ethashproof relayer prints. *)
Record ParsedBlock := {
  pb_elements : list string;
  pb_header_rlp : string;
  pb_merkle_proofs : list string;
  pb_proof_length : nat
}.

(** [l.map((x, index) => f(index, x))], the first throw ends it. *)
Fixpoint map_index {A B} (f : nat -> A -> outcome B) (index : nat) (l : list A) : outcome (list B) :=
  match l with
  | [] => Ret []
  | x :: l' => y ← f index x; ys ← map_index f (S index) l'; Ret (y :: ys)
  end.

(** [l[i]], [undefined] out of range. *)
Definition item (l : list string) (i : nat) : val :=
  match l !! i with Some s => VStr s | None => VUndef end.

Section Submit.
Context {BW : BinaryWriter} {HX : HexLib}.

Definition h512 (elements : list string) (index : nat) (element : string) : outcome string :=
  a ← padLeft (VStr element) 64;
  b ← padLeft (item elements (index * 2 + 1)) 64;
  Ret (a +:+ str_drop 2 b).

Definition dag_node (h512s : list string) (block : ParsedBlock) (index : nat) (element : string) : outcome val :=
  proof ← map_index (fun _ leaf => padLeft (VStr leaf) 32) 0
            (take (pb_proof_length block) (drop (index * pb_proof_length block) (pb_merkle_proofs block)));
  Ret (VObj [("dag_nodes", VArr [VStr element; item h512s (index * 2 + 1)]); ("proof", VArr (map VStr proof))]).

Definition add_block_header_args (block : ParsedBlock) : outcome val :=
  h512s ← map_index (h512 (pb_elements block)) 0 (even_positions (pb_elements block));
  header ← hexToBytes (VStr (pb_header_rlp block));
  dag_nodes ← map_index (dag_node h512s block) 0 (even_positions h512s);
  Ret (VObj [("block_header", VArr (map VNum header)); ("dag_nodes", VArr dag_nodes)]).

Definition submitBlock (relay : Eth2NearRelay) (block : ParsedBlock) : outcome FunctionCall :=
  args ← add_block_header_args block;
  bytes ← serialize schema_fuel borshSchema (Some (FName "addBlockHeaderInput")) args;
  Ret {| fc_method := "add_block_header"; fc_args := bytes; fc_gas := VNum (gasPerTransaction relay);
         fc_amount := VUndef |}.

End Submit.

(** ** The ethashproof executable

    [exec] runs a shell command and calls back with an error, if any, and
    what the command printed. *)

Section Ethashproof.
Context {W : Type} (exec : string -> service W (option js_error * string)).
Context (JSON_parse : string -> outcome ParsedBlock) (BRIDGE_SRC_DIR : string) {HX : HexLib}.

(** [ethashproof]: an error is logged, and the output is the result all the
    same. *)
Definition ethashproof (command : string) : service W string := fun w =>
  let '(o, w') := exec command w in (r ← o; Ret r.2, w').

Definition relayer_command (blockRlp : list Z) : string :=
  BRIDGE_SRC_DIR +:+ "/eth2near/ethashproof/cmd/relayer/relayer " +:+ bytesToHex blockRlp +:+ " | sed -e '1,/Json output/d'".

(** What [getParseBlock] makes of the header of a block. *)
Definition relayer (blockRlp : list Z) : service W ParsedBlock := fun w =>
  let '(o, w') := ethashproof (relayer_command blockRlp) w in (unparsed ← o; JSON_parse unparsed, w').

(** A failure of the executable is only seen through its output: it is the
    error of [JSON.parse], never that of the command. *)
Lemma relayer_failure blockRlp w error stdout w' :
  exec (relayer_command blockRlp) w = (Ret (error, stdout), w') -> relayer blockRlp w = (JSON_parse stdout, w').
Proof. intros H. unfold relayer, ethashproof. by rewrite H. Qed.

End Ethashproof.

(** ** A round of [run] *)

Section Run.
Context {N : Type} (near : NearNode N) (eth : Web3Node (KeyWorld N)) (ethNodeUrl : string).
Context (rpc_getBlockByNumber : Z -> service (KeyWorld N) val).
Context (header_rlp : string -> bool -> val -> outcome (list Z)).
(** [relayer]: the ethashproof executable and [JSON.parse] of its output. *)
Context (ethashproof : list Z -> service (KeyWorld N) ParsedBlock).
Context (contractId : string) (relay : Eth2NearRelay).
(** [account.signAndSendTransaction] of near-api-js. *)
Context (account_signAndSend : string -> list FunctionCall -> service (KeyWorld N) unit).
Context {BW : BinaryWriter} {BN : BnLib} {HX : HexLib}.

Abbreviation prog := (eff (KeyWorld N) event).

Definition PREFIX : string := "near_bridge_eth2near_".

(** The metrics that [run] creates before its loop. *)
Definition run_metrics (metricsPort : val) : prog unit :=
  _ ← new_HttpPrometheus metricsPort;
  _ ← lift (register_all PREFIX ["client_block_number"; "chain_block_number"; "errors_on_submit"] []);
  mret tt.

Definition last_block_number : prog val :=
  view near contractId "last_block_number" None (Some (FName "u64")) VUndef.

Definition known_hashes (n : Z) : prog val :=
  view near contractId "known_hashes" (Some (FName "u64")) (Some (FArray (FName "H256"))) (VNum n).

(** [clientHashes.find((x) => x === chainBlockHash)] as a condition. *)
Definition hash_known (hashes hash : val) : outcome bool :=
  match hashes with
  | VArr vs => Ret (existsb (fun x => match x, hash with VStr a, VStr b => String.eqb a b && negb (String.eqb a "") | _, _ => false end) vs)
  | _ => Throw (TypeError "clientHashes.find is not a function")
  end.

(** The closure [predicate] of a round; it calls itself again when a block
    is not ready and when a request fails. *)
Fixpoint predicate (fuel : nat) (clientBlockNumber value : Z) : prog bool :=
  match fuel with
  | O => stuck
  | S fuel' =>
      let blockNumber := clientBlockNumber - value in
      try_catch
        (chainBlock ← getEthBlock rpc_getBlockByNumber blockNumber;
         match chainBlock with
         | VNull => _ ← sleep (num_of_Z 3000); predicate fuel' clientBlockNumber value
         | _ =>
             chainBlockHash ← lift (get_prop chainBlock "hash");
             clientHashes ← known_hashes blockNumber;
             lift (hash_known clientHashes chainBlockHash)
         end)
        (fun _ => predicate fuel' clientBlockNumber value)
  end.

(** [getParseBlock]: a failure is logged and the block is [undefined].
    The network of the bridge is not passed on to [web3BlockToRlp]. *)
Definition getParseBlock (blockNumber : Z) : prog (option ParsedBlock) :=
  try_catch
    (block ← getEthBlock rpc_getBlockByNumber blockNumber;
     rlp ← lift (web3BlockToRlp header_rlp block VUndef);
     parsed ← perform (Call "ethashproof" [VNum blockNumber]) (ethashproof rlp);
     mret (Some parsed))
    (fun _ => mret None).

Fixpoint getParseBlocks (numbers : list Z) : prog (list (option ParsedBlock)) :=
  match numbers with
  | [] => mret []
  | i :: numbers' => b ← getParseBlock i; bs ← getParseBlocks numbers'; mret (b :: bs)
  end.

(** The actions of the batch; [undefined.elements] is a [TypeError]. *)
Fixpoint submitBlocks (blocks : list (option ParsedBlock)) : outcome (list FunctionCall) :=
  match blocks with
  | [] => Ret []
  | None :: _ => Throw (TypeError "Cannot read property 'elements' of undefined")
  | Some b :: blocks' => a ← submitBlock relay b; l ← submitBlocks blocks'; Ret (a :: l)
  end.

(** The last block of the batch after [clientBlockNumber]. *)
Definition endBlock (clientBlockNumber chainBlockNumber : Z) : Z :=
  if clientBlockNumber <? 5 then clientBlockNumber + 1
  else Z.min (clientBlockNumber + totalSubmitBlock relay) chainBlockNumber.

(** [for (let i = clientBlockNumber + 1; i <= endBlock; i++)] *)
Definition batch (clientBlockNumber chainBlockNumber : Z) : list Z :=
  from (clientBlockNumber + 1) (Z.to_nat (endBlock clientBlockNumber chainBlockNumber - clientBlockNumber)).

(** The submission of a round: [true] when it did not fail. *)
Definition submit_batch (clientBlockNumber chainBlockNumber : Z) : prog bool :=
  try_catch
    (blocks ← getParseBlocks (batch clientBlockNumber chainBlockNumber);
     actions ← lift (submitBlocks blocks);
     _ ← perform (Call "signAndSendTransaction" [VNum (Z.of_nat (length actions))])
           (account_signAndSend contractId actions);
     mret true)
    (fun _ => _ ← inc_counter (PREFIX +:+ "errors_on_submit"); mret false).

Definition estimate (previousBlockNumber : option Z) (clientBlockNumber : Z) : Z :=
  match previousBlockNumber with
  | None => 0
  | Some previous => clientBlockNumber - (previous + totalSubmitBlock relay)
  end.

(** The first requests of a round: [None] when one failed. *)
Definition get_heights : prog (option (Z * Z)) :=
  try_catch
    (client ← last_block_number;
     n ← lift (match client with VNum n => Ret n | _ => Throw (TypeError "toNumber is not a function") end);
     _ ← set_gauge (PREFIX +:+ "client_block_number") n;
     chain ← getBlockNumber ethNodeUrl eth;
     _ ← set_gauge (PREFIX +:+ "chain_block_number") (block_number chain);
     mret (Some (n, block_number chain)))
    (fun _ => mret None).

(** One round of [while (true)]; the result is the next
    [previousBlockNumber]. *)
Definition round (fuel : nat) (previousBlockNumber : option Z) : prog (option Z) :=
  heights ← get_heights;
  match heights with
  | None => mret previousBlockNumber
  | Some (clientHead, chainBlockNumber) =>
      delta ← binarySearchWithEstimate (predicate fuel clientHead) fuel 0 clientHead
                (estimate previousBlockNumber clientHead);
      let clientBlockNumber := clientHead - delta in
      _ ← (if clientBlockNumber <? chainBlockNumber then
             _ ← submit_batch clientBlockNumber chainBlockNumber; mret tt
           else sleep (num_of_Z 10000));
      mret (Some clientBlockNumber)
  end.

End Run.

(** ** What [submitBlock] should encode *)

(** Four elements and a Merkle proof, as the relayer prints them. *)
Record RawNode := { rn1 : string; rn2 : string; rn3 : string; rn4 : string; rn_proof : list string }.

(** Two 64-byte nodes and their proof, as the contract reads them. *)
Record DagNode := { dn_first : list Z; dn_second : list Z; dn_proof : list (list Z) }.

Definition raw_block (header_rlp : string) (L : nat) (nodes : list RawNode) : ParsedBlock :=
  {| pb_elements := concat (map (fun r => [rn1 r; rn2 r; rn3 r; rn4 r]) nodes); pb_header_rlp := header_rlp;
     pb_merkle_proofs := concat (map rn_proof nodes); pb_proof_length := L |}.

Section Denotation.
Context {HX : HexLib}.

(** [s] padded to [len] bytes is the hexadecimal form of [bs]. *)
Definition hex_of (len : nat) (s : string) (bs : list Z) : Prop :=
  padLeft (VStr s) (2 * len) = Ret (bytesToHex bs) /\ length bs = len /\ bytes_ok bs.

Definition node_denotes (L : nat) (r : RawNode) (d : DagNode) : Prop :=
  (exists b1 b2 b3 b4, hex_of 32 (rn1 r) b1 /\ hex_of 32 (rn2 r) b2 /\ hex_of 32 (rn3 r) b3 /\
    hex_of 32 (rn4 r) b4 /\ dn_first d = (b1 ++ b2)%list /\ dn_second d = (b3 ++ b4)%list) /\
  Forall2 (hex_of 16) (rn_proof r) (dn_proof d) /\ length (rn_proof r) = L.

Definition dag_val (d : DagNode) : val :=
  VObj [("dag_nodes", VArr [VStr (bytesToHex (dn_first d)); VStr (bytesToHex (dn_second d))]);
        ("proof", VArr (map (fun bs => VStr (bytesToHex bs)) (dn_proof d)))].

End Denotation.

(** ** Lemmas on index-based maps *)

Lemma map_index_ext {A B C} (f : nat -> A -> outcome B) (g : C -> B) (fst' : C -> A) ps i :
  (forall j p, ps !! j = Some p -> f (i + j)%nat (fst' p) = Ret (g p)) ->
  map_index f i (map fst' ps) = Ret (map g ps).
Proof.
  revert i. induction ps as [|p ps IH]; intros i H; [done|]. cbn.
  pose proof (H 0%nat p eq_refl) as H0. rewrite Nat.add_0_r in H0. rewrite H0. cbn.
  rewrite (IH (S i)); [done|]. intros j q Hq. replace (S i + j)%nat with (i + S j)%nat by lia. by apply H.
Qed.

(** A list of pairs laid out flat. *)
Definition flat_pairs {A} (ps : list (A * A)) : list A := concat (map (fun p => [p.1; p.2]) ps).

Lemma even_flat_pairs {A} (ps : list (A * A)) : even_positions (flat_pairs ps) = map fst ps.
Proof. induction ps as [|[a b] ps IH]; cbn; [done|]. f_equal. exact IH. Qed.

Lemma lookup_flat_pairs {A} (ps : list (A * A)) j p :
  ps !! j = Some p -> flat_pairs ps !! (j * 2 + 1)%nat = Some p.2.
Proof.
  revert j. induction ps as [|[a b] ps IH]; intros [|j] H; try done; cbn in *; [by simplify_eq|].
  by apply IH.
Qed.

Lemma slice_concat {A} (ls : list (list A)) (L j : nat) l :
  Forall (fun l => length l = L) ls -> ls !! j = Some l -> take L (drop (j * L) (concat ls)) = l.
Proof.
  intros HL. revert j. induction HL as [|x ls Hx _ IH]; intros [|j] H; try done; cbn in *.
  - simplify_eq. by apply take_app_length'.
  - rewrite (drop_app_ge x) by lia. replace (L + j * L - length x)%nat with (j * L)%nat by lia. by apply IH.
Qed.

Lemma lookup_map {A B} (f : A -> B) l j x : l !! j = Some x -> map f l !! j = Some (f x).
Proof. revert j. induction l as [|a l IH]; intros [|j] H; cbn in *; simplify_eq; auto. Qed.

Lemma map_zip_snd {A B C} (f : B -> C) (l : list A) (k : list B) :
  length l = length k -> map (fun p => f p.2) (zip l k) = map f k.
Proof.
  revert k. induction l as [|a l IH]; intros [|b k] H; try done. cbn in *. f_equal. apply IH. lia.
Qed.

Lemma Forall2_zip_lookup {A B} (P : A -> B -> Prop) l k j p :
  Forall2 P l k -> zip l k !! j = Some p -> l !! j = Some p.1 /\ P p.1 p.2.
Proof.
  intros H. revert j. induction H as [|a b l k Hab _ IH]; intros [|j] E; cbn in E; try done.
  - by simplify_eq.
  - by apply IH.
Qed.

Section SubmitLemmas.
Context {HX : HexLib} {HXok : HexLibOk}.

Definition hex_pair (d : DagNode) : string * string := (bytesToHex (dn_first d), bytesToHex (dn_second d)).

(** Two elements make one 64-byte value. *)
Lemma h512_pair elements i e1 e2 b1 b2 :
  hex_of 32 e1 b1 -> hex_of 32 e2 b2 -> elements !! (i * 2 + 1)%nat = Some e2 ->
  h512 elements i e1 = Ret (bytesToHex (b1 ++ b2)).
Proof.
  intros [H1 _] [H2 _] He. unfold h512, item. rewrite He. change (2 * 32)%nat with 64%nat in H1, H2.
  rewrite H1, H2. cbn. by rewrite bytesToHex_app.
Qed.

Lemma h512s_of L hdr nodes dags :
  Forall2 (node_denotes L) nodes dags ->
  map_index (h512 (pb_elements (raw_block hdr L nodes))) 0 (even_positions (pb_elements (raw_block hdr L nodes))) =
    Ret (flat_pairs (map hex_pair dags)).
Proof.
  intros H. cbn [raw_block pb_elements].
  set (cells := concat (map (fun p => [((rn1 p.1, rn2 p.1), bytesToHex (dn_first p.2));
    ((rn3 p.1, rn4 p.1), bytesToHex (dn_second p.2))]) (zip nodes dags))).
  assert (concat (map (fun r => [rn1 r; rn2 r; rn3 r; rn4 r]) nodes) = flat_pairs (map fst cells)) as ->.
  { unfold cells. clear cells. induction H; cbn; [done|]. do 4 f_equal. done. }
  assert (flat_pairs (map hex_pair dags) = map snd cells) as ->.
  { unfold cells. clear cells. induction H; cbn; [done|]. do 2 f_equal. done. }
  rewrite even_flat_pairs, map_map. apply map_index_ext. intros j [[e1 e2] x] Hj. cbn.
  assert (flat_pairs (map fst cells) !! (j * 2 + 1)%nat = Some e2) as He2.
  { apply (lookup_flat_pairs _ j (e1, e2)). exact (lookup_map fst _ _ _ Hj). }
  assert (exists b1 b2, hex_of 32 e1 b1 /\ hex_of 32 e2 b2 /\ x = bytesToHex (b1 ++ b2)) as (b1 & b2 & H1 & H2 & ->).
  { apply list_elem_of_lookup_2 in Hj. revert Hj. unfold cells. clear cells He2.
    induction H as [|r d nodes dags [(b1 & b2 & b3 & b4 & H1 & H2 & H3 & H4 & E1 & E2) _] _ IH]; cbn;
      intros Hj; [by apply not_elem_of_nil in Hj|].
    apply elem_of_cons in Hj as [Hj|Hj]; [|apply elem_of_cons in Hj as [Hj|Hj]; [|by apply IH]];
      injection Hj as -> -> ->; [exists b1, b2; by rewrite E1 | exists b3, b4; by rewrite E2]. }
  by apply (h512_pair _ _ e1 e2 b1 b2).
Qed.

Lemma proof_leaves l bss i : Forall2 (hex_of 16) l bss ->
  map_index (fun _ leaf => padLeft (VStr leaf) 32) i l = Ret (map bytesToHex bss).
Proof.
  intros H. revert i. induction H as [|s bs l bss [Hs _] _ IH]; intros i; [done|].
  change (2 * 16)%nat with 32%nat in Hs. cbn [map_index]. rewrite Hs. cbn [mbind outcome_bind]. by rewrite IH.
Qed.

Lemma dag_nodes_of L hdr nodes dags :
  Forall2 (node_denotes L) nodes dags ->
  let h512s := flat_pairs (map hex_pair dags) in
  map_index (dag_node h512s (raw_block hdr L nodes)) 0 (even_positions h512s) = Ret (map dag_val dags).
Proof.
  intros H. cbv zeta. rewrite even_flat_pairs, map_map.
  rewrite <- (map_zip_snd (fun d => fst (hex_pair d)) nodes dags) by by eapply Forall2_length.
  rewrite <- (map_zip_snd dag_val nodes dags) by by eapply Forall2_length.
  apply map_index_ext. intros j [r d] Hj. cbn [Nat.add fst snd].
  destruct (Forall2_zip_lookup _ _ _ _ _ H Hj) as [Hr (_ & Hp & HL)]. cbn in Hr, Hp, HL.
  unfold dag_node. cbn [raw_block pb_proof_length pb_merkle_proofs].
  rewrite (slice_concat (map rn_proof nodes) L j (rn_proof r)).
  - rewrite (proof_leaves _ _ _ Hp). cbn [mbind outcome_bind]. unfold item.
    rewrite (lookup_flat_pairs _ j (hex_pair d)).
    + unfold dag_val. cbn. by rewrite map_map.
    + apply (lookup_map hex_pair). rewrite <- (map_id dags).
      rewrite <- (map_zip_snd (fun x => x) nodes dags) by by eapply Forall2_length.
      exact (lookup_map snd _ _ _ Hj).
  - apply Forall_fmap. clear Hj Hr Hp HL. induction H as [|r' d' ? ? (_ & _ & HL) _ IH]; constructor; done.
  - by apply (lookup_map rn_proof).
Qed.

End SubmitLemmas.

Section TypeLemmas.
Context {HX : HexLib} {HXok : HexLibOk}.

Lemma bytes_array_typed (sch : schema) d bs :
  bytes_ok bs -> Z.of_nat (length bs) < 2 ^ 32 -> has_type sch (S d) (FArray (FName "u8")) (VArr (map VNum bs)).
Proof.
  intros Hb Hl. constructor; [by rewrite length_map|]. apply Forall_fmap.
  eapply Forall_impl; [|exact Hb]. intros b Hx. by constructor.
Qed.

Lemma hashes_typed (sch : schema) d name len bss :
  is_builtin name = false -> sch !! name = Some (hashType len) ->
  Forall (fun bs => length bs = len /\ bytes_ok bs) bss -> Z.of_nat (length bss) < 2 ^ 32 ->
  has_type sch (S d) (FArray (FName name)) (VArr (map (fun bs => VStr (bytesToHex bs)) bss)).
Proof.
  intros Hb Hs Hbs Hl. constructor; [by rewrite length_map|]. apply Forall_fmap.
  eapply Forall_impl; [|exact Hbs]. intros bs [Hlen Hok]. by apply (hash_has_type sch d name len).
Qed.

Definition dag_ok (d : DagNode) : Prop :=
  (length (dn_first d) = 64%nat /\ bytes_ok (dn_first d)) /\
  (length (dn_second d) = 64%nat /\ bytes_ok (dn_second d)) /\
  Forall (fun bs => length bs = 16%nat /\ bytes_ok bs) (dn_proof d) /\
  Z.of_nat (length (dn_proof d)) < 2 ^ 32.

Lemma node_dag_ok L r d : node_denotes L r d -> Z.of_nat L < 2 ^ 32 -> dag_ok d.
Proof.
  intros [(b1 & b2 & b3 & b4 & (_ & L1 & O1) & (_ & L2 & O2) & (_ & L3 & O3) & (_ & L4 & O4) & E1 & E2) [Hp HL]] Hb.
  unfold dag_ok. rewrite E1, E2, !length_app.
  split; [split; [lia | auto with bridge]|]. split; [split; [lia | auto with bridge]|]. split.
  - clear HL. induction Hp as [|s bs l bss [_ Hx] _ IH]; constructor; done.
  - rewrite <- (Forall2_length Hp). lia.
Qed.

Lemma dag_val_typed d : dag_ok d -> has_type borshSchema 2 (FName "DoubleNodeWithMerkleProof") (dag_val d).
Proof.
  intros (H1 & H2 & H3 & H4).
  apply (ht_struct borshSchema 1 _ [("dag_nodes", FArray (FName "H512")); ("proof", FArray (FName "H128"))]
    [VArr (map (fun bs => VStr (bytesToHex bs)) [dn_first d; dn_second d]);
     VArr (map (fun bs => VStr (bytesToHex bs)) (dn_proof d))]); [done | done | |].
  - apply (bool_decide_unpack _). vm_compute. exact I.
  - constructor; [|constructor; [|constructor]]; cbn [snd].
    + apply (hashes_typed _ _ _ 64 [dn_first d; dn_second d]); [done | done | constructor; [exact H1 | constructor; [exact H2 | constructor]] | cbn; lia].
    + by apply (hashes_typed _ _ _ 16).
Qed.

Lemma add_block_header_typed hdr dags :
  bytes_ok hdr -> Z.of_nat (length hdr) < 2 ^ 32 -> Forall dag_ok dags -> Z.of_nat (length dags) < 2 ^ 32 ->
  has_type borshSchema 4 (FName "addBlockHeaderInput")
    (VObj [("block_header", VArr (map VNum hdr)); ("dag_nodes", VArr (map dag_val dags))]).
Proof.
  intros Hh Hl Hd Hdl.
  apply (ht_struct borshSchema 3 _ [("block_header", FArray (FName "u8"));
    ("dag_nodes", FArray (FName "DoubleNodeWithMerkleProof"))] [VArr (map VNum hdr); VArr (map dag_val dags)]);
    [done | done | |].
  - apply (bool_decide_unpack _). vm_compute. exact I.
  - constructor; [|constructor; [|constructor]]; cbn [snd]; [by apply bytes_array_typed|].
    constructor; [by rewrite length_map|]. apply Forall_fmap. eapply Forall_impl; [|exact Hd]. intros d Hx. by apply dag_val_typed.
Qed.

End TypeLemmas.

(** ** Properties *)

(** An accepted configuration cannot exceed the gas of a NEAR block:
    for a positive gas per transaction, [initialize] returns only if the
    gas of a full batch is at most [MAX_GAS_PER_BLOCK]. *)
Theorem initialize_gas_bound parseInt arg gas relay :
  0 < gas -> initialize parseInt arg gas = Ret relay ->
  gasPerTransaction relay = gas /\ parseInt arg = Some (totalSubmitBlock relay) /\
  totalSubmitBlock relay * gas <= MAX_GAS_PER_BLOCK.
Proof.
  intros Hg. unfold initialize. destruct (gas =? 0) eqn:H0; [done|].
  destruct (parseInt arg) as [total|]; [|done].
  destruct (Z.quot MAX_GAS_PER_BLOCK gas <? total) eqn:Hlt; intros H; simplify_eq; zbool. cbn.
  split; [done|]. split; [done|]. rewrite Z.quot_div_nonneg in Hlt by (unfold MAX_GAS_PER_BLOCK; lia).
  pose proof (Z.mul_div_le MAX_GAS_PER_BLOCK gas Hg). nia.
Qed.

Lemma submit_call {BW : BinaryWriter} {HX : HexLib} relay block args bs :
  add_block_header_args block = Ret args ->
  serialize schema_fuel borshSchema (Some (FName "addBlockHeaderInput")) args = Ret bs ->
  submitBlock relay block = Ret {| fc_method := "add_block_header"; fc_args := bs;
    fc_gas := VNum (gasPerTransaction relay); fc_amount := VUndef |}.
Proof. intros Ha Hs. unfold submitBlock. by rewrite Ha, outcome_bind_ret, Hs, outcome_bind_ret. Qed.

Lemma add_block_header_args_of {HX : HexLib} {HXok : HexLibOk} L header_rlp hdr nodes dags :
  hexToBytes (VStr header_rlp) = Ret hdr -> Forall2 (node_denotes L) nodes dags ->
  add_block_header_args (raw_block header_rlp L nodes) =
    Ret (VObj [("block_header", VArr (map VNum hdr)); ("dag_nodes", VArr (map dag_val dags))]).
Proof.
  intros Hh Hn. unfold add_block_header_args. rewrite (h512s_of L header_rlp nodes dags Hn).
  cbn [mbind outcome_bind raw_block pb_header_rlp]. rewrite Hh. cbn [mbind outcome_bind].
  by rewrite (dag_nodes_of L header_rlp nodes dags Hn).
Qed.

Section SubmitProperty.
Context {BW : BinaryWriter} {BWok : BinaryWriterOk} {BN : BnLib} {BNok : BnLibOk} {HX : HexLib} {HXok : HexLibOk}.

(** C31: [submitBlock] sends what the relayer printed, complete and in
    order: for every header and every list of DAG nodes (four 32-byte
    elements and a Merkle proof each), the arguments of the
    [add_block_header] call decode, with the contract's schema, to that
    header and to exactly those nodes, each with its own slice of the
    proofs. *)
Theorem submitBlock_faithful relay L header_rlp hdr nodes dags :
  hexToBytes (VStr header_rlp) = Ret hdr -> Forall2 (node_denotes L) nodes dags ->
  Z.of_nat (length hdr) < 2 ^ 32 -> Z.of_nat (length nodes) < 2 ^ 32 -> Z.of_nat L < 2 ^ 32 ->
  exists call, submitBlock relay (raw_block header_rlp L nodes) = Ret call /\
    fc_method call = "add_block_header" /\ fc_gas call = VNum (gasPerTransaction relay) /\
    deserialize schema_fuel borshSchema (Some (FName "addBlockHeaderInput")) (fc_args call) =
      Ret (VObj [("block_header", VArr (map VNum hdr)); ("dag_nodes", VArr (map dag_val dags))]).
Proof.
  intros Hh Hn Hhl Hnl HL. pose proof (Forall2_length Hn) as Hlen.
  assert (has_type borshSchema 4 (FName "addBlockHeaderInput")
    (VObj [("block_header", VArr (map VNum hdr)); ("dag_nodes", VArr (map dag_val dags))])) as Ht.
  { apply add_block_header_typed; [by eapply hexToBytes_bytes | done | | lia].
    clear Hnl Hlen. induction Hn; constructor; [by eapply node_dag_ok | done]. }
  destruct (has_type_codes _ _ _ _ Ht) as [bs Hc].
  assert (4 < schema_fuel)%nat as Hf by (unfold schema_fuel; lia).
  pose proof (serialize_codes _ _ _ _ _ schema_fuel Hc Hf) as Hs.
  pose proof (deserialize_codes _ _ _ _ _ [] schema_fuel Hc Hf) as Hd. rewrite app_nil_r in Hd.
  eexists. split; [exact (submit_call relay _ _ _ (add_block_header_args_of L header_rlp hdr nodes dags Hh Hn) Hs)|].
  by repeat split.
Qed.

End SubmitProperty.

(** The batch of a round is the gapless run of blocks directly after
    the newest shared block: at least one block, at most the configured
    number (one while the client is below block 5), and none beyond the
    chain's head. *)
Theorem batch_contiguous relay client chain :
  client < chain -> 1 <= totalSubmitBlock relay ->
  exists k, batch relay client chain = from (client + 1) k /\
    (1 <= k)%nat /\ Z.of_nat k <= totalSubmitBlock relay /\ (client < 5 -> k = 1%nat) /\
    Forall (fun i => client < i <= chain) (batch relay client chain).
Proof.
  intros Hlt Ht. unfold batch. set (k := Z.to_nat _). exists k.
  assert (1 <= Z.of_nat k /\ Z.of_nat k <= totalSubmitBlock relay /\ client + Z.of_nat k <= chain /\ (client < 5 -> Z.of_nat k = 1))
    as (H1 & H2 & H3 & H4).
  { unfold k, endBlock. destruct (client <? 5) eqn:H5; zbool; lia. }
  split; [done|]. split; [lia|]. split; [lia|]. split; [lia|].
  assert (forall n m, n + Z.of_nat m <= chain + 1 -> client < n -> Forall (fun i => client < i <= chain) (from n m)) as Hf.
  { intros n m. revert n. induction m as [|m IH]; intros n Hn Hc; constructor; [lia | apply IH; lia]. }
  apply Hf; lia.
Qed.

Section RoundProperties.
Context {N : Type} (near : NearNode N) (rpc : Z -> service (KeyWorld N) val).
Context (header_rlp : string -> bool -> val -> outcome (list Z)).
Context (ethashproof : list Z -> service (KeyWorld N) ParsedBlock) (contractId : string) (relay : Eth2NearRelay).
Context (account_signAndSend : string -> list FunctionCall -> service (KeyWorld N) unit).
Context {BW : BinaryWriter} {BN : BnLib} {HX : HexLib}.

(** Up to a height, the chain answers every block with an object that has
    its hash among its fields, and the client contract answers the hashes
    it knows at that number. *)
Definition chain_answers (top : Z) (eth_hash : Z -> string) : Prop :=
  forall n w, 0 <= n <= top -> exists block w', rpc n w = (Ret block, w') /\ block <> VNull /\ get_prop block "hash" = Ret (VStr (eth_hash n)).

Definition client_answers (top : Z) (eth_hash : Z -> string) (shared : Z -> bool) : Prop :=
  forall n, 0 <= n <= top -> returns (known_hashes near contractId n) (fun v _ => hash_known v (VStr (eth_hash n)) = Ret (shared n)).

Lemma predicate_computes top eth_hash shared fuel head lo :
  chain_answers top eth_hash -> client_answers top eth_hash shared -> head - lo <= top ->
  computes lo head (predicate near rpc contractId (S fuel) head) (fun v => shared (head - v)).
Proof.
  intros Hc Hk Htop v Hv w. cbn [predicate]. unfold try_catch. rewrite eff_bind_eq.
  destruct (Hc (head - v) w) as (block & w1 & E1 & Hnn & Hhash); [lia|]. rewrite (getEthBlock_found _ _ _ _ _ E1) by done.
  destruct (Hk (head - v) ltac:(lia) w1) as (hs & w2 & t2 & Ek & Hh).
  assert (forall A (x y : A), match block with VNull => x | _ => y end = y) as Hblock by (intros; by destruct block).
  rewrite !Hblock, !eff_bind_eq, Hhash. change (lift (Ret (VStr (eth_hash (head - v)))) w1)
    with (Ret (VStr (eth_hash (head - v))), w1, @nil event).
  cbn [out_of world_of trace_of fst snd]. rewrite !eff_bind_eq, Ek. cbn [lift]. rewrite Hh. by do 3 eexists.
Qed.

(** C12: the relay finds the fork point: when the client shares exactly the
    blocks up to [m0] with the chain, the search of a round returns the
    distance from the client's head to [m0], from any estimate up to the
    head (an estimate above zero needs a fork, [m0 < head]).  The Ethereum
    node has to answer every block up to the head with an object that has
    the block's hash, the client contract every query for known hashes up
    to there, and, for a negative estimate, as far beyond the head. *)
Theorem relay_finds_fork_point eth_hash shared m0 head est fuel :
  chain_answers (head - Z.min 0 est) eth_hash -> client_answers (head - Z.min 0 est) eth_hash shared ->
  (forall n, shared n = (n <=? m0)) -> 0 <= m0 <= head -> est <= head -> (est <= 0 \/ m0 < head) ->
  doublings (head - Z.min 0 est) < Z.of_nat fuel ->
  returns (binarySearchWithEstimate (predicate near rpc contractId (S fuel) head) fuel 0 head est)
    (fun delta _ => head - delta = m0).
Proof.
  intros Hc Hk Hs Hm He Hest Hf.
  set (P := fun v => shared (head - v)).
  assert (monotone P) as Hmono.
  { intros u v Huv. unfold P. rewrite !Hs. intros Hu. zbool. apply Z.leb_le. lia. }
  eapply returns_mono; [apply (search_computes _ P); try done; by apply (predicate_computes (head - Z.min 0 est) eth_hash)|].
  intros delta t Hfound. assert (delta = head - m0) as ->; [|lia].
  assert (P (head - m0) = true /\ P (head - m0 - 1) = false) as [H1 H2].
  { unfold P. rewrite !Hs. split; [apply Z.leb_le | apply Z.leb_gt]; lia. }
  destruct (decide (Z.min 0 est < head - m0)) as [Hlt|Hge].
  - apply (found_unique P _ _ _ _ _ _ _ Hmono Hfound H1 H2). lia.
  - assert (est = 0 /\ m0 = head) as [-> ->] by lia. destruct Hfound as (Hr & _ & _ & _ & _ & Hle).
    rewrite Z.sub_diag in *. specialize (Hle H1). lia.
Qed.

Definition no_submit (w w' : KeyWorld N) (t : list event) : Prop := calls "signAndSendTransaction" t = 0%nat.

#[local] Instance no_submit_rel : TraceRel no_submit.
Proof.
  split; [done|]. unfold no_submit. intros w1 w2 w3 t1 t2 H1 H2. by rewrite calls_app, H1, H2.
Qed.

Lemma getEthBlock_no_submit n : respects no_submit (getEthBlock rpc n).
Proof.
  unfold getEthBlock. generalize VUndef, 10%nat. intros v k. revert v. induction k as [|k IH]; intros v; cbn [getEthBlock_loop];
    [apply respects_ret, _|].
  apply respects_bind; [apply _ | by apply respects_perform | intros r].
  destruct r; try apply respects_ret, _. apply respects_bind; [apply _ | by apply respects_emit | auto].
Qed.

Lemma getParseBlocks_no_submit numbers : respects no_submit (getParseBlocks rpc header_rlp ethashproof numbers).
Proof.
  induction numbers as [|i numbers IH]; cbn [getParseBlocks]; [apply respects_ret, _|].
  apply respects_bind; [apply _ | | intros b; apply respects_bind; auto with bridge].
  apply respects_try; [apply _ | | auto with bridge].
  apply respects_bind; [apply _ | apply getEthBlock_no_submit | intros blk].
  apply respects_bind; [apply _ | apply respects_lift, _ | intros rlp].
  apply respects_bind; [apply _ | by apply respects_perform | auto with bridge].
Qed.

Lemma getParseBlocks_length numbers w blocks :
  out_of (getParseBlocks rpc header_rlp ethashproof numbers w) = Ret blocks -> length blocks = length numbers.
Proof.
  revert w blocks. induction numbers as [|i numbers IH]; intros w blocks H; [by injection H as <-|].
  cbn [getParseBlocks] in H. apply eff_bind_ret_inv in H as (b & _ & H).
  apply eff_bind_ret_inv in H as (bs & Hbs & H). injection H as <-. cbn. f_equal. by eapply IH.
Qed.

Lemma submitBlocks_inv blocks actions :
  submitBlocks relay blocks = Ret actions ->
  exists bs, blocks = map Some bs /\ Forall2 (fun b a => submitBlock relay b = Ret a) bs actions.
Proof.
  revert actions. induction blocks as [|[b|] blocks IH]; intros actions H; cbn in H; [|apply outcome_bind_inv in H as (a & Ha & H)|done].
  - injection H as <-. by exists [].
  - apply outcome_bind_inv in H as (l & Hl & H). injection H as <-.
    destruct (IH l Hl) as (bs & -> & Hbs). exists (b :: bs). split; [done | by constructor].
Qed.

(** A batch is all or nothing: [submit_batch] sends at most one
    transaction, and when it sends one then every block of the batch was
    fetched and its [add_block_header] call is in the transaction, in
    order. *)
Theorem submit_batch_all_or_nothing client chain w :
  let run := submit_batch rpc header_rlp ethashproof contractId relay account_signAndSend client chain w in
  calls "signAndSendTransaction" (trace_of run) = 0%nat \/
  (exists blocks actions, Forall2 (fun b a => submitBlock relay b = Ret a) blocks actions /\
    length blocks = length (batch relay client chain) /\
    calls "signAndSendTransaction" (trace_of run) = 1%nat /\
    Call "signAndSendTransaction" [VNum (Z.of_nat (length actions))] ∈ trace_of run).
Proof.
  cbv zeta. unfold submit_batch, try_catch. rewrite eff_bind_eq.
  pose proof (getParseBlocks_no_submit (batch relay client chain) w) as Hq.
  pose proof (getParseBlocks_length (batch relay client chain) w) as Hl. unfold no_submit in Hq.
  destruct (getParseBlocks rpc header_rlp ethashproof (batch relay client chain) w) as [[[blocks|e|c|] w1] t1];
    cbn in Hq; try (left; cbn; rewrite ?eff_bind_eq; cbn; rewrite ?app_nil_r, ?calls_app, Hq; done).
  rewrite eff_bind_eq. destruct (submitBlocks relay blocks) as [actions|e|c|] eqn:Es; cbn [lift];
    try (left; cbn; rewrite ?eff_bind_eq; cbn; rewrite ?app_nil_r, ?calls_app, Hq; done).
  right. destruct (submitBlocks_inv blocks actions Es) as (bs & -> & Hbs). exists bs, actions.
  specialize (Hl _ eq_refl). rewrite length_map in Hl. rewrite eff_bind_eq. unfold perform, inc_counter, emit.
  destruct (account_signAndSend contractId actions w1) as [[[]|e|c|] w2]; cbn;
    rewrite ?eff_bind_eq; cbn; rewrite ?app_nil_r, <- ?app_assoc;
    (split; [done|]; split; [done|]; rewrite !calls_app, Hq; autorewrite with bridge; set_solver).
Qed.

End RoundProperties.

(** ** Witnesses *)

Module Witness.
Import Reference NearTx.Witness EthOnNearClient.Witness.

Definition relay0 : Eth2NearRelay := {| totalSubmitBlock := 4; gasPerTransaction := 72000000000000 |}.

Lemma initialize_gas_bound_witness :
  gasPerTransaction relay0 = 72000000000000 /\ (fun _ : string => Some 4) "4" = Some (totalSubmitBlock relay0) /\
  totalSubmitBlock relay0 * 72000000000000 <= MAX_GAS_PER_BLOCK.
Proof. apply initialize_gas_bound; [lia | vm_compute; reflexivity]. Defined.

(** A small number in [len] bytes. *)
Definition cell (len : nat) (n : Z) : list Z := (replicate (len - 1) 0 ++ [n])%list.

Definition dag (n : Z) : DagNode :=
  {| dn_first := (cell 32 n ++ cell 32 n)%list; dn_second := (cell 32 n ++ cell 32 n)%list;
     dn_proof := [cell 16 n; cell 16 n] |}.

Definition raw_ff : RawNode :=
  {| rn1 := "0xff"; rn2 := "0x0ff"; rn3 := "0x00ff"; rn4 := "0xff"; rn_proof := ["0xff"; "0x0ff"] |}.

Lemma raw_denotes : node_denotes 2 raw_ff (dag 255).
Proof.
  split; [|split; [|done]].
  - exists (cell 32 255), (cell 32 255), (cell 32 255), (cell 32 255).
    repeat split; try (vm_compute; reflexivity);
      (apply (bool_decide_unpack _); vm_compute; exact I).
  - repeat constructor; try (vm_compute; reflexivity); cbn; unfold is_byte; lia.
Qed.

Lemma submitBlock_faithful_witness :
  exists call, submitBlock relay0 (raw_block "0xf90201" 2 [raw_ff; raw_ff]) = Ret call /\
    fc_method call = "add_block_header" /\ fc_gas call = VNum (gasPerTransaction relay0) /\
    deserialize schema_fuel borshSchema (Some (FName "addBlockHeaderInput")) (fc_args call) =
      Ret (VObj [("block_header", VArr (map VNum [249; 2; 1])); ("dag_nodes", VArr (map dag_val [dag 255; dag 255]))]).
Proof.
  apply submitBlock_faithful; [vm_compute; reflexivity | | cbn; lia | cbn; lia | cbn; lia].
  constructor; [exact raw_denotes | constructor; [exact raw_denotes | constructor]].
Defined.

Lemma batch_contiguous_witness :
  exists k, batch relay0 100 102 = from (100 + 1) k /\
    (1 <= k)%nat /\ Z.of_nat k <= totalSubmitBlock relay0 /\ (100 < 5 -> k = 1%nat) /\
    Forall (fun i => 100 < i <= 102) (batch relay0 100 102).
Proof. apply batch_contiguous; [lia | cbn; lia]. Defined.

(** A client that shares the blocks up to 70 with the chain. *)
Definition hash_at (n : Z) : string := bytesToHex (le_bytes 32 n).

Definition fork_query (path : string) (args : list Z) : list Z :=
  if le_value args <=? 70 then ([1; 0; 0; 0] ++ le_bytes 32 (le_value args))%list else [0; 0; 0; 0].

Definition fork_node : NearNode (list string) := {|
  near_status := near_status pool;
  near_sign := sign_pool;
  near_broadcast := near_broadcast pool;
  near_txStatus := near_txStatus pool;
  near_query := fun path args n => (Ret {| qr_result := Some (fork_query path args); qr_logs := [] |}, n)
|}.

Definition fork_rpc (n : Z) (w : KeyWorld (list string)) : outcome val * KeyWorld (list string) :=
  (Ret (VObj [("number", VNum n); ("hash", VStr (hash_at n)); ("difficulty", VStr "0x2")]), w).

Lemma fork_client_answers : client_answers fork_node "client" 80 hash_at (fun n => n <=? 70).
Proof.
  intros n Hn. assert (exists k, (k <= 80)%nat /\ n = Z.of_nat k) as (k & Hk & ->) by (exists (Z.to_nat n); lia).
  do 81 (destruct k as [|k]; [intros w; do 3 eexists; split; [vm_compute; reflexivity | vm_compute; reflexivity]|]). lia.
Qed.

Lemma relay_finds_fork_point_witness :
  returns (binarySearchWithEstimate (predicate fork_node fork_rpc "client" 11 80) 10 0 80 3)
    (fun delta _ => 80 - delta = 70).
Proof.
  apply (relay_finds_fork_point fork_node fork_rpc "client" hash_at (fun n => n <=? 70)).
  - intros n w _. by do 2 eexists.
  - exact fork_client_answers.
  - done.
  - lia.
  - lia.
  - lia.
  - vm_compute. reflexivity.
Defined.

End Witness.
