(* ===== verification/NearBridge.v ===== *)
(** * The NEAR light client contract on Ethereum

    NearBridge.sol (contracts/eth/nearbridge/contracts), the contract the
    relay and the watchdog talk to, as a state machine over decoded blocks.
    The model keeps the stakes of an epoch as a list (the contract packs
    two per word) and the approvals of the head as a list of options (the
    contract keeps a bit set and an array).  The transactions are functions
    to a new state or a revert; [bridgeState] is the view the off-chain
    programs poll. *)

From S2P Require Import Prelude Interfaces LightClientBlock.
Import Contract.

(** ** State *)

Record Epoch := {
  epochId : list Z;
  ep_keys : list (list Z);
  ep_stakes : list Z;
  stakeThreshold : Z
}.

Definition no_epoch : Epoch := {| epochId := []; ep_keys := []; ep_stakes := []; stakeThreshold := 0 |}.

(** The most recently added block, still in its challenge period. *)
Record Untrusted := {
  untrustedHeight : Z;
  untrustedTimestamp : Z;
  untrustedNextEpoch : bool;
  untrustedHash : list Z;
  untrustedMerkleRoot : list Z;
  untrustedNextHash : list Z;
  untrustedSignatures : list (option Signature)
}.

Definition no_block : Untrusted :=
  {| untrustedHeight := 0; untrustedTimestamp := 0; untrustedNextEpoch := false; untrustedHash := [];
     untrustedMerkleRoot := []; untrustedNextHash := []; untrustedSignatures := [] |}.

Record NearBridge := {
  admin : string;
  paused : Z;
  initialized : bool;
  lockEthAmount : Z;
  lockDuration : Z;
  replaceDuration : Z;
  epoch0 : Epoch;
  epoch1 : Epoch;
  epoch2 : Epoch;
  curEpoch : Z;
  curHeight : Z;
  head : Untrusted;
  lastSubmitter : string;
  lastValidAt : Z;
  blockHashes_ : gmap Z (list Z);
  blockMerkleRoots_ : gmap Z (list Z);
  balances : gmap string Z
}.

Definition balanceOf (b : NearBridge) (a : string) : Z := default 0 (balances b !! a).

Definition epoch (b : NearBridge) (i : Z) : Epoch :=
  if i =? 0 then epoch0 b else if i =? 1 then epoch1 b else epoch2 b.

Definition set_epoch (i : Z) (e : Epoch) (b : NearBridge) : NearBridge :=
  {| admin := admin b; paused := paused b; initialized := initialized b; lockEthAmount := lockEthAmount b;
     lockDuration := lockDuration b; replaceDuration := replaceDuration b;
     epoch0 := if i =? 0 then e else epoch0 b; epoch1 := if i =? 1 then e else epoch1 b;
     epoch2 := if i =? 2 then e else epoch2 b; curEpoch := curEpoch b; curHeight := curHeight b; head := head b;
     lastSubmitter := lastSubmitter b; lastValidAt := lastValidAt b; blockHashes_ := blockHashes_ b;
     blockMerkleRoots_ := blockMerkleRoots_ b; balances := balances b |}.

Definition set_balances (m : gmap string Z) (b : NearBridge) : NearBridge :=
  {| admin := admin b; paused := paused b; initialized := initialized b; lockEthAmount := lockEthAmount b;
     lockDuration := lockDuration b; replaceDuration := replaceDuration b; epoch0 := epoch0 b; epoch1 := epoch1 b;
     epoch2 := epoch2 b; curEpoch := curEpoch b; curHeight := curHeight b; head := head b;
     lastSubmitter := lastSubmitter b; lastValidAt := lastValidAt b; blockHashes_ := blockHashes_ b;
     blockMerkleRoots_ := blockMerkleRoots_ b; balances := m |}.

Definition set_lastValidAt (t : Z) (b : NearBridge) : NearBridge :=
  {| admin := admin b; paused := paused b; initialized := initialized b; lockEthAmount := lockEthAmount b;
     lockDuration := lockDuration b; replaceDuration := replaceDuration b; epoch0 := epoch0 b; epoch1 := epoch1 b;
     epoch2 := epoch2 b; curEpoch := curEpoch b; curHeight := curHeight b; head := head b;
     lastSubmitter := lastSubmitter b; lastValidAt := t; blockHashes_ := blockHashes_ b;
     blockMerkleRoots_ := blockMerkleRoots_ b; balances := balances b |}.

(** Sums in [unchecked] code wrap around. *)
Definition wrap256 (z : Z) : Z := z mod 2 ^ 256.
Definition wrap64 (z : Z) : Z := z mod 2 ^ 64.

Lemma wrap256_small z : 0 <= z < 2 ^ 256 -> wrap256 z = z.
Proof. apply Z.mod_small. Qed.

Lemma wrap256_range z : 0 <= wrap256 z < 2 ^ 256.
Proof. by apply Z.mod_pos_bound. Qed.

(** ** Transactions *)

Definition require (c : bool) (reason : string) : outcome unit := if c then Ret tt else revert reason.

Definition pausable (flag : Z) (sender : string) (b : NearBridge) : outcome unit :=
  require ((Z.land (paused b) flag =? 0) || String.eqb sender (admin b)) "".

Definition PAUSED_DEPOSIT : Z := 1.
Definition PAUSED_WITHDRAW : Z := 2.
Definition PAUSED_ADD_BLOCK : Z := 4.
Definition PAUSED_CHALLENGE : Z := 8.
Definition PAUSED_VERIFY : Z := 16.

Definition MAX_BLOCK_PRODUCERS : Z := 100.

Definition deposit (sender : string) (value : Z) (b : NearBridge) : outcome NearBridge :=
  _ ← pausable PAUSED_DEPOSIT sender b;
  _ ← require ((value =? lockEthAmount b) && (balanceOf b sender =? 0)) "";
  Ret (set_balances (<[sender := value]> (balances b)) b).

(** The withdrawn amount goes to the sender. *)
Definition withdraw (now : Z) (sender : string) (b : NearBridge) : outcome NearBridge :=
  _ ← pausable PAUSED_WITHDRAW sender b;
  _ ← require (negb (String.eqb sender (lastSubmitter b)) || (lastValidAt b <=? now)) "";
  _ ← require (negb (balanceOf b sender =? 0)) "";
  Ret (set_balances (<[sender := 0]> (balances b)) b).

Definition headEpoch (b : NearBridge) : Epoch :=
  epoch b (if untrustedNextEpoch (head b) then (curEpoch b + 1) mod 3 else curEpoch b).

Section Transactions.
Context (sha256 : list Z -> list Z).
(** [edwards.check(key, r, s, message)], the message being the next block
    hash and the height plus two. *)
Context (ed25519_check : list Z -> Signature -> list Z -> Z -> bool).

Definition checkBlockProducerSignatureInHead (signatureIndex : nat) (b : NearBridge) : outcome bool :=
  match untrustedSignatures (head b) !! signatureIndex with
  | Some (Some sig) =>
      Ret (ed25519_check (default [] (ep_keys (headEpoch b) !! signatureIndex)) sig
             (untrustedNextHash (head b)) (wrap64 (untrustedHeight (head b) + 2)))
  | _ => revert "No such signature"
  end.

(** Half of the stake goes to the receiver. *)
Definition challenge (now : Z) (sender receiver : string) (signatureIndex : nat) (b : NearBridge)
    : outcome NearBridge :=
  _ ← pausable PAUSED_CHALLENGE sender b;
  _ ← require (now <? lastValidAt b) "No block can be challenged at this time";
  ok ← checkBlockProducerSignatureInHead signatureIndex b;
  _ ← require (negb ok) "Can't challenge valid signature";
  _ ← require (lockEthAmount b <=? balanceOf b (lastSubmitter b)) "underflow";
  Ret (set_lastValidAt 0
        (set_balances (<[lastSubmitter b := balanceOf b (lastSubmitter b) - lockEthAmount b]> (balances b)) b)).

Definition sum_stakes (l : list Z) : Z := fold_right Z.add 0 l.

Definition setBlockProducers (src : list BlockProducer) (e : Epoch) : outcome Epoch :=
  _ ← require (Z.of_nat (length src) <=? MAX_BLOCK_PRODUCERS)
        "It is not expected having that many block producers for the provided block";
  Ret {| epochId := epochId e; ep_keys := map publicKey src; ep_stakes := map stake src;
         stakeThreshold := sum_stakes (map stake src) * 2 / 3 |}.

Definition numBPs (e : Epoch) : nat := length (ep_stakes e).

Definition initWithValidators (sender : string) (data : list Z) (b : NearBridge) : outcome NearBridge :=
  _ ← require (String.eqb sender (admin b)) "";
  _ ← require (negb (initialized b) && (numBPs (epoch0 b) =? 0)%nat) "Wrong initialization stage";
  '(vs, d) ← decodeBlockProducers data;
  _ ← done_ok d;
  e ← setBlockProducers vs (epoch0 b);
  Ret (set_epoch 0 e b).

Definition initWithBlock (sender : string) (data : list Z) (b : NearBridge) : outcome NearBridge :=
  _ ← require (String.eqb sender (admin b)) "";
  _ ← require (negb (initialized b) && negb (numBPs (epoch0 b) =? 0)%nat) "Wrong initialization stage";
  '(nearBlock, d) ← decodeLightClientBlock sha256 data;
  _ ← done_ok d;
  match next_bps nearBlock with
  | None => revert "Initialization block must contain next_bps"
  | Some (bps, _) =>
      let il := inner_lite nearBlock in
      e1 ← setBlockProducers bps
             {| epochId := next_epoch_id il; ep_keys := []; ep_stakes := []; stakeThreshold := 0 |};
      Ret {| admin := admin b; paused := paused b; initialized := true; lockEthAmount := lockEthAmount b;
             lockDuration := lockDuration b; replaceDuration := replaceDuration b;
             epoch0 := {| epochId := epoch_id il; ep_keys := ep_keys (epoch0 b); ep_stakes := ep_stakes (epoch0 b);
                          stakeThreshold := stakeThreshold (epoch0 b) |};
             epoch1 := e1; epoch2 := epoch2 b; curEpoch := curEpoch b; curHeight := height il; head := head b;
             lastSubmitter := lastSubmitter b; lastValidAt := lastValidAt b;
             blockHashes_ := <[height il := hash nearBlock]> (blockHashes_ b);
             blockMerkleRoots_ := <[height il := block_merkle_root il]> (blockMerkleRoots_ b);
             balances := balances b |}
  end.

Record BridgeState := { currentHeight : Z; nextTimestamp : Z; nextValidAt : Z; numBlockProducers : nat }.

Definition bridgeState (now : Z) (b : NearBridge) : BridgeState :=
  if now <? lastValidAt b then
    {| currentHeight := curHeight b; nextTimestamp := untrustedTimestamp (head b); nextValidAt := lastValidAt b;
       numBlockProducers := numBPs (headEpoch b) |}
  else
    {| currentHeight := if lastValidAt b =? 0 then curHeight b else untrustedHeight (head b);
       nextTimestamp := 0; nextValidAt := 0; numBlockProducers := 0 |}.

(** The two views of confirmed blocks; an entry that was never written is
    zero.  The head counts as soon as its challenge period is over. *)
Definition zero32 : list Z := replicate 32 0.

Definition confirmed (now height : Z) (entry pending : list Z) (b : NearBridge) : list Z :=
  if bool_decide (entry = zero32) && (lastValidAt b <=? now) && negb (lastValidAt b =? 0) && (height =? untrustedHeight (head b))
  then pending else entry.

Definition blockHashes (now : Z) (sender : string) (height : Z) (b : NearBridge) : outcome (list Z) :=
  _ ← pausable PAUSED_VERIFY sender b;
  Ret (confirmed now height (default zero32 (blockHashes_ b !! height)) (untrustedHash (head b)) b).

Definition blockMerkleRoots (now : Z) (sender : string) (height : Z) (b : NearBridge) : outcome (list Z) :=
  _ ← pausable PAUSED_VERIFY sender b;
  Ret (confirmed now height (default zero32 (blockMerkleRoots_ b !! height)) (untrustedMerkleRoot (head b)) b).

(** The head becomes the current block. *)
Definition commit (b : NearBridge) : NearBridge :=
  {| admin := admin b; paused := paused b; initialized := initialized b; lockEthAmount := lockEthAmount b;
     lockDuration := lockDuration b; replaceDuration := replaceDuration b; epoch0 := epoch0 b; epoch1 := epoch1 b;
     epoch2 := epoch2 b;
     curEpoch := if untrustedNextEpoch (head b) then (curEpoch b + 1) mod 3 else curEpoch b;
     curHeight := untrustedHeight (head b); head := head b; lastSubmitter := lastSubmitter b; lastValidAt := 0;
     blockHashes_ := <[untrustedHeight (head b) := untrustedHash (head b)]> (blockHashes_ b);
     blockMerkleRoots_ := <[untrustedHeight (head b) := untrustedMerkleRoot (head b)]> (blockMerkleRoots_ b);
     balances := balances b |}.

(** Commit the previous block, or make sure that it is OK to replace it. *)
Definition commit_or_replace (now timestamp : Z) (b : NearBridge) : outcome NearBridge :=
  if now <? lastValidAt b then
    _ ← require (wrap256 (untrustedTimestamp (head b) + replaceDuration b) <=? timestamp)
          "Can only replace with a sufficiently newer block";
    Ret b
  else if lastValidAt b =? 0 then Ret b
  else Ret (commit b).

(** The stake behind the approvals that are present. *)
Fixpoint votedFor (stakes : list Z) (approvals : list (option Signature)) : Z :=
  match stakes, approvals with
  | s :: stakes', Some _ :: approvals' => s + votedFor stakes' approvals'
  | _ :: stakes', None :: approvals' => votedFor stakes' approvals'
  | _, _ => 0
  end.

Definition set_head (now : Z) (sender : string) (nearBlock : DecodedBlock) (fromNextEpoch : bool) (e : Epoch)
    (b : NearBridge) : NearBridge :=
  {| admin := admin b; paused := paused b; initialized := initialized b; lockEthAmount := lockEthAmount b;
     lockDuration := lockDuration b; replaceDuration := replaceDuration b; epoch0 := epoch0 b; epoch1 := epoch1 b;
     epoch2 := epoch2 b; curEpoch := curEpoch b; curHeight := curHeight b;
     head := {| untrustedHeight := height (inner_lite nearBlock);
                untrustedTimestamp := timestamp (inner_lite nearBlock); untrustedNextEpoch := fromNextEpoch;
                untrustedHash := hash nearBlock; untrustedMerkleRoot := block_merkle_root (inner_lite nearBlock);
                untrustedNextHash := next_hash nearBlock;
                untrustedSignatures := take (numBPs e) (approvals_after_next nearBlock) |};
     lastSubmitter := sender; lastValidAt := wrap256 (now + lockDuration b); blockHashes_ := blockHashes_ b;
     blockMerkleRoots_ := blockMerkleRoots_ b; balances := balances b |}.

Definition addBlock (now : Z) (sender : string) (nearBlock : DecodedBlock) (b0 : NearBridge) : outcome NearBridge :=
  let il := inner_lite nearBlock in
  b ← commit_or_replace now (timestamp il) b0;
  _ ← require (curHeight b <? height il) "New block must have higher height";
  fromNextEpoch ←
    (if decide (epoch_id il = epochId (epoch b (curEpoch b))) then Ret false
     else if decide (epoch_id il = epochId (epoch b ((curEpoch b + 1) mod 3))) then Ret true
     else revert "Epoch id of the block is not valid");
  let thisEpoch := epoch b (if fromNextEpoch : bool then (curEpoch b + 1) mod 3 else curEpoch b) in
  _ ← require (numBPs thisEpoch <=? length (approvals_after_next nearBlock))%nat "Approval list is too short";
  _ ← require (stakeThreshold thisEpoch <? votedFor (ep_stakes thisEpoch) (approvals_after_next nearBlock))
        "Too few approvals";
  if fromNextEpoch then
    match next_bps nearBlock with
    | None => revert "Next next_bps should not be None"
    | Some (bps, h) =>
        if decide (h = next_bp_hash il) then
          e ← setBlockProducers bps
                {| epochId := next_epoch_id il; ep_keys := []; ep_stakes := []; stakeThreshold := 0 |};
          Ret (set_epoch ((curEpoch b + 2) mod 3) e (set_head now sender nearBlock true thisEpoch b))
        else revert "Hash of block producers does not match"
    end
  else Ret (set_head now sender nearBlock false thisEpoch b).

Definition addLightClientBlock (now : Z) (sender : string) (data : list Z) (b : NearBridge) : outcome NearBridge :=
  _ ← pausable PAUSED_ADD_BLOCK sender b;
  _ ← require (initialized b) "Contract is not initialized";
  _ ← require (lockEthAmount b <=? balanceOf b sender) "Balance is not enough";
  '(nearBlock, d) ← decodeLightClientBlock sha256 data;
  _ ← done_ok d;
  addBlock now sender nearBlock b.

End Transactions.

(** The constructor; its product is checked arithmetic. *)
Definition deploy (lockEthAmount lockDuration replaceDuration : Z) (admin : string) (pausedFlags : Z)
    : outcome NearBridge :=
  _ ← require (lockDuration * 1000000000 <? 2 ^ 256) "Panic(0x11)";
  _ ← require (lockDuration * 1000000000 <? replaceDuration) "";
  Ret {| admin := admin; paused := pausedFlags; initialized := false; lockEthAmount := lockEthAmount;
         lockDuration := lockDuration; replaceDuration := replaceDuration; epoch0 := no_epoch; epoch1 := no_epoch;
         epoch2 := no_epoch; curEpoch := 0; curHeight := 0; head := no_block; lastSubmitter := ""; lastValidAt := 0;
         blockHashes_ := ∅; blockMerkleRoots_ := ∅; balances := ∅ |}.

Definition set_paused (flags : Z) (b : NearBridge) : NearBridge :=
  {| admin := admin b; paused := flags; initialized := initialized b; lockEthAmount := lockEthAmount b;
     lockDuration := lockDuration b; replaceDuration := replaceDuration b; epoch0 := epoch0 b; epoch1 := epoch1 b;
     epoch2 := epoch2 b; curEpoch := curEpoch b; curHeight := curHeight b; head := head b;
     lastSubmitter := lastSubmitter b; lastValidAt := lastValidAt b; blockHashes_ := blockHashes_ b;
     blockMerkleRoots_ := blockMerkleRoots_ b; balances := balances b |}.

Definition adminPause (sender : string) (flags : Z) (b : NearBridge) : outcome NearBridge :=
  _ ← require (String.eqb sender (admin b)) "";
  Ret (set_paused flags b).

(** The functions with which the admin writes the storage directly.  Where
    a field of the state lies is the compiler's choice, so the slots are
    given by [sload] and [sstore]; the code that [adminDelegatecall] runs on
    the storage is its [target]. *)
Section AdminStorage.
Context (sload : Z -> NearBridge -> Z) (sstore : Z -> Z -> NearBridge -> NearBridge).

Definition adminSstore (sender : string) (key value : Z) (b : NearBridge) : outcome NearBridge :=
  _ ← require (String.eqb sender (admin b)) "";
  Ret (sstore key value b).

Definition adminSstoreWithMask (sender : string) (key value mask : Z) (b : NearBridge) : outcome NearBridge :=
  _ ← require (String.eqb sender (admin b)) "";
  let oldval := sload key b in
  Ret (sstore key (Z.lxor (Z.land (Z.lxor value oldval) mask) oldval) b).

End AdminStorage.

Definition adminDelegatecall (target : NearBridge -> outcome NearBridge) (sender : string) (b : NearBridge) : outcome NearBridge :=
  _ ← require (String.eqb sender (admin b)) "";
  target b.

(** ** Reachable states *)

Section Reachable.
Context (sha256 : list Z -> list Z) (ed25519_check : list Z -> Signature -> list Z -> Z -> bool).

Inductive step (now : Z) (b b' : NearBridge) : Prop :=
| step_deposit s v : deposit s v b = Ret b' -> step now b b'
| step_withdraw s : withdraw now s b = Ret b' -> step now b b'
| step_challenge s r i : challenge ed25519_check now s r i b = Ret b' -> step now b b'
| step_validators s d : initWithValidators s d b = Ret b' -> step now b b'
| step_block s d : initWithBlock sha256 s d b = Ret b' -> step now b b'
| step_add s d : addLightClientBlock sha256 now s d b = Ret b' -> step now b b'
| step_pause s flags : adminPause s flags b = Ret b' -> step now b b'.

(** A direct write of the admin, which may leave anything. *)
Inductive raw_write (b b' : NearBridge) : Prop :=
| raw_sstore sstore s key value : adminSstore sstore s key value b = Ret b' -> raw_write b b'
| raw_sstore_mask sload sstore s key value mask : adminSstoreWithMask sload sstore s key value mask b = Ret b' -> raw_write b b'
| raw_delegatecall target s : adminDelegatecall target s b = Ret b' -> raw_write b b'.

(** States after transactions other than direct writes.  Time does not run
    backwards between transactions. *)
Inductive reachable : Z -> NearBridge -> Prop :=
| reachable_deploy t l ld rd a p b : 0 <= t -> 0 <= l -> 0 <= ld -> deploy l ld rd a p = Ret b -> reachable t b
| reachable_step t now b b' : reachable t b -> t <= now -> step now b b' -> reachable now b'.

(** The states after any transactions at all, with the number of direct
    writes among them. *)
Inductive history : nat -> Z -> NearBridge -> Prop :=
| history_deploy t l ld rd a p b : 0 <= t -> 0 <= l -> 0 <= ld -> deploy l ld rd a p = Ret b -> history 0 t b
| history_step n t now b b' : history n t b -> t <= now -> step now b b' -> history n now b'
| history_write n t now b b' : history n t b -> t <= now -> raw_write b b' -> history (S n) now b'.

Lemma history_reachable n t b : history n t b -> n = 0%nat -> reachable t b.
Proof.
  induction 1 as [t l ld rd a p b H0 Hl Hd H|n t now b b' _ IH Hle Hs|]; intros Hn; [exact (reachable_deploy _ _ _ _ _ _ _ H0 Hl Hd H)| |done].
  eapply reachable_step; eauto.
Qed.

Lemma require_inv {A} c reason (k : unit -> outcome A) a :
  (require c reason ≫= k) = Ret a -> c = true /\ k tt = Ret a.
Proof. by destruct c. Qed.

Lemma pausable_inv {A} flag s b (k : unit -> outcome A) a : (pausable flag s b ≫= k) = Ret a -> k tt = Ret a.
Proof. intros H. by apply require_inv in H as [_ H]. Qed.

(** What a commit or a permitted replacement leaves. *)
Record committed (now : Z) (b b1 : NearBridge) : Prop := {
  cm_balances : balances b1 = balances b;
  cm_init : initialized b1 = initialized b;
  cm_lock : lockEthAmount b1 = lockEthAmount b;
  cm_duration : lockDuration b1 = lockDuration b;
  cm_height : curHeight b1 = currentHeight (bridgeState now b)
}.

Lemma commit_or_replace_inv now ts b b1 : commit_or_replace now ts b = Ret b1 -> committed now b b1.
Proof.
  unfold commit_or_replace. destruct (now <? lastValidAt b) eqn:E1.
  - intros H. apply require_inv in H as [_ H]. injection H as <-. split; try done. unfold bridgeState. by rewrite E1.
  - destruct (lastValidAt b =? 0) eqn:E2; intros [= <-]; split; try done; unfold bridgeState; by rewrite E1, E2.
Qed.

Record added (now : Z) (sender : string) (x : DecodedBlock) (b b' : NearBridge) : Prop := {
  ad_balances : balances b' = balances b;
  ad_init : initialized b' = initialized b;
  ad_lock : lockEthAmount b' = lockEthAmount b;
  ad_duration : lockDuration b' = lockDuration b;
  ad_height : curHeight b' = currentHeight (bridgeState now b);
  ad_higher : curHeight b' < height (inner_lite x);
  ad_head : untrustedHeight (head b') = height (inner_lite x);
  ad_sender : lastSubmitter b' = sender;
  ad_valid : lastValidAt b' = wrap256 (now + lockDuration b)
}.

Lemma addBlock_inv now sender x b b' : addBlock now sender x b = Ret b' -> added now sender x b b'.
Proof.
  unfold addBlock. intros H. apply outcome_bind_inv in H as (b1 & Hc & H).
  destruct (commit_or_replace_inv _ _ _ _ Hc) as [C1 C2 C3 C4 C5].
  apply require_inv in H as [Hh H]. zbool. apply outcome_bind_inv in H as (nx & _ & H).
  apply require_inv in H as [_ H]. apply require_inv in H as [_ H]. destruct nx.
  - destruct (next_bps x) as [[bps h]|]; [|done]. destruct (decide _) as [_|]; [|done].
    apply outcome_bind_inv in H as (e & _ & H). injection H as <-.
    split; cbn; try done; congruence.
  - injection H as <-. split; cbn; try done; congruence.
Qed.

Lemma addLightClientBlock_inv now sender data b b' :
  addLightClientBlock sha256 now sender data b = Ret b' ->
  initialized b = true /\ lockEthAmount b <= balanceOf b sender /\ exists x, added now sender x b b'.
Proof.
  unfold addLightClientBlock. intros H. apply pausable_inv in H. apply require_inv in H as [Hi H].
  apply require_inv in H as [Hb H]. apply outcome_bind_inv in H as ([x d] & _ & H).
  apply outcome_bind_inv in H as ([] & _ & H). zbool. split; [done|]. split; [done|].
  exists x. by apply addBlock_inv.
Qed.

Record bridge_inv (t : Z) (b : NearBridge) : Prop := {
  inv_time : 0 <= t;
  inv_duration : 0 <= lockDuration b < 2 ^ 255;
  inv_lock : 0 <= lockEthAmount b;
  inv_fresh : initialized b = false -> lastValidAt b = 0;
  inv_pending : lastValidAt b <> 0 -> curHeight b < untrustedHeight (head b);
  inv_stake : t < lastValidAt b -> lockEthAmount b <= balanceOf b (lastSubmitter b)
}.

Lemma bridge_inv_later t t' b : bridge_inv t b -> t <= t' -> bridge_inv t' b.
Proof. intros [H0 H1 H2 H3 H4 H5] Hle. split; try done; [lia|]. intros. apply H5. lia. Qed.

Lemma balanceOf_insert b s v a : balanceOf (set_balances (<[s := v]> (balances b)) b) a = if decide (s = a) then v else balanceOf b a.
Proof.
  unfold balanceOf. cbn. destruct (decide (s = a)) as [->|].
  - by rewrite lookup_insert_eq.
  - by rewrite lookup_insert_ne.
Qed.

Lemma deposit_inv s v b b' :
  deposit s v b = Ret b' -> v = lockEthAmount b /\ b' = set_balances (<[s := v]> (balances b)) b.
Proof.
  unfold deposit. intros H. apply pausable_inv in H. apply require_inv in H as [Hv H]. zbool. by injection H as <-.
Qed.

Lemma withdraw_inv now s b b' :
  withdraw now s b = Ret b' ->
  (s <> lastSubmitter b \/ lastValidAt b <= now) /\ b' = set_balances (<[s := 0]> (balances b)) b.
Proof.
  unfold withdraw. intros H. apply pausable_inv in H. apply require_inv in H as [Hs H].
  apply require_inv in H as [_ H]. injection H as <-. split; [|done].
  apply orb_true_iff in Hs as [Hs|Hs]; zbool; [left; by apply String.eqb_neq | by right].
Qed.

Lemma challenge_inv now s r i b b' :
  challenge ed25519_check now s r i b = Ret b' ->
  now < lastValidAt b /\ exists m, b' = set_lastValidAt 0 (set_balances m b).
Proof.
  unfold challenge. intros H. apply pausable_inv in H. apply require_inv in H as [Ht H].
  apply outcome_bind_inv in H as (ok & _ & H). apply require_inv in H as [_ H]. apply require_inv in H as [_ H].
  zbool. injection H as <-. eauto.
Qed.

Lemma initWithValidators_inv s d b b' :
  initWithValidators s d b = Ret b' -> initialized b = false /\ exists e, b' = set_epoch 0 e b.
Proof.
  unfold initWithValidators. intros H. apply require_inv in H as [_ H]. apply require_inv in H as [Hi H]. zbool.
  apply outcome_bind_inv in H as ([vs d'] & _ & H). apply outcome_bind_inv in H as ([] & _ & H).
  apply outcome_bind_inv in H as (e & _ & H). injection H as <-. eauto.
Qed.

Lemma initWithBlock_inv s d b b' :
  initWithBlock sha256 s d b = Ret b' ->
  initialized b = false /\ lastValidAt b' = lastValidAt b /\ lockDuration b' = lockDuration b /\
  lockEthAmount b' = lockEthAmount b /\ initialized b' = true.
Proof.
  unfold initWithBlock. intros H. apply require_inv in H as [_ H]. apply require_inv in H as [Hi H]. zbool.
  apply outcome_bind_inv in H as ([x d'] & _ & H). apply outcome_bind_inv in H as ([] & _ & H).
  destruct (next_bps x) as [[bps h]|]; [|done]. apply outcome_bind_inv in H as (e & _ & H). by injection H as <-.
Qed.

Lemma adminPause_inv s flags b b' : adminPause s flags b = Ret b' -> s = admin b /\ b' = set_paused flags b.
Proof. unfold adminPause. intros H. apply require_inv in H as [Hs H]. injection H as <-. split; [by apply String.eqb_eq | done]. Qed.

Lemma step_inv now b b' : bridge_inv now b -> step now b b' -> bridge_inv now b'.
Proof.
  intros [H0 Hd Hl Hf Hp Hs] [s v H|s H|s r i H|s d H|s d H|s d H|s f H].
  - apply deposit_inv in H as [-> ->]. split; try done. intros Ht. rewrite balanceOf_insert. case_decide; [cbn; lia | by apply Hs].
  - apply withdraw_inv in H as [Hw ->]. split; try done. intros Ht. rewrite balanceOf_insert. cbn in Ht |- *.
    case_decide; [subst; destruct Hw; [done | lia] | by apply Hs].
  - apply challenge_inv in H as (Ht & m & ->). split; try done. cbn. lia.
  - apply initWithValidators_inv in H as (_ & e & ->). by split.
  - apply initWithBlock_inv in H as (Hi & Hv & Hd' & Hl' & Hi'). rewrite (Hf Hi) in Hv.
    split; rewrite ?Hv, ?Hd', ?Hl'; try done. lia.
  - apply addLightClientBlock_inv in H as (Hi & Hb & x & [A1 A2 A3 A4 A5 A6 A7 A8 A9]).
    split; rewrite ?A2, ?A3, ?A4, ?A7, ?A8; try done; [by rewrite Hi|].
    intros _. unfold balanceOf in *. by rewrite A1.
  - apply adminPause_inv in H as [_ ->]. by split.
Qed.

Definition deployed (l ld rd : Z) (a : string) (p : Z) : NearBridge :=
  {| admin := a; paused := p; initialized := false; lockEthAmount := l; lockDuration := ld; replaceDuration := rd; epoch0 := no_epoch;
     epoch1 := no_epoch; epoch2 := no_epoch; curEpoch := 0; curHeight := 0; head := no_block; lastSubmitter := ""; lastValidAt := 0;
     blockHashes_ := ∅; blockMerkleRoots_ := ∅; balances := ∅ |}.

Lemma deploy_inv l ld rd a p b :
  deploy l ld rd a p = Ret b -> ld < 2 ^ 255 /\ ld * 1000000000 < rd /\ b = deployed l ld rd a p.
Proof.
  unfold deploy. intros H. apply require_inv in H as [Hm H]. apply require_inv in H as [Hr H]. injection H as <-. zbool.
  split; [|done]. change (2 ^ 256) with (2 * 2 ^ 255) in Hm. lia.
Qed.

Lemma reachable_inv t b : reachable t b -> bridge_inv t b.
Proof.
  induction 1 as [t l ld rd a p b H0 Hl Hd H|t now b b' _ IH Hle Hs].
  - apply deploy_inv in H as (Hs & _ & ->). split; cbn; try done; lia.
  - eapply step_inv; [|done]. by eapply bridge_inv_later.
Qed.

(** The confirmed height grows with time alone. *)
Lemma currentHeight_later t t' b :
  bridge_inv t b -> t <= t' -> currentHeight (bridgeState t b) <= currentHeight (bridgeState t' b).
Proof.
  intros [_ _ _ _ Hp _] Hle. unfold bridgeState.
  destruct (t <? lastValidAt b) eqn:E1, (t' <? lastValidAt b) eqn:E2; zbool; cbn; try lia;
    destruct (lastValidAt b =? 0) eqn:E3; zbool; try lia.
Qed.

(** ** Properties *)

(** The stake behind a pending block is never gone: in every reachable
    state a challenge during the challenge period does not fail for lack
    of the submitter's balance, since deposits, withdrawals and new blocks
    keep it locked. *)
Theorem challenge_covered t b now s r i :
  reachable t b -> t <= now ->
  challenge ed25519_check now s r i b <> Throw (Error "underflow").
Proof.
  intros Hr Hle. apply reachable_inv, (bridge_inv_later _ now) in Hr; [|done].
  unfold challenge, pausable, require. destruct (_ || _); [|done]. cbn.
  destruct (now <? lastValidAt b) eqn:Ht; [|done]. zbool. cbn.
  unfold checkBlockProducerSignatureInHead. destruct (untrustedSignatures (head b) !! i) as [[sig|]|]; try done. cbn.
  destruct (negb _); [|done]. cbn. pose proof (inv_stake _ _ Hr Ht).
  by rewrite (proj2 (Z.leb_le _ _)).
Qed.

(** C22: the confirmed height never decreases.  Take an initialized contract
    whose admin has never written its storage directly; whatever transaction
    but such a write comes next (deposit, withdrawal, challenge,
    initialization, new block, pause), and whenever the state is read after
    it, [bridgeState().currentHeight] is at least what it was before. *)
Theorem bridge_height_monotone t b now b' later :
  history 0 t b -> initialized b = true -> t <= now -> step now b b' -> now <= later ->
  currentHeight (bridgeState t b) <= currentHeight (bridgeState later b').
Proof.
  intros Hr Hi Hle Hs Hl. apply history_reachable in Hr; [|done]. apply reachable_inv in Hr. pose proof (bridge_inv_later _ now _ Hr Hle) as Hn.
  pose proof (step_inv _ _ _ Hn Hs) as Hn'.
  transitivity (currentHeight (bridgeState now b)); [by apply currentHeight_later|].
  transitivity (currentHeight (bridgeState now b')); [|by apply currentHeight_later].
  destruct Hs as [s v H|s H|s r i H|s d H|s d H|s d H|s f H].
  - by apply deposit_inv in H as [_ ->].
  - by apply withdraw_inv in H as [_ ->].
  - apply challenge_inv in H as (Ht & m & ->). unfold bridgeState. cbn [set_lastValidAt set_balances lastValidAt curHeight].
    rewrite (proj2 (Z.ltb_lt _ _) Ht). by destruct (now <? 0).
  - apply initWithValidators_inv in H as [H _]. congruence.
  - apply initWithBlock_inv in H as [H _]. congruence.
  - apply addLightClientBlock_inv in H as (_ & _ & x & [A1 A2 A3 A4 A5 A6 A7 A8 A9]).
    rewrite <- A5. unfold bridgeState. destruct (now <? lastValidAt b'); cbn; [lia|].
    destruct (lastValidAt b' =? 0); lia.
  - by apply adminPause_inv in H as [_ ->].
Qed.

End Reachable.

Section FromRelay.
Context {BN : BnLib} {BNok : BnLibOk} {B58 : Base58Lib} (sha256 : list Z -> list Z).

Lemma addLightClientBlock_bytes now sender b lb x bs :
  block_denotes sha256 lb x -> borshify lb = Ret bs -> initialized b = true -> lockEthAmount b <= balanceOf b sender ->
  Z.land (paused b) PAUSED_ADD_BLOCK = 0 -> addLightClientBlock sha256 now sender bs b = addBlock now sender x b.
Proof.
  intros Hx He Hi Hb Hp. destruct (borshify_parses sha256 lb x Hx) as (bs' & He' & HP). rewrite He in He'. apply Ret_inj in He' as <-.
  specialize (HP []). rewrite app_nil_r in HP. unfold addLightClientBlock, pausable.
  rewrite Hp, Hi, (proj2 (Z.leb_le _ _) Hb), HP. done.
Qed.

End FromRelay.

(** ** Witnesses *)

Module Witness.
Import Reference LightClientBlock.Witness.

Definition bytes_of (o : outcome (list Z)) : list Z := match o with Ret bs => bs | _ => [] end.

Definition state_of (o : outcome NearBridge) : NearBridge :=
  match o with
  | Ret b => b
  | _ => {| admin := ""; paused := 0; initialized := false; lockEthAmount := 0; lockDuration := 0;
            replaceDuration := 0; epoch0 := no_epoch; epoch1 := no_epoch; epoch2 := no_epoch; curEpoch := 0;
            curHeight := 0; head := no_block; lastSubmitter := ""; lastValidAt := 0; blockHashes_ := ∅;
            blockMerkleRoots_ := ∅; balances := ∅ |}
  end.

Definition validators : list NextBp := [validator (Some "V1") "node0" 7; validator None "node1.near" 5].

(** The block of LightClientBlock.v at another height, with both approvals. *)
Definition block_at (h : Z) : LightClientBlock :=
  {| lb_prev_block_hash := hash0; lb_next_block_inner_hash := hash0;
     lb_inner_lite := {| il_height := VNum h; il_epoch_id := hash0; il_next_epoch_id := hash0;
       il_prev_state_root := hash0; il_outcome_root := hash0; il_timestamp_nanosec := VUndef;
       il_timestamp := VNum (1600000000000000000 + h); il_next_bp_hash := hash0; il_block_merkle_root := hash0 |};
     lb_inner_rest_hash := hash0; lb_next_bps := Some validators;
     lb_approvals_after_next := [Some (key0 +:+ hash0); Some (key0 +:+ hash0)] |}.

Definition never (k : list Z) (s : Signature) (m : list Z) (h : Z) : bool := false.

Definition st0 : NearBridge := state_of (deploy 50 100 200000000000 "admin" 0).
Definition st1 : NearBridge := state_of (initWithValidators "admin" (bytes_of (borshifyInitialValidators validators)) st0).
Definition st2 : NearBridge := state_of (initWithBlock toy_hash "admin" (bytes_of (borshify (block_at 1000))) st1).
Definition st3 : NearBridge := state_of (deposit "relay" 50 st2).
Definition st4 : NearBridge := state_of (addLightClientBlock toy_hash 10 "relay" (bytes_of (borshify (block_at 1007))) st3).

Lemma history_st3 : history toy_hash never 0 10 st3.
Proof.
  apply (history_step _ _ 0 0 10 st2); [|lia|apply (step_deposit _ _ 10 _ _ "relay" 50); vm_compute; reflexivity].
  apply (history_step _ _ 0 0 0 st1); [|lia|apply (step_block _ _ 0 _ _ "admin" (bytes_of (borshify (block_at 1000)))); vm_compute; reflexivity].
  apply (history_step _ _ 0 0 0 st0); [|lia|apply (step_validators _ _ 0 _ _ "admin" (bytes_of (borshifyInitialValidators validators))); vm_compute; reflexivity].
  apply (history_deploy _ _ 0 50 100 200000000000 "admin" 0); [lia | lia | lia | vm_compute; reflexivity].
Qed.

Lemma reachable_st3 : reachable toy_hash never 10 st3.
Proof. exact (history_reachable _ _ 0 10 st3 history_st3 eq_refl). Qed.

Lemma step_st4 : step toy_hash never 10 st3 st4.
Proof. apply (step_add _ _ 10 _ _ "relay" (bytes_of (borshify (block_at 1007)))). vm_compute. reflexivity. Qed.

Lemma history_st4 : history toy_hash never 0 10 st4.
Proof. apply (history_step _ _ 0 10 10 st3); [exact history_st3 | lia | exact step_st4]. Qed.

Lemma reachable_st4 : reachable toy_hash never 10 st4.
Proof. apply (reachable_step _ _ 10 10 st3); [exact reachable_st3 | lia | exact step_st4]. Qed.

(** A pending block at height 1007 over the confirmed one at 1000. *)
Example st4_heights : (currentHeight (bridgeState 10 st4), currentHeight (bridgeState 110 st4)) = (1000, 1007).
Proof. vm_compute. reflexivity. Qed.

Lemma challenge_covered_witness :
  challenge never 50 "watchdog" "watchdog" 0 st4 <> Throw (Error "underflow").
Proof. apply (challenge_covered toy_hash never 10); [exact reachable_st4 | lia]. Defined.

Lemma bridge_height_monotone_witness :
  currentHeight (bridgeState 10 st3) <= currentHeight (bridgeState 110 st4).
Proof.
  apply (bridge_height_monotone toy_hash never 10 st3 10 st4 110);
    [exact history_st3 | vm_compute; reflexivity | lia | exact step_st4 | lia].
Defined.

End Witness.
