(* ===== verification/Finality.v ===== *)
(** * Finality of the NearBridge contract, and the prover on top of it

    What the views [blockHashes] and [blockMerkleRoots] of NearBridge.sol
    have once answered for a height they answer from then on, unless the
    admin writes the storage directly.  [Module NearProver] is the contract
    NearProver.sol with its constructor and its pausing, which asks such a
    view; an outcome it has accepted stays accepted. *)

From S2P Require Import Prelude Interfaces LightClientBlock OutcomeProof NearBridge.
Import Contract.

(** ** The prover contract *)

Module NearProver.

Record NearProver := { np_admin : string; np_paused : Z }.

(** The constructor; the bridge is an argument of [proveOutcome]. *)
Definition construct (admin : string) (pausedFlags : Z) : NearProver := {| np_admin := admin; np_paused := pausedFlags |}.

Definition PAUSED_VERIFY : Z := 1.

Definition pausable (flag : Z) (sender : string) (p : NearProver) : outcome unit :=
  require ((Z.land (np_paused p) flag =? 0) || String.eqb sender (np_admin p)) "".

Section Prove.
Context (sha256 : list Z -> list Z) (bridge_blockMerkleRoots : Z -> outcome (list Z)).

(** [proveOutcome] of a contract whose bridge answers
    [bridge_blockMerkleRoots], or reverts. *)
Definition proveOutcome (p : NearProver) (sender : string) (proofData : list Z) (blockHeight : Z) : outcome bool :=
  _ ← pausable PAUSED_VERIFY sender p;
  '(x, d) ← Prover.decodeFullOutcomeProof sha256 proofData;
  _ ← done_ok d;
  let hash := sha256 (Prover.contractComputeRoot sha256 (Prover.fp_outcome_hash x) (Prover.fp_proof x)) in
  let hash := Prover.contractComputeRoot sha256 hash (Prover.fp_outcome_root_proof x) in
  _ ← require (bool_decide (hash = outcome_root (Prover.hd_inner_lite (Prover.fp_header x)))) "NearProver: outcome merkle proof is not valid";
  expectedBlockMerkleRoot ← bridge_blockMerkleRoots blockHeight;
  _ ← require (bool_decide (Prover.contractComputeRoot sha256 (Prover.hd_hash (Prover.fp_header x)) (Prover.fp_block_proof x) =
        expectedBlockMerkleRoot)) "NearProver: block proof is not valid";
  Ret true.
End Prove.

(** The contract accepts exactly when it is not paused, its bridge answers
    and the pure check of OutcomeProof.v holds for the answer. *)
Lemma prover_accepts sha256 roots p sender data h :
  proveOutcome sha256 roots p sender data h = Ret true <->
  pausable PAUSED_VERIFY sender p = Ret tt /\ exists root, roots h = Ret root /\ Prover.proveOutcome sha256 (fun _ => root) data h = Ret true.
Proof.
  unfold proveOutcome, Prover.proveOutcome. destruct (pausable PAUSED_VERIFY sender p) as [[]|e|c|]; cbn [mbind outcome_bind]; try (split; [done | by intros [? _]]).
  destruct (Prover.decodeFullOutcomeProof sha256 data) as [[x d]|e|c|]; cbn [mbind outcome_bind]; try (split; [done | by intros (_ & ? & _ & ?)]).
  destruct (done_ok d) as [[]|e|c|]; cbn [mbind outcome_bind]; try (split; [done | by intros (_ & ? & _ & ?)]).
  cbv zeta. case_decide as E1; [rewrite bool_decide_eq_true_2 by done | rewrite bool_decide_eq_false_2 by done]; cbn [require mbind outcome_bind];
    [|split; [done | by intros (_ & ? & _ & ?)]].
  destruct (roots h) as [root|e|c|]; cbn [mbind outcome_bind]; try (split; [done | by intros (_ & ? & ? & _)]).
  split.
  - intros H. split; [done|]. exists root. split; [done|]. apply require_inv in H as [Hb _]. apply bool_decide_eq_true in Hb. by rewrite decide_True.
  - intros (_ & r & [= <-] & H). case_decide as E2; [|done]. by rewrite bool_decide_eq_true_2.
Qed.

End NearProver.

(** ** Later states *)

Section Final.
Context (sha256 : list Z -> list Z) (ed25519_check : list Z -> Signature -> list Z -> Z -> bool).

(** The contract and the time after more transactions, with the number of
    direct writes of the admin among them. *)
Inductive evolves : nat -> Z -> NearBridge -> Z -> NearBridge -> Prop :=
| evolves_wait t t' b : t <= t' -> evolves 0 t b t' b
| evolves_step n t b now b1 t' b' : t <= now -> step sha256 ed25519_check now b b1 -> evolves n now b1 t' b' -> evolves n t b t' b'
| evolves_write n t b now b1 t' b' : t <= now -> raw_write b b1 -> evolves n now b1 t' b' -> evolves (S n) t b t' b'.

(** Blocks are stored at heights up to the current one, once the contract is
    initialized. *)
Record stored_inv (b : NearBridge) : Prop := {
  si_hashes h : is_Some (blockHashes_ b !! h) -> initialized b = true /\ h <= curHeight b;
  si_roots h : is_Some (blockMerkleRoots_ b !! h) -> initialized b = true /\ h <= curHeight b
}.

(** What adding a block does to the stored ones: the head is committed when
    its time has come. *)
Lemma addBlock_commits now s x b b' : addBlock now s x b = Ret b' ->
  exists b1, (b1 = b /\ (now < lastValidAt b \/ lastValidAt b = 0) \/ b1 = commit b /\ lastValidAt b <= now /\ lastValidAt b <> 0) /\
    blockHashes_ b' = blockHashes_ b1 /\ blockMerkleRoots_ b' = blockMerkleRoots_ b1 /\ curHeight b' = curHeight b1.
Proof using.
  unfold addBlock. intros H. apply outcome_bind_inv in H as (b1 & Hc & H).
  assert (b1 = b /\ (now < lastValidAt b \/ lastValidAt b = 0) \/ b1 = commit b /\ lastValidAt b <= now /\ lastValidAt b <> 0) as Hb1.
  { unfold commit_or_replace in Hc. destruct (now <? lastValidAt b) eqn:E; [apply require_inv in Hc as [_ Hc] | destruct (lastValidAt b =? 0) eqn:E0];
      apply Ret_inj in Hc as <-; zbool; auto with lia. }
  exists b1. split; [exact Hb1|]. apply require_inv in H as [_ H]. apply outcome_bind_inv in H as (nx & _ & H).
  apply require_inv in H as [_ H]. apply require_inv in H as [_ H]. destruct nx; [|by apply Ret_inj in H as <-].
  destruct (next_bps x) as [[bps h]|]; [|done]. destruct (decide _); [|done]. by apply outcome_bind_inv in H as (? & _ & <-%Ret_inj).
Qed.

Lemma addLight_commits now s d b b' : addLightClientBlock sha256 now s d b = Ret b' -> initialized b = true /\ exists x, addBlock now s x b = Ret b'.
Proof using.
  unfold addLightClientBlock. intros H. apply pausable_inv in H. apply require_inv in H as [Hi H].
  apply require_inv in H as [_ H]. apply outcome_bind_inv in H as ([x d'] & _ & H). apply outcome_bind_inv in H as ([] & _ & H). eauto.
Qed.

Lemma initWithBlock_stores s d b b' : initWithBlock sha256 s d b = Ret b' ->
  exists x, blockHashes_ b' = <[height (inner_lite x) := LightClientBlock.Contract.hash x]> (blockHashes_ b) /\
    blockMerkleRoots_ b' = <[height (inner_lite x) := block_merkle_root (inner_lite x)]> (blockMerkleRoots_ b) /\ curHeight b' = height (inner_lite x).
Proof using.
  unfold initWithBlock. intros H. apply require_inv in H as [_ H]. apply require_inv in H as [_ H].
  apply outcome_bind_inv in H as ([x d'] & _ & H). apply outcome_bind_inv in H as ([] & _ & H).
  destruct (next_bps x) as [[bps h]|]; [|done]. apply outcome_bind_inv in H as (e & _ & <-%Ret_inj). by exists x.
Qed.

(** What a transaction does to the head and to the stored blocks. *)
Inductive effect (now : Z) (b b' : NearBridge) : Prop :=
| effect_none : blockHashes_ b' = blockHashes_ b -> blockMerkleRoots_ b' = blockMerkleRoots_ b -> curHeight b' = curHeight b ->
    initialized b' = initialized b -> head b' = head b -> lastValidAt b' = lastValidAt b -> effect now b b'
| effect_challenge : blockHashes_ b' = blockHashes_ b -> blockMerkleRoots_ b' = blockMerkleRoots_ b -> curHeight b' = curHeight b ->
    initialized b' = initialized b -> now < lastValidAt b -> effect now b b'
| effect_init h x y : initialized b = false -> initialized b' = true -> blockHashes_ b' = <[h := x]> (blockHashes_ b) ->
    blockMerkleRoots_ b' = <[h := y]> (blockMerkleRoots_ b) -> curHeight b' = h -> effect now b b'
| effect_add b1 : initialized b = true -> initialized b' = true ->
    (b1 = b /\ (now < lastValidAt b \/ lastValidAt b = 0) \/ b1 = commit b /\ lastValidAt b <= now /\ lastValidAt b <> 0) ->
    blockHashes_ b' = blockHashes_ b1 -> blockMerkleRoots_ b' = blockMerkleRoots_ b1 -> curHeight b' = curHeight b1 -> effect now b b'.

Lemma step_effect now b b' : step sha256 ed25519_check now b b' -> effect now b b'.
Proof using.
  intros [s v H|s H|s r i H|s d H|s d H|s d H|s f H].
  - apply deposit_inv in H as [_ ->]. by apply effect_none.
  - apply withdraw_inv in H as [_ ->]. by apply effect_none.
  - apply challenge_inv in H as (Ht & m & ->). by apply effect_challenge.
  - apply initWithValidators_inv in H as (_ & e & ->). by apply effect_none.
  - pose proof (initWithBlock_inv _ _ _ _ _ H) as (Hi & _ & _ & _ & Hi'). apply initWithBlock_stores in H as (x & Hh & Hm & Hc). by eapply effect_init.
  - pose proof (addLightClientBlock_inv _ _ _ _ _ _ H) as (_ & _ & y & Ha). apply addLight_commits in H as (Hi & x & H).
    apply addBlock_commits in H as (b1 & Hb & Hh & Hm & Hc). eapply effect_add; try done. by rewrite (ad_init _ _ _ _ _ Ha).
  - apply adminPause_inv in H as [_ ->]. by apply effect_none.
Qed.

Lemma insert_is_Some {A} (m : gmap Z A) k x h : is_Some (<[k := x]> m !! h) -> h = k \/ is_Some (m !! h).
Proof using. rewrite lookup_insert_is_Some. naive_solver. Qed.

Lemma stored_inv_step now b b' : bridge_inv now b -> stored_inv b -> step sha256 ed25519_check now b b' -> stored_inv b'.
Proof using.
  intros Hinv [Sh Sr] H%step_effect. pose proof (inv_pending _ _ Hinv) as Hp.
  destruct H as [Eh Er Ec Ei _ _|Eh Er Ec Ei _|k x y Hi Hi' Eh Er Ec|b1 Hi Hi' Hb Eh Er Ec]; split; intros h; rewrite ?Eh, ?Er, ?Ec, ?Ei; auto.
  1,2: intros [->|Hs]%insert_is_Some; [by split; [|lia] | apply Sh in Hs || apply Sr in Hs; destruct Hs; congruence].
  1,2: rewrite Hi'; destruct Hb as [[-> _]|(-> & Ht & H0)]; cbn [commit blockHashes_ blockMerkleRoots_ curHeight];
    [intros Hs; apply Sh in Hs || apply Sr in Hs; by destruct Hs|];
    specialize (Hp H0); intros [->|Hs]%insert_is_Some; [by split; [|lia] | apply Sh in Hs || apply Sr in Hs; split; [done|lia]].
Qed.

Lemma reachable_stored t b : reachable sha256 ed25519_check t b -> stored_inv b.
Proof using.
  induction 1 as [t l ld rd a p b _ _ _ H|t now b b' Hr IH Hle Hs].
  - apply deploy_inv in H as (_ & _ & ->). split; intros h; cbn; rewrite lookup_empty; by intros [? [=]].
  - eapply stored_inv_step; [|done..]. eapply bridge_inv_later; [by eapply reachable_inv | done].
Qed.

(** *** A confirmed value stays *)

(** The two tables of the contract with the pending value of each. *)
Record table := {
  entries : NearBridge -> gmap Z (list Z);
  pending : Untrusted -> list Z;
  commit_entries b : entries (commit b) = <[untrustedHeight (head b) := pending (head b)]> (entries b);
  table_eq b b' : blockHashes_ b' = blockHashes_ b -> blockMerkleRoots_ b' = blockMerkleRoots_ b -> entries b' = entries b;
  table_le b : stored_inv b -> forall h, is_Some (entries b !! h) -> initialized b = true /\ h <= curHeight b
}.

Definition hashes_table : table :=
  {| entries := blockHashes_; pending := untrustedHash; commit_entries b := eq_refl; table_eq b b' H _ := H; table_le b := si_hashes b |}.

Definition roots_table : table :=
  {| entries := blockMerkleRoots_; pending := untrustedMerkleRoot; commit_entries b := eq_refl; table_eq b b' _ H := H; table_le b := si_roots b |}.

Section Table.
Context (T : table).

Definition view_at (now h : Z) (b : NearBridge) : list Z := confirmed now h (default zero32 (entries T b !! h)) (pending T (head b)) b.

(** The value is stored, or it is the head's and its time has come. *)
Definition settled (now h : Z) (v : list Z) (b : NearBridge) : Prop :=
  entries T b !! h = Some v \/
  default zero32 (entries T b !! h) = zero32 /\ lastValidAt b <= now /\ lastValidAt b <> 0 /\ h = untrustedHeight (head b) /\ pending T (head b) = v.

Lemma look_settled now h b : view_at now h b <> zero32 -> settled now h (view_at now h b) b.
Proof using.
  unfold view_at, confirmed. destruct (bool_decide _ && _ && _ && _) eqn:E.
  - zbool. intros _. right. repeat match goal with H : bool_decide _ = true |- _ => apply bool_decide_eq_true in H end. auto.
  - intros Hne. left. by destruct (entries T b !! h).
Qed.

Lemma settled_look now h v b : settled now h v b -> v <> zero32 -> view_at now h b = v.
Proof using.
  unfold view_at, confirmed. intros [->|(E & Hle & H0 & -> & <-)] Hne.
  - cbn. by rewrite bool_decide_eq_false_2.
  - rewrite bool_decide_eq_true_2, (proj2 (Z.leb_le _ _) Hle), (proj2 (Z.eqb_neq _ _) H0), Z.eqb_refl by done. done.
Qed.

Lemma settled_later now now' h v b : settled now h v b -> now <= now' -> settled now' h v b.
Proof using. intros [?|(?&?&?&?&?)] Hle; [by left | right; split_and!; auto with lia]. Qed.

Lemma settled_step now h v b b' :
  bridge_inv now b -> stored_inv b -> step sha256 ed25519_check now b b' -> settled now h v b -> settled now h v b'.
Proof using.
  intros Hinv Hst H%step_effect Hs. pose proof (inv_pending _ _ Hinv) as Hp. pose proof (inv_fresh _ _ Hinv) as Hf. pose proof (table_le T b Hst) as Hle.
  assert (initialized b = false -> False) as Hinit.
  { intros Hi. destruct Hs as [Hs|(_ & _ & H0 & _)]; [destruct (Hle h) as [? _]; [by eexists | congruence] | auto]. }
  unfold settled in *. destruct H as [Eh Er Ec Ei Ehd El|Eh Er Ec Ei Ht|k x y Hi Hi' Eh Er Ec|b1 Hi Hi' Hb Eh Er Ec].
  - by rewrite (table_eq T b b' Eh Er), Ehd, El.
  - left. rewrite (table_eq T b b' Eh Er). destruct Hs as [Hs|(_ & ? & _)]; [done | lia].
  - by destruct Hinit.
  - left. rewrite (table_eq T b1 b' Eh Er). destruct Hb as [[-> Ht]|(-> & Ht & H0)].
    + destruct Hs as [Hs|(_ & ? & ? & _)]; [done | lia].
    + rewrite commit_entries. specialize (Hp H0). destruct Hs as [Hs|(_ & _ & _ & -> & <-)]; [|apply lookup_insert_eq].
      rewrite lookup_insert_ne; [done|]. destruct (Hle h) as [_ ?]; [by eexists | lia].
Qed.

Lemma settled_final t h v b t' b' :
  evolves 0 t b t' b' -> bridge_inv t b -> stored_inv b -> settled t h v b -> settled t' h v b'.
Proof using.
  remember 0%nat as n eqn:Hn. induction 1 as [t t' b Hle|n t b now b1 t' b' Hle Hs _ IH|]; intros Hi Hst Hv; [by eapply settled_later| |done].
  pose proof (bridge_inv_later _ now _ Hi Hle). apply IH; [done | by eapply step_inv | by eapply stored_inv_step |].
  eapply settled_step; [done..|]. by eapply settled_later.
Qed.

Lemma look_final t b t' b' h :
  reachable sha256 ed25519_check t b -> evolves 0 t b t' b' -> view_at t h b <> zero32 -> view_at t' h b' = view_at t h b.
Proof using.
  intros Hr He Hne. apply settled_look; [|done]. eapply settled_final; [done | by eapply reachable_inv | by eapply reachable_stored |].
  by apply look_settled.
Qed.
End Table.

Lemma view_inv flag s b v (x : list Z) : (_ ← NearBridge.pausable flag s b; Ret v) = Ret x -> v = x.
Proof using. intros H. apply pausable_inv in H. by apply Ret_inj in H. Qed.

(** C6: confirmed blocks are final.  Take a bridge contract whose admin has
    never written its storage directly ([adminSstore],
    [adminSstoreWithMask], [adminDelegatecall]).  Once [blockHashes] or
    [blockMerkleRoots] has answered a nonzero value for a height, then after
    any further transactions but such writes (deposits, withdrawals,
    challenges, new and replaced heads, initialization, pauses) and at any
    later time the view answers the same value, whenever it answers the
    asker at all. *)
Theorem confirmed_final t b t' b' h s s' :
  history sha256 ed25519_check 0 t b -> evolves 0 t b t' b' ->
  (forall v v', blockHashes t s h b = Ret v -> v <> zero32 -> blockHashes t' s' h b' = Ret v' -> v' = v) /\
  (forall v v', blockMerkleRoots t s h b = Ret v -> v <> zero32 -> blockMerkleRoots t' s' h b' = Ret v' -> v' = v).
Proof using.
  intros Hr He. apply history_reachable in Hr; [|done].
  split; intros v v' <-%view_inv Hne <-%view_inv; [by apply (look_final hashes_table) | by apply (look_final roots_table)].
Qed.

(** An outcome accepted by the prover contract stays provable after any
    further transactions of the bridge. *)
Lemma accepted_stays_accepted t t' b b' p p' prover s s' data h :
  reachable sha256 ed25519_check t b -> evolves 0 t b t' b' ->
  NearProver.proveOutcome sha256 (fun h => blockMerkleRoots t prover h b) p s data h = Ret true ->
  blockMerkleRoots t prover h b <> Ret zero32 ->
  NearProver.pausable NearProver.PAUSED_VERIFY s' p' = Ret tt -> NearBridge.pausable PAUSED_VERIFY prover b' = Ret tt ->
  NearProver.proveOutcome sha256 (fun h => blockMerkleRoots t' prover h b') p' s' data h = Ret true.
Proof using.
  intros Hr He Hp Hne Hs Hs'. apply NearProver.prover_accepts in Hp as (_ & root & Hroot & Hp). apply NearProver.prover_accepts.
  split; [done|]. exists root. split; [|done]. unfold blockMerkleRoots at 1. rewrite Hs'. cbn [mbind outcome_bind].
  pose proof Hroot as Hv%view_inv. rewrite Hroot in Hne. subst root. f_equal. apply (look_final roots_table); [done..|].
  intros E. apply Hne. f_equal. exact E.
Qed.

(** *** The head just added *)

Lemma addBlock_head now s x b b' : addBlock now s x b = Ret b' ->
  untrustedHash (head b') = LightClientBlock.Contract.hash x /\ untrustedMerkleRoot (head b') = block_merkle_root (inner_lite x).
Proof using.
  unfold addBlock. intros H. apply outcome_bind_inv in H as (b1 & _ & H). apply require_inv in H as [_ H].
  apply outcome_bind_inv in H as (nx & _ & H). apply require_inv in H as [_ H]. apply require_inv in H as [_ H].
  destruct nx; [|by apply Ret_inj in H as <-]. destruct (next_bps x) as [[bps h]|]; [|done]. destruct (decide _); [|done].
  by apply outcome_bind_inv in H as (? & _ & <-%Ret_inj).
Qed.

Lemma evolves_inv t b t' b' :
  evolves 0 t b t' b' -> bridge_inv t b -> stored_inv b -> bridge_inv t' b' /\ stored_inv b'.
Proof using.
  remember 0%nat as n eqn:Hn. induction 1 as [t t' b Hle|n t b now b1 t' b' Hle Hs _ IH|]; intros Hi Hst; [by split; [eapply bridge_inv_later|]| |done].
  pose proof (bridge_inv_later _ now _ Hi Hle). apply IH; [done | by eapply step_inv | by eapply stored_inv_step].
Qed.

(** When the challenge period of the head is over its root is the one the
    bridge answers. *)
Lemma head_settled t b : bridge_inv t b -> stored_inv b -> lastValidAt b <= t -> lastValidAt b <> 0 ->
  settled roots_table t (untrustedHeight (head b)) (untrustedMerkleRoot (head b)) b.
Proof using.
  intros Hi [_ Hr] Hle H0. right. cbn [roots_table entries pending]. split_and!; try done. pose proof (inv_pending _ _ Hi H0).
  destruct (blockMerkleRoots_ b !! untrustedHeight (head b)) eqn:E; [|done]. exfalso.
  destruct (Hr (untrustedHeight (head b))) as [_ ?]; [by eexists | lia].
Qed.
End Final.

(** ** From a NEAR block to an outcome accepted on Ethereum *)

Section Outcome.
Context {BN : BnLib} {BNok : BnLibOk} {B58 : Base58Lib}.
Context (sha256 : list Z -> list Z) (ed25519_check : list Z -> Signature -> list Z -> Z -> bool).

Lemma addLight_decoded now sender lb x bs b b1 :
  block_denotes sha256 lb x -> borshify lb = Ret bs -> addLightClientBlock sha256 now sender bs b = Ret b1 ->
  initialized b = true /\ addBlock now sender x b = Ret b1.
Proof.
  intros Hx He H. destruct (borshify_parses sha256 lb x Hx) as (bs' & He' & HP). rewrite He in He'. apply Ret_inj in He' as <-.
  specialize (HP []). rewrite app_nil_r in HP. unfold addLightClientBlock in H. apply pausable_inv in H.
  apply require_inv in H as [Hi H]. apply require_inv in H as [_ H]. by rewrite HP in H.
Qed.

Lemma valid_proof_accepted p x bs roots h :
  proof_denotes sha256 p x -> borshifyOutcomeProof p = Ret bs ->
  sha256 (Prover.contractComputeRoot sha256 (Prover.fp_outcome_hash x) (Prover.fp_proof x)) = outcome_root (Prover.hd_inner_lite (Prover.fp_header x)) ->
  Prover.contractComputeRoot sha256 (Prover.hd_hash (Prover.fp_header x)) (Prover.fp_block_proof x) = roots h ->
  Prover.proveOutcome sha256 roots bs h = Ret true.
Proof.
  intros H He Ho Hroot. destruct (outcome_proof_codes sha256 p x H) as (bs' & He' & Hp). rewrite He' in He. apply Ret_inj in He as <-.
  specialize (Hp []). rewrite app_nil_r in Hp. unfold Prover.proveOutcome. rewrite Hp. cbn [mbind outcome_bind done_ok].
  rewrite (pd_root_proof _ _ _ H). cbn [Prover.contractComputeRoot]. by rewrite !decide_True.
Qed.

(** C4: from NEAR to Ethereum, end to end.  Suppose the relay's transaction
    with the encoding of a NEAR block was accepted, by a contract with a
    positive lock duration at a time below 2^255, and the block was neither
    challenged nor replaced until its challenge period had passed.  Then
    after any further transactions of the bridge contract the encoding of
    every outcome proof without logs that leads, through valid paths, to
    the block's nonzero Merkle root is accepted by [proveOutcome] of the
    prover contract for the block's height, while neither the prover nor
    the bridge's view is paused for the one who asks it.  The transactions
    are all but direct storage writes of the admin ([adminSstore],
    [adminSstoreWithMask], [adminDelegatecall]), of which there must have
    been none. *)
Theorem near_outcome_accepted t b now sender lb x bs b1 t2 b2 t' b' p px pbs pr s prover :
  history sha256 ed25519_check 0 t b -> t <= now < 2 ^ 255 -> 0 < lockDuration b ->
  block_denotes sha256 lb x -> borshify lb = Ret bs -> addLightClientBlock sha256 now sender bs b = Ret b1 ->
  evolves sha256 ed25519_check 0 now b1 t2 b2 -> head b2 = head b1 -> lastValidAt b2 = lastValidAt b1 -> now + lockDuration b <= t2 ->
  evolves sha256 ed25519_check 0 t2 b2 t' b' ->
  proof_denotes sha256 p px -> borshifyOutcomeProof p = Ret pbs ->
  sha256 (Prover.contractComputeRoot sha256 (Prover.fp_outcome_hash px) (Prover.fp_proof px)) = outcome_root (Prover.hd_inner_lite (Prover.fp_header px)) ->
  Prover.contractComputeRoot sha256 (Prover.hd_hash (Prover.fp_header px)) (Prover.fp_block_proof px) = block_merkle_root (inner_lite x) ->
  block_merkle_root (inner_lite x) <> zero32 ->
  NearProver.pausable NearProver.PAUSED_VERIFY s pr = Ret tt -> NearBridge.pausable PAUSED_VERIFY prover b' = Ret tt ->
  NearProver.proveOutcome sha256 (fun h => blockMerkleRoots t' prover h b') pr s pbs (height (inner_lite x)) = Ret true.
Proof.
  intros Hr Hle Hd Hx He Ha Hev Hhd Hlv Ht2 Hev' Hp Hpe Ho Hroot Hne Hs Hs'. apply history_reachable in Hr; [|done].
  assert (reachable sha256 ed25519_check now b1) as Hr1 by (eapply reachable_step; [exact Hr | lia | by eapply step_add]).
  destruct (addLight_decoded _ _ _ _ _ _ _ Hx He Ha) as [Hi Hb]. pose proof (addBlock_head _ _ _ _ _ Hb) as [_ Hmr].
  apply addBlock_inv in Hb as [_ _ _ _ _ _ Hh _ Hv]. destruct (reachable_inv _ _ _ _ Hr) as [H0 [_ Hd'] _ _ _ _].
  rewrite wrap256_small in Hv by (change (2 ^ 256) with (2 * 2 ^ 255); lia).
  destruct (evolves_inv _ _ _ _ _ _ Hev (reachable_inv _ _ _ _ Hr1) (reachable_stored _ _ _ _ Hr1)) as [Hi2 Hst2].
  pose proof (head_settled t2 b2 Hi2 Hst2 ltac:(lia) ltac:(lia)) as Hset. rewrite Hhd, Hh, Hmr in Hset.
  eapply settled_final in Hset; [|done..]. apply NearProver.prover_accepts. split; [done|]. exists (block_merkle_root (inner_lite x)). split.
  - unfold blockMerkleRoots. rewrite Hs'. cbn [mbind outcome_bind]. f_equal. by apply (settled_look roots_table).
  - by eapply valid_proof_accepted.
Qed.
End Outcome.

(** ** Witnesses *)

Module Witness.
Import Reference LightClientBlock.Witness OutcomeProof.Witness NearBridge.Witness.

(** The head of [st4] after its challenge period, and a block on top of it. *)
Definition st5 : NearBridge := state_of (addLightClientBlock toy_hash 120 "relay" (bytes_of (borshify (block_at 1014))) st4).

Lemma evolves_st5 : evolves toy_hash never 0 110 st4 300 st5.
Proof.
  apply (evolves_step _ _ 0 110 st4 120 st5); [lia | | by apply evolves_wait].
  apply (step_add _ _ 120 _ _ "relay" (bytes_of (borshify (block_at 1014)))). vm_compute. reflexivity.
Qed.

Lemma history_110 : history toy_hash never 0 110 st4.
Proof.
  apply (history_step _ _ 0 10 110 st4); [exact history_st4 | lia|].
  apply (step_pause _ _ 110 _ _ "admin" 0). vm_compute. reflexivity.
Qed.

Lemma confirmed_final_witness :
  bytes_of (blockHashes 300 "y" 1007 st5) = bytes_of (blockHashes 110 "x" 1007 st4).
Proof.
  destruct (confirmed_final toy_hash never 110 st4 300 st5 1007 "x" "y") as [H _]; [exact history_110 | exact evolves_st5|].
  apply H; [vm_compute; reflexivity | vm_compute; discriminate | vm_compute; reflexivity].
Defined.

(** A direct write of the admin can change what was confirmed. *)
Example write_changes_confirmed :
  exists b', evolves toy_hash never 1 110 st4 300 b' /\ blockHashes 110 "x" 1007 st4 <> blockHashes 300 "x" 1007 b'.
Proof.
  exists (set_lastValidAt 0 st4). split; [|vm_compute; discriminate].
  apply (evolves_write _ _ 0 110 st4 120 (set_lastValidAt 0 st4)); [lia | | by apply evolves_wait].
  apply (raw_sstore _ _ (fun _ value b => set_lastValidAt value b) "admin" 25 0). vm_compute. reflexivity.
Qed.

(** A NEAR block whose Merkle root is the one the proof of OutcomeProof.v
    leads to. *)
Definition proven_lite (h : Z) : InnerLite :=
  {| il_height := VNum h; il_epoch_id := hash0; il_next_epoch_id := hash0; il_prev_state_root := hash0; il_outcome_root := hash0;
     il_timestamp_nanosec := VUndef; il_timestamp := VNum 1600000000000001007; il_next_bp_hash := hash0;
     il_block_merkle_root := bs58_encode block_root |}.

Definition proven_block : LightClientBlock :=
  {| lb_prev_block_hash := hash0; lb_next_block_inner_hash := hash0; lb_inner_lite := proven_lite 1007; lb_inner_rest_hash := hash0;
     lb_next_bps := Some validators; lb_approvals_after_next := [Some (key0 +:+ hash0); Some (key0 +:+ hash0)] |}.

Definition proven_header (ih : list Z) : BlockHeaderInnerLite :=
  {| height := 1007; epoch_id := zeros32; next_epoch_id := zeros32; prev_state_root := zeros32; outcome_root := zeros32;
     timestamp := 1600000000000001007; next_bp_hash := zeros32; block_merkle_root := block_root; inner_hash := ih |}.

Definition proven_decoded : DecodedBlock :=
  let hd := proven_header (toy_hash (inner_lite_bytes (proven_header []))) in
  let h := toy_hash (toy_hash (inner_hash hd ++ zeros32) ++ zeros32) in
  {| prev_block_hash := zeros32; next_block_inner_hash := zeros32; inner_lite := hd; inner_rest_hash := zeros32;
     next_bps := Some ([producer 7; producer 5], toy_hash validators_bytes);
     approvals_after_next := [Some {| sig_r := zeros32; sig_s := zeros32 |}; Some {| sig_r := zeros32; sig_s := zeros32 |}];
     hash := h; next_hash := toy_hash (zeros32 ++ h) |}.

Lemma proven_denotes : block_denotes toy_hash proven_block proven_decoded.
Proof.
  split; try exact hash0_denotes; cbn [proven_block proven_decoded lb_inner_lite inner_lite].
  - split; try exact hash0_denotes; denote.
  - exists validators, [producer 7; producer 5], validators_bytes. split; [reflexivity|]. split; [|denote].
    constructor; [apply validator_denotes; denote|]. constructor; [apply validator_denotes; denote|constructor].
  - constructor; [denote|]. constructor; [denote|constructor].
  - denote.
  - denote.
  - denote.
Qed.

Definition st4' : NearBridge := state_of (addLightClientBlock toy_hash 10 "relay" (bytes_of (borshify proven_block)) st3).
Definition st4'' : NearBridge := state_of (deposit "other" 50 st4').
Definition st5' : NearBridge := state_of (addLightClientBlock toy_hash 120 "relay" (bytes_of (borshify (block_at 1014))) st4'').

Lemma near_outcome_accepted_witness :
  NearProver.proveOutcome toy_hash (fun h => blockMerkleRoots 300 "prover" h st5') (NearProver.construct "admin" 0) "user"
    (bytes_of (borshifyOutcomeProof outcome_proof)) 1007 = Ret true.
Proof.
  apply (near_outcome_accepted toy_hash never 10 st3 10 "relay" proven_block proven_decoded (bytes_of (borshify proven_block)) st4' 110 st4'' 300 st5'
    outcome_proof full_proof).
  - exact history_st3.
  - lia.
  - vm_compute. reflexivity.
  - exact proven_denotes.
  - vm_compute. reflexivity.
  - vm_compute. reflexivity.
  - apply (evolves_step _ _ 0 10 st4' 60 st4''); [lia | | apply evolves_wait; lia].
    apply (step_deposit _ _ 60 _ _ "other" 50). vm_compute. reflexivity.
  - vm_compute. reflexivity.
  - vm_compute. reflexivity.
  - vm_compute. discriminate.
  - apply (evolves_step _ _ 0 110 st4'' 120 st5'); [lia | | apply evolves_wait; lia].
    apply (step_add _ _ 120 _ _ "relay" (bytes_of (borshify (block_at 1014)))). vm_compute. reflexivity.
  - exact proof_denotes_full.
  - vm_compute. reflexivity.
  - vm_compute. reflexivity.
  - vm_compute. reflexivity.
  - vm_compute. discriminate.
  - vm_compute. reflexivity.
  - vm_compute. reflexivity.
Defined.
End Witness.
