(* ===== verification/Solvency.v ===== *)
(** * The ether held by NearBridge.sol

    NearBridge.v follows the balances the contract records.  Here the
    ether of the contract itself is part of the state: deposits bring it,
    withdrawals and challenges pay it out with [transfer], which reverts
    when the contract has too little, and the admin can add and take ether
    (AdminControlled.sol). *)

From S2P Require Import Prelude Interfaces LightClientBlock NearBridge.
Import Contract.

(** The contract with its ether. *)
Record Account := { bridge : NearBridge; ether : Z }.

(** [receiver.transfer(amount)] *)
Definition transfer (amount : Z) (e : Z) : outcome Z :=
  _ ← require (amount <=? e) "transfer failed"; Ret (e - amount).

Definition pay_deposit (sender : string) (value : Z) (a : Account) : outcome Account :=
  b ← deposit sender value (bridge a); Ret {| bridge := b; ether := ether a + value |}.

Definition pay_withdraw (now : Z) (sender : string) (a : Account) : outcome Account :=
  let amount := balanceOf (bridge a) sender in
  b ← withdraw now sender (bridge a);
  e ← transfer amount (ether a);
  Ret {| bridge := b; ether := e |}.

Section Pay.
Context (sha256 : list Z -> list Z) (ed25519_check : list Z -> Signature -> list Z -> Z -> bool).

Definition pay_challenge (now : Z) (sender receiver : string) (signatureIndex : nat) (a : Account) : outcome Account :=
  b ← challenge ed25519_check now sender receiver signatureIndex (bridge a);
  e ← transfer (lockEthAmount (bridge a) / 2) (ether a);
  Ret {| bridge := b; ether := e |}.

Definition adminSendEth (sender : string) (amount : Z) (a : Account) : outcome Account :=
  _ ← require (String.eqb sender (admin (bridge a))) "";
  e ← transfer amount (ether a);
  Ret {| bridge := bridge a; ether := e |}.

Definition adminReceiveEth (sender : string) (value : Z) (a : Account) : outcome Account :=
  _ ← require (String.eqb sender (admin (bridge a))) "";
  Ret {| bridge := bridge a; ether := ether a + value |}.

(** [adminDelegatecall] with the ether it brings: the code of the admin's
    choice runs on the contract, storage and ether; it is the [target],
    whose failure reverts. *)
Definition pay_delegatecall (target : Account -> outcome Account) (sender : string) (value : Z) (a : Account) : outcome Account :=
  _ ← require (String.eqb sender (admin (bridge a))) "";
  target {| bridge := bridge a; ether := ether a + value |}.

(** The transactions but the direct writes, with what the admin has taken
    out so far. *)
Inductive pay_step (now : Z) (a : Account) (taken : Z) : Account -> Z -> Prop :=
| pay_dep s v a' : pay_deposit s v a = Ret a' -> pay_step now a taken a' taken
| pay_wd s a' : pay_withdraw now s a = Ret a' -> pay_step now a taken a' taken
| pay_ch s r i a' : pay_challenge now s r i a = Ret a' -> pay_step now a taken a' taken
| pay_validators s d b : initWithValidators s d (bridge a) = Ret b -> pay_step now a taken {| bridge := b; ether := ether a |} taken
| pay_block s d b : initWithBlock sha256 s d (bridge a) = Ret b -> pay_step now a taken {| bridge := b; ether := ether a |} taken
| pay_add s d b : addLightClientBlock sha256 now s d (bridge a) = Ret b -> pay_step now a taken {| bridge := b; ether := ether a |} taken
| pay_pause s f b : adminPause s f (bridge a) = Ret b -> pay_step now a taken {| bridge := b; ether := ether a |} taken
| pay_send s v a' : 0 <= v -> adminSendEth s v a = Ret a' -> pay_step now a taken a' (taken + v)
| pay_receive s v a' : 0 <= v -> adminReceiveEth s v a = Ret a' -> pay_step now a taken a' taken.

(** A direct write of the admin. *)
Inductive pay_write (a : Account) : Account -> Prop :=
| pay_sstore sstore s key value b : adminSstore sstore s key value (bridge a) = Ret b -> pay_write a {| bridge := b; ether := ether a |}
| pay_sstore_mask sload sstore s key value mask b :
    adminSstoreWithMask sload sstore s key value mask (bridge a) = Ret b -> pay_write a {| bridge := b; ether := ether a |}
| pay_delegate target s v a' : 0 <= v -> pay_delegatecall target s v a = Ret a' -> pay_write a a'.

(** The states after any transactions at all, with what the admin has taken
    out and the number of direct writes. *)
Inductive pay_reachable : Z -> Account -> Z -> nat -> Prop :=
| pay_deployed t l ld rd ad p b : 0 <= t -> 0 <= l -> 0 <= ld -> deploy l ld rd ad p = Ret b -> pay_reachable t {| bridge := b; ether := 0 |} 0 0
| pay_next t now a taken a' taken' n : pay_reachable t a taken n -> t <= now -> pay_step now a taken a' taken' -> pay_reachable now a' taken' n
| pay_written t now a taken a' n : pay_reachable t a taken n -> t <= now -> pay_write a a' -> pay_reachable now a' taken (S n).

(** ** The recorded balances *)

Definition total (m : gmap string Z) : Z := map_fold (fun _ v s => v + s) 0 m.

Lemma total_delete m k v : m !! k = Some v -> total m = v + total (delete k m).
Proof using. intros H. unfold total. apply (map_fold_delete_L (fun _ v s => v + s) 0 k v m); [|done]. intros; lia. Qed.

Lemma total_insert m k v : total (<[k := v]> m) = total m - default 0 (m !! k) + v.
Proof using.
  rewrite (total_delete _ k v) by apply lookup_insert_eq. rewrite delete_insert_eq. destruct (m !! k) as [u|] eqn:E; cbn [from_option id].
  - rewrite (total_delete m k u E). lia.
  - rewrite delete_id by done. lia.
Qed.

(** Every transaction keeps the recorded balances covered. *)
Record covered (t : Z) (a : Account) (taken : Z) : Prop := {
  cov_inv : bridge_inv t (bridge a);
  cov_total : total (balances (bridge a)) <= ether a + taken;
  cov_nonneg : forall s, 0 <= balanceOf (bridge a) s
}.

Lemma transfer_inv {A} v e (k : Z -> outcome A) x : (transfer v e ≫= k) = Ret x -> v <= e /\ k (e - v) = Ret x.
Proof using.
  unfold transfer. intros H. apply outcome_bind_inv in H as (e' & He & H). apply require_inv in He as [Hle He]. apply Ret_inj in He as <-. zbool. done.
Qed.

Lemma initWithBlock_balances s d b b' : initWithBlock sha256 s d b = Ret b' -> balances b' = balances b.
Proof using.
  unfold initWithBlock. intros H. apply require_inv in H as [_ H]. apply require_inv in H as [_ H].
  apply outcome_bind_inv in H as ([x d'] & _ & H). apply outcome_bind_inv in H as ([] & _ & H).
  destruct (next_bps x) as [[bps h]|]; [|done]. by apply outcome_bind_inv in H as (e & _ & <-%Ret_inj).
Qed.

Lemma challenge_balances now s r i b b' : challenge ed25519_check now s r i b = Ret b' ->
  lockEthAmount b <= balanceOf b (lastSubmitter b) /\
  balances b' = <[lastSubmitter b := balanceOf b (lastSubmitter b) - lockEthAmount b]> (balances b).
Proof using.
  unfold challenge. intros H. apply pausable_inv in H. apply require_inv in H as [_ H]. apply outcome_bind_inv in H as (ok & _ & H).
  apply require_inv in H as [_ H]. apply require_inv in H as [Hle H]. zbool. by apply Ret_inj in H as <-.
Qed.

(** Transactions that only change the rest of the contract. *)
Lemma covered_same now a taken b : covered now a taken -> step sha256 ed25519_check now (bridge a) b -> balances b = balances (bridge a) ->
  covered now {| bridge := b; ether := ether a |} taken.
Proof using.
  intros [Hi Ht Hn] Hs Hb. split; cbn; [by eapply step_inv | by rewrite Hb | intros s; unfold balanceOf; rewrite Hb; apply Hn].
Qed.

Lemma covered_insert now a taken b e s v :
  covered now a taken -> step sha256 ed25519_check now (bridge a) b -> balances b = <[s := v]> (balances (bridge a)) -> 0 <= v ->
  ether a - balanceOf (bridge a) s + v <= e -> covered now {| bridge := b; ether := e |} taken.
Proof using.
  intros [Hi Ht Hn] Hs Hb Hv He. split; cbn; [by eapply step_inv | |].
  - rewrite Hb, total_insert. fold (balanceOf (bridge a) s). lia.
  - intros s'. unfold balanceOf. rewrite Hb. destruct (decide (s = s')) as [->|Hne]; [by rewrite lookup_insert_eq | rewrite lookup_insert_ne by done; apply Hn].
Qed.

Lemma covered_step now a taken a' taken' : covered now a taken -> pay_step now a taken a' taken' -> covered now a' taken'.
Proof using.
  intros Hc [s v a1 H|s a1 H|s r i a1 H|s d b H|s d b H|s d b H|s f b H|s v a1 Hv H|s v a1 Hv H].
  - unfold pay_deposit in H. apply outcome_bind_inv in H as (b & Hd & <-%Ret_inj). pose proof (deposit_inv _ _ _ _ Hd) as [-> Hb].
    eapply covered_insert; [done | by eapply step_deposit | by rewrite Hb | apply (inv_lock _ _ (cov_inv _ _ _ Hc))|]. pose proof (cov_nonneg _ _ _ Hc s). lia.
  - unfold pay_withdraw in H. apply outcome_bind_inv in H as (b & Hw & H). apply transfer_inv in H as [_ <-%Ret_inj].
    pose proof (withdraw_inv _ _ _ _ Hw) as [_ Hb]. eapply covered_insert; [done | by eapply step_withdraw | by rewrite Hb | done | lia].
  - unfold pay_challenge in H. apply outcome_bind_inv in H as (b & Hch & H). apply transfer_inv in H as [_ <-%Ret_inj].
    pose proof (challenge_balances _ _ _ _ _ _ Hch) as [Hle Hb]. pose proof (inv_lock _ _ (cov_inv _ _ _ Hc)).
    eapply covered_insert; [done | by eapply step_challenge | exact Hb | lia|].
    pose proof (Z.div_le_upper_bound (lockEthAmount (bridge a)) 2 (lockEthAmount (bridge a))). lia.
  - eapply covered_same; [done | by eapply step_validators|]. by apply initWithValidators_inv in H as (_ & e & ->).
  - eapply covered_same; [done | by eapply step_block | by eapply initWithBlock_balances].
  - eapply covered_same; [done | by eapply step_add|]. apply addLightClientBlock_inv in H as (_ & _ & x & Ha). exact (ad_balances _ _ _ _ _ Ha).
  - eapply covered_same; [done | by eapply step_pause|]. by apply adminPause_inv in H as [_ ->].
  - unfold adminSendEth in H. apply require_inv in H as [_ H]. apply transfer_inv in H as [_ <-%Ret_inj]. destruct Hc. split; cbn; [done | lia | done].
  - unfold adminReceiveEth in H. apply require_inv in H as [_ <-%Ret_inj]. destruct Hc. split; cbn; [done | lia | done].
Qed.

Lemma reachable_covered t a taken n : pay_reachable t a taken n -> n = 0%nat -> covered t a taken.
Proof using.
  induction 1 as [t l ld rd ad p b H0 Hl Hd H|t now a taken a' taken' n _ IH Hle Hs|]; intros Hn; [| |done].
  - pose proof (reachable_inv sha256 ed25519_check t b (reachable_deploy _ _ _ _ _ _ _ _ _ H0 Hl Hd H)) as Hi.
    apply deploy_inv in H as (_ & _ & ->). split; [done | cbn; done | by intros s].
  - eapply covered_step; [|done]. destruct (IH Hn). split; [by eapply bridge_inv_later | done | done].
Qed.

Lemma total_ge m s : (forall s', 0 <= default 0 (m !! s')) -> default 0 (m !! s) <= total m.
Proof using.
  revert s. induction m as [|k v m Hk IH] using map_ind; intros s Hn; [by rewrite lookup_empty|]. rewrite total_insert, Hk. cbn [from_option id].
  assert (forall s', 0 <= default 0 (m !! s')) as Hn'.
  { intros s'. destruct (decide (k = s')) as [<-|Hne]; [by rewrite Hk | specialize (Hn s'); by rewrite lookup_insert_ne in Hn]. }
  destruct (decide (k = s)) as [<-|Hne]; [rewrite lookup_insert_eq; cbn; specialize (IH k Hn'); rewrite Hk in IH; cbn in IH; lia|].
  rewrite lookup_insert_ne by done. specialize (IH s Hn'). specialize (Hn k). rewrite lookup_insert_eq in Hn. cbn in Hn. lia.
Qed.

(** C14: the bridge contract is solvent.  In every state reached by deposits,
    withdrawals, challenges, initialization, blocks, pauses and ether the
    admin sends in, as long as the admin has taken no ether out
    ([adminSendEth]) and has not written the storage directly
    ([adminSstore], [adminSstoreWithMask], [adminDelegatecall]), neither a
    withdrawal nor the reward of a challenge fails because the contract has
    too little ether: the recorded balances are always covered. *)
Theorem bridge_solvent t a now s r i :
  pay_reachable t a 0 0 -> t <= now ->
  pay_withdraw now s a <> Throw (Error "transfer failed") /\ pay_challenge now s r i a <> Throw (Error "transfer failed").
Proof using.
  intros Hr Hle. destruct (reachable_covered _ _ _ _ Hr eq_refl) as [Hi Ht Hn].
  assert (forall s, balanceOf (bridge a) s <= ether a) as Hpay.
  { intros s'. pose proof (total_ge (balances (bridge a)) s' Hn). unfold balanceOf. lia. }
  split.
  - unfold pay_withdraw, transfer. rewrite (proj2 (Z.leb_le _ _) (Hpay s)). unfold withdraw, pausable, require. repeat (case_match; cbn; try done).
  - unfold pay_challenge. destruct (challenge _ _ _ _ _ _) as [b|e|c|] eqn:E; cbn [mbind outcome_bind]; try done.
    + pose proof (challenge_balances _ _ _ _ _ _ E) as [Hl _]. specialize (Hpay (lastSubmitter (bridge a))). pose proof (inv_lock _ _ Hi).
      pose proof (Z.div_le_upper_bound (lockEthAmount (bridge a)) 2 (lockEthAmount (bridge a))). unfold transfer. by rewrite (proj2 (Z.leb_le _ _)) by lia.
    + intros [= ->]. revert E. unfold challenge, checkBlockProducerSignatureInHead, pausable, require, revert. repeat (case_match; cbn; try done).
Qed.
End Pay.

(** ** Witnesses *)

Module Witness.
Import Reference LightClientBlock.Witness NearBridge.Witness.

Lemma pay_reachable_st4 : pay_reachable toy_hash never 10 {| bridge := st4; ether := 50 |} 0 0.
Proof.
  apply (pay_next _ _ 10 10 {| bridge := st3; ether := 50 |} 0); [|lia|
    apply (pay_add _ _ 10 {| bridge := st3; ether := 50 |} 0 "relay" (bytes_of (borshify (block_at 1007)))); vm_compute; reflexivity].
  apply (pay_next _ _ 0 10 {| bridge := st2; ether := 0 |} 0); [|lia|apply (pay_dep _ _ _ _ _ "relay" 50); vm_compute; reflexivity].
  apply (pay_next _ _ 0 0 {| bridge := st1; ether := 0 |} 0); [|lia|
    apply (pay_block _ _ 0 {| bridge := st1; ether := 0 |} 0 "admin" (bytes_of (borshify (block_at 1000)))); vm_compute; reflexivity].
  apply (pay_next _ _ 0 0 {| bridge := st0; ether := 0 |} 0); [|lia|
    apply (pay_validators _ _ 0 {| bridge := st0; ether := 0 |} 0 "admin" (bytes_of (borshifyInitialValidators validators))); vm_compute; reflexivity].
  apply (pay_deployed _ _ 0 50 100 200000000000 "admin" 0); [lia | lia | lia | vm_compute; reflexivity].
Qed.

Lemma bridge_solvent_witness :
  pay_withdraw 200 "relay" {| bridge := st4; ether := 50 |} <> Throw (Error "transfer failed") /\
  pay_challenge never 200 "relay" "watchdog" 0 {| bridge := st4; ether := 50 |} <> Throw (Error "transfer failed").
Proof. apply (bridge_solvent toy_hash never 10); [exact pay_reachable_st4 | lia]. Defined.

(** The challenger is paid half of the stake, which leaves the other half. *)
Example challenge_pays :
  match pay_challenge never 50 "watchdog" "watchdog" 0 {| bridge := st4; ether := 50 |} with
  | Ret a => (ether a, balanceOf (bridge a) "relay", lastValidAt (bridge a)) = (25, 0, 0)
  | _ => False
  end.
Proof. vm_compute. reflexivity. Qed.
End Witness.
