(* ===== verification/Near2EthRelay.v ===== *)
(** * The NEAR-to-Ethereum relay (near2eth/near2eth-block-relay/index.js)

    [Near2EthRelay.initialize] (its checks and transactions) and one round
    of the endless loop of [runInternal].  The client contract is a record
    of calls and sends; [Section AgainstContract] instantiates what the
    relay reads with the contract model of NearBridge.v. *)

From S2P Require Import Prelude Interfaces LightClientBlock Robust NearBridge.
Import Contract.

(** ** Services *)

(** What [bridgeState().call()] returns. *)
Record ChainState := { cs_currentHeight : Z; cs_nextTimestamp : Z; cs_nextValidAt : Z }.

Record EthClient (W : Type) := {
  ec_initialized : service W bool;
  ec_bridgeState : service W ChainState;
  ec_blockHashes : Z -> service W (list Z);
  ec_replaceDuration : service W Z;
  ec_lockEthAmount : service W Z;
  ec_balanceOf : service W Z;
  ec_getGasPrice : service W Z;
  ec_initWithValidators : list Z -> Z -> service W unit;
  ec_initWithBlock : list Z -> Z -> service W unit;
  ec_deposit : Z -> Z -> service W unit;
  ec_addLightClientBlock : list Z -> Z -> service W unit
}.

Arguments ec_initialized {W} _.
Arguments ec_bridgeState {W} _.
Arguments ec_blockHashes {W} _ _.
Arguments ec_replaceDuration {W} _.
Arguments ec_lockEthAmount {W} _.
Arguments ec_balanceOf {W} _.
Arguments ec_getGasPrice {W} _.
Arguments ec_initWithValidators {W} _ _ _.
Arguments ec_initWithBlock {W} _ _ _.
Arguments ec_deposit {W} _ _ _.
Arguments ec_addLightClientBlock {W} _ _ _.

(** The NEAR RPC; an empty answer is [None]. *)
Record NearRpc (W : Type) := {
  nr_latest_height : service W Z;
  nr_last_final_block : Z -> service W string;
  nr_validators_ordered : string -> service W (option (list NextBp));
  nr_next_light_client_block : string -> service W (option LightClientBlock)
}.

Arguments nr_latest_height {W} _.
Arguments nr_last_final_block {W} _ _.
Arguments nr_validators_ordered {W} _ _.
Arguments nr_next_light_client_block {W} _ _.

Definition underpriced (e : js_error) : bool := str_includes "replacement transaction underpriced" (err_message e).

Section Relay.
Context {W : Type} (client : EthClient W) (near : NearRpc W) (node : Web3Node W) (ethNodeUrl : string).
Context {BN : BnLib} {B58 : Base58Lib}.
Context (ethGasMultiplier : Z).

(** ** [initialize] *)

(** [while (lodash.isEmpty(lightClientBlock))] *)
Fixpoint await_final_block (fuel : nat) (hash : string) : eff W event (list NextBp * LightClientBlock) :=
  match fuel with
  | O => stuck
  | S fuel' =>
      validators ← perform (Call "EXPERIMENTAL_validators_ordered" [VStr hash]) (nr_validators_ordered near hash);
      match validators with
      | None => _ ← sleep (num_of_Z 300); await_final_block fuel' hash
      | Some vs =>
          block ← perform (Call "next_light_client_block" [VStr hash]) (nr_next_light_client_block near hash);
          match block with
          | None => _ ← sleep (num_of_Z 300); await_final_block fuel' hash
          | Some b => mret (vs, b)
          end
      end
  end.

Definition gas_price : eff W event Z :=
  p ← perform (Call "eth.getGasPrice" []) (ec_getGasPrice client); mret (p * ethGasMultiplier).

(** The loop that sends [initWithValidators]: the result is [err]. *)
Fixpoint send_validators (n : nat) (bytes : list Z) (gasPrice : Z) : eff W event (option js_error * Z) :=
  match n with
  | O => mret (None, gasPrice)
  | S n' =>
      r ← try_catch
            (_ ← perform (Call "initWithValidators" [VBytes bytes; VNum gasPrice])
                   (ec_initWithValidators client bytes gasPrice);
             mret None)
            (fun e => mret (Some e));
      match r with
      | Some e =>
          if underpriced e then send_validators n' bytes (Z.quot (gasPrice * 11) 10) else mret (Some e, gasPrice)
      | None => mret (None, gasPrice)
      end
  end.

(** The loop that sends [initWithBlock]; it asks for the gas price anew,
    so that the increased [gasPrice] is never used. *)
Fixpoint send_block (n : nat) (bytes : list Z) (gasPrice : Z) : eff W event (option js_error) :=
  match n with
  | O => mret None
  | S n' =>
      r ← try_catch
            (p ← gas_price;
             _ ← perform (Call "initWithBlock" [VBytes bytes; VNum p]) (ec_initWithBlock client bytes p);
             mret None)
            (fun e => mret (Some e));
      match r with
      | Some e => if underpriced e then send_block n' bytes (Z.quot (gasPrice * 11) 10) else mret (Some e)
      | None => mret None
      end
  end.

Definition init_contract (fuel : nat) : eff W event unit :=
  height ← perform (Call "status" []) (nr_latest_height near);
  lastFinalBlockHash ← perform (Call "block" [VNum height]) (nr_last_final_block near height);
  '(currentValidators, lightClientBlock) ← await_final_block fuel lastFinalBlockHash;
  borshInitialValidators ← lift (borshifyInitialValidators currentValidators);
  gasPrice ← gas_price;
  '(err, gasPrice) ← send_validators 10 borshInitialValidators gasPrice;
  match err with
  | Some _ => exit 1
  | None =>
      borshBlock ← lift (borshify lightClientBlock);
      err ← send_block 10 borshBlock gasPrice;
      match err with Some _ => exit 1 | None => mret tt end
  end.

Definition initialize (fuel : nat) : eff W event unit :=
  try_catch
    (isInitialized ← perform (Call "initialized" []) (ec_initialized client);
     if isInitialized : bool then mret tt else init_contract fuel)
    (fun _ => exit 1).

(** ** A round of [runInternal] *)

Record RelayOptions := {
  submitInvalidBlock : bool;
  minDelay : Z;
  maxDelay : Z;
  errorDelay : Z
}.

Context (options : RelayOptions).
(** [Math.floor(borshBlock.length * Math.random())] *)
Context (random_index : nat -> service W nat).

(** [borshBlock[i] += 1]: a Buffer keeps the value modulo 256. *)
Definition mutate (bs : list Z) (i : nat) : list Z :=
  match bs !! i with Some b => <[i := (b + 1) mod 256]> bs | None => bs end.

(** [replaceDelay], in nanoseconds; [undefined] when no block is pending. *)
Definition replaceDelay (state : ChainState) (replaceDuration lastTimestamp : Z) : option Z :=
  if cs_nextValidAt state =? 0 then None
  else Some (cs_nextTimestamp state + replaceDuration - lastTimestamp).

(** The two nested conditions of an update. *)
Definition should_submit (state : ChainState) (delay : option Z) (lastHeight : Z) : bool :=
  (cs_currentHeight state <? lastHeight) && match delay with None => true | Some d => d <=? 0 end.

(** [deposit()] when the balance is zero. *)
Definition ensure_deposit : eff W event unit :=
  lockEthAmount ← perform (Call "lockEthAmount" []) (ec_lockEthAmount client);
  balance ← perform (Call "balanceOf" []) (ec_balanceOf client);
  if balance =? 0 then
    p ← gas_price;
    perform (Call "deposit" [VNum lockEthAmount; VNum p]) (ec_deposit client lockEthAmount p)
  else mret tt.

Definition submit (lastBlock : LightClientBlock) : eff W event unit :=
  _ ← ensure_deposit;
  borshBlock ← lift (borshify lastBlock);
  bytes ← (if submitInvalidBlock options then i ← query (random_index (length borshBlock)); mret (mutate borshBlock i)
           else mret borshBlock);
  p ← gas_price;
  _ ← perform (Call "addLightClientBlock" [VBytes bytes; VNum p]) (ec_addLightClientBlock client bytes p);
  if submitInvalidBlock options then exit 0
  else sleep (num_of_Z 240000).

(** The delay of a round without an update, in seconds. *)
Definition sleep_delay (state : ChainState) (delay : option Z) (latestTimestamp : Z) : Z :=
  let d :=
    match delay with
    | None => maxDelay options
    | Some rd =>
        Z.min (Z.min (maxDelay options) (cs_nextValidAt state - latestTimestamp)) (Z.quot rd 1000000000)
    end in
  Z.max d (minDelay options).

Definition latest_timestamp : eff W event Z :=
  b ← getBlock ethNodeUrl node (VStr "latest");
  t ← lift (get_prop b "timestamp");
  mret (match t with VNum n => n | _ => 0 end).

(** The heights and timestamps of the RPC block as numbers. *)
Definition body : eff W event unit :=
  state ← perform (Call "bridgeState" []) (ec_bridgeState client);
  currentBlockHash ← perform (Call "blockHashes" [VNum (cs_currentHeight state)])
                       (ec_blockHashes client (cs_currentHeight state));
  last ← perform (Call "next_light_client_block" [VBytes currentBlockHash])
           (nr_next_light_client_block near (bs58_encode currentBlockHash));
  rd ← perform (Call "replaceDuration" []) (ec_replaceDuration client);
  lastBlock ← lift (match last with
                    | Some b => Ret b
                    | None => Throw (TypeError "Cannot read property 'timestamp' of undefined")
                    end);
  lastTimestamp ← (if cs_nextValidAt state =? 0 then mret 0
                   else lift (toBN (il_timestamp (lb_inner_lite lastBlock))));
  let delay := replaceDelay state rd lastTimestamp in
  lastHeight ← lift (toBN (il_height (lb_inner_lite lastBlock)));
  if should_submit state delay lastHeight then submit lastBlock
  else
    latest ← (match delay with None => mret 0 | Some _ => latest_timestamp end);
    _ ← emit (Call "client_height.set" [VNum (cs_currentHeight state)]);
    _ ← emit (Call "chain_height.set" [VNum lastHeight]);
    _ ← perform (Call "status" []) (nr_latest_height near);
    sleep (num_of_Z (1000 * sleep_delay state delay latest)).

Definition round : eff W event unit :=
  try_catch body (fun _ => sleep (num_of_Z (1000 * errorDelay options))).

(** [while (true)], after the two gauges were made. *)
Fixpoint rounds (fuel : nat) : eff W event unit :=
  match fuel with
  | O => stuck
  | S fuel' => _ ← round; rounds fuel'
  end.

Definition runInternal (fuel : nat) : eff W event unit :=
  _ ← emit (Call "gauge" [VStr "client_height"]);
  _ ← emit (Call "gauge" [VStr "chain_height"]);
  rounds fuel.

End Relay.

(** ** The class *)

Record RelayArgs := {
  ra_ethMasterSk : string;
  ra_ethClientArtifactPath : string;
  ra_ethClientAddress : string;
  ra_ethGasMultiplier : Z;
  near2ethRelayMinDelay : val;
  near2ethRelayMaxDelay : val;
  near2ethRelayErrorDelay : val
}.

(** The properties of the object that [initialize] sets. *)
Record Relay (W : Type) := { ethMasterAccount : string; clientContract : EthClient W }.

Arguments ethMasterAccount {W} _.
Arguments clientContract {W} _.

Section RelayClass.
Context {W : Type} (near : NearRpc W) (node : Web3Node W) (ethNodeUrl : string) {BN : BnLib} {B58 : Base58Lib}.
(** [new web3.eth.Contract(abi of the artifact, address, { from })], the key
    derivation, the transaction [withdraw()], [Number(option)] and the random
    position of an invalid block. *)
Context (newClient : string -> string -> string -> service W (EthClient W)).
Context (privateKeyToAccount : string -> outcome string) (send_withdraw : string -> Z -> service W unit).
Context (toNumber : val -> Z) (random_index : nat -> service W nat).

Definition relay_initialize (fuel : nat) (a : RelayArgs) : eff W event (Relay W) :=
  account ← lift (privateKeyToAccount (normalizeEthKey (ra_ethMasterSk a)));
  client ← query (newClient (ra_ethClientArtifactPath a) (ra_ethClientAddress a) account);
  _ ← initialize client near (ra_ethGasMultiplier a) fuel;
  mret {| ethMasterAccount := account; clientContract := client |}.

Definition relay_withdraw (relay : Relay W) (ethGasMultiplier : Z) : eff W event unit :=
  p ← gas_price (clientContract relay) ethGasMultiplier;
  perform (Call "withdraw" [VNum p]) (send_withdraw (ethMasterAccount relay) p).

Definition relay_options (submitInvalidBlock : bool) (a : RelayArgs) : RelayOptions := {|
  submitInvalidBlock := submitInvalidBlock;
  minDelay := toNumber (near2ethRelayMinDelay a);
  maxDelay := toNumber (near2ethRelayMaxDelay a);
  errorDelay := toNumber (near2ethRelayErrorDelay a)
|}.

Definition DANGERsubmitInvalidNearBlock (fuel : nat) (relay : Relay W) (a : RelayArgs) : eff W event unit :=
  runInternal (clientContract relay) near node ethNodeUrl (ra_ethGasMultiplier a) (relay_options true a) random_index fuel.

Definition relay_run (fuel : nat) (relay : Relay W) (a : RelayArgs) : eff W event unit :=
  runInternal (clientContract relay) near node ethNodeUrl (ra_ethGasMultiplier a) (relay_options false a) random_index fuel.

(** The foreground branch of the start command, and the command that
    submits an invalid block. *)
Definition StartNear2EthRelay_foreground (fuel : nat) (a : RelayArgs) : eff W event unit :=
  relay ← relay_initialize fuel a;
  relay_run fuel relay a.

Definition DangerSubmitInvalidNearBlock_execute (fuel : nat) (a : RelayArgs) : eff W event unit :=
  relay ← relay_initialize fuel a;
  DANGERsubmitInvalidNearBlock fuel relay a.

End RelayClass.

(** ** Lemmas *)

Section RelayLemmas.
Context {W : Type}.

(** Sends of new blocks. *)
Abbreviation submissions := (calls "addLightClientBlock").

Definition no_submission (w w' : W) (t : list event) : Prop := submissions t = 0%nat.

#[global] Instance no_submission_rel : TraceRel no_submission.
Proof.
  split; [done|]. unfold no_submission. intros w1 w2 w3 t1 t2 H1 H2. by rewrite calls_app, H1, H2.
Qed.

Context (client : EthClient W) (near : NearRpc W) (node : Web3Node W) (ethNodeUrl : string).
Context {BN : BnLib} {B58 : Base58Lib} (mult : Z) (options : RelayOptions) (random_index : nat -> service W nat).

Lemma gas_price_quiet : respects no_submission (gas_price client mult).
Proof. apply respects_bind; [apply _ | by apply respects_perform | auto with bridge]. Qed.

Lemma ensure_deposit_quiet : respects no_submission (ensure_deposit client mult).
Proof.
  unfold ensure_deposit. apply respects_bind; [apply _ | by apply respects_perform | intros l].
  apply respects_bind; [apply _ | by apply respects_perform | intros balance].
  destruct (balance =? 0); [|auto with bridge].
  apply respects_bind; [apply _ | apply gas_price_quiet | intros p]. by apply respects_perform.
Qed.

Lemma latest_timestamp_quiet : respects no_submission (latest_timestamp node ethNodeUrl).
Proof.
  apply respects_bind; [apply _ | | intros b; apply respects_bind; auto with bridge].
  apply backoff_respects; [apply _ | done|]. apply respects_try; [apply _ | | intros e].
  - apply respects_bind; [apply _ | by apply respects_perform | intros b; destruct b; auto with bridge].
  - destruct (not_open e); [|auto with bridge].
    apply respects_bind; [apply _ | by apply respects_emit | auto with bridge].
Qed.

Lemma perform_ran {A} e (op : service W A) w a :
  out_of (perform (E := event) e op w) = Ret a -> op w = (Ret a, world_of (perform (E := event) e op w)).
Proof. unfold perform. destruct (op w). cbn. by intros ->. Qed.

Lemma perform_out {A} e (op : service W A) w a : out_of (perform (E := event) e op w) = Ret a -> (op w).1 = Ret a.
Proof. unfold perform. by destruct (op w). Qed.

(** What [ensure_deposit] does from [w] to [w'] when the contract names the
    amount [lock] and the account has [balance] there: a deposit of [lock]
    that succeeded, unless the balance is not zero. *)
Definition funds (lock balance : Z) (w w' : W) (t : list event) : Prop :=
  if balance =? 0 then
    exists g w1, ec_getGasPrice client w = (Ret g, w1) /\ ec_deposit client lock (g * mult) w1 = (Ret tt, w') /\
      Call "deposit" [VNum lock; VNum (g * mult)] ∈ t
  else w' = w.

Lemma ensure_deposit_funds w w' t :
  ensure_deposit client mult w = (Ret tt, w', t) ->
  exists lock w1 balance w2, ec_lockEthAmount client w = (Ret lock, w1) /\ ec_balanceOf client w1 = (Ret balance, w2) /\
    funds lock balance w2 w' t.
Proof.
  unfold ensure_deposit. rewrite eff_bind_eq. unfold perform.
  destruct (ec_lockEthAmount client w) as [[l|e|c|] w1]; try done. rewrite eff_bind_eq.
  destruct (ec_balanceOf client w1) as [[n|e|c|] w2] eqn:Eb; try done. intros H. exists l, w1, n, w2. split_and!; [done..|].
  unfold funds. destruct (n =? 0) eqn:En; [|by injection H as <- <-]. revert H.
  rewrite eff_bind_eq. unfold gas_price. rewrite eff_bind_eq. unfold perform.
  destruct (ec_getGasPrice client w2) as [[p|e|c|] w3]; try done. cbn.
  destruct (ec_deposit client l (p * mult) w3) as [[[]|e|c|] w4] eqn:Ed; try done. intros [= <- <-].
  exists p, w3. rewrite Ed. split_and!; [done..|]. set_solver.
Qed.

(** [submits_at Q m w]: the run of [m] from [w] sends no block, or one and
    then its events satisfy [Q]. *)
Definition submits_at {A} (Q : list event -> Prop) (m : eff W event A) (w : W) : Prop :=
  submissions (trace_of (m w)) = 0%nat \/ (submissions (trace_of (m w)) = 1%nat /\ Q (trace_of (m w))).

Definition prefix_closed (Q : list event -> Prop) : Prop := forall t1 t2, Q t2 -> Q (t1 ++ t2)%list.

Lemma submits_bind {A B} Q (m : eff W event A) (k : A -> eff W event B) w :
  prefix_closed Q -> respects no_submission m ->
  (forall a, out_of (m w) = Ret a -> submits_at Q (k a) (world_of (m w))) -> submits_at Q (m ≫= k) w.
Proof.
  intros HQ Hm Hk. unfold submits_at. rewrite eff_bind_eq. specialize (Hm w). unfold no_submission in Hm.
  destruct (m w) as [[[a|e|c|] w1] t1]; cbn in Hm |- *; auto.
  specialize (Hk a eq_refl). unfold submits_at in Hk. cbn in Hk. rewrite calls_app, Hm.
  destruct Hk as [->|[-> Hk]]; auto.
Qed.

Lemma submits_quiet {A} Q (m : eff W event A) w : respects no_submission m -> submits_at Q m w.
Proof. intros Hm. left. apply Hm. Qed.

(** The submission of [lb] from [w]: the stake is there or is deposited
    first, then the encoding of [lb] is sent at the price of the node. *)
Definition sends_block (lb : LightClientBlock) (w : W) (t : list event) : Prop :=
  exists bs lock w1 balance w2 w3 g w4 before after,
    borshify lb = Ret bs /\
    ec_lockEthAmount client w = (Ret lock, w1) /\
    ec_balanceOf client w1 = (Ret balance, w2) /\
    funds lock balance w2 w3 before /\
    ec_getGasPrice client w3 = (Ret g, w4) /\
    t = (before ++ Call "addLightClientBlock" [VBytes bs; VNum (g * mult)] :: after)%list.

Lemma funds_app lock balance w w' t1 t2 t3 : funds lock balance w w' t2 -> funds lock balance w w' (t1 ++ t2 ++ t3)%list.
Proof. unfold funds. destruct (balance =? 0); [|done]. intros (g & w1 & H1 & H2 & H3). exists g, w1. split_and!; [done..|]. set_solver. Qed.

Lemma sends_block_app lb w t1 t2 t3 : sends_block lb w t2 -> sends_block lb w (t1 ++ t2 ++ t3)%list.
Proof.
  intros (bs & lock & w1 & bal & w2 & w3 & g & w4 & before & after & H1 & H2 & H3 & H4 & H5 & ->).
  exists bs, lock, w1, bal, w2, w3, g, w4, (t1 ++ before)%list, (after ++ t3)%list. split_and!; [done..| |done|].
  - pose proof (funds_app _ _ _ _ t1 _ [] H4) as H. by rewrite app_nil_r in H.
  - by rewrite <- !app_assoc.
Qed.

Lemma gas_price_run w p : out_of (gas_price client mult w) = Ret p -> exists g w', ec_getGasPrice client w = (Ret g, w') /\ p = g * mult.
Proof.
  unfold gas_price. rewrite eff_bind_eq. unfold perform. destruct (ec_getGasPrice client w) as [[g|e|c|] w']; try done. intros [= <-]. eauto.
Qed.

(** The part of the submission after the deposit. *)
Definition sends_bytes (lb : LightClientBlock) (w : W) (t : list event) : Prop :=
  exists bs g w' before after, borshify lb = Ret bs /\ ec_getGasPrice client w = (Ret g, w') /\
    t = (before ++ Call "addLightClientBlock" [VBytes bs; VNum (g * mult)] :: after)%list.

Lemma sends_bytes_prefix lb w : prefix_closed (sends_bytes lb w).
Proof.
  intros t1 t2 (bs & g & w' & before & after & H1 & H2 & ->). exists bs, g, w', (t1 ++ before)%list, after. by rewrite <- app_assoc.
Qed.

Lemma submit_spec lb w :
  submitInvalidBlock options = false ->
  submits_at (sends_block lb w) (submit client mult options random_index lb) w.
Proof.
  intros Hi. unfold submit, submits_at. rewrite Hi. cbv iota. rewrite eff_bind_eq.
  pose proof (ensure_deposit_quiet w) as Hq. unfold no_submission in Hq.
  destruct (ensure_deposit client mult w) as [[[[]|e|c|] w3] t1] eqn:Ed; cbn [out_of trace_of world_of fst snd] in Hq |- *; auto.
  destruct (ensure_deposit_funds _ _ _ Ed) as (lock & w1 & bal & w2 & H1 & H2 & H3). clear Ed.
  match goal with |- context [trace_of (?m w3)] => set (rest := m) end.
  enough (submits_at (sends_bytes lb w3) rest w3) as Hs.
  { unfold submits_at in Hs. rewrite calls_app, Hq. destruct Hs as [->|[-> (bs & g & w4 & before & after & Hb & Hg & ->)]]; [by left|].
    right. split; [done|]. exists bs, lock, w1, bal, w2, w3, g, w4, (t1 ++ before)%list, after. split_and!; try done; [|by rewrite <- app_assoc].
    exact (funds_app _ _ _ _ [] _ _ H3). }
  pose proof (sends_bytes_prefix lb w3) as Hp.
  unfold rest. apply submits_bind; [done | auto with bridge | intros bs Hbs]. cbn [world_of lift fst snd].
  apply submits_bind; [done | auto with bridge | intros ? [= <-]]. change (world_of (mret (M := eff W event) bs w3)) with w3.
  apply submits_bind; [done | apply gas_price_quiet | intros p Hg]. apply gas_price_run in Hg as (g & w4 & Hg & ->).
  right. rewrite eff_bind_eq. unfold perform. set (w5 := world_of _).
  destruct (ec_addLightClientBlock client bs (g * mult) w5) as [[[]|e|c|] w6]; cbn;
    (split; [done | exists bs, g, w4, []; eexists; split_and!; done]).
Qed.

(** A block is sent only for a state and a newer block that were read one
    after the other at the start of the round, the block being what NEAR
    answered for the contract's current block hash, and that passed the
    two conditions. *)
Definition justified (w : W) (t : list event) : Prop :=
  exists state w1 hash w2 lb w3 rd w4 h ts,
    ec_bridgeState client w = (Ret state, w1) /\
    ec_blockHashes client (cs_currentHeight state) w1 = (Ret hash, w2) /\
    nr_next_light_client_block near (bs58_encode hash) w2 = (Ret (Some lb), w3) /\
    ec_replaceDuration client w3 = (Ret rd, w4) /\
    toBN (il_height (lb_inner_lite lb)) = Ret h /\
    cs_currentHeight state < h /\
    (cs_nextValidAt state <> 0 ->
       toBN (il_timestamp (lb_inner_lite lb)) = Ret ts /\ cs_nextTimestamp state + rd <= ts) /\
    sends_block lb w4 t.

Lemma should_submit_inv state rd ts h :
  should_submit state (replaceDelay state rd ts) h = true ->
  cs_currentHeight state < h /\ (cs_nextValidAt state <> 0 -> cs_nextTimestamp state + rd <= ts).
Proof.
  unfold should_submit, replaceDelay. rewrite andb_true_iff, Z.ltb_lt. intros [Hh Hd]. split; [done|]. intros Hne.
  rewrite (proj2 (Z.eqb_neq _ _) Hne), Z.leb_le in Hd. lia.
Qed.

Lemma justified_app w t1 t2 t3 : justified w t2 -> justified w (t1 ++ t2 ++ t3)%list.
Proof.
  intros (st & w1 & hash & w2 & lb & w3 & rd & w4 & h & ts & H1 & H2 & H3 & H4 & H5 & H6 & H7 & H8).
  exists st, w1, hash, w2, lb, w3, rd, w4, h, ts. split_and!; try done. by apply sends_block_app.
Qed.

Lemma justified_prefix w : prefix_closed (justified w).
Proof. intros t1 t2 H. rewrite <- (app_nil_r t2). by apply justified_app. Qed.

Lemma body_spec w :
  submitInvalidBlock options = false ->
  submits_at (justified w) (body client near node ethNodeUrl mult options random_index) w.
Proof.
  intros Hi. pose proof (justified_prefix w) as Hp. unfold body.
  apply submits_bind; [done | by apply respects_perform | intros state Hst]. apply perform_ran in Hst.
  apply submits_bind; [done | by apply respects_perform | intros hash Hh0]. apply perform_ran in Hh0.
  apply submits_bind; [done | by apply respects_perform | intros last Hlast]. apply perform_ran in Hlast.
  apply submits_bind; [done | by apply respects_perform | intros rd Hrd]. apply perform_ran in Hrd.
  apply submits_bind; [done | auto with bridge | intros lb Hlb].
  destruct last as [lb'|]; [|done]. injection Hlb as ->.
  match type of Hrd with _ = (_, ?x) => set (w4 := x) in * end. cbn [world_of lift fst snd].
  apply submits_bind; [done | destruct (_ =? _); auto with bridge | intros ts Hts].
  match goal with |- submits_at _ _ ?x => replace x with w4 by (by destruct (cs_nextValidAt state =? 0)) end.
  apply submits_bind; [done | auto with bridge | intros h Hh]. cbn [world_of lift fst snd].
  destruct (should_submit _ _ _) eqn:Hs.
  - apply should_submit_inv in Hs as [Hlt Hrep].
    destruct (submit_spec lb w4 Hi) as [H|[H1 H2]]; [by left|]. right. split; [done|].
    exists state. eexists. exists hash. eexists. exists lb. eexists. exists rd, w4, h, ts. split_and!; [eassumption..|exact Hh|done| |done].
    intros Hne. split; [|by apply Hrep].
    destruct (Z.eqb_spec (cs_nextValidAt state) 0); [done|]. exact Hts.
  - apply submits_quiet. apply respects_bind; [apply _ | | intros latest].
    + destruct (replaceDelay _ _ _); [apply latest_timestamp_quiet | auto with bridge].
    + do 2 (apply respects_bind; [apply _ | by apply respects_emit | intros _]).
      apply respects_bind; [apply _ | by apply respects_perform | intros _; by apply respects_emit].
Qed.

Lemma round_spec w :
  submitInvalidBlock options = false ->
  submits_at (justified w) (round client near node ethNodeUrl mult options random_index) w.
Proof.
  intros Hi. destruct (body_spec w Hi) as [H|[H HJ]]; unfold submits_at, round, try_catch;
    destruct (body client near node ethNodeUrl mult options random_index w) as [[[[]|e|c|] w1] t1]; cbn in *; auto.
  - left. by rewrite calls_app, H.
  - right. rewrite calls_app, H. split; [done|]. apply (justified_app w [] t1). done.
Qed.

End RelayLemmas.

(** ** Properties *)

Section Properties.
Context {W : Type} (client : EthClient W) (near : NearRpc W) (node : Web3Node W) (ethNodeUrl : string).
Context {BN : BnLib} {B58 : Base58Lib} (mult : Z) (options : RelayOptions) (random_index : nat -> service W nat).

(** C13: a round of the honest relay sends at most one block.  If it sends
    one, it has read one after the other the contract's state, the hash of
    the contract's current block, NEAR's next block for that very hash and
    the replacement duration; the block is higher than the current one
    and, when a block is pending, new enough to replace it; the account's
    balance at the contract was not zero or a deposit of the lock amount
    has succeeded before; and the bytes sent are the Borsh encoding of
    that block, at the node's gas price times the multiplier. *)
Theorem round_submission w :
  submitInvalidBlock options = false ->
  let t := trace_of (round client near node ethNodeUrl mult options random_index w) in
  calls "addLightClientBlock" t = 0%nat \/
  (calls "addLightClientBlock" t = 1%nat /\ justified client near mult w t).
Proof. apply round_spec. Qed.

(** The pause of a round without an update is never shorter than the
    minimum and never longer than the maximum delay (or the minimum, if
    that is larger), so a pending block's deadline can only shorten it. *)
Theorem sleep_delay_bounds state delay latest :
  minDelay options <= sleep_delay options state delay latest <= Z.max (maxDelay options) (minDelay options).
Proof. unfold sleep_delay. destruct delay; lia. Qed.

End Properties.

Section AgainstContract.

(** What the relay reads from the contract at time [now]. *)
Definition chain_state (now : Z) (b : NearBridge) : ChainState :=
  {| cs_currentHeight := currentHeight (bridgeState now b); cs_nextTimestamp := nextTimestamp (bridgeState now b);
     cs_nextValidAt := nextValidAt (bridgeState now b) |}.

(** What [addBlock] says of the two rules. *)
Lemma addBlock_rules now sender x b :
  (addBlock now sender x b <> revert "Can only replace with a sufficiently newer block" /\
   addBlock now sender x b <> revert "New block must have higher height") <->
  exists b', commit_or_replace now (timestamp (inner_lite x)) b = Ret b' /\ curHeight b' < height (inner_lite x).
Proof.
  unfold addBlock. destruct (commit_or_replace now (timestamp (inner_lite x)) b) as [b'|e|c|] eqn:E; cbn [mbind outcome_bind].
  - destruct (curHeight b' <? height (inner_lite x)) eqn:Eh; zbool; cbn [require mbind outcome_bind].
    + split; [intros _; by exists b'|]. intros _. unfold require, setBlockProducers, require.
      split; repeat (case_match || case_decide; cbn; try done).
    + split; [by intros [_ []] | intros (b'' & [= <-] & ?); lia].
  - revert E. unfold commit_or_replace, require. repeat (case_match; cbn; try done). intros [= <-]. split; [by intros [[] _] | by intros (? & ? & _)].
  - revert E. unfold commit_or_replace, require. by repeat (case_match; cbn; try done).
  - revert E. unfold commit_or_replace, require. by repeat (case_match; cbn; try done).
Qed.

(** C32: the relay's condition is exactly the contract's.  For a block with
    height [h] and timestamp [ts], and a contract whose pending timestamp
    plus replacement duration fits in 256 bits, the relay decides to
    submit the block if and only if, at the same time, the contract's
    [addBlock] fails neither with the replacement rule ("Can only replace
    with a sufficiently newer block") nor with the height rule ("New block
    must have higher height"). *)
Theorem should_submit_iff_contract now b sender x :
  0 <= now -> 0 <= untrustedTimestamp (head b) + replaceDuration b < 2 ^ 256 ->
  should_submit (chain_state now b) (replaceDelay (chain_state now b) (replaceDuration b) (timestamp (inner_lite x)))
    (height (inner_lite x)) = true <->
  addBlock now sender x b <> revert "Can only replace with a sufficiently newer block" /\
  addBlock now sender x b <> revert "New block must have higher height".
Proof.
  intros Hn Hw. rewrite addBlock_rules. unfold should_submit, replaceDelay, chain_state, commit_or_replace, bridgeState.
  rewrite wrap256_small by done. cbn. destruct (now <? lastValidAt b) eqn:E1; zbool; cbn.
  - rewrite (proj2 (Z.eqb_neq (lastValidAt b) 0)) by lia. rewrite andb_true_iff, Z.ltb_lt, Z.leb_le.
    destruct (untrustedTimestamp (head b) + replaceDuration b <=? timestamp (inner_lite x)) eqn:E2; zbool; cbn.
    + split; [intros [? _]; by exists b | intros (b' & [= <-] & ?); lia].
    + split; [lia | intros (b' & H & _); discriminate].
  - rewrite andb_true_r, Z.ltb_lt. destruct (lastValidAt b =? 0) eqn:E2;
      (split; [intros ?; eexists; split; [reflexivity | done] | intros (b' & [= <-] & ?); done]).
Qed.

End AgainstContract.

(** ** Witnesses *)

Module Witness.
Import Reference LightClientBlock.Witness NearBridge.Witness.

(** A client contract at height 1000, read at a fixed time; the world
    counts the transactions it was sent. *)
Definition contract : EthClient Z := {|
  ec_initialized := fun w => (Ret true, w);
  ec_bridgeState := fun w => (Ret (chain_state 5 st3), w);
  ec_blockHashes := fun h w => (Ret (default [] (blockHashes_ st3 !! h)), w);
  ec_replaceDuration := fun w => (Ret (replaceDuration st3), w);
  ec_lockEthAmount := fun w => (Ret (lockEthAmount st3), w);
  ec_balanceOf := fun w => (Ret 0, w);
  ec_getGasPrice := fun w => (Ret 20, w);
  ec_initWithValidators := fun _ _ w => (Throw (Error "replacement transaction underpriced"), w + 1);
  ec_initWithBlock := fun _ _ w => (Throw (Error "replacement transaction underpriced"), w + 1);
  ec_deposit := fun _ _ w => (Ret tt, w + 1);
  ec_addLightClientBlock := fun _ _ w => (Ret tt, w + 1)
|}.

Definition rpc : NearRpc Z := {|
  nr_latest_height := fun w => (Ret 1010, w);
  nr_last_final_block := fun _ w => (Ret hash0, w);
  nr_validators_ordered := fun _ w => (Ret (Some validators), w);
  nr_next_light_client_block := fun _ w => (Ret (Some (block_at 1007)), w)
|}.

Definition eth : Web3Node Z := {|
  node_getBlockNumber := fun w => (Ret (VNum 5), w);
  node_getBlock := fun _ w => (Ret (VObj [("timestamp", VNum 5)]), w);
  node_getTransactionReceipt := fun _ w => (Ret VNull, w);
  node_getGasPrice := fun w => (Ret 1, w);
  node_getTransactionCount := fun _ w => (Ret 1, w);
  node_call := fun _ w => (Ret VUndef, w);
  node_sendTransaction := fun _ w => (None, w)
|}.

Definition opts : RelayOptions := {| submitInvalidBlock := false; minDelay := 1; maxDelay := 600; errorDelay := 1 |}.

Definition no_random (n : nat) (w : Z) : outcome nat * Z := (Ret 0%nat, w).

(** The round deposits and sends the block. *)
Example round_run :
  world_of (round contract rpc eth "ws" 1 opts no_random 0) = 2 /\
  calls "addLightClientBlock" (trace_of (round contract rpc eth "ws" 1 opts no_random 0)) = 1%nat.
Proof. split; vm_compute; reflexivity. Qed.

Lemma round_submission_witness :
  let t := trace_of (round contract rpc eth "ws" 1 opts no_random 0) in
  calls "addLightClientBlock" t = 0%nat \/ (calls "addLightClientBlock" t = 1%nat /\ justified contract rpc 1 0 t).
Proof. apply round_submission. reflexivity. Defined.

(** The decoded block of LightClientBlock.v against a pending block: too
    old to replace it. *)
Lemma should_submit_iff_contract_witness :
  should_submit (chain_state 50 st4) (replaceDelay (chain_state 50 st4) (replaceDuration st4) (timestamp (inner_lite decoded)))
    (height (inner_lite decoded)) = true <->
  addBlock 50 "relay" decoded st4 <> revert "Can only replace with a sufficiently newer block" /\
  addBlock 50 "relay" decoded st4 <> revert "New block must have higher height".
Proof. apply should_submit_iff_contract; [lia | vm_compute; split; [discriminate | reflexivity]]. Defined.

(** A client contract that is not initialized and whose node refuses every
    transaction as underpriced: the ten failures of each loop leave [err]
    undefined, and [initialize] returns as if the client were
    initialized. *)
Theorem initialize_ignores_underpriced :
  let run := initialize {|
      ec_initialized := fun w => (Ret false, w); ec_bridgeState := ec_bridgeState contract;
      ec_blockHashes := ec_blockHashes contract; ec_replaceDuration := ec_replaceDuration contract;
      ec_lockEthAmount := ec_lockEthAmount contract; ec_balanceOf := ec_balanceOf contract;
      ec_getGasPrice := ec_getGasPrice contract; ec_initWithValidators := ec_initWithValidators contract;
      ec_initWithBlock := ec_initWithBlock contract; ec_deposit := ec_deposit contract;
      ec_addLightClientBlock := ec_addLightClientBlock contract |} rpc 1 3 0 in
  out_of run = Ret tt /\ calls "initWithValidators" (trace_of run) = 10%nat /\
  calls "initWithBlock" (trace_of run) = 10%nat.
Proof. vm_compute. auto. Qed.

End Witness.
