(* ===== verification/RelaySystem.v ===== *)
(** * The relay and the contract together

    Near2EthRelay.v models the relay against any client contract,
    NearBridge.v the contract.  Here the relay runs against the contract:
    an interface ([ClientOk]) states that its requests read the contract at
    the time of the request and its transactions are executed by it, time
    passing in between.  Initialization leaves an initialized contract, and
    the endless loop carries the confirmed height to every block that NEAR
    keeps offering. *)

From S2P Require Import Prelude Interfaces LightClientBlock Robust NearBridge Near2EthRelay.
Import Contract.

(** ** Programs that return in a world with a property *)

Definition yields {W E A} (P : W -> Prop) (m : eff W E A) (Q : A -> W -> Prop) : Prop :=
  forall w, P w -> exists a w' t, m w = (Ret a, w', t) /\ Q a w'.

Section Yields.
Context {W E : Type}.
Implicit Types (P : W -> Prop).

Lemma yields_bind {A B} P (m : eff W E A) (k : A -> eff W E B) Q R :
  yields P m Q -> (forall a, yields (Q a) (k a) R) -> yields P (m ≫= k) R.
Proof.
  intros Hm Hk w Hw. destruct (Hm w Hw) as (a & w1 & t1 & E1 & HQ). destruct (Hk a w1 HQ) as (b & w2 & t2 & E2 & HR).
  exists b, w2, (t1 ++ t2)%list. split; [by eapply eff_bind_run | done].
Qed.

Lemma yields_fact {A} (F : Prop) P (m : eff W E A) Q : (F -> yields P m Q) -> yields (fun w => F /\ P w) m Q.
Proof. intros Hm w [HF Hw]. by apply Hm. Qed.

Lemma yields_mono {A} P (m : eff W E A) Q R : yields P m Q -> (forall a w, Q a w -> R a w) -> yields P m R.
Proof. intros Hm HR w Hw. destruct (Hm w Hw) as (a & w' & t & He & HQ). exists a, w', t. auto. Qed.

Lemma yields_ret {A} P (a : A) : yields (E := E) P (mret a) (fun b w => b = a /\ P w).
Proof. intros w Hw. by exists a, w, []. Qed.

Lemma yields_lift {A} P (o : outcome A) a : o = Ret a -> yields (E := E) P (lift o) (fun b w => b = a /\ P w).
Proof. intros -> w Hw. by exists a, w, []. Qed.

Lemma yields_emit P (e : E) : yields P (emit e) (fun _ w => P w).
Proof. intros w Hw. by exists tt, w, [e]. Qed.

Lemma yields_perform {A} P (e : E) (op : service W A) Q :
  (forall w, P w -> exists a w', op w = (Ret a, w') /\ Q a w') -> yields P (perform e op) Q.
Proof. intros Hop w Hw. destruct (Hop w Hw) as (a & w' & Ho & HQ). exists a, w', [e]. split; [by apply perform_run | done]. Qed.

Lemma yields_try {A} P (m : eff W E A) h Q : yields P m Q -> yields P (try_catch m h) Q.
Proof. intros Hm w Hw. destruct (Hm w Hw) as (a & w' & t & He & HQ). exists a, w', t. unfold try_catch. by rewrite He. Qed.

End Yields.

(** ** The interface *)

(** A world that holds the contract and the time of its chain. *)
Class BridgeWorld (W : Type) := { bridge : W -> NearBridge; clock : W -> Z }.

Section Interface.
Context {W : Type} {BWd : BridgeWorld W} (sha256 : list Z -> list Z).

(** Time passes, the contract stays. *)
Definition passes (w w' : W) : Prop := bridge w' = bridge w /\ clock w <= clock w'.

#[global] Instance passes_preorder : PreOrder passes.
Proof. split; [by split|]. intros w1 w2 w3 [H1 T1] [H2 T2]. split; [congruence | lia]. Qed.

Definition reads {A} (op : service W A) (f : Z -> NearBridge -> outcome A) : Prop :=
  forall w, exists w', op w = (f (clock w) (bridge w), w') /\ passes w w'.

(** A transaction is executed at some time between the request and the
    answer; when it reverts the request fails and the contract stays. *)
Definition transacts (op : service W unit) (f : Z -> NearBridge -> outcome NearBridge) : Prop :=
  forall w, exists w' t, clock w <= t <= clock w' /\
    match f t (bridge w) with
    | Ret b => op w = (Ret tt, w') /\ bridge w' = b
    | _ => (exists e, op w = (Throw e, w')) /\ bridge w' = bridge w
    end.

Class ClientOk (client : EthClient W) (sender : string) : Prop := {
  client_initialized : reads (ec_initialized client) (fun _ b => Ret (initialized b));
  client_bridgeState : reads (ec_bridgeState client) (fun now b => Ret (chain_state now b));
  client_blockHashes h : reads (ec_blockHashes client h) (fun now b => blockHashes now sender h b);
  client_replaceDuration : reads (ec_replaceDuration client) (fun _ b => Ret (replaceDuration b));
  client_lockEthAmount : reads (ec_lockEthAmount client) (fun _ b => Ret (lockEthAmount b));
  client_balanceOf : reads (ec_balanceOf client) (fun _ b => Ret (balanceOf b sender));
  client_getGasPrice w : exists p w', ec_getGasPrice client w = (Ret p, w') /\ passes w w';
  client_initWithValidators bs p : transacts (ec_initWithValidators client bs p) (fun _ b => initWithValidators sender bs b);
  client_initWithBlock bs p : transacts (ec_initWithBlock client bs p) (fun _ b => initWithBlock sha256 sender bs b);
  client_deposit v p : transacts (ec_deposit client v p) (fun _ b => deposit sender v b);
  client_addLightClientBlock bs p : transacts (ec_addLightClientBlock client bs p) (fun t b => addLightClientBlock sha256 t sender bs b)
}.

(** The contract is [b], at [t] or later. *)
Definition at_ (b : NearBridge) (t : Z) (w : W) : Prop := bridge w = b /\ t <= clock w.

Lemma at_passes b t w w' : at_ b t w -> passes w w' -> at_ b t w'.
Proof. intros [Hb Ht] [Hb' Ht']. split; [congruence | lia]. Qed.

Lemma yields_reads {A} b t (e : event) (op : service W A) f (P : A -> Prop) :
  reads op f -> (forall now, t <= now -> exists a, f now b = Ret a /\ P a) ->
  yields (at_ b t) (perform e op) (fun a w => P a /\ at_ b t w).
Proof.
  intros Hr Hf. apply yields_perform. intros w Hw. destruct (Hr w) as (w' & Ho & Hp). destruct Hw as [<- Ht].
  destruct (Hf (clock w) Ht) as (a & Ha & HP). exists a, w'. rewrite Ho, Ha. split; [done|]. split; [done|].
  eapply at_passes; [|exact Hp]. by split.
Qed.

Lemma yields_transacts b t (e : event) (op : service W unit) f :
  transacts op f -> (forall now, t <= now -> exists b', f now b = Ret b') ->
  yields (at_ b t) (perform e op) (fun _ w => exists now b', t <= now <= clock w /\ f now b = Ret b' /\ bridge w = b').
Proof.
  intros Hr Hf. apply yields_perform. intros w [<- Ht]. destruct (Hr w) as (w' & now & Hnow & Ho).
  destruct (Hf now) as [b' Hb']; [lia|]. rewrite Hb' in Ho. destruct Ho as [Ho Hb]. exists tt, w'. split; [exact Ho|].
  exists now, b'. split; [lia | done].
Qed.

End Interface.

(** ** What the contract accepts *)

Section Accepts.
Context (sender : string).

(** The contract with its head committed, once nothing is pending. *)
Definition settled (b : NearBridge) : NearBridge := if lastValidAt b =? 0 then b else commit b.

Definition quorum (e : Epoch) (x : DecodedBlock) : Prop :=
  (numBPs e <= length (approvals_after_next x))%nat /\ stakeThreshold e < votedFor (ep_stakes e) (approvals_after_next x).

(** A higher block of the current epoch, or of the next one with its block
    producers, approved by enough stake. *)
Record acceptable (b : NearBridge) (x : DecodedBlock) : Prop := {
  ac_height : curHeight b < height (inner_lite x);
  ac_epoch : (epoch_id (inner_lite x) = epochId (epoch b (curEpoch b)) /\ quorum (epoch b (curEpoch b)) x) \/
    (epoch_id (inner_lite x) <> epochId (epoch b (curEpoch b)) /\
     epoch_id (inner_lite x) = epochId (epoch b ((curEpoch b + 1) mod 3)) /\ quorum (epoch b ((curEpoch b + 1) mod 3)) x /\
     exists bps, next_bps x = Some (bps, next_bp_hash (inner_lite x)) /\ Z.of_nat (length bps) <= MAX_BLOCK_PRODUCERS)
}.

Lemma commit_settled now ts b : lastValidAt b <= now -> commit_or_replace now ts b = Ret (settled b).
Proof. intros Hn. unfold commit_or_replace, settled. rewrite (proj2 (Z.ltb_ge _ _) Hn). by destruct (lastValidAt b =? 0). Qed.

Lemma quorum_checks e x : quorum e x ->
  (numBPs e <=? length (approvals_after_next x))%nat = true /\
  (stakeThreshold e <? votedFor (ep_stakes e) (approvals_after_next x)) = true.
Proof. intros [H1 H2]. split; [by apply Nat.leb_le | by apply Z.ltb_lt]. Qed.

Lemma acceptable_adds now b x : lastValidAt b <= now -> acceptable (settled b) x -> exists b', addBlock now sender x b = Ret b'.
Proof.
  intros Hn [Hh He]. unfold addBlock. rewrite (commit_settled now _ b Hn). cbn [mbind outcome_bind]. unfold require at 1.
  rewrite (proj2 (Z.ltb_lt _ _) Hh). cbn [mbind outcome_bind].
  destruct He as [[He Hq]|(Hne & He & Hq & bps & Hb & Hl)]; destruct (quorum_checks _ _ Hq) as [Hq1 Hq2]; unfold require at 1 2.
  - rewrite decide_True by done. cbn [mbind outcome_bind]. rewrite Hq1, Hq2. cbn [mbind outcome_bind]. by eexists.
  - rewrite decide_False, decide_True by done. cbn [mbind outcome_bind]. rewrite Hq1, Hq2. cbn [mbind outcome_bind].
    rewrite Hb, decide_True by done. unfold setBlockProducers, require. rewrite (proj2 (Z.leb_le _ _) Hl). cbn [mbind outcome_bind]. by eexists.
Qed.

(** Deposits touch only the balances. *)
Lemma settled_balances m b : settled (set_balances m b) = set_balances m (settled b).
Proof. unfold settled. cbn. by destruct (lastValidAt b =? 0). Qed.

Lemma acceptable_balances m b x : acceptable b x -> acceptable (set_balances m b) x.
Proof. by intros [H1 H2]. Qed.

Lemma set_balances_same b : set_balances (balances b) b = b.
Proof. by destruct b. Qed.

(** A confirmed state stays as it is read. *)
Lemma chain_state_idle now b : lastValidAt b <= now ->
  chain_state now b = {| cs_currentHeight := curHeight (settled b); cs_nextTimestamp := 0; cs_nextValidAt := 0 |}.
Proof.
  intros Hn. unfold chain_state, bridgeState, settled. rewrite (proj2 (Z.ltb_ge _ _) Hn). by destruct (lastValidAt b =? 0).
Qed.

Lemma chain_state_pending now b : now < lastValidAt b ->
  chain_state now b = {| cs_currentHeight := curHeight b; cs_nextTimestamp := untrustedTimestamp (head b); cs_nextValidAt := lastValidAt b |}.
Proof. intros Hn. unfold chain_state, bridgeState. by rewrite (proj2 (Z.ltb_lt _ _) Hn). Qed.

Lemma blockHashes_idle now now' h b : lastValidAt b <= now -> lastValidAt b <= now' ->
  blockHashes now sender h b = blockHashes now' sender h b.
Proof. intros H1 H2. unfold blockHashes, confirmed. by rewrite (proj2 (Z.leb_le _ _) H1), (proj2 (Z.leb_le _ _) H2). Qed.

End Accepts.

(** ** A round against the contract *)

Section Rounds.
Context {W : Type} {BWd : BridgeWorld W} (sha256 : list Z -> list Z).
Context (client : EthClient W) (sender : string) {COk : ClientOk sha256 client sender}.
Context (near : NearRpc W) (node : Web3Node W) (url : string) {BN : BnLib} {BNok : BnLibOk} {B58 : Base58Lib}.
Context (mult : Z) (options : RelayOptions) (random_index : nat -> service W nat).

Abbreviation relay_round := (round client near node url mult options random_index).

(** The requests to the two nodes leave the contract alone. *)
Class NodesOk : Prop := {
  nodes_next h w : passes w (nr_next_light_client_block near h w).2;
  nodes_status w : passes w (nr_latest_height near w).2;
  nodes_getBlock v w : passes w (node_getBlock node v w).2
}.

(** What the loop keeps of the contract. *)
Record relay_inv (b : NearBridge) : Prop := {
  ri_initialized : initialized b = true;
  ri_paused : paused b = 0;
  ri_lock : 0 <= lockEthAmount b;
  ri_duration : 0 <= lockDuration b < 2 ^ 255;
  ri_balance : balanceOf b sender = 0 \/ lockEthAmount b <= balanceOf b sender;
  ri_pending : lastValidAt b <> 0 -> curHeight b < untrustedHeight (head b)
}.

Lemma unpaused flag b : paused b = 0 -> pausable flag sender b = Ret tt.
Proof using. intros Hp. unfold pausable. by rewrite Hp. Qed.

Lemma relay_inv_added now b x b' : relay_inv b -> lockEthAmount b <= balanceOf b sender ->
  addBlock now sender x b = Ret b' -> relay_inv b'.
Proof using.
  intros [H1 H2 H3 H4 H5 H6] Hb Ha. destruct (addBlock_inv _ _ _ _ _ Ha) as [A1 A2 A3 A4 A5 A6 A7 A8 A9].
  assert (Hbal : balanceOf b' sender = balanceOf b sender) by (unfold balanceOf; by rewrite A1).
  assert (Hp : paused b' = paused b).
  { revert Ha. unfold addBlock. intros Ha. apply outcome_bind_inv in Ha as (b1 & Hc & Ha).
    assert (Hp1 : paused b1 = paused b).
    { unfold commit_or_replace in Hc. destruct (now <? lastValidAt b); [apply require_inv in Hc as [_ Hc] | destruct (lastValidAt b =? 0)]; by injection Hc as <-. }
    apply require_inv in Ha as [_ Ha]. apply outcome_bind_inv in Ha as (nx & _ & Ha). apply require_inv in Ha as [_ Ha]. apply require_inv in Ha as [_ Ha].
    destruct nx; [|by injection Ha as <-]. destruct (next_bps x) as [[bps h]|]; [|done]. destruct (decide _) as [_|]; [|done].
    apply outcome_bind_inv in Ha as (e & _ & Ha). by injection Ha as <-. }
  split; rewrite ?A2, ?A3, ?A4, ?Hp, ?Hbal, ?A7; auto.
Qed.

Lemma gas_price_yields b t : yields (at_ b t) (gas_price client mult) (fun _ => at_ b t).
Proof using COk.
  unfold gas_price. apply (yields_bind _ _ _ (fun _ => at_ b t)).
  - apply yields_perform. intros w Hw. destruct (client_getGasPrice sha256 w) as (p & w' & Hp & Hpass). exists p, w'. split; [done|]. by eapply at_passes.
  - intros p. eapply yields_mono; [apply yields_ret | by intros q w [-> H]].
Qed.

(** The balances with the stake of the sender. *)
Definition staked (b : NearBridge) : gmap string Z :=
  if balanceOf b sender =? 0 then <[sender := lockEthAmount b]> (balances b) else balances b.

(** The deposit, if the account has none. *)
Lemma ensure_deposit_yields b t : relay_inv b ->
  yields (at_ b t) (ensure_deposit client mult)
    (fun _ w => at_ (set_balances (staked b) b) t w /\ relay_inv (set_balances (staked b) b) /\
       lockEthAmount b <= balanceOf (set_balances (staked b) b) sender).
Proof using COk.
  intros [H1 H2 H3 H4 H5 H6]. unfold ensure_deposit, staked.
  eapply yields_bind; [eapply (yields_reads b t _ _ _ (fun a => a = lockEthAmount b)); [exact (client_lockEthAmount sha256) | intros now _; by eexists]|].
  intros l. apply yields_fact. intros ->.
  eapply yields_bind; [eapply (yields_reads b t _ _ _ (fun a => a = balanceOf b sender)); [exact (client_balanceOf sha256) | intros now _; by eexists]|].
  intros bal. apply yields_fact. intros ->. destruct (Z.eqb_spec (balanceOf b sender) 0) as [E|E].
  - eapply (yields_bind _ _ _ (fun _ => at_ b t)).
    { apply gas_price_yields. }
    intros p. assert (Hd : deposit sender (lockEthAmount b) b = Ret (set_balances (<[sender := lockEthAmount b]> (balances b)) b)).
    { unfold deposit. rewrite (unpaused _ _ H2). cbn [mbind outcome_bind]. unfold require. by rewrite Z.eqb_refl, E. }
    eapply yields_mono; [eapply yields_transacts; [exact (client_deposit sha256 _ _) | intros now _; by eexists]|].
    intros u w (now & b' & Ht & Hb' & Hw). cbv beta in Hb'. rewrite Hd in Hb'. apply Ret_inj in Hb' as <-. split; [split; [exact Hw | lia]|].
    assert (Hbal : balanceOf (set_balances (<[sender := lockEthAmount b]> (balances b)) b) sender = lockEthAmount b) by (rewrite balanceOf_insert; by rewrite decide_True).
    rewrite Hbal. split; [split; cbn; auto | lia]. right. rewrite Hbal. cbn. lia.
  - eapply yields_mono; [apply yields_ret|]. intros u w [_ Hw]. rewrite set_balances_same. split; [exact Hw|].
    split; [by split | destruct H5; lia].
Qed.

(** The state a submission leaves: the block is added at a time between
    the request and the answer. *)
Definition submitted (b : NearBridge) (t : Z) (x : DecodedBlock) (w : W) : Prop :=
  exists now, t <= now <= clock w /\ addBlock now sender x (set_balances (staked b) b) = Ret (bridge w) /\ relay_inv (bridge w).

Lemma submit_yields b t lb x : submitInvalidBlock options = false ->
  relay_inv b -> lastValidAt b <= t -> block_denotes sha256 lb x -> acceptable (settled b) x ->
  yields (at_ b t) (submit client mult options random_index lb) (fun _ => submitted b t x).
Proof using COk BNok.
  intros Hi Hinv Ht Hx Ha. destruct (borshify_parses sha256 lb x Hx) as (bs & Hbs & _). unfold submit. rewrite Hi.
  eapply yields_bind; [by apply ensure_deposit_yields|]. set (m := staked b). intros _ w (Hw & Hm & Hbal). revert w Hw.
  change (yields (at_ (set_balances m b) t) (lift (borshify lb) ≫= fun borshBlock => mret borshBlock ≫= fun bytes => gas_price client mult ≫= fun p =>
    perform (Call "addLightClientBlock" [VBytes bytes; VNum p]) (ec_addLightClientBlock client bytes p) ≫= fun _ => sleep (num_of_Z 240000)) (fun _ => submitted b t x)).
  assert (Hacc : forall now, t <= now -> exists b', addLightClientBlock sha256 now sender bs (set_balances m b) = Ret b').
  { intros now Hn. rewrite (addLightClientBlock_bytes sha256 now sender _ lb x bs Hx Hbs); [|apply Hm | exact Hbal | by rewrite (ri_paused _ Hm)].
    apply acceptable_adds; [cbn; lia|]. rewrite settled_balances. by apply acceptable_balances. }
  eapply yields_bind; [by apply yields_lift|]. intros bs'. apply yields_fact. intros ->.
  eapply yields_bind; [apply yields_ret|]. intros bs'. apply yields_fact. intros ->.
  eapply yields_bind; [apply gas_price_yields|]. intros p.
  eapply yields_bind; [eapply yields_transacts; [exact (client_addLightClientBlock sha256 bs p) | exact Hacc]|].
  intros u. eapply yields_mono; [apply yields_emit|]. intros v w (now & b' & Hnow & Hb' & Hw). exists now. split; [done|].
  rewrite (addLightClientBlock_bytes sha256 now sender _ lb x bs Hx Hbs) in Hb'; [|apply Hm | exact Hbal | by rewrite (ri_paused _ Hm)].
  rewrite Hw. split; [exact Hb'|]. by eapply relay_inv_added.
Qed.

Lemma round_idle b t hash lb x : submitInvalidBlock options = false ->
  relay_inv b -> lastValidAt b <= t -> blockHashes t sender (curHeight (settled b)) b = Ret hash ->
  (forall w, at_ b t w -> exists w', nr_next_light_client_block near (bs58_encode hash) w = (Ret (Some lb), w') /\ passes w w') ->
  block_denotes sha256 lb x -> acceptable (settled b) x ->
  yields (at_ b t) relay_round (fun _ => submitted b t x).
Proof using COk BNok.
  intros Hi Hinv Ht Hh Hnext Hx Ha. unfold round. apply yields_try. unfold body.
  set (st := {| cs_currentHeight := curHeight (settled b); cs_nextTimestamp := 0; cs_nextValidAt := 0 |}).
  eapply yields_bind; [eapply (yields_reads b t _ _ _ (fun a => a = st)); [exact (client_bridgeState sha256)|]|].
  { intros now Hn. eexists. split; [reflexivity|]. apply chain_state_idle. lia. }
  intros a. apply yields_fact. intros ->. subst st. cbn [cs_currentHeight].
  eapply yields_bind; [eapply (yields_reads b t _ _ _ (fun a => a = hash)); [exact (client_blockHashes sha256 _)|]|].
  { intros now Hn. exists hash. split; [|done]. rewrite <- Hh. apply blockHashes_idle; lia. }
  intros a. apply yields_fact. intros ->.
  eapply (yields_bind _ _ _ (fun a w => a = Some lb /\ at_ b t w)).
  { apply yields_perform. intros w Hw. destruct (Hnext w Hw) as (w' & Ho & Hp). exists (Some lb), w'. split; [done|]. split; [done|]. by eapply at_passes. }
  intros a. apply yields_fact. intros ->.
  eapply yields_bind; [eapply (yields_reads b t _ _ _ (fun a => True)); [exact (client_replaceDuration sha256) | intros now _; by eexists]|].
  intros rd. apply yields_fact. intros _.
  eapply yields_bind; [by apply yields_lift|]. intros a. apply yields_fact. intros ->. cbn [cs_nextValidAt Z.eqb].
  eapply yields_bind; [apply yields_ret|]. intros a. apply yields_fact. intros ->. cbv zeta.
  destruct (ild_height _ _ _ (bd_inner _ _ _ Hx)) as [Hheight _].
  eapply yields_bind; [apply yields_lift, Hheight|]. intros a. apply yields_fact. intros ->.
  match goal with |- yields _ (if ?c then _ else _) _ => assert (Hs : c = true) end; [|rewrite Hs; by eapply submit_yields].
  unfold should_submit. cbn. by rewrite (proj2 (Z.ltb_lt _ _) (ac_height _ _ Ha)).
Qed.

(** ** While a block is pending *)

(** Time passes and nothing is sent to the contract. *)
Definition keeps (w w' : W) (t : list event) : Prop :=
  passes w w' /\ calls "addLightClientBlock" t = 0%nat /\ calls "deposit" t = 0%nat.

#[local] Instance keeps_rel : TraceRel keeps.
Proof.
  split; [by intros w|]. unfold keeps. intros w1 w2 w3 t1 t2 (P1 & A1 & D1) (P2 & A2 & D2).
  rewrite !calls_app, A1, A2, D1, D2. split; [by etrans | done].
Qed.

Definition keeps_at {A} (m : eff W event A) (w : W) : Prop := keeps w (world_of (m w)) (trace_of (m w)).

Lemma keeps_bind {A B} (m : eff W event A) (k : A -> eff W event B) w :
  keeps_at m w -> (forall a, out_of (m w) = Ret a -> keeps_at (k a) (world_of (m w))) -> keeps_at (m ≫= k) w.
Proof using.
  intros Hm Hk. unfold keeps_at in *. rewrite eff_bind_eq. destruct (m w) as [[[a|e|c|] w1] t1]; try exact Hm. specialize (Hk a eq_refl). cbn in Hm, Hk |- *.
  by eapply trace_rel_app.
Qed.

Lemma keeps_perform {A} name args (op : service W A) :
  (forall w, passes w (op w).2) -> String.eqb name "addLightClientBlock" = false -> String.eqb name "deposit" = false -> respects keeps (perform (Call name args) op).
Proof using. intros H H1 H2. apply respects_perform. intros w. split; [apply H|]. unfold calls. cbn. by rewrite H1, H2. Qed.

Lemma reads_passes {A} (op : service W A) f w : reads op f -> passes w (op w).2 /\ (op w).1 = f (clock w) (bridge w).
Proof using. intros H. destruct (H w) as (w' & -> & Hp). done. Qed.

Lemma perform_world {A} (e : event) (op : service W A) w : world_of (perform e op w) = (op w).2.
Proof using. unfold perform. by destruct (op w). Qed.

Lemma quiet_rest st delay h : NodesOk ->
  respects keeps (latest ← match delay with None => mret 0 | Some _ => latest_timestamp node url end;
    _ ← emit (Call "client_height.set" [VNum (cs_currentHeight st)]);
    _ ← emit (Call "chain_height.set" [VNum h]);
    _ ← perform (Call "status" []) (nr_latest_height near);
    sleep (num_of_Z (1000 * sleep_delay options st delay latest))).
Proof using.
  intros HN. apply respects_bind; [apply _ | | intros latest].
  - destruct delay; [|apply respects_ret, _]. unfold latest_timestamp. apply respects_bind; [apply _ | | intros v; apply respects_bind; auto with bridge].
    unfold getBlock. apply backoff_respects; [apply _ | by intros ms w'|]. apply respects_try; [apply _ | | intros e].
    + apply respects_bind; [apply _ | apply keeps_perform; [intros w'; apply nodes_getBlock | done..] | intros v; destruct v; auto with bridge].
    + destruct (not_open e); [|auto with bridge]. apply respects_bind; [apply _ | by apply respects_emit | auto with bridge].
  - do 2 (apply respects_bind; [apply _ | by apply respects_emit | intros _]).
    apply respects_bind; [apply _ | apply keeps_perform; [apply nodes_status | done..] | intros _; by apply respects_emit].
Qed.

Lemma keeps_request {A} name args (op : service W A) w :
  passes w (op w).2 -> String.eqb name "addLightClientBlock" = false -> String.eqb name "deposit" = false -> keeps_at (perform (Call name args) op) w.
Proof using. intros H H1 H2. unfold keeps_at, perform. destruct (op w). split; [exact H|]. unfold calls. cbn. by rewrite H1, H2. Qed.

Lemma keeps_lift {A} (o : outcome A) w : keeps_at (lift o) w.
Proof using. by split. Qed.

(** A block newer by the replace duration is not offered: nothing is sent. *)
Lemma round_pending b w : NodesOk -> bridge w = b ->
  paused b = 0 -> clock w < lastValidAt b -> lastValidAt b <> 0 ->
  (forall w' now hash lb ts, bridge w' = b -> blockHashes now sender (curHeight b) b = Ret hash ->
     (nr_next_light_client_block near (bs58_encode hash) w').1 = Ret (Some lb) -> toBN (il_timestamp (lb_inner_lite lb)) = Ret ts ->
     ts < untrustedTimestamp (head b) + replaceDuration b) ->
  keeps_at relay_round w.
Proof using COk.
  intros HN Hb Hp Hpend Hne Hpat. unfold round.
  enough (Hbody : keeps_at (body client near node url mult options random_index) w).
  { unfold keeps_at, try_catch in *. destruct (body client near node url mult options random_index w) as [[[u|e|c|] w1] t1]; try exact Hbody.
    eapply trace_rel_app; [exact Hbody|]. by split. }
  unfold body. destruct (reads_passes _ _ w (client_bridgeState sha256)) as [P1 V1].
  apply keeps_bind; [by apply keeps_request|]. rewrite perform_world. intros st Hst. apply perform_out in Hst. rewrite V1, Hb in Hst. apply Ret_inj in Hst as <-.
  rewrite (chain_state_pending _ _ Hpend). cbn [cs_currentHeight cs_nextValidAt]. set (w1 := (ec_bridgeState client w).2) in *.
  destruct (reads_passes _ _ w1 (client_blockHashes sha256 (curHeight b))) as [P2 V2].
  apply keeps_bind; [by apply keeps_request|]. rewrite perform_world. intros hash Hhash. apply perform_out in Hhash. rewrite V2, (proj1 P1), Hb in Hhash.
  set (w2 := (ec_blockHashes client (curHeight b) w1).2) in *.
  apply keeps_bind; [apply keeps_request; [apply nodes_next | done..]|]. rewrite perform_world. intros last Hlast. apply perform_out in Hlast.
  set (w3 := (nr_next_light_client_block near (bs58_encode hash) w2).2) in *.
  destruct (reads_passes _ _ w3 (client_replaceDuration sha256)) as [P4 V4].
  apply keeps_bind; [by apply keeps_request|]. rewrite perform_world. intros rd Hrd. apply perform_out in Hrd. rewrite V4 in Hrd. apply Ret_inj in Hrd as <-.
  assert (Hb3 : bridge w3 = b).
  { transitivity (bridge w2); [by apply nodes_next|]. transitivity (bridge w1); [apply P2 | etrans; [apply P1 | exact Hb]]. }
  rewrite Hb3. apply keeps_bind; [apply keeps_lift|]. intros lb Hlb. destruct last as [lb'|]; [|done]. apply Ret_inj in Hlb as ->.
  rewrite (proj2 (Z.eqb_neq _ _) Hne). apply keeps_bind; [apply keeps_lift|]. intros ts Hts.
  apply keeps_bind; [apply keeps_lift|]. intros h Hh. cbv zeta.
  assert (Hlt : ts < untrustedTimestamp (head b) + replaceDuration b).
  { eapply (Hpat w2); [|exact Hhash | exact Hlast | exact Hts]. transitivity (bridge w1); [apply P2 | etrans; [apply P1 | exact Hb]]. }
  match goal with |- context [should_submit ?st ?d h] => assert (Hs : should_submit st d h = false) end.
  { unfold should_submit, replaceDelay. cbn. rewrite (proj2 (Z.eqb_neq _ _) Hne). apply andb_false_iff. right. by apply Z.leb_gt; lia. }
  rewrite Hs. apply quiet_rest. exact HN.
Qed.

(** ** Endless runs *)

(** NEAR follows up on the confirmed block until the height [goal]: it
    offers a block that the contract of the bridge accepts, and while a
    block is pending no successor of its predecessor that is newer by the
    replace duration.  [follows b]: the contract [b] is on this chain. *)
Record Follows (goal : Z) (follows : NearBridge -> Prop) : Prop := {
  fo_next b t : follows b -> relay_inv b -> lastValidAt b <= t -> curHeight (settled b) < goal ->
    exists hash lb x, blockHashes t sender (curHeight (settled b)) b = Ret hash /\
      (forall w, at_ b t w -> exists w', nr_next_light_client_block near (bs58_encode hash) w = (Ret (Some lb), w') /\ passes w w') /\
      block_denotes sha256 lb x /\ acceptable (settled b) x /\
      (forall m now b', addBlock now sender x (set_balances m b) = Ret b' -> follows b');
  fo_patient b w now hash lb ts : follows b -> lastValidAt b <> 0 -> bridge w = b -> blockHashes now sender (curHeight b) b = Ret hash ->
    (nr_next_light_client_block near (bs58_encode hash) w).1 = Ret (Some lb) -> toBN (il_timestamp (lb_inner_lite lb)) = Ret ts ->
    ts < untrustedTimestamp (head b) + replaceDuration b
}.

(** [w i]: the world in which the round [i] of the loop starts.  Between
    two rounds the relay sleeps; the clock of the chain moves at least once
    in any [ticks] rounds. *)
Record endless (ticks : nat) (w : nat -> W) : Prop := {
  en_start : 0 < clock (w 0%nat);
  en_round i : passes (world_of (relay_round (w i))) (w (S i));
  en_later i : clock (w i) <= clock (w (S i));
  en_tick i : clock (w i) < clock (w (i + ticks)%nat)
}.

Lemma endless_later ticks w i j : endless ticks w -> (i <= j)%nat -> clock (w i) <= clock (w j).
Proof using. intros He Hij. induction Hij as [|j _ IH]; [lia|]. pose proof (en_later _ _ He j). lia. Qed.

(** The block NEAR offers in every world with the contract [b] from the time
    [t] on. *)
Definition offered (b : NearBridge) (t : Z) (x : DecodedBlock) : Prop :=
  exists hash lb, blockHashes t sender (curHeight (settled b)) b = Ret hash /\
    (forall w, at_ b t w -> (nr_next_light_client_block near (bs58_encode hash) w).1 = Ret (Some lb)) /\ block_denotes sha256 lb x.

(** A round with nothing pending leaves the contract with the stake of the
    relay and the offered block added; a round with a pending block leaves
    the contract as it is and sends neither a block nor a deposit. *)
Definition round_done (w : nat -> W) (i : nat) : Prop :=
  let b := bridge (w i) in
  let t := trace_of (relay_round (w i)) in
  if decide (lastValidAt b <= clock (w i)) then
    exists x now, offered b (clock (w i)) x /\ clock (w i) <= now <= clock (w (S i)) /\
      addBlock now sender x (set_balances (staked b) b) = Ret (bridge (w (S i))) /\ (calls "addLightClientBlock" t <= 1)%nat
  else bridge (w (S i)) = b /\ calls "addLightClientBlock" t = 0%nat /\ calls "deposit" t = 0%nat.

Section Endless.
Context {HN : NodesOk} (honest : submitInvalidBlock options = false) (goal : Z) (follows : NearBridge -> Prop).
Context (HF : Follows goal follows) (ticks : nat) (w : nat -> W) (He : endless ticks w).

Definition good (i : nat) : Prop := relay_inv (bridge (w i)) /\ follows (bridge (w i)) /\ 0 < clock (w i).

Definition idle (i : nat) : Prop := lastValidAt (bridge (w i)) <= clock (w i).

Definition done_between (i j : nat) : Prop := forall k, (i <= k < j)%nat -> round_done w k.

Lemma pending_step i : good i -> ~ idle i -> bridge (w (S i)) = bridge (w i) /\ good (S i) /\ round_done w i.
Proof using COk HN HF He.
  intros (Hinv & Hf & Ht) Hi. unfold idle in Hi.
  assert (keeps_at relay_round (w i)) as (Hp & Ha & Hd).
  { eapply round_pending; [exact HN | reflexivity | apply Hinv | lia | lia |].
    intros w' now hash lb ts Hb Hh Hl Hts. rewrite <- Hb in *. eapply (fo_patient _ _ HF); try eassumption; [lia | done]. }
  destruct (transitivity Hp (en_round _ _ He i)) as [Hb Hc]. split; [exact Hb|]. split.
  - unfold good. rewrite Hb. split; [exact Hinv|]. split; [exact Hf | lia].
  - unfold round_done. cbv zeta. by rewrite decide_False by lia.
Qed.

(** Either the challenge period ends within [n] rounds, or it lasts for all
    of them. *)
Lemma wait_rounds n i : good i ->
  (exists j, (i <= j <= i + n)%nat /\ good j /\ idle j /\ bridge (w j) = bridge (w i) /\ done_between i j) \/
  (good (i + n) /\ bridge (w (i + n)%nat) = bridge (w i) /\ done_between i (i + n)).
Proof using COk HN HF He.
  induction n as [|n IH]; intros Hg.
  - right. rewrite Nat.add_0_r. split; [done|]. split; [done|]. intros k. lia.
  - destruct (IH Hg) as [(j & Hij & Hr)|(Hg' & Hb & Hd)]; [left; exists j; split; [lia | exact Hr]|].
    destruct (decide (lastValidAt (bridge (w (i + n)%nat)) <= clock (w (i + n)%nat))) as [Hi|Hi].
    + left. exists (i + n)%nat. split; [lia | done].
    + right. destruct (pending_step _ Hg' Hi) as (Hb' & Hg'' & Hr). rewrite Nat.add_succ_r. split; [done|]. split; [congruence|].
      intros k Hk. destruct (decide (k = (i + n)%nat)) as [->|]; [done | apply Hd; lia].
Qed.

Lemma done_between_app i j k : done_between i j -> done_between j k -> done_between i k.
Proof using. intros H1 H2 l Hl. destruct (decide (l < j)%nat); [apply H1; lia | apply H2; lia]. Qed.

Lemma wait_idle n i : good i -> lastValidAt (bridge (w i)) <= clock (w i) + Z.of_nat n ->
  exists j, (i <= j <= i + n * ticks)%nat /\ good j /\ idle j /\ bridge (w j) = bridge (w i) /\ done_between i j.
Proof using COk HN HF He.
  revert i. induction n as [|n IH]; intros i Hg Hn.
  - exists i. split; [lia|]. split; [done|]. split; [unfold idle; lia|]. split; [done|]. intros k. lia.
  - destruct (wait_rounds ticks i Hg) as [(j & Hij & Hr)|(Hg' & Hb & Hd)]; [exists j; split; [nia | exact Hr]|].
    destruct (IH (i + ticks)%nat Hg') as (j & Hij & Hgj & Hj & Hbj & Hdj); [rewrite Hb; pose proof (en_tick _ _ He i); lia|].
    exists j. split; [nia|]. split; [done|]. split; [done|]. split; [congruence | by eapply done_between_app].
Qed.

Lemma round_at_most_one i : (calls "addLightClientBlock" (trace_of (relay_round (w i))) <= 1)%nat.
Proof using honest. destruct (round_spec client near node url mult options random_index (w i) honest) as [->|[-> _]]; lia. Qed.

Lemma idle_step i : good i -> idle i -> curHeight (settled (bridge (w i))) < goal -> clock (w (S i)) < 2 ^ 255 ->
  good (S i) /\ curHeight (settled (bridge (w i))) < curHeight (settled (bridge (w (S i)))) /\
  lockDuration (bridge (w (S i))) = lockDuration (bridge (w i)) /\
  lastValidAt (bridge (w (S i))) <= clock (w (S i)) + lockDuration (bridge (w i)) /\ round_done w i.
Proof using COk BNok HF He honest.
  intros (Hinv & Hf & Ht) Hi Hg Hmax. destruct (fo_next _ _ HF _ (clock (w i)) Hf Hinv Hi Hg) as (hash & lb & x & Hh & Hn & Hx & Ha & Hadd).
  destruct (round_idle _ _ hash lb x honest Hinv Hi Hh Hn Hx Ha (w i)) as (u & w' & t & Hr & now & Hnow & Hb & Hinv'); [by split|].
  destruct (en_round _ _ He i) as [Hb' Hc]. rewrite Hr in Hb', Hc. cbn in Hb', Hc. rewrite Hb'.
  destruct (addBlock_inv _ _ _ _ _ Hb) as [_ _ _ A4 _ _ A7 _ A9]. destruct (ri_duration _ Hinv) as [Hd0 Hd1]. cbn [set_balances lockDuration] in A4, A9.
  rewrite wrap256_small in A9 by (change (2 ^ 256) with (2 * 2 ^ 255); lia). split_and!.
  - unfold good. rewrite Hb'. split; [exact Hinv'|]. split; [by eapply Hadd | lia].
  - unfold settled at 2. rewrite (proj2 (Z.eqb_neq _ 0)) by lia. cbn. rewrite A7. apply Ha.
  - exact A4.
  - lia.
  - unfold round_done. cbv zeta. rewrite decide_True by exact Hi. exists x, now. split; [|split; [lia|]].
    + exists hash, lb. split; [done|]. split; [|done]. intros v Hv. destruct (Hn v Hv) as (v' & -> & _). done.
    + rewrite Hb'. split; [exact Hb | apply round_at_most_one].
Qed.

(** Rounds for one block: its submission and its challenge period. *)
Definition per_block (b : NearBridge) : nat := S (Z.to_nat (lockDuration b) * ticks).

Lemma reaches n i : good i -> idle i -> goal - curHeight (settled (bridge (w i))) <= Z.of_nat n ->
  clock (w (i + n * per_block (bridge (w i)))%nat) < 2 ^ 255 ->
  exists j, (i <= j <= i + n * per_block (bridge (w i)))%nat /\ goal <= currentHeight (bridgeState (clock (w j)) (bridge (w j))) /\ done_between i j.
Proof using COk BNok HN HF He honest.
  revert i. induction n as [|n IH]; intros i Hg Hi Hn Hmax.
  - exists i. split; [lia|]. split; [|intros k; lia]. change (goal <= cs_currentHeight (chain_state (clock (w i)) (bridge (w i)))).
    rewrite (chain_state_idle _ _ Hi). cbn. lia.
  - destruct (Z.le_gt_cases goal (curHeight (settled (bridge (w i))))) as [Hd|Hd].
    + exists i. split; [lia|]. split; [|intros k; lia]. change (goal <= cs_currentHeight (chain_state (clock (w i)) (bridge (w i)))).
      rewrite (chain_state_idle _ _ Hi). exact Hd.
    + assert (clock (w (S i)) < 2 ^ 255) as HS by (eapply Z.le_lt_trans; [eapply endless_later; [exact He|] | exact Hmax]; unfold per_block; lia).
      destruct (idle_step i Hg Hi Hd HS) as (Hg' & Hlt & Hdur & Hval & Hdone).
      destruct (wait_idle (Z.to_nat (lockDuration (bridge (w i)))) (S i) Hg') as (j & Hij & Hgj & Hj & Hb & Hdj).
      { destruct Hg as [Hinv _]. pose proof (ri_duration _ Hinv). lia. }
      assert (per_block (bridge (w j)) = per_block (bridge (w i))) as Hper by (unfold per_block; by rewrite Hb, Hdur).
      unfold per_block in Hij. destruct (IH j Hgj Hj) as (k & Hjk & Hk & Hdk); [rewrite Hb; lia| |].
      { rewrite Hper. eapply Z.le_lt_trans; [eapply endless_later; [exact He|] | exact Hmax]. unfold per_block. lia. }
      rewrite Hper in Hjk. exists k. split; [unfold per_block in *; lia|]. split; [exact Hk|].
      eapply (done_between_app i j k); [|exact Hdk]. eapply (done_between_app i (S i) j); [|exact Hdj].
      intros l Hl. by replace l with i by lia.
Qed.

End Endless.

(** The rounds to wait for a pending block, and those for the blocks until
    the goal. *)
Definition rounds_needed (ticks : nat) (goal now : Z) (b : NearBridge) : nat :=
  (Z.to_nat (lastValidAt b - now) * ticks + Z.to_nat (goal - curHeight (settled b)) * per_block ticks b)%nat.

(** ** Properties *)


Lemma initWithValidators_bytes b vs bps bs : admin b = sender -> initialized b = false -> ep_stakes (epoch0 b) = [] ->
  Forall2 bp_denotes vs bps -> Z.of_nat (length vs) <= MAX_BLOCK_PRODUCERS -> borshifyInitialValidators vs = Ret bs ->
  initWithValidators sender bs b = Ret (set_epoch 0 {| epochId := epochId (epoch0 b); ep_keys := map publicKey bps; ep_stakes := map stake bps;
    stakeThreshold := sum_stakes (map stake bps) * 2 / 3 |} b).
Proof using BNok.
  intros Ha Hi He Hd Hl Hbs. unfold MAX_BLOCK_PRODUCERS in Hl.
  destruct (borshify_validators vs bps Hd) as (bss & _ & Hb' & Hp); [lia|]. rewrite Hbs in Hb'. apply Ret_inj in Hb' as ->.
  specialize (Hp []). rewrite app_nil_r in Hp. unfold initWithValidators, require, numBPs. rewrite Ha, String.eqb_refl, Hi, He.
  cbn [negb andb length Nat.eqb mbind outcome_bind]. rewrite Hp. cbn [mbind outcome_bind done_ok]. unfold setBlockProducers, require, MAX_BLOCK_PRODUCERS.
  rewrite <- (Forall2_length Hd), (proj2 (Z.leb_le _ _) Hl). reflexivity.
Qed.

Lemma initWithBlock_bytes b lb x bs bps h : admin b = sender -> initialized b = false -> ep_stakes (epoch0 b) <> [] ->
  block_denotes sha256 lb x -> borshify lb = Ret bs -> next_bps x = Some (bps, h) -> Z.of_nat (length bps) <= MAX_BLOCK_PRODUCERS ->
  exists b', initWithBlock sha256 sender bs b = Ret b' /\ initialized b' = true /\ curHeight b' = height (inner_lite x) /\
    paused b' = paused b /\ lockEthAmount b' = lockEthAmount b /\ lockDuration b' = lockDuration b /\ lastValidAt b' = lastValidAt b /\
    balances b' = balances b /\ blockHashes_ b' !! height (inner_lite x) = Some (hash x).
Proof using BNok.
  intros Ha Hi He Hx Hbs Hbps Hl. destruct (borshify_parses sha256 lb x Hx) as (bs' & Hb' & Hp). rewrite Hbs in Hb'. apply Ret_inj in Hb' as <-.
  specialize (Hp []). rewrite app_nil_r in Hp. unfold initWithBlock, require, numBPs. rewrite Ha, String.eqb_refl, Hi.
  destruct (ep_stakes (epoch0 b)) as [|s ss] eqn:Es; [done|]. cbn [negb andb length Nat.eqb mbind outcome_bind]. rewrite Hp. cbn [mbind outcome_bind done_ok].
  rewrite Hbps. unfold setBlockProducers, require. rewrite (proj2 (Z.leb_le _ _) Hl). cbn [mbind outcome_bind].
  eexists. split; [reflexivity|]. cbn. repeat (split; [done|]). apply lookup_insert_eq.
Qed.

(** What NEAR answers during the initialization. *)
Record Introduces (vs : list NextBp) (lb : LightClientBlock) : Prop := {
  in_status w : exists h w', nr_latest_height near w = (Ret h, w') /\ passes w w';
  in_block h w : exists hash w', nr_last_final_block near h w = (Ret hash, w') /\ passes w w';
  in_validators hash w : exists w', nr_validators_ordered near hash w = (Ret (Some vs), w') /\ passes w w';
  in_next hash w : exists w', nr_next_light_client_block near hash w = (Ret (Some lb), w') /\ passes w w'
}.

Lemma yields_near {A} b t (e : event) (op : service W A) (P : A -> Prop) :
  (forall w, exists a w', op w = (Ret a, w') /\ passes w w' /\ P a) -> yields (at_ b t) (perform e op) (fun a w => P a /\ at_ b t w).
Proof using.
  intros Hop. apply yields_perform. intros w Hw. destruct (Hop w) as (a & w' & Ho & Hp & HP). exists a, w'. split; [done|].
  split; [done|]. by eapply at_passes.
Qed.

(** A transaction that does not depend on the time. *)
Lemma yields_sends b b' t (e : event) (op : service W unit) f :
  transacts op (fun _ => f) -> f b = Ret b' -> yields (at_ b t) (perform e op) (fun _ => at_ b' t).
Proof using.
  intros Hop Hf. eapply yields_mono; [eapply yields_transacts; [exact Hop | intros now _; by exists b']|].
  intros u w (now & b'' & Hn & Hb & Hw). cbv beta in Hb. rewrite Hf in Hb. apply Ret_inj in Hb as <-. split; [exact Hw | lia].
Qed.

Lemma send_validators_yields b b' t n bytes p : initWithValidators sender bytes b = Ret b' ->
  yields (at_ b t) (send_validators client (S n) bytes p) (fun r w => r = (None, p) /\ at_ b' t w).
Proof using COk.
  intros Hf. cbn [send_validators]. eapply (yields_bind _ _ _ (fun r w => r = None /\ at_ b' t w)).
  - apply yields_try. eapply yields_bind; [eapply yields_sends; [exact (client_initWithValidators sha256 _ _) | exact Hf]|]. intros u. apply yields_ret.
  - intros r. apply yields_fact. intros ->. apply yields_ret.
Qed.

Lemma send_block_yields b b' t n bytes p : initWithBlock sha256 sender bytes b = Ret b' ->
  yields (at_ b t) (send_block client mult (S n) bytes p) (fun r w => r = None /\ at_ b' t w).
Proof using COk.
  intros Hf. cbn [send_block]. eapply (yields_bind _ _ _ (fun r w => r = None /\ at_ b' t w)).
  - apply yields_try. eapply yields_bind; [apply gas_price_yields|]. intros q.
    eapply yields_bind; [eapply yields_sends; [exact (client_initWithBlock sha256 _ _) | exact Hf]|]. intros u. apply yields_ret.
  - intros r. apply yields_fact. intros ->. apply yields_ret.
Qed.

Lemma await_final_block_yields fuel b t hash vs lb : Introduces vs lb ->
  yields (at_ b t) (await_final_block near (S fuel) hash) (fun r w => r = (vs, lb) /\ at_ b t w).
Proof using.
  intros HI. cbn [await_final_block].
  eapply yields_bind; [apply (yields_near _ _ _ _ (fun a => a = Some vs)); intros w; destruct (in_validators _ _ HI hash w) as (w' & H1 & H2); by exists (Some vs), w'|].
  intros a. apply yields_fact. intros ->.
  eapply yields_bind; [apply (yields_near _ _ _ _ (fun a => a = Some lb)); intros w; destruct (in_next _ _ HI hash w) as (w' & H1 & H2); by exists (Some lb), w'|].
  intros a. apply yields_fact. intros ->. apply yields_ret.
Qed.

Lemma initialize_yields fuel b bv b' t vs vbs lb bs : Introduces vs lb -> initialized b = false ->
  borshifyInitialValidators vs = Ret vbs -> initWithValidators sender vbs b = Ret bv ->
  borshify lb = Ret bs -> initWithBlock sha256 sender bs bv = Ret b' ->
  yields (at_ b t) (initialize client near mult (S fuel)) (fun _ => at_ b' t).
Proof using COk.
  intros HI Hi Hvb Hv Hbs Hb'. unfold initialize. apply yields_try.
  eapply yields_bind; [eapply (yields_reads b t _ _ _ (fun a => a = false)); [exact (client_initialized sha256) | intros now _; exists (initialized b); by rewrite Hi]|].
  intros a. apply yields_fact. intros ->. unfold init_contract.
  eapply yields_bind; [apply (yields_near _ _ _ _ (fun _ => True)); intros w; destruct (in_status _ _ HI w) as (h & w' & H1 & H2); by exists h, w'|].
  intros h. apply yields_fact. intros _.
  eapply yields_bind; [apply (yields_near _ _ _ _ (fun _ => True)); intros w; destruct (in_block _ _ HI h w) as (hs & w' & H1 & H2); by exists hs, w'|].
  intros hs. apply yields_fact. intros _.
  eapply yields_bind; [by apply await_final_block_yields|]. intros r. apply yields_fact. intros ->.
  eapply yields_bind; [apply yields_lift, Hvb|]. intros a. apply yields_fact. intros ->.
  eapply yields_bind; [apply gas_price_yields|]. intros p.
  eapply yields_bind; [apply (send_validators_yields _ bv), Hv|]. intros r. apply yields_fact. intros ->.
  eapply yields_bind; [apply yields_lift, Hbs|]. intros a. apply yields_fact. intros ->.
  eapply yields_bind; [apply (send_block_yields _ b'), Hb'|]. intros a. apply yields_fact. intros ->.
  eapply yields_mono; [apply yields_ret | by intros u w [_ H]].
Qed.


End Rounds.

(** ** Witnesses *)

Module Witness.
Import Reference LightClientBlock.Witness NearBridge.Witness.

Record Sys := { sy_bridge : NearBridge; sy_clock : Z }.

#[export] Instance sys_world : BridgeWorld Sys := {| bridge := sy_bridge; clock := sy_clock |}.

Definition read_ {A} (f : Z -> NearBridge -> outcome A) : service Sys A := fun w => (f (sy_clock w) (sy_bridge w), w).

Definition send_ (f : Z -> NearBridge -> outcome NearBridge) : service Sys unit := fun w =>
  match f (sy_clock w) (sy_bridge w) with
  | Ret b => (Ret tt, {| sy_bridge := b; sy_clock := sy_clock w |})
  | Throw e => (Throw e, w)
  | _ => (Throw (Error "reverted"), w)
  end.

(** The contract itself as the client of the account "admin". *)
Definition client0 : EthClient Sys := {|
  ec_initialized := read_ (fun _ b => Ret (initialized b));
  ec_bridgeState := read_ (fun now b => Ret (chain_state now b));
  ec_blockHashes h := read_ (fun now b => blockHashes now "admin" h b);
  ec_replaceDuration := read_ (fun _ b => Ret (replaceDuration b));
  ec_lockEthAmount := read_ (fun _ b => Ret (lockEthAmount b));
  ec_balanceOf := read_ (fun _ b => Ret (balanceOf b "admin"));
  ec_getGasPrice := read_ (fun _ _ => Ret 20);
  ec_initWithValidators bs p := send_ (fun _ b => initWithValidators "admin" bs b);
  ec_initWithBlock bs p := send_ (fun _ b => initWithBlock toy_hash "admin" bs b);
  ec_deposit v p := send_ (fun _ b => deposit "admin" v b);
  ec_addLightClientBlock bs p := send_ (fun t b => addLightClientBlock toy_hash t "admin" bs b)
|}.

Lemma read_reads {A} f : reads (A := A) (read_ f) f.
Proof. intros w. by exists w. Qed.

Lemma send_transacts f : transacts (send_ f) f.
Proof.
  intros w. unfold send_. destruct (f (sy_clock w) (sy_bridge w)) as [b|e|c|] eqn:E.
  - exists {| sy_bridge := b; sy_clock := sy_clock w |}, (sy_clock w). cbn. rewrite E. split; [lia | done].
  - exists w, (sy_clock w). cbn. rewrite E. split; [lia|]. split; [by exists e | done].
  - exists w, (sy_clock w). cbn. rewrite E. split; [lia|]. split; [by eexists | done].
  - exists w, (sy_clock w). cbn. rewrite E. split; [lia|]. split; [by eexists | done].
Qed.

#[export] Instance client0_ok : ClientOk toy_hash client0 "admin".
Proof. split; intros; try apply read_reads; try apply send_transacts. exists 20, w. split; reflexivity. Qed.

Definition decoded_at (h : Z) : DecodedBlock :=
  let il i := {| height := h; epoch_id := zeros32; next_epoch_id := zeros32; prev_state_root := zeros32; outcome_root := zeros32;
    timestamp := 1600000000000000000 + h; next_bp_hash := zeros32; block_merkle_root := zeros32; inner_hash := i |} in
  let i := toy_hash (inner_lite_bytes (il [])) in
  let hs := toy_hash (toy_hash (i ++ zeros32) ++ zeros32) in
  {| prev_block_hash := zeros32; next_block_inner_hash := zeros32; inner_lite := il i; inner_rest_hash := zeros32;
     next_bps := Some ([producer 7; producer 5], toy_hash validators_bytes);
     approvals_after_next := [Some {| sig_r := zeros32; sig_s := zeros32 |}; Some {| sig_r := zeros32; sig_s := zeros32 |}];
     hash := hs; next_hash := toy_hash (zeros32 ++ hs) |}.

Lemma validators_denote : Forall2 bp_denotes validators [producer 7; producer 5].
Proof. constructor; [apply validator_denotes; denote|]. constructor; [apply validator_denotes; denote | constructor]. Qed.

Lemma block_at_denotes h : 0 <= h < 2 ^ 62 -> block_denotes toy_hash (block_at h) (decoded_at h).
Proof.
  intros Hh. split; try exact hash0_denotes; try reflexivity.
  - split; try exact hash0_denotes; try reflexivity; (split; [reflexivity | cbn; lia]).
  - exists validators, [producer 7; producer 5], validators_bytes. split; [reflexivity|]. split; [exact validators_denote | denote].
  - constructor; [denote|]. constructor; [denote | constructor].
Qed.

(** NEAR has a block every seven heights. *)
Definition rpc0 : NearRpc Sys := {|
  nr_latest_height w := (Ret 5000, w);
  nr_last_final_block _ w := (Ret hash0, w);
  nr_validators_ordered _ w := (Ret (Some validators), w);
  nr_next_light_client_block _ w := (Ret (Some (block_at (cs_currentHeight (chain_state (sy_clock w) (sy_bridge w)) + 7))), w)
|}.

Definition eth0 : Web3Node Sys := {|
  node_getBlockNumber w := (Ret (VNum 5), w);
  node_getBlock _ w := (Ret (VObj [("timestamp", VNum (sy_clock w))]), w);
  node_getTransactionReceipt _ w := (Ret VNull, w);
  node_getGasPrice w := (Ret 1, w);
  node_getTransactionCount _ w := (Ret 1, w);
  node_call _ w := (Ret VUndef, w);
  node_sendTransaction _ w := (None, w)
|}.

#[export] Instance nodes0_ok : NodesOk rpc0 eth0.
Proof. by split. Qed.

Definition opts0 : RelayOptions := {| submitInvalidBlock := false; minDelay := 1; maxDelay := 600; errorDelay := 1 |}.

Definition random0 (n : nat) (w : Sys) : outcome nat * Sys := (Ret 0%nat, w).

Abbreviation round0 := (round client0 rpc0 eth0 "ws" 1 opts0 random0).

Definition first_epoch : Epoch := Eval vm_compute in epoch0 st2.

(** All blocks belong to the first epoch. *)
Record follows0 (b : NearBridge) : Prop := {
  f0_curEpoch : curEpoch b = 0;
  f0_epoch : epoch0 b = first_epoch;
  f0_same : lastValidAt b <> 0 -> untrustedNextEpoch (head b) = false;
  f0_replace : replaceDuration b = 200000000000;
  f0_height : 0 <= curHeight b;
  f0_pending : lastValidAt b <> 0 -> curHeight b < untrustedHeight (head b) /\
    untrustedTimestamp (head b) = 1600000000000000000 + untrustedHeight (head b)
}.

Lemma follows0_settled b : follows0 b ->
  curEpoch (settled b) = 0 /\ epoch0 (settled b) = first_epoch /\ 0 <= curHeight (settled b).
Proof.
  intros [H1 H2 H3 H4 H5 H6]. unfold settled. destruct (Z.eqb_spec (lastValidAt b) 0) as [E|E]; [done|].
  destruct (H6 E) as [Hlt _]. cbn. rewrite (H3 E). split; [done|]. split; [done | lia].
Qed.

Lemma acceptable0 b h : follows0 b -> curHeight (settled b) < h -> acceptable (settled b) (decoded_at h).
Proof.
  intros Hf Hh. destruct (follows0_settled b Hf) as (H1 & H2 & _). split; [exact Hh|]. left. unfold epoch. rewrite H1. cbn [Z.eqb]. rewrite H2.
  split; [vm_compute; reflexivity|]. split; [vm_compute; lia | vm_compute; reflexivity].
Qed.

Lemma follows0_added b m now h b' : follows0 b -> 0 <= h ->
  addBlock now "admin" (decoded_at h) (set_balances m b) = Ret b' -> follows0 b'.
Proof.
  intros Hf Hh Ha. pose proof (addBlock_inv _ _ _ _ _ Ha) as [_ _ _ _ A5 A6 A7 _ A9]. unfold addBlock in Ha. apply outcome_bind_inv in Ha as (b1 & Hc & Ha).
  assert (Hb1 : curEpoch b1 = 0 /\ epoch0 b1 = first_epoch /\ replaceDuration b1 = 200000000000 /\ 0 <= curHeight b1).
  { unfold commit_or_replace in Hc. destruct (now <? lastValidAt (set_balances m b)).
    - apply require_inv in Hc as [_ Hc]. apply Ret_inj in Hc as <-. destruct Hf as [H1 H2 H3 H4 H5 H6]. done.
    - assert (Ret (settled (set_balances m b)) = Ret b1) as <-%Ret_inj by (unfold settled; rewrite <- Hc; by destruct (_ =? 0)).
      rewrite settled_balances. destruct (follows0_settled b Hf) as (H1 & H2 & H3). cbn. repeat (split; [done|]).
      split; [unfold settled; destruct (_ =? 0); apply Hf | done]. }
  destruct Hb1 as (E1 & E2 & E3 & E4). apply require_inv in Ha as [_ Ha]. unfold epoch in Ha. rewrite E1 in Ha. cbn [Z.eqb] in Ha. rewrite E2 in Ha.
  rewrite decide_True in Ha by (vm_compute; reflexivity). cbn [mbind outcome_bind] in Ha.
  apply require_inv in Ha as [_ Ha]. apply require_inv in Ha as [_ Ha]. apply Ret_inj in Ha as <-. split; cbn; auto.
Qed.

Lemma follows0_next b t : follows0 b -> relay_inv "admin" b -> lastValidAt b <= t -> curHeight (settled b) < 1002 ->
  exists hash lb x, blockHashes t "admin" (curHeight (settled b)) b = Ret hash /\
    (forall w, at_ b t w -> exists w', nr_next_light_client_block rpc0 (bs58_encode hash) w = (Ret (Some lb), w') /\ passes w w') /\
    block_denotes toy_hash lb x /\ acceptable (settled b) x /\
    (forall m now b', addBlock now "admin" x (set_balances m b) = Ret b' -> follows0 b').
Proof.
  intros Hf Hinv Ht Hg. destruct (follows0_settled b Hf) as (_ & _ & Hh). set (h := curHeight (settled b) + 7).
  eexists _, (block_at h), (decoded_at h). split; [unfold blockHashes; by rewrite (unpaused _ _ _ (ri_paused _ _ Hinv))|]. split.
  - intros w [Hw Hc]. exists w. split; [|reflexivity]. cbn [bridge clock sys_world] in Hw, Hc. cbn [nr_next_light_client_block rpc0].
    rewrite Hw, (chain_state_idle _ b) by lia. reflexivity.
  - split; [apply block_at_denotes; unfold h; lia|]. split; [apply acceptable0; [exact Hf | unfold h; lia]|].
    intros m now b' Ha. eapply follows0_added; [exact Hf | | exact Ha]. unfold h. lia.
Qed.

Lemma follows0_patient b w hs lb ts : follows0 b -> lastValidAt b <> 0 -> sy_bridge w = b ->
  (nr_next_light_client_block rpc0 hs w).1 = Ret (Some lb) -> toBN (il_timestamp (lb_inner_lite lb)) = Ret ts ->
  ts < untrustedTimestamp (head b) + replaceDuration b.
Proof.
  intros [_ _ _ H4 _ H6] Hne Hw Hl Hts. cbn [nr_next_light_client_block rpc0 fst] in Hl. apply Ret_inj in Hl. injection Hl as <-.
  cbn in Hts. apply Ret_inj in Hts as <-. destruct (H6 Hne) as [Hlt ->]. rewrite H4, Hw. unfold chain_state, bridgeState. cbn.
  destruct (_ <? _); cbn; [lia|]. destruct (_ =? _); lia.
Qed.

Lemma follows_rpc0 : Follows toy_hash "admin" rpc0 1002 follows0.
Proof.
  split; [exact follows0_next|]. intros b w now hs lb ts Hf Hne Hw _ Hl Hts. by eapply follows0_patient.
Qed.

(** The contract after its initialization, and an endless run with a round
    every hundred seconds. *)
Definition start0 : Sys := {| sy_bridge := st2; sy_clock := 10 |}.

Fixpoint run0 (i : nat) : Sys :=
  match i with
  | O => start0
  | S i' =>
      let w := world_of (round0 (run0 i')) in
      {| sy_bridge := sy_bridge w; sy_clock := Z.max (sy_clock (run0 i')) (sy_clock w) + 50 |}
  end.

Lemma endless0 : endless client0 rpc0 eth0 "ws" 1 opts0 random0 1 run0.
Proof.
  split.
  - reflexivity.
  - intros i. split; [reflexivity|]. cbn [run0 clock sys_world sy_clock]. lia.
  - intros i. cbn [run0 clock sys_world sy_clock]. lia.
  - intros i. rewrite Nat.add_1_r. cbn [run0 clock sys_world sy_clock]. lia.
Qed.

Lemma inv_st2 : relay_inv "admin" st2.
Proof. split; vm_compute; try reflexivity; try discriminate; [by split | by left | by intros []]. Qed.

Lemma follows_st2 : follows0 st2.
Proof. split; vm_compute; try reflexivity; try discriminate; by intros []. Qed.

(** The run above with the rounds iterated once. *)
Lemma run0_iter n : run0 n = Nat.iter n (fun v =>
  let w := world_of (round0 v) in {| sy_bridge := sy_bridge w; sy_clock := Z.max (sy_clock v) (sy_clock w) + 50 |}) start0.
Proof. induction n as [|n IH]; [done|]. cbn [run0 Nat.iter]. by rewrite IH. Qed.

Lemma time0 : clock (run0 (rounds_needed 1 1002 (clock (run0 0)) (bridge (run0 0)))) < 2 ^ 255.
Proof. rewrite run0_iter. vm_compute. reflexivity. Qed.


(** NEAR during the initialization. *)
Definition rpc1 : NearRpc Sys := {|
  nr_latest_height w := (Ret 1010, w);
  nr_last_final_block _ w := (Ret hash0, w);
  nr_validators_ordered _ w := (Ret (Some validators), w);
  nr_next_light_client_block _ w := (Ret (Some (block_at 1000)), w)
|}.

Lemma introduces1 : Introduces rpc1 validators (block_at 1000).
Proof. split; intros; [by exists 1010, w | by exists hash0, w | by exists w | by exists w]. Qed.

End Witness.
