(* ===== verification/Watchdog.v ===== *)
(** * The watchdog (near2eth/watchdog/index.js)

    One round of [Watchdog.run]: read the contract's state, check every
    block producer signature of a pending block, and challenge the first
    invalid one.  The names the watchdog imports from
    rainbow-bridge-utils are looked up in that package's export list
    (utils/index.js). *)

From S2P Require Import Prelude Interfaces LightClientBlock Robust Metrics NearBridge.
Import Contract.

(** ** Exports of rainbow-bridge-utils (utils/index.js) *)

Definition utils_exports : list string := [
  "getScript"; "backoff"; "nearAPI"; "JSONreplacer"; "Web3"; "sleep"; "RobustWeb3"; "setupEthNear";
  "normalizeEthKey"; "accountExists"; "remove0x"; "createLocalKeyStore"; "getWeb3"; "getEthContract";
  "addSecretKey"; "fromWei"; "toWei"; "txnStatus"; "ethCallContract"; "BorshContract"; "hexToBuffer";
  "readerToHex"; "maybeCreateAccount"; "verifyAccount"; "RainbowConfig"; "nearJsonContractFunctionCall";
  "borshifyInitialValidators"; "borshifyOutcomeProof"; "borshify"].

(** Calling an imported name that is [undefined] throws after the arguments
    were evaluated. *)
Definition call_import {A} (name : string) (o : outcome A) : outcome A :=
  if decide (name ∈ utils_exports) then o else Throw (TypeError (name +:+ " is not a function")).

(** [s.endsWith(t)] *)
Definition str_endsWith (t s : string) : bool :=
  (String.length t <=? String.length s)%nat && String.eqb (str_drop (String.length s - String.length t) s) t.

(** ** Services *)

Record WatchedState := { ws_currentHeight : Z; ws_nextValidAt : Z; ws_numBlockProducers : nat }.

Record WatchdogClient (W : Type) := {
  wd_bridgeState : service W WatchedState;
  wd_checkSignature : nat -> service W bool;
  wd_getGasPrice : service W Z;
  wd_getTransactionCount : service W Z;
  (** The signed challenge of a signature index, at a gas price and nonce. *)
  wd_sendChallenge : nat -> Z -> Z -> W -> promise unit * W
}.

Arguments wd_bridgeState {W} _.
Arguments wd_checkSignature {W} _ _.
Arguments wd_getGasPrice {W} _.
Arguments wd_getTransactionCount {W} _.
Arguments wd_sendChallenge {W} _ _ _ _ _.

Section Watchdog.
Context {W : Type} (client : WatchdogClient W) (watchdogDelay watchdogErrorDelay : Z).

Definition PREFIX : string := "near_bridge_watchdog_".

(** What [run] does before its loop: the metrics, and the key as bytes
    ([Buffer.from(key, 'hex')] does not fail). *)
Definition run_metrics (metricsPort : val) : eff W event unit :=
  _ ← new_HttpPrometheus metricsPort;
  _ ← lift (register_all PREFIX ["last_block_verified"; "block_producers"; "incorrect_blocks"; "challenges_submitted"] []);
  mret tt.

(** [promiseWithTimeout(5 * 60 * 1000, sendSignedTransaction(tx), ...)] *)
Definition send_challenge (i : nat) (gasPrice nonce : Z) : eff W event unit :=
  perform (Call "challenge" [VNum (Z.of_nat i); VNum gasPrice; VNum nonce]) (fun w =>
    let '(p, w') := wd_sendChallenge client i gasPrice nonce w in
    (call_import "promiseWithTimeout" (promiseWithTimeout (5 * 60 * 1000) p SLOW_TX_ERROR_MSG), w')).

(** [while (gasPrice < 10000 * 1e9)] *)
Fixpoint challenge_loop (fuel : nat) (i : nat) (gasPrice nonce : Z) : eff W event unit :=
  match fuel with
  | O => stuck
  | S fuel' =>
      if gasPrice <? 10000 * 1000000000 then
        try_catch (_ ← send_challenge i gasPrice nonce; inc_counter (PREFIX +:+ "challenges_submitted")) (fun e =>
          if String.eqb (err_message e) SLOW_TX_ERROR_MSG then challenge_loop fuel' i (gasPrice * 2) nonce
          else throw e)
      else mret tt
  end.

Definition challenge_signature (fuel : nat) (i : nat) : eff W event unit :=
  try_catch
    (gasPrice ← perform (Call "eth.getGasPrice" []) (wd_getGasPrice client);
     nonce ← perform (Call "eth.getTransactionCount" []) (wd_getTransactionCount client);
     challenge_loop fuel i gasPrice nonce)
    (fun _ => mret tt).

(** [checkBlockProducerSignatureInHead(i)]; [None] when it is skipped. *)
Definition check_signature (i : nat) : eff W event (option bool) :=
  try_catch
    (r ← perform (Call "checkBlockProducerSignatureInHead" [VNum (Z.of_nat i)]) (wd_checkSignature client i);
     mret (Some r))
    (fun e => if str_endsWith "No such signature" (err_message e) then mret None else throw e).

(** [for (let i = 0; i < numBlockProducers; i++)]: [n] indices are left. *)
Fixpoint check_signatures (fuel : nat) (n i : nat) : eff W event unit :=
  match n with
  | O => mret tt
  | S n' =>
      result ← check_signature i;
      match result with
      | Some false => _ ← inc_counter (PREFIX +:+ "incorrect_blocks"); challenge_signature fuel i
      | _ => check_signatures fuel n' (S i)
      end
  end.

Definition round (fuel : nat) : eff W event unit :=
  try_catch
    (state ← perform (Call "bridgeState" []) (wd_bridgeState client);
     _ ← set_gauge (PREFIX +:+ "last_block_verified") (ws_currentHeight state);
     _ ← set_gauge (PREFIX +:+ "block_producers") (Z.of_nat (ws_numBlockProducers state));
     _ ← (if ws_nextValidAt state =? 0 then mret tt else check_signatures fuel (ws_numBlockProducers state) 0);
     sleep (num_of_Z (watchdogDelay * 1000)))
    (fun _ => sleep (num_of_Z (watchdogErrorDelay * 1000))).

End Watchdog.

(** ** Lemmas *)

Section Lemmas.
Context {W : Type} (client : WatchdogClient W).

(** Indices of the challenges a run sends. *)
Definition challenges (t : list event) : list Z :=
  omap (fun e => match e with Call "challenge" (VNum i :: _) => Some i | _ => None end) t.

Arguments challenges : simpl never.

Lemma challenges_app t1 t2 : challenges (t1 ++ t2) = (challenges t1 ++ challenges t2)%list.
Proof. apply omap_app. Qed.


(** The imported function is missing: a challenge is sent, then the call
    throws. *)
Lemma send_challenge_throws i p n w :
  exists w', send_challenge client i p n w =
    (Throw (TypeError "promiseWithTimeout is not a function"), w',
     [Call "challenge" [VNum (Z.of_nat i); VNum p; VNum n]]).
Proof.
  unfold send_challenge, perform. destruct (wd_sendChallenge client i p n w) as [pr w'].
  exists w'. unfold call_import. rewrite decide_False; [done|]. apply (bool_decide_unpack _). vm_compute. exact I.
Qed.

Lemma challenge_loop_run fuel i p n w :
  exists w', challenge_loop client (S fuel) i p n w =
    if p <? 10000 * 1000000000 then
      (Throw (TypeError "promiseWithTimeout is not a function"), w',
       [Call "challenge" [VNum (Z.of_nat i); VNum p; VNum n]])
    else (Ret tt, w', []).
Proof.
  cbn [challenge_loop]. destruct (p <? _); [|by exists w].
  destruct (send_challenge_throws i p n w) as [w' E]. exists w'. unfold try_catch. rewrite eff_bind_eq, E. done.
Qed.

(** A price and a nonce at any time, the price below the limit. *)
Definition prices_ok : Prop :=
  forall w, (exists p w', wd_getGasPrice client w = (Ret p, w') /\ p < 10000 * 1000000000) /\
            (exists n w', wd_getTransactionCount client w = (Ret n, w')).

Lemma challenge_signature_run fuel i w :
  prices_ok -> exists w' t, challenge_signature client (S fuel) i w = (Ret tt, w', t) /\ challenges t = [Z.of_nat i].
Proof.
  intros Hp. unfold challenge_signature, try_catch. rewrite eff_bind_eq. unfold perform.
  destruct (Hp w) as [(p & w1 & -> & Hlt) _]. rewrite eff_bind_eq. destruct (Hp w1) as [_ (n & w2 & ->)].
  destruct (challenge_loop_run fuel i p n w2) as [w3 E]. rewrite (proj2 (Z.ltb_lt _ _) Hlt) in E.
  cbn [out_of world_of trace_of fst snd]. rewrite E. cbn. by do 2 eexists.
Qed.

Lemma challenge_signature_challenges fuel i w :
  forall x, x ∈ challenges (trace_of (challenge_signature client (S fuel) i w)) -> x = Z.of_nat i.
Proof.
  unfold challenge_signature, try_catch. rewrite eff_bind_eq. unfold perform.
  destruct (wd_getGasPrice client w) as [[p|e|c|] w1]; cbn [out_of world_of trace_of fst snd]; try set_solver.
  rewrite eff_bind_eq. destruct (wd_getTransactionCount client w1) as [[n|e|c|] w2];
    cbn [out_of world_of trace_of fst snd]; try set_solver.
  destruct (challenge_loop_run fuel i p n w2) as [w3 E]. rewrite E.
  destruct (p <? _); cbn; unfold challenges; cbn; set_solver.
Qed.

(** A signature that is valid or not there. *)
Definition passes (o : outcome bool) : bool :=
  match o with
  | Ret b => b
  | Throw e => str_endsWith "No such signature" (err_message e)
  | _ => false
  end.

Lemma check_signature_passes i w :
  passes (wd_checkSignature client i w).1 = true ->
  exists r w' t, check_signature client i w = (Ret r, w', t) /\ r <> Some false /\ challenges t = [].
Proof.
  unfold check_signature, try_catch. rewrite eff_bind_eq. unfold perform.
  destruct (wd_checkSignature client i w) as [[[]|e|c|] w1]; cbn; try done.
  - intros _. by do 3 eexists.
  - intros ->. by do 3 eexists.
Qed.

Lemma check_signature_fails i w :
  (wd_checkSignature client i w).1 = Ret false ->
  exists w' t, check_signature client i w = (Ret (Some false), w', t) /\ challenges t = [].
Proof.
  unfold check_signature, try_catch. rewrite eff_bind_eq. unfold perform.
  destruct (wd_checkSignature client i w) as [[[]|e|c|] w1]; cbn; try done. intros _. by do 2 eexists.
Qed.

(** A counter before a program adds one event, which is not a challenge. *)
Lemma counted_run name (m : eff W event unit) w o w' t :
  m w = (o, w', t) -> (_ ← inc_counter name; m) w = (o, w', Call "counter.inc" [VStr name] :: t).
Proof. intros E. rewrite eff_bind_eq. cbn. by rewrite E. Qed.

Lemma counted_challenges name t : challenges (Call "counter.inc" [VStr name] :: t) = challenges t.
Proof. done. Qed.

Lemma check_signatures_first fuel n i k w :
  prices_ok -> (k < n)%nat ->
  (forall j v, (j < k)%nat -> passes (wd_checkSignature client (i + j) v).1 = true) ->
  (forall v, (wd_checkSignature client (i + k) v).1 = Ret false) ->
  exists w' t, check_signatures client (S fuel) n i w = (Ret tt, w', t) /\ challenges t = [Z.of_nat (i + k)].
Proof.
  intros Hp. revert i k w. induction n as [|n IH]; intros i k w Hk Hpass Hbad; [lia|].
  cbn [check_signatures]. rewrite eff_bind_eq. destruct k as [|k].
  - rewrite Nat.add_0_r in *. destruct (check_signature_fails i w (Hbad w)) as (w1 & t1 & -> & H1).
    destruct (challenge_signature_run fuel i w1 Hp) as (w2 & t2 & E & H2). rewrite (counted_run _ _ _ _ _ _ E). cbn.
    do 2 eexists. split; [done|]. by rewrite challenges_app, H1, counted_challenges, H2.
  - pose proof (Hpass 0%nat w) as H0. rewrite Nat.add_0_r in H0.
    destruct (check_signature_passes i w (H0 ltac:(lia))) as (r & w1 & t1 & -> & Hr & H1).
    destruct (IH (S i) k w1) as (w2 & t2 & E & H2); [lia | | |].
    + intros j v Hj. replace (S i + j)%nat with (i + S j)%nat by lia. apply Hpass. lia.
    + intros v. replace (S i + k)%nat with (i + S k)%nat by lia. apply Hbad.
    + destruct r as [[]|]; try done; rewrite E; cbn; do 2 eexists; (split; [done|]);
        rewrite challenges_app, H1, H2; cbn [app]; f_equal; lia.
Qed.

(** Every challenge is for a signature that was found invalid. *)
Lemma check_signatures_sound fuel n i w x :
  x ∈ challenges (trace_of (check_signatures client (S fuel) n i w)) ->
  exists j v, x = Z.of_nat j /\ (wd_checkSignature client j v).1 = Ret false.
Proof.
  revert i w. induction n as [|n IH]; intros i w; [set_solver|].
  cbn [check_signatures]. rewrite eff_bind_eq. unfold check_signature, try_catch. rewrite eff_bind_eq. unfold perform.
  destruct (wd_checkSignature client i w) as [[[]|e|c|] w1] eqn:Ec; cbn; [exact (IH _ _)| | |set_solver|set_solver].
  - intros H. exists i, w. rewrite Ec. split; [|done].
    apply (challenge_signature_challenges fuel i w1). revert H. rewrite eff_bind_eq. cbn.
    by destruct (challenge_signature client (S fuel) i w1) as [[[] ?] ?].
  - destruct (str_endsWith _ _); cbn; [exact (IH _ _) | set_solver].
Qed.

End Lemmas.

(** ** Properties *)

Section Properties.
Context {W : Type} (client : WatchdogClient W) (d ed : Z).

Lemma round_trace fuel w state w1 :
  wd_bridgeState client w = (Ret state, w1) -> ws_nextValidAt state <> 0 ->
  challenges (trace_of (round client d ed fuel w)) =
    challenges (trace_of (check_signatures client fuel (ws_numBlockProducers state) 0 w1)).
Proof.
  intros Hs Hv. unfold round, try_catch. rewrite eff_bind_eq. unfold perform. rewrite Hs.
  unfold set_gauge. rewrite !emit_bind, eff_bind_eq, (proj2 (Z.eqb_neq _ _) Hv).
  destruct (check_signatures client fuel _ 0 w1) as [[[[]|e|c|] w2] t2]; cbn;
    rewrite ?challenges_app; unfold challenges; cbn; by rewrite ?omap_app, ?app_nil_r.
Qed.

Lemma round_first_invalid fuel k w state w1 :
  prices_ok client -> wd_bridgeState client w = (Ret state, w1) -> ws_nextValidAt state <> 0 ->
  (k < ws_numBlockProducers state)%nat ->
  (forall j v, (j < k)%nat -> passes (wd_checkSignature client j v).1 = true) ->
  (forall v, (wd_checkSignature client k v).1 = Ret false) ->
  challenges (trace_of (round client d ed (S fuel) w)) = [Z.of_nat k].
Proof.
  intros Hp Hs Hv Hk Hpass Hbad. rewrite (round_trace (S fuel) w state w1 Hs Hv).
  destruct (check_signatures_first client fuel (ws_numBlockProducers state) 0 k w1) as (w2 & t & E & Ht); try done.
  by rewrite E.
Qed.

(** The watchdog challenges exactly the first invalid signature: when
    all signatures before index [k] are valid or missing and [k] is
    invalid, a round sends one challenge, for [k]. *)
Theorem watchdog_first_invalid fuel k w state w1 :
  prices_ok client -> wd_bridgeState client w = (Ret state, w1) -> ws_nextValidAt state <> 0 ->
  (k < ws_numBlockProducers state)%nat ->
  (forall j v, (j < k)%nat -> passes (wd_checkSignature client j v).1 = true) ->
  (forall v, (wd_checkSignature client k v).1 = Ret false) ->
  challenges (trace_of (round client d ed (S fuel) w)) = [Z.of_nat k].
Proof. apply round_first_invalid. Qed.

(** No false challenges: every challenge of a round is for an index
    whose signature the contract reported as invalid. *)
Theorem watchdog_sound fuel w x :
  x ∈ challenges (trace_of (round client d ed (S fuel) w)) ->
  exists j v, x = Z.of_nat j /\ (wd_checkSignature client j v).1 = Ret false.
Proof.
  destruct (wd_bridgeState client w) as [o w1] eqn:Hs. destruct o as [state|e|c|].
  - destruct (decide (ws_nextValidAt state = 0)) as [H0|Hv].
    + unfold round, try_catch. rewrite eff_bind_eq. unfold perform. rewrite Hs. cbn. rewrite H0. cbn. set_solver.
    + rewrite (round_trace (S fuel) w state w1 Hs Hv). apply check_signatures_sound.
  - unfold round, try_catch. rewrite eff_bind_eq. unfold perform. rewrite Hs. cbn. set_solver.
  - unfold round, try_catch. rewrite eff_bind_eq. unfold perform. rewrite Hs. cbn. set_solver.
  - unfold round, try_catch. rewrite eff_bind_eq. unfold perform. rewrite Hs. cbn. set_solver.
Qed.

End Properties.

Section AgainstContract.
Context (sha256 : list Z -> list Z) (ed25519_check : list Z -> Signature -> list Z -> Z -> bool).

(** A watchdog that reads the contract [b] at time [now]. *)
Definition watching (b : NearBridge) (now gasPrice nonce : Z) : WatchdogClient unit := {|
  wd_bridgeState := fun w => (Ret {| ws_currentHeight := currentHeight (bridgeState now b); ws_nextValidAt := nextValidAt (bridgeState now b);
                                     ws_numBlockProducers := numBlockProducers (bridgeState now b) |}, w);
  wd_checkSignature := fun i w => (checkBlockProducerSignatureInHead ed25519_check i b, w);
  wd_getGasPrice := fun w => (Ret gasPrice, w);
  wd_getTransactionCount := fun w => (Ret nonce, w);
  wd_sendChallenge := fun _ _ _ w => (None, w)
|}.

(** The watchdog protects the bridge: if a pending block of a reachable
    contract state carries an invalid signature, a round sends a
    challenge, and that challenge, executed in the same state, is accepted
    and removes the pending block. *)
Theorem watchdog_protects t b now gasPrice nonce sender fuel k0 :
  reachable sha256 ed25519_check t b -> t <= now -> now < lastValidAt b ->
  Z.land (paused b) PAUSED_CHALLENGE = 0 -> gasPrice < 10000 * 1000000000 ->
  (k0 < numBPs (headEpoch b))%nat -> checkBlockProducerSignatureInHead ed25519_check k0 b = Ret false ->
  exists k b', challenges (trace_of (round (watching b now gasPrice nonce) 1 1 (S fuel) tt)) = [Z.of_nat k] /\
    challenge ed25519_check now sender sender k b = Ret b' /\ lastValidAt b' = 0.
Proof.
  intros Hr Hle Hlt Hpa Hg Hk0 Hbad.
  set (bad := fun k => match checkBlockProducerSignatureInHead ed25519_check k b with Ret false => true | _ => false end).
  assert (exists k, (k <= k0)%nat /\ bad k = true /\ forall j, (j < k)%nat -> bad j = false) as (k & Hk & Hb & Hf).
  { apply least_true. unfold bad. by rewrite Hbad. }
  assert (checkBlockProducerSignatureInHead ed25519_check k b = Ret false) as Hck.
  { unfold bad in Hb. by destruct (checkBlockProducerSignatureInHead ed25519_check k b) as [[]| | |]. }
  exists k. apply reachable_inv, (bridge_inv_later _ now) in Hr; [|done].
  eexists. split; [|split].
  - apply (round_first_invalid _ 1 1 fuel k tt
      {| ws_currentHeight := currentHeight (bridgeState now b); ws_nextValidAt := nextValidAt (bridgeState now b); ws_numBlockProducers := numBlockProducers (bridgeState now b) |} tt).
    + intros w. split; do 2 eexists; done.
    + done.
    + unfold bridgeState. rewrite (proj2 (Z.ltb_lt _ _) Hlt). cbn. pose proof (inv_time _ _ Hr). lia.
    + unfold bridgeState. rewrite (proj2 (Z.ltb_lt _ _) Hlt). cbn. lia.
    + intros j v Hj. cbn. specialize (Hf j Hj). unfold bad in Hf. revert Hf.
      unfold checkBlockProducerSignatureInHead. destruct (untrustedSignatures (head b) !! j) as [[sig|]|]; try done.
      cbn. by destruct (ed25519_check _ _ _ _).
    + done.
  - unfold challenge, pausable. rewrite Hpa, (proj2 (Z.ltb_lt _ _) Hlt), Hck. cbn.
    rewrite (proj2 (Z.leb_le _ _) (inv_stake _ _ Hr Hlt)). cbn. reflexivity.
  - done.
Qed.

End AgainstContract.

(** ** Witnesses *)

Module Witness.
Import Reference LightClientBlock.Witness NearBridge.Witness.

Definition no_sig : js_error := Error "Returned error: execution reverted: No such signature".

(** Signature 0 is missing, signature 1 is invalid. *)
Definition scenario : WatchdogClient unit := {|
  wd_bridgeState := fun w => (Ret {| ws_currentHeight := 5; ws_nextValidAt := 9; ws_numBlockProducers := 3 |}, w);
  wd_checkSignature := fun i w => (match i with O => Throw no_sig | S O => Ret false | _ => Ret true end, w);
  wd_getGasPrice := fun w => (Ret 20, w);
  wd_getTransactionCount := fun w => (Ret 4, w);
  wd_sendChallenge := fun _ _ _ w => (None, w)
|}.

Lemma watchdog_first_invalid_witness :
  challenges (trace_of (round scenario 1 1 3 tt)) = [Z.of_nat 1].
Proof.
  apply (watchdog_first_invalid scenario 1 1 2 1 tt {| ws_currentHeight := 5; ws_nextValidAt := 9; ws_numBlockProducers := 3 |} tt).
  - intros w. split; do 2 eexists; [split; [reflexivity | lia] | reflexivity].
  - reflexivity.
  - discriminate.
  - cbn. lia.
  - intros [|j] v Hj; [vm_compute; reflexivity | lia].
  - reflexivity.
Defined.

Lemma watchdog_sound_witness :
  exists j v, 1 = Z.of_nat j /\ (wd_checkSignature scenario j v).1 = Ret false.
Proof.
  apply (watchdog_sound scenario 1 1 2 tt). vm_compute. apply elem_of_cons. by left.
Defined.

Lemma watchdog_protects_witness :
  exists k b', challenges (trace_of (round (watching never st4 50 20 4) 1 1 2 tt)) = [Z.of_nat k] /\
    challenge never 50 "watchdog" "watchdog" k st4 = Ret b' /\ lastValidAt b' = 0.
Proof.
  apply (watchdog_protects toy_hash never 10 st4 50 20 4 "watchdog" 1 0).
  - exact reachable_st4.
  - lia.
  - vm_compute. reflexivity.
  - vm_compute. reflexivity.
  - lia.
  - vm_compute. lia.
  - vm_compute. reflexivity.
Defined.

End Witness.
