(* ===== verification/WatchSystem.v ===== *)
(** * The watchdog and the contract together

    Watchdog.v models a round of the watchdog against any client contract,
    NearBridge.v the contract.  Here the round runs against the contract: its
    calls read the contract at the time of the call, time passing in
    between.  The challenge is handed to the node and nobody waits for it;
    what it does is stated for every time and state in which it may be
    mined. *)

From S2P Require Import Prelude Interfaces LightClientBlock Robust Metrics NearBridge Near2EthRelay Watchdog RelaySystem.
Import Contract.

Section WatchSystem.
Context {W : Type} {BWd : BridgeWorld W} (sha256 : list Z -> list Z) (ed25519_check : list Z -> Signature -> list Z -> Z -> bool).
Context (client : WatchdogClient W) (sender : string) (d ed : Z).

Class WatchdogOk : Prop := {
  wok_state : reads (wd_bridgeState client) (fun now b =>
    Ret {| ws_currentHeight := currentHeight (bridgeState now b); ws_nextValidAt := nextValidAt (bridgeState now b);
           ws_numBlockProducers := numBlockProducers (bridgeState now b) |});
  wok_check i : reads (wd_checkSignature client i) (fun _ b => checkBlockProducerSignatureInHead ed25519_check i b);
  wok_gasPrice w : exists p w', wd_getGasPrice client w = (Ret p, w') /\ p < 10000 * 1000000000 /\ passes w w';
  wok_nonce w : exists n w', wd_getTransactionCount client w = (Ret n, w') /\ passes w w'
}.

Context {WO : WatchdogOk}.

(** The trace has one challenge, of signature [i]. *)
Definition challenged (i : nat) (t : list event) : Prop :=
  challenges t = [Z.of_nat i] /\
  exists p n, Call "challenge" [VNum (Z.of_nat i); VNum p; VNum n] ∈ t /\ p < 10000 * 1000000000.

Lemma challenged_after i t1 t2 : challenges t1 = [] -> challenged i t2 -> challenged i (t1 ++ t2)%list.
Proof using. intros H1 [H2 (p & n & Hin & Hp)]. split; [by rewrite challenges_app, H1|]. exists p, n. split; [apply elem_of_app; by right | exact Hp]. Qed.

Lemma send_challenge_world i p n w :
  send_challenge client i p n w = (Throw (TypeError "promiseWithTimeout is not a function"),
    (wd_sendChallenge client i p n w).2, [Call "challenge" [VNum (Z.of_nat i); VNum p; VNum n]]).
Proof using.
  unfold send_challenge, perform. destruct (wd_sendChallenge client i p n w) as [pr w'].
  unfold call_import. rewrite decide_False; [done|]. apply (bool_decide_unpack _). vm_compute. exact I.
Qed.

Lemma challenge_signature_sends fuel i w :
  exists w' t, challenge_signature client (S fuel) i w = (Ret tt, w', t) /\ challenged i t.
Proof using WO.
  destruct (wok_gasPrice w) as (p & w1 & E1 & Hp & P1). destruct (wok_nonce w1) as (n & w2 & E2 & P2).
  unfold challenge_signature, try_catch. rewrite eff_bind_eq. unfold perform. rewrite E1. rewrite eff_bind_eq, E2.
  cbn [out_of world_of trace_of fst snd challenge_loop]. rewrite (proj2 (Z.ltb_lt _ _) Hp). unfold try_catch.
  rewrite eff_bind_eq, send_challenge_world. cbn [err_message String.eqb]. do 2 eexists. split; [reflexivity|].
  split; [done|]. exists p, n. split; [set_solver | done].
Qed.

(** A signature of the contract is valid, invalid or missing. *)
Lemma check_signature_reads i w : exists w' t, passes w w' /\ challenges t = [] /\
  check_signature client i w = (Ret (match checkBlockProducerSignatureInHead ed25519_check i (bridge w) with Ret r => Some r | _ => None end), w', t).
Proof using WO.
  destruct (wok_check i w) as (w' & E & P). unfold check_signature, try_catch. rewrite eff_bind_eq. unfold perform. rewrite E.
  unfold checkBlockProducerSignatureInHead. destruct (untrustedSignatures (head (bridge w)) !! i) as [[sig|]|];
    do 2 eexists; (split; [exact P|]); (split; [|reflexivity]); done.
Qed.

Lemma check_signatures_sends fuel n i k w : (k < n)%nat ->
  (forall j, (j < k)%nat -> checkBlockProducerSignatureInHead ed25519_check (i + j) (bridge w) <> Ret false) ->
  checkBlockProducerSignatureInHead ed25519_check (i + k) (bridge w) = Ret false ->
  exists w' t, check_signatures client (S fuel) n i w = (Ret tt, w', t) /\ challenged (i + k) t.
Proof using WO.
  revert i k w. induction n as [|n IH]; intros i k w Hk Hpass Hbad; [lia|]. cbn [check_signatures]. rewrite eff_bind_eq.
  destruct (check_signature_reads i w) as (w1 & t1 & P1 & T1 & ->). destruct k as [|k].
  - rewrite Nat.add_0_r in *. rewrite Hbad. destruct (challenge_signature_sends fuel i w1) as (w2 & t2 & E & H).
    unfold inc_counter. rewrite emit_bind, E. do 2 eexists. split; [reflexivity|]. cbn [trace_of snd].
    apply challenged_after; [exact T1|]. by apply (challenged_after i [_]).
  - pose proof (Hpass 0%nat ltac:(lia)) as H0. rewrite Nat.add_0_r in H0.
    destruct (IH (S i) k w1) as (w2 & t2 & E & H); [lia | | |].
    + intros j Hj. rewrite (proj1 P1). replace (S i + j)%nat with (i + S j)%nat by lia. apply Hpass. lia.
    + rewrite (proj1 P1). by replace (S i + k)%nat with (i + S k)%nat by lia.
    + replace (S i + k)%nat with (i + S k)%nat in H by lia.
      pose proof (challenged_after _ t1 t2 T1 H) as H'.
      destruct (checkBlockProducerSignatureInHead ed25519_check i (bridge w)) as [[]|?|?|]; try done;
        rewrite E; by do 2 eexists.
Qed.

(** The first invalid signature is the one a round challenges. *)
Lemma round_challenges fuel k0 w : 0 <= clock w -> clock w < lastValidAt (bridge w) ->
  (k0 < numBPs (headEpoch (bridge w)))%nat -> checkBlockProducerSignatureInHead ed25519_check k0 (bridge w) = Ret false ->
  exists k, checkBlockProducerSignatureInHead ed25519_check k (bridge w) = Ret false /\
    challenged k (trace_of (Watchdog.round client d ed (S fuel) w)).
Proof using WO.
  intros H0 Hin Hk0 Hbad. set (b := bridge w) in *.
  set (bad := fun k => match checkBlockProducerSignatureInHead ed25519_check k b with Ret false => true | _ => false end).
  assert (exists k, (k <= k0)%nat /\ bad k = true /\ forall j, (j < k)%nat -> bad j = false) as (k & Hk & Hb & Hf).
  { apply least_true. unfold bad. by rewrite Hbad. }
  assert (checkBlockProducerSignatureInHead ed25519_check k b = Ret false) as Hck.
  { unfold bad in Hb. by destruct (checkBlockProducerSignatureInHead ed25519_check k b) as [[]|?|?|]. }
  exists k. split; [done|]. destruct (wok_state w) as (w1 & E1 & [B1 C1]). fold b in E1, B1.
  destruct (check_signatures_sends fuel (numBPs (headEpoch b)) 0 k w1) as (w2 & t2 & E2 & Hch); [lia | | by rewrite B1 |].
  { intros j Hj. cbn [Nat.add]. rewrite B1. specialize (Hf j Hj). unfold bad in Hf. intros Hx. by rewrite Hx in Hf. }
  unfold Watchdog.round, try_catch. rewrite eff_bind_eq. unfold perform. rewrite E1. unfold set_gauge.
  rewrite !emit_bind, eff_bind_eq. unfold bridgeState. rewrite (proj2 (Z.ltb_lt _ _)) by lia.
  cbn [ws_nextValidAt ws_numBlockProducers nextValidAt numBlockProducers].
  rewrite (proj2 (Z.eqb_neq (lastValidAt b) 0)) by lia. rewrite E2. cbn [Nat.add] in Hch.
  destruct Hch as [Hc (p & n & Hm & Hp)]. cbn. split.
  - unfold challenges in *. cbn. rewrite omap_app, Hc. done.
  - exists p, n. split; [set_solver | done].
Qed.

(** A challenge of an invalid signature removes the pending block. *)
Lemma challenge_removes now k b : bridge_inv now b -> Z.land (paused b) PAUSED_CHALLENGE = 0 -> now < lastValidAt b ->
  checkBlockProducerSignatureInHead ed25519_check k b = Ret false ->
  exists m, challenge ed25519_check now sender sender k b = Ret (set_lastValidAt 0 (set_balances m b)).
Proof using.
  intros Hi Hp Ht Hc. unfold challenge, pausable. rewrite Hp, (proj2 (Z.ltb_lt _ _) Ht), Hc. cbn.
  rewrite (proj2 (Z.leb_le _ _) (inv_stake _ _ Hi Ht)). cbn. by eexists.
Qed.

(** C11: The watchdog removes an invalid block.  Take a round that starts
    while a block of a reachable contract is pending that carries an
    invalid signature, with no other transaction before the round's own
    and a gas price below 10^13.  Then the round sends exactly one
    challenge, of an invalid signature.  Nobody waits for that transaction,
    but if it is mined before the end of the challenge period, while
    challenges are not paused, after whatever deposits, withdrawals and
    pauses, it succeeds: no block is pending any more, the confirmed blocks
    are the same, and [blockHashes] never answers the hash of the removed
    block as the pending one. *)
Theorem watchdog_removes_invalid t fuel k0 w :
  let b := bridge w in
  reachable sha256 ed25519_check t b -> t <= clock w < lastValidAt b ->
  (k0 < numBPs (headEpoch b))%nat -> checkBlockProducerSignatureInHead ed25519_check k0 b = Ret false ->
  exists k, checkBlockProducerSignatureInHead ed25519_check k b = Ret false /\
    challenged k (trace_of (Watchdog.round client d ed (S fuel) w)) /\
    forall now m flags, let b1 := set_paused flags (set_balances m b) in
      reachable sha256 ed25519_check now b1 -> Z.land flags PAUSED_CHALLENGE = 0 -> now < lastValidAt b ->
      exists b2, challenge ed25519_check now sender sender k b1 = Ret b2 /\
        lastValidAt b2 = 0 /\ blockHashes_ b2 = blockHashes_ b /\ curHeight b2 = curHeight b /\
        forall later asker h v, blockHashes later asker h b2 = Ret v -> v = default zero32 (blockHashes_ b !! h).
Proof using WO.
  cbv zeta. intros Hr [Ht Hin] Hk0 Hbad. apply reachable_inv in Hr. pose proof (inv_time _ _ Hr) as H0.
  destruct (round_challenges fuel k0 w) as (k & Hck & Hch); [lia | done..|]. exists k. split; [done|]. split; [done|].
  intros now m flags Hr1 Hf Hnow. apply reachable_inv in Hr1.
  destruct (challenge_removes now k _ Hr1) as [m' ->]; [done | done | exact Hck|].
  eexists. split; [reflexivity|]. split; [done|]. split; [done|]. split; [done|]. intros later asker h v Hv.
  unfold blockHashes in Hv. apply pausable_inv, Ret_inj in Hv as <-. unfold confirmed. cbn. by rewrite andb_false_r.
Qed.

End WatchSystem.

(** ** Witness *)

Module Witness.
Import Reference LightClientBlock.Witness NearBridge.Witness RelaySystem.Witness.

Definition watcher : WatchdogClient Sys := {|
  wd_bridgeState := read_ (fun now b =>
    Ret {| ws_currentHeight := currentHeight (bridgeState now b); ws_nextValidAt := nextValidAt (bridgeState now b);
           ws_numBlockProducers := numBlockProducers (bridgeState now b) |});
  wd_checkSignature i := read_ (fun _ b => checkBlockProducerSignatureInHead never i b);
  wd_getGasPrice := fun w => (Ret 20, w);
  wd_getTransactionCount := fun w => (Ret 4, w);
  wd_sendChallenge := fun _ _ _ w => (None, w)
|}.

#[local] Instance watcher_ok : WatchdogOk never watcher.
Proof.
  split.
  - apply read_reads.
  - intros i. apply read_reads.
  - intros w. exists 20, w. split; [done|]. split; [lia | reflexivity].
  - intros w. exists 4, w. split; [done | reflexivity].
Qed.

Definition pending0 : Sys := {| sy_bridge := st4; sy_clock := 50 |}.

(** The challenge mined at time 60, after another deposit. *)
Definition st4_later : NearBridge := set_paused 0 (set_balances (<["other" := 50]> (balances st4)) st4).

Lemma reachable_st4_later : reachable toy_hash never 60 st4_later.
Proof.
  apply (reachable_step _ _ 10 60 st4); [exact reachable_st4 | lia|].
  apply (step_deposit _ _ 60 _ _ "other" 50). vm_compute. reflexivity.
Qed.

Lemma watchdog_removes_invalid_witness :
  exists k b2, challenged k (trace_of (Watchdog.round watcher 1 1 2 pending0)) /\
    challenge never 60 "watchdog" "watchdog" k st4_later = Ret b2 /\ lastValidAt b2 = 0.
Proof.
  destruct (watchdog_removes_invalid toy_hash never watcher "watchdog" 1 1 10 1 0 pending0) as (k & _ & Hch & H);
    [exact reachable_st4 | vm_compute; split; [discriminate | reflexivity] | vm_compute; lia | vm_compute; reflexivity|].
  destruct (H 60 (<["other" := 50]> (balances st4)) 0) as (b2 & Hb & Hl & _); [exact reachable_st4_later | reflexivity | vm_compute; reflexivity|].
  exists k, b2. split; [exact Hch|]. split; [exact Hb | exact Hl].
Defined.

End Witness.
