(* ===== verification/Config.v ===== *)
(** * The configuration store (utils/config/index.js)

    [RainbowConfig]: declared options, the values of this process, and the
    configuration file shared with later processes.  The change-case
    package is a parameter (its three conversions); an environment is a
    function from variable names to optional strings. *)

From S2P Require Import Prelude.

(** ** Data *)

(** Where a value comes from. *)
Inductive paramType : Type :=
| FromEnv
| FromArg
| FromConfig
| FromDefault.

Record Declaration := { description : string; defaultValue : val; noConfig : bool }.

(** The three static fields; [paramValues] in insertion order. *)
Record RainbowConfig := {
  paramValues : list (string * (val * paramType));
  paramDeclarations : gmap string Declaration;
  configFile : gmap string val
}.

#[local] Set Default Proof Using "Type".

Section Config.
(** changeCase.camelCase, constantCase, paramCase and snakeCase;
    process.env. *)
Context (camelCase constantCase paramCase snakeCase : string -> string) (env : string -> option string).

(** ** Operations *)

(** A default value or [noConfig] left out is [''] or [false]. *)
Definition declareOption (name description : string) (defaultValue : option val) (noConfig : bool)
    (c : RainbowConfig) : RainbowConfig :=
  {| paramValues := paramValues c;
     paramDeclarations := <[name := {| description := description; defaultValue := default (VStr "") defaultValue;
                                       noConfig := noConfig |}]> (paramDeclarations c);
     configFile := configFile c |}.

Definition setParam (name : string) (value : val) (c : RainbowConfig) : RainbowConfig :=
  {| paramValues := assoc_set name (value, FromConfig) (paramValues c); paramDeclarations := paramDeclarations c;
     configFile := configFile c |}.

(** [null] is [VNull]. *)
Definition maybeGetParam (name : string) (c : RainbowConfig) : val :=
  match assoc name (paramValues c) with
  | Some (value, _) => value
  | None =>
      match configFile c !! camelCase name with
      | Some value => value
      | None =>
          match paramDeclarations c !! name with
          | Some decl => match defaultValue decl with VUndef => VNull | v => v end
          | None => VNull
          end
      end
  end.

Definition getParam (name : string) (c : RainbowConfig) : outcome val :=
  match maybeGetParam name c with
  | VNull => Throw (Error ("Parameter " +:+ name +:+ " must be specified."))
  | res => Ret res
  end.

(** The value an argument stands for, and its source. *)
Definition resolveArg (name : string) (value previous : val) (c : RainbowConfig) : outcome (val * paramType) :=
  match env (constantCase name) with
  | Some e =>
      if truthy (VStr e) then Ret (VStr e, FromEnv)
      else if truthy value then Ret (value, FromArg)
      else match configFile c !! camelCase name with
           | Some v => Ret (v, FromConfig)
           | None => if truthy previous then Ret (previous, FromDefault) else Exit 1
           end
  | None =>
      if truthy value then Ret (value, FromArg)
      else match configFile c !! camelCase name with
           | Some v => Ret (v, FromConfig)
           | None => if truthy previous then Ret (previous, FromDefault) else Exit 1
           end
  end.

Definition processArg (name : string) (value previous : val) (c : RainbowConfig) : outcome (val * RainbowConfig) :=
  match assoc name (paramValues c) with
  | Some _ => Exit 1
  | None =>
      '(v, ty) ← resolveArg name value previous c;
      Ret (v, {| paramValues := assoc_set name (v, ty) (paramValues c); paramDeclarations := paramDeclarations c;
                 configFile := configFile c |})
  end.

(** What [command.option] is given: the flags, the description and the
    default value. *)
Record CommandOption := { flags : string; optionDescription : string; optionDefault : val }.

(** One pass of the loop of [addOptions]. *)
Definition addOption (option : string) (c : RainbowConfig) : outcome CommandOption :=
  let opt := "--" +:+ paramCase option +:+ " <" +:+ snakeCase option +:+ ">" in
  match maybeGetParam (paramCase option) c, paramDeclarations c !! option with
  | VNull, Some declaration =>
      Ret {| flags := opt; optionDescription := description declaration;
             optionDefault := match defaultValue declaration with VNull => VUndef | v => v end |}
  | VNull, None => Throw (TypeError "Cannot read property 'defaultValue' of undefined")
  | v, Some declaration => Ret {| flags := opt; optionDescription := description declaration; optionDefault := v |}
  | _, None => Throw (TypeError "Cannot read property 'description' of undefined")
  end.

Fixpoint addOptions (options : list string) (c : RainbowConfig) : outcome (list CommandOption) :=
  match options with
  | [] => Ret []
  | o :: options' => x ← addOption o c; l ← addOptions options' c; Ret (x :: l)
  end.

(** The configuration file holds JSON: a key set to [undefined] is left
    out of it. *)
Definition configFile_set (key : string) (value : val) (file : gmap string val) : gmap string val :=
  match value with VUndef => delete key file | _ => <[key := value]> file end.

Definition saveConfig (c : RainbowConfig) : RainbowConfig :=
  {| paramValues := paramValues c; paramDeclarations := paramDeclarations c;
     configFile := fold_left (fun file p => configFile_set (camelCase p.1) p.2.1 file) (paramValues c) (configFile c) |}.

(** The action of a command: [newConfigValues] is what the handler
    returned, in the order of its properties; [None] is a falsy result. *)
Definition commandAction (newConfigValues : option (list (string * val))) (c : RainbowConfig) : RainbowConfig :=
  match newConfigValues with
  | None => c
  | Some entries =>
      let c' := fold_left (fun c p => setParam (paramCase p.1) p.2 c) entries c in
      match entries with [] => c' | _ => saveConfig c' end
  end.

(** A later process of the same user: the declarations are made again. *)
Definition restart (c : RainbowConfig) : RainbowConfig :=
  {| paramValues := []; paramDeclarations := paramDeclarations c; configFile := configFile c |}.

(** ** Lemmas *)

Lemma configFile_set_eq k v file : v <> VUndef -> configFile_set k v file !! k = Some v.
Proof. intros H. destruct v; try done; apply lookup_insert_eq. Qed.

Lemma configFile_set_ne k k' v file : k <> k' -> configFile_set k v file !! k' = file !! k'.
Proof. intros H. destruct v; cbn; by (apply lookup_delete_ne || apply lookup_insert_ne). Qed.

Lemma fold_file_lookup (l : list (string * (val * paramType))) (file : gmap string val) k :
  (forall p, p ∈ l -> camelCase p.1 <> k) ->
  fold_left (fun file p => configFile_set (camelCase p.1) p.2.1 file) l file !! k = file !! k.
Proof.
  revert file. induction l as [|p l IH]; intros file H; cbn; [done|].
  rewrite IH by (intros q Hq; apply H; by constructor). apply configFile_set_ne, H. constructor.
Qed.

Lemma fold_file_saved (l : list (string * (val * paramType))) (file : gmap string val) name v ty :
  NoDup (map (fun p => camelCase p.1) l) -> (name, (v, ty)) ∈ l -> v <> VUndef ->
  fold_left (fun file p => configFile_set (camelCase p.1) p.2.1 file) l file !! camelCase name = Some v.
Proof.
  intros Hnd Hin Hv. revert file Hnd Hin. induction l as [|p l IH]; intros file Hnd Hin; [by apply not_elem_of_nil in Hin|].
  cbn in Hnd |- *. apply list.NoDup_cons in Hnd as [Hn Hnd]. apply elem_of_cons in Hin as [<-|Hin]; [|by apply IH].
  cbn. rewrite fold_file_lookup.
  - by apply configFile_set_eq.
  - intros q Hq E. apply Hn. cbn. rewrite <- E. apply list_elem_of_In, (in_map (fun p => camelCase p.1)).
    by apply list_elem_of_In.
Qed.

Lemma assoc_in {A} k (v : A) l : assoc k l = Some v -> (k, v) ∈ l.
Proof.
  induction l as [|[k' v'] l IH]; cbn; [done|]. destruct (String.eqb_spec k k') as [->|].
  - intros [= ->]. constructor.
  - intros H. apply elem_of_cons. right. by apply IH.
Qed.

Lemma fold_setParam_other entries c k :
  (forall p, p ∈ entries -> paramCase p.1 <> k) ->
  assoc k (paramValues (fold_left (fun c p => setParam (paramCase p.1) p.2 c) entries c)) = assoc k (paramValues c).
Proof.
  revert c. induction entries as [|p entries IH]; intros c H; cbn; [done|].
  rewrite IH by (intros q Hq; apply H; by constructor). cbn. apply assoc_set_other. symmetry. apply H. constructor.
Qed.

Lemma fold_setParam_saved entries c name v :
  NoDup (map (fun p => paramCase p.1) entries) -> (name, v) ∈ entries ->
  assoc (paramCase name) (paramValues (fold_left (fun c p => setParam (paramCase p.1) p.2 c) entries c)) =
    Some (v, FromConfig).
Proof.
  revert c. induction entries as [|p entries IH]; intros c Hnd Hin; [by apply not_elem_of_nil in Hin|].
  cbn in Hnd |- *. apply list.NoDup_cons in Hnd as [Hn Hnd]. apply elem_of_cons in Hin as [<-|Hin]; [|by apply IH].
  rewrite fold_setParam_other; [cbn; apply assoc_set_same|].
  intros q Hq E. apply Hn. cbn. rewrite <- E. apply list_elem_of_In, (in_map (fun p => paramCase p.1)).
  by apply list_elem_of_In.
Qed.

(** What a command returned is in the file. *)
Lemma commandAction_file entries c name v :
  (name, v) ∈ entries -> NoDup (map (fun p => paramCase p.1) entries) ->
  NoDup (map (fun p => camelCase p.1) (paramValues (commandAction (Some entries) c))) -> v <> VUndef ->
  configFile (commandAction (Some entries) c) !! camelCase (paramCase name) = Some v.
Proof.
  intros Hin Hnd Hcc Hu. destruct entries as [|e entries]; [by apply not_elem_of_nil in Hin|].
  unfold commandAction, saveConfig in *. cbn [configFile paramValues] in *.
  apply (fold_file_saved _ _ (paramCase name) v FromConfig); [done| |done].
  apply assoc_in. by apply fold_setParam_saved.
Qed.

(** A value of the file is what a new process reads. *)
Lemma getParam_restart name v c :
  configFile c !! camelCase name = Some v -> v <> VNull -> getParam name (restart c) = Ret v.
Proof.
  intros Hf Hv. unfold getParam, maybeGetParam, restart. cbn [paramValues configFile assoc]. rewrite Hf. by destruct v.
Qed.

(** ** Properties *)

(** What a command returns survives the process: after a command's
    action, a later process reads every returned value under the option's
    name, as long as the option names stay distinct in camel case. *)
Theorem commandAction_persists entries c name v :
  let c' := commandAction (Some entries) c in
  (name, v) ∈ entries -> NoDup (map (fun p => paramCase p.1) entries) ->
  NoDup (map (fun p => camelCase p.1) (paramValues c')) -> v <> VNull -> v <> VUndef ->
  getParam (paramCase name) (restart c') = Ret v.
Proof. intros c' Hin Hnd Hcc Hv Hu. apply getParam_restart; [by apply commandAction_file | done]. Qed.

(** Precedence of the sources of an argument: the environment variable
    wins, then the argument itself, then the configuration file, then the
    default; the value is then what [getParam] returns, and giving the
    argument again ends the process. *)
Theorem processArg_precedence name value previous c v c' :
  processArg name value previous c = Ret (v, c') -> v <> VNull ->
  v = (if truthy (VStr (default "" (env (constantCase name)))) then VStr (default "" (env (constantCase name)))
       else if truthy value then value
       else default previous (configFile c !! camelCase name)) /\
  getParam name c' = Ret v /\ forall value' previous', processArg name value' previous' c' = Exit 1.
Proof.
  unfold processArg. destruct (assoc name (paramValues c)) eqn:Ha; [done|]. intros H Hv.
  apply outcome_bind_inv in H as ([v' ty] & Hr & [= <- <-]). split; [|split].
  - unfold resolveArg in Hr. destruct (env (constantCase name)) as [e|]; cbn [default from_option id] in *;
      repeat case_hyp Hr; cbn in *; by simplify_eq.
  - unfold getParam, maybeGetParam. cbn [paramValues]. rewrite assoc_set_same. by destruct v'.
  - intros value' previous'. cbn [paramValues]. by rewrite assoc_set_same.
Qed.

(** Saving writes every value of the process into the file, whatever
    its source and its declaration: values taken from the environment and
    options declared with [noConfig] are written too. *)
Theorem saveConfig_writes_all c name v ty :
  NoDup (map (fun p => camelCase p.1) (paramValues c)) -> (name, (v, ty)) ∈ paramValues c -> v <> VUndef ->
  configFile (saveConfig c) !! camelCase name = Some v.
Proof. intros Hnd Hin Hv. by apply (fold_file_saved _ _ name v ty). Qed.

(** A command whose options are all declared is set up without error. *)
Lemma addOptions_declared options c :
  Forall (fun o => is_Some (paramDeclarations c !! o)) options -> exists l, addOptions options c = Ret l.
Proof.
  induction 1 as [|o options [d Hd] _ [l IH]]; cbn; [by eexists|].
  unfold addOption. rewrite Hd. destruct (maybeGetParam _ _); cbn; rewrite IH; by eexists.
Qed.

End Config.

(** ** Witnesses *)

Module Witness.

Definition file0 : RainbowConfig := {|
  paramValues := [("daemon", (VStr "false", FromArg)); ("eth-master-sk", (VStr "0x01", FromEnv))];
  paramDeclarations := {[ "daemon" := {| description := ""; defaultValue := VStr "true"; noConfig := true |} ]};
  configFile := ∅
|}.

(** Stand-ins for the conversions: any injective renaming will do. *)
Definition camel (s : string) : string := "c:" +:+ s.
Definition konst (s : string) : string := "K:" +:+ s.
Definition kebab (s : string) : string := "p:" +:+ s.
Definition environment (s : string) : option string := if String.eqb s "K:eth-master-sk" then Some "0x02" else None.

Lemma commandAction_persists_witness :
  getParam camel (kebab "ethNodeUrl")
    (restart (commandAction camel kebab (Some [("ethNodeUrl", VStr "http://localhost:9545")]) file0)) =
  Ret (VStr "http://localhost:9545").
Proof.
  apply (commandAction_persists camel kebab [("ethNodeUrl", VStr "http://localhost:9545")] file0 "ethNodeUrl").
  - constructor.
  - apply (bool_decide_unpack _). vm_compute. exact I.
  - apply (bool_decide_unpack _). vm_compute. exact I.
  - discriminate.
  - discriminate.
Defined.

Lemma processArg_precedence_witness :
  VStr "arg" = (if truthy (VStr (default "" (environment (konst "near-node-url")))) then
                  VStr (default "" (environment (konst "near-node-url")))
                else if truthy (VStr "arg") then VStr "arg"
                else default VUndef (configFile file0 !! camel "near-node-url")) /\
  getParam camel "near-node-url"
    {| paramValues := assoc_set "near-node-url" (VStr "arg", FromArg) (paramValues file0);
       paramDeclarations := paramDeclarations file0; configFile := configFile file0 |} = Ret (VStr "arg") /\
  forall value' previous', processArg camel konst environment "near-node-url" value' previous'
    {| paramValues := assoc_set "near-node-url" (VStr "arg", FromArg) (paramValues file0);
       paramDeclarations := paramDeclarations file0; configFile := configFile file0 |} = Exit 1.
Proof.
  apply (processArg_precedence camel konst environment "near-node-url" (VStr "arg") VUndef file0);
    [vm_compute; reflexivity | discriminate].
Defined.

(** A secret that came from the environment is written to the file. *)
Lemma saveConfig_writes_all_witness : configFile (saveConfig camel file0) !! camel "eth-master-sk" = Some (VStr "0x01").
Proof.
  apply (saveConfig_writes_all camel file0 "eth-master-sk" (VStr "0x01") FromEnv).
  - apply (bool_decide_unpack _). vm_compute. exact I.
  - constructor. constructor.
  - discriminate.
Defined.

End Witness.
