(* ===== verification/Cli.v ===== *)
(** * The command line (cli/index.js, cli/commands/start, cli/commands/stop)

    The option declarations and the registered commands as tables, the
    inline command handlers that look tokens up in the configuration, the
    daemons started through the process manager with the argument lists
    they get, and the stop command.  commander, change-case, pm2 and
    [path.join] are parameters. *)

From S2P Require Import Prelude Config.

(** ** Declarations *)

(** The arguments of one [declareOption] call. *)
Record Option := {
  opt_name : string;
  opt_description : string;
  opt_default : option val;
  opt_noConfig : bool
}.

Definition declared (name description : string) (defaultValue : option val) (noConfig : bool) : Option :=
  {| opt_name := name; opt_description := description; opt_default := defaultValue; opt_noConfig := noConfig |}.

Definition declareOne (c : RainbowConfig) (o : Option) : RainbowConfig :=
  declareOption (opt_name o) (opt_description o) (opt_default o) (opt_noConfig o) c.

(** What [declareOption] records for it. *)
Definition declaration_of (o : Option) : Declaration :=
  {| description := opt_description o; defaultValue := default (VStr "") (opt_default o); noConfig := opt_noConfig o |}.

Section Declarations.
(** [path.join] of a directory and a relative path, and the directories
    of the three libraries. *)
Context (path_join : string -> string -> string) (LIBS_SOL_SRC_DIR LIBS_RS_SRC_DIR LIBS_TC_SRC_DIR : string).


Definition bridgeDeclarations : list Option :=
  [declared "near-network-id"
     "The identifier of the NEAR network that the given NEAR node is expected to represent."
     None false;
   declared "near-node-url"
     "The URL of the NEAR node."
     None false;
   declared "eth-node-url"
     "The URL of the Ethereum node."
     None false;
   declared "near-master-account"
     "The account of the master account on NEAR blockchain that can be used to deploy and initialize the test contracts. This account will also own the initial supply of the fungible tokens."
     None false;
   declared "near-master-sk"
     "The secret key of the master account on NEAR blockchain."
     None false;
   declared "eth-master-sk"
     "The secret key of the master account on Ethereum blockchain."
     None false;
   declared "near-client-account"
     "The account of the Near Client contract that can be used to accept ETH headers."
     (Some (VStr "rainbow_bridge_eth_on_near_client")) false;
   declared "near-client-sk"
     "The secret key of the Near Client account. If not specified will use master SK."
     None false;
   declared "near-client-contract-path"
     "The path to the Wasm file containing the Near Client contract."
     (Some (VStr (path_join LIBS_RS_SRC_DIR "res/eth_client.wasm"))) false;
   declared "near-client-init-balance"
     "The initial balance of Near Client contract in yoctoNEAR."
     (Some (VStr "100000000000000000000000000")) false;
   declared "near-client-validate-ethash"
     "Whether validate ethash of submitted eth block, should set to true on mainnet and false on PoA testnets"
     (Some (VStr "true")) false;
   declared "hashes-gc-threshold"
     "Events that happen past this threshold cannot be verified by the client."
     (Some (VNum 40000)) false;
   declared "finalized-gc-threshold"
     "We store full information about the headers for the past `finalized_gc_threshold` blocks."
     (Some (VNum 500)) false;
   declared "num-confirmations"
     "Number of confirmations blocks on Ethereum that applications can use to consider the transaction safe."
     (Some (VNum 30)) false;
   declared "near-client-trusted-signer"
     "When non empty, deploy as trusted-signer mode where only trusted signer can submit blocks to client"
     (Some (VStr "")) false;
   declared "near-prover-account"
     "The account of the Near Prover contract that can be used to accept ETH headers."
     (Some (VStr "rainbow_bridge_eth_on_near_prover")) false;
   declared "near-prover-sk"
     "The secret key of the Near Prover account. If not specified will use master SK."
     None false;
   declared "near-prover-contract-path"
     "The path to the Wasm file containing the Near Prover contract."
     (Some (VStr (path_join LIBS_RS_SRC_DIR "res/eth_prover.wasm"))) false;
   declared "near-prover-init-balance"
     "The initial balance of Near Prover contract in yoctoNEAR."
     (Some (VStr "100000000000000000000000000")) false;
   declared "daemon"
     "Whether the process should be launched as a daemon."
     (Some (VStr "true")) true;
   declared "core-src"
     "Path to the nearcore source. It will be downloaded if not provided."
     (Some (VStr "")) false;
   declared "eth-gas-multiplier"
     "How many times more in Ethereum gas are we willing to overpay."
     (Some (VStr "1")) false;
   declared "metrics-port"
     "On which port to expose metrics for corresponding relayer, if not provided no metrics exposed"
     (Some VNull) false].

Definition userDeclarations : list Option :=
  [declared "near-token-factory-account"
     "The account of the token factory contract that will be used to mint tokens locked on Ethereum."
     (Some (VStr "neartokenfactory.node0")) false;
   declared "near-token-factory-sk"
     "The secret key of the token factory account. If not specified will use master SK."
     None false;
   declared "near-token-factory-contract-path"
     "The path to the Wasm file containing the token factory contract."
     (Some (VStr (path_join LIBS_TC_SRC_DIR "res/bridge_token_factory.wasm"))) false;
   declared "near-token-factory-init-balance"
     "The initial balance of token factory contract in yoctoNEAR."
     (Some (VStr "1000000000000000000000000000")) false;
   declared "eth-locker-address"
     "ETH address of the locker contract."
     None false;
   declared "eth-locker-abi-path"
     "Path to the .abi file defining Ethereum locker contract."
     (Some (VStr (path_join LIBS_TC_SRC_DIR "res/ERC20Locker.full.abi"))) false;
   declared "eth-locker-bin-path"
     "Path to the .bin file defining Ethereum locker contract."
     (Some (VStr (path_join LIBS_TC_SRC_DIR "res/ERC20Locker.full.bin"))) false;
   declared "eth-erc20-address"
     "ETH address of the ERC20 contract."
     None false;
   declared "eth-erc20-abi-path"
     "Path to the .abi file defining Ethereum ERC20 contract."
     (Some (VStr (path_join LIBS_TC_SRC_DIR "res/TToken.full.abi"))) false;
   declared "eth-erc20-bin-path"
     "Path to the .bin file defining Ethereum ERC20 contract."
     (Some (VStr (path_join LIBS_TC_SRC_DIR "res/TToken.full.bin"))) false;
   declared "eth-ed25519-address"
     "ETH address of the ED25519 contract."
     None false;
   declared "eth-ed25519-artifact-path"
     "Path to the artifact file defining Ethereum ED25519 contract."
     (Some (VStr (path_join LIBS_SOL_SRC_DIR "nearbridge/artifacts/contracts/Ed25519.sol/Ed25519.json"))) false;
   declared "eth-client-lock-eth-amount"
     "Amount of Ether that should be temporarily locked when submitting a new header to EthClient, in wei."
     (Some (VStr "100000000000000000000")) false;
   declared "eth-client-lock-duration"
     "The challenge window during which anyone can challenge an incorrect ED25519 signature of the Near block, in EthClient, in seconds."
     (Some (VNum 14400)) false;
   declared "eth-client-replace-duration"
     "Minimum time difference required to replace a block during challenge period, in EthClient, in seconds."
     (Some (VNum 18000)) false;
   declared "eth-client-address"
     "ETH address of the EthClient contract."
     None false;
   declared "eth-client-artifact-path"
     "Path to the artifact file defining Ethereum Client contract."
     (Some (VStr (path_join LIBS_SOL_SRC_DIR "nearbridge/artifacts/contracts/NearBridge.sol/NearBridge.json"))) false;
   declared "eth-admin-address"
     "ETH address of the administrator for locker contract. It is used for upgradeability purposes. If empty, used address of eth-master-sk."
     None false;
   declared "monitor-accounts-path"
     "Path to all accounts on NEAR and Ethereum side to monitor. Ignored if not specified."
     (Some (VStr "")) false;
   declared "eth-prover-address"
     "ETH address of the EthProver contract."
     None false;
   declared "eth-prover-artifact-path"
     "Path to the artifact file defining Ethereum Prover contract."
     (Some (VStr (path_join LIBS_SOL_SRC_DIR "nearprover/artifacts/contracts/NearProver.sol/NearProver.json"))) false;
   declared "near2eth-relay-min-delay"
     "Minimum number of seconds to wait if the relay can't submit a block right away."
     (Some (VStr "1")) false;
   declared "near2eth-relay-max-delay"
     "Maximum number of seconds to wait if the relay can't submit a block right away."
     (Some (VStr "600")) false;
   declared "near2eth-relay-error-delay"
     "Number of seconds to wait before retrying if there is an error."
     (Some (VStr "1")) false;
   declared "watchdog-delay"
     "Number of seconds to wait after validating all signatures."
     (Some (VStr "300")) false;
   declared "watchdog-error-delay"
     "Number of seconds to wait before retrying if there is an error."
     (Some (VStr "1")) false;
   declared "near-erc20-account"
     "Must be declared before set"
     None false;
   declared "total-submit-block"
     "Number of blocks to submit on each batch update from Ethereum to NEAR"
     (Some (VNum 4)) false;
   declared "gas-per-transaction"
     "Maximum gas per transaction add_block_header"
     (Some (VStr "72000000000000")) false;
   declared "archival"
     "Start Near node in archival mode (no garbage collection)"
     (Some (VStr "false")) false].

Definition declarations : list Option :=
  (bridgeDeclarations ++ userDeclarations)%list.

(** The configuration once every [declareOption] has run. *)
Definition declareAll (c : RainbowConfig) : RainbowConfig :=
  fold_left declareOne declarations c.

End Declarations.

(** ** Commands *)

(** A registered command: its name below [program], its positional
    arguments, the flags it declares itself, and the options it takes from
    the configuration; help texts are left out. *)
Record Command := {
  cmd_path : list string;
  cmd_arguments : list string;
  cmd_own : list string;
  cmd_options : list string
}.

Definition command (path arguments own options : list string) : Command :=
  {| cmd_path := path; cmd_arguments := arguments; cmd_own := own; cmd_options := options |}.

Definition generalCommands : list Command :=
  [command ["prepare"] [] []
     ["core-src"];
   command ["status"] [] []
     ["near-network-id"; "near-node-url"; "near-master-account"; "near-master-sk"; "near-client-account";
      "near-client-sk"; "near-prover-account"; "near-prover-sk"; "eth-node-url"; "eth-master-sk"]].

Definition startCommands : list Command :=
  [command ["start"; "near-node"] [] []
     ["archival"];
   command ["start"; "ganache"] [] []
     [];
   command ["start"; "eth2near-relay"] [] []
     ["near-master-account"; "near-master-sk"; "near-client-account"; "near-network-id"; "near-node-url";
      "eth-node-url"; "total-submit-block"; "gas-per-transaction"; "daemon"; "metrics-port"];
   command ["start"; "near2eth-relay"] [] []
     ["eth-node-url"; "eth-master-sk"; "near-node-url"; "near-network-id"; "eth-client-artifact-path";
      "eth-client-address"; "near2eth-relay-min-delay"; "near2eth-relay-max-delay";
      "near2eth-relay-error-delay"; "eth-gas-multiplier"; "daemon"; "metrics-port"];
   command ["start"; "bridge-watchdog"] [] []
     ["eth-node-url"; "eth-master-sk"; "eth-client-artifact-path"; "eth-client-address"; "watchdog-delay";
      "watchdog-error-delay"; "daemon"; "metrics-port"];
   command ["start"; "address-watcher"] [] []
     ["eth-node-url"; "near-node-url"; "near-network-id"; "eth-master-sk"; "near-client-account";
      "near-master-account"; "monitor-accounts-path"; "daemon"; "metrics-port"]].

Definition stopCommands : list Command :=
  [command ["stop"; "all"] [] []
     [];
   command ["stop"; "near-node"] [] []
     [];
   command ["stop"; "ganache"] [] []
     [];
   command ["stop"; "eth2near-relay"] [] []
     [];
   command ["stop"; "near2eth-relay"] [] []
     [];
   command ["stop"; "bridge-watchdog"] [] []
     []].

Definition initCommands : list Command :=
  [command ["init-near-contracts"] [] []
     ["near-network-id"; "near-node-url"; "eth-node-url"; "near-master-account"; "near-master-sk";
      "near-client-account"; "near-client-sk"; "near-client-contract-path"; "near-client-init-balance";
      "near-client-validate-ethash"; "near-client-trusted-signer"; "hashes-gc-threshold";
      "finalized-gc-threshold"; "num-confirmations"; "near-prover-account"; "near-prover-sk";
      "near-prover-contract-path"; "near-prover-init-balance"];
   command ["init-eth-ed25519"] [] []
     ["eth-node-url"; "eth-master-sk"; "eth-ed25519-artifact-path"; "eth-gas-multiplier"];
   command ["init-eth-client"] [] []
     ["eth-node-url"; "eth-master-sk"; "eth-client-artifact-path"; "eth-admin-address"; "eth-ed25519-address";
      "eth-client-lock-eth-amount"; "eth-client-lock-duration"; "eth-client-replace-duration";
      "eth-gas-multiplier"];
   command ["init-eth-prover"] [] []
     ["eth-node-url"; "eth-master-sk"; "eth-prover-artifact-path"; "eth-admin-address"; "eth-client-address";
      "eth-gas-multiplier"]].

Definition userCommands : list Command :=
  [command ["init-near-token-factory"] [] []
     ["near-node-url"; "near-network-id"; "near-master-account"; "near-master-sk"; "near-prover-account";
      "near-token-factory-account"; "near-token-factory-sk"; "near-token-factory-contract-path";
      "near-token-factory-init-balance"; "eth-locker-address"; "eth-erc20-address"];
   command ["deploy-token"] ["<token_name>"; "<eth_token_address>"] []
     ["near-node-url"; "near-network-id"; "near-master-account"; "near-master-sk";
      "near-token-factory-account"; "near-token-factory-sk"];
   command ["init-eth-locker"] [] []
     ["near-token-factory-account"; "eth-node-url"; "eth-master-sk"; "eth-locker-abi-path";
      "eth-locker-bin-path"; "eth-admin-address"; "eth-prover-address"; "eth-gas-multiplier"];
   command ["init-eth-erc20"] [] []
     ["eth-node-url"; "eth-master-sk"; "eth-erc20-abi-path"; "eth-erc20-bin-path"; "eth-gas-multiplier"];
   command ["eth-to-near-find-proof"] ["<locked_event>"] []
     ["eth-node-url"]].

Definition transferCommands : list Command :=
  [command ["TESTING"; "transfer-eth-erc20-to-near"] [] ["--amount"; "--eth-sender-sk"; "--near-receiver-account"; "--token-name"]
     ["eth-erc20-address"; "near-erc20-account"; "eth-node-url"; "eth-erc20-abi-path"; "eth-locker-address";
      "eth-locker-abi-path"; "near-node-url"; "near-network-id"; "near-token-factory-account";
      "near-client-account"; "near-master-account"; "near-master-sk"];
   command ["TESTING"; "transfer-eth-erc20-from-near"] [] ["--amount"; "--near-sender-account"; "--near-sender-sk"; "--eth-receiver-address"; "--token-name"]
     ["eth-erc20-address"; "near-erc20-account"; "near-node-url"; "near-network-id";
      "near-token-factory-account"; "eth-node-url"; "eth-master-sk"; "eth-erc20-abi-path";
      "eth-locker-address"; "eth-locker-abi-path"; "eth-client-artifact-path"; "eth-client-address";
      "eth-prover-artifact-path"; "eth-prover-address"; "eth-gas-multiplier"]].

Definition testingCommands : list Command :=
  [command ["TESTING"; "mint-erc20-tokens"] ["<eth_account_address>"; "<amount>"; "<token_name>"] []
     ["eth-node-url"; "eth-erc20-address"; "eth-erc20-abi-path"];
   command ["TESTING"; "get-account-address"] ["<eth_secret_key>"] []
     ["eth-node-url"];
   command ["TESTING"; "get-erc20-balance"] ["<eth_account_address>"] []
     ["eth-node-url"; "eth-erc20-address"; "eth-erc20-abi-path"];
   command ["TESTING"; "get-bridge-on-near-balance"] [] ["--near-receiver-account"]
     ["near-erc20-account"; "near-network-id"; "near-node-url"];
   command ["TESTING"; "get-client-block-height-hash"] [] []
     ["eth-node-url"; "eth-master-sk"; "eth-client-artifact-path"; "eth-client-address"];
   command ["TESTING"; "eth-to-near-approve"] ["<eth_account_address>"; "<amount>"; "<token_name>"] []
     ["eth-node-url"; "eth-erc20-address"; "eth-erc20-abi-path"; "eth-locker-address"];
   command ["TESTING"; "eth-to-near-lock"] ["<eth_account_address>"; "<near_account_name>"; "<amount>"; "<token_name>"] []
     ["eth-node-url"; "eth-erc20-address"; "eth-locker-abi-path"; "eth-locker-address"];
   command ["TESTING"; "near-to-eth-unlock"] ["<block_height>"; "<proof>"] []
     ["eth-node-url"; "eth-master-sk"; "eth-locker-abi-path"; "eth-locker-address"; "eth-gas-multiplier"]].

Definition dangerCommands : list Command :=
  [command ["DANGER"; "submit_invalid_near_block"] [] []
     ["eth-node-url"; "eth-master-sk"; "near-node-url"; "near-network-id"; "eth-client-artifact-path";
      "eth-client-address"; "near2eth-relay-min-delay"; "near2eth-relay-max-delay";
      "near2eth-relay-error-delay"; "eth-gas-multiplier"];
   command ["DANGER"; "deploy_test_erc20"] [] []
     ["eth-node-url"; "eth-master-sk"; "eth-erc20-abi-path"; "eth-gas-multiplier"];
   command ["eth-dump"] ["<kind_of_data>"] ["--path"; "--start-block"; "--end-block"]
     ["eth-node-url"];
   command ["near-dump"] ["<kind_of_data>"] ["--path"; "--num-blocks"]
     ["near-node-url"]].

(** Every command registered through [addOptions], in order. *)
Definition commands : list Command :=
  (generalCommands ++ startCommands ++ stopCommands ++ initCommands ++ userCommands ++ transferCommands ++
   testingCommands ++ dangerCommands)%list.

(** ** Handlers that go through the configuration *)

Section Handlers.
Context (camelCase paramCase capitalCase : string -> string).

(** What [DeployToken.execute] resolves to: the account, the address, and
    the remaining properties. *)
Record DeployedTokenInfo := {
  nearTokenAccount : val;
  ethTokenAddress_ : val;
  otherDeployedTokenInfo : list (string * val)
}.

(** The handler of [deploy-token]; [None] is a falsy result. *)
Definition deployTokenHandler (tokenName : string) (ethTokenAddress : val) (deployedTokenInfo : option DeployedTokenInfo)
    : option (list (string * val)) :=
  match deployedTokenInfo with
  | None => None
  | Some info =>
      Some (fold_left (fun o p => assoc_set p.1 p.2 o) (otherDeployedTokenInfo info)
        (assoc_set ("eth" +:+ capitalCase tokenName +:+ "Address") ethTokenAddress
          [("near" +:+ capitalCase tokenName +:+ "Account", nearTokenAccount info)]))
  end.

(** The token lookup shared by the two transfer handlers: with a token
    name, both addresses come from the configuration. *)
Definition transferArgs (tokenName : val) (args : list (string * val)) (c : RainbowConfig)
    : outcome (list (string * val)) :=
  match tokenName with
  | VStr name =>
      if truthy (VStr name) then
        address ← getParam camelCase ("eth-" +:+ name +:+ "-address") c;
        account ← getParam camelCase ("near-" +:+ name +:+ "-account") c;
        Ret (assoc_set "nearErc20Account" account (assoc_set "ethErc20Address" address args))
      else Ret args
  | _ => Ret args
  end.

(** The lookup of mint, approve and lock: the address only. *)
Definition tokenArgs (tokenName : val) (args : list (string * val)) (c : RainbowConfig)
    : outcome (list (string * val)) :=
  match tokenName with
  | VStr name =>
      if truthy (VStr name) then
        address ← getParam camelCase ("eth-" +:+ name +:+ "-address") c;
        Ret (assoc_set "ethErc20Address" address args)
      else Ret args
  | _ => Ret args
  end.

End Handlers.

(** ** Daemons *)

(** The configuration handed to the process manager: what names the process,
    what it is started with and how it is stopped.  The script (the command
    line itself, or the ganache script), the interpreter, the environment and
    the log date format are left out. *)
Record ProcessConfig := {
  pc_name : string;
  pc_args : list val;
  pc_error_file : string;
  pc_out_file : string;
  pc_wait_ready : bool;
  pc_kill_timeout : option Z
}.

(** A handler's argument: the value of each named property. *)
Definition Args : Type := string -> val.

Definition flag (name : string) (value : val) : list val := [VStr ("--" +:+ name); value].

Definition eth2near_config (a : Args) : ProcessConfig := {|
  pc_name := "eth2near-relay";
  pc_error_file := "~/.rainbow/logs/eth2near-relay/err.log";
  pc_out_file := "~/.rainbow/logs/eth2near-relay/out.log";
  pc_args := ([VStr "start"; VStr "eth2near-relay"] ++
    flag "near-network-id" (a "nearNetworkId") ++
    flag "near-node-url" (a "nearNodeUrl") ++
    flag "near-master-account" (a "nearMasterAccount") ++
    flag "near-master-sk" (a "nearMasterSk") ++
    flag "near-client-account" (a "nearClientAccount") ++
    flag "eth-node-url" (a "ethNodeUrl") ++
    flag "total-submit-block" (a "totalSubmitBlock") ++
    flag "gas-per-transaction" (a "gasPerTransaction") ++
    flag "daemon" (VStr "false") ++
    flag "metrics-port" (a "metricsPort"))%list;
  pc_wait_ready := true;
  pc_kill_timeout := Some 60000
|}.

Definition near2eth_config (a : Args) : ProcessConfig := {|
  pc_name := "near2eth-relay";
  pc_error_file := "~/.rainbow/logs/near2eth-relay/err.log";
  pc_out_file := "~/.rainbow/logs/near2eth-relay/out.log";
  pc_args := ([VStr "start"; VStr "near2eth-relay"] ++
    flag "near-node-url" (a "nearNodeUrl") ++
    flag "near-network-id" (a "nearNetworkId") ++
    flag "eth-node-url" (a "ethNodeUrl") ++
    flag "eth-master-sk" (a "ethMasterSk") ++
    flag "eth-client-artifact-path" (a "ethClientArtifactPath") ++
    flag "eth-client-address" (a "ethClientAddress") ++
    flag "eth-gas-multiplier" (a "ethGasMultiplier") ++
    flag "near2eth-relay-min-delay" (a "near2ethRelayMinDelay") ++
    flag "near2eth-relay-max-delay" (a "near2ethRelayMaxDelay") ++
    flag "near2eth-relay-error-delay" (a "near2ethRelayErrorDelay") ++
    flag "daemon" (VStr "false") ++
    flag "metrics-port" (a "metricsPort"))%list;
  pc_wait_ready := true;
  pc_kill_timeout := Some 60000
|}.

Definition watchdog_config (a : Args) : ProcessConfig := {|
  pc_name := "bridge-watchdog";
  pc_error_file := "~/.rainbow/logs/watchdog/err.log";
  pc_out_file := "~/.rainbow/logs/watchdog/out.log";
  pc_args := ([VStr "start"; VStr "bridge-watchdog"] ++
    flag "eth-node-url" (a "ethNodeUrl") ++
    flag "eth-master-sk" (a "ethMasterSk") ++
    flag "eth-client-artifact-path" (a "ethClientArtifactPath") ++
    flag "eth-client-address" (a "ethClientAddress") ++
    flag "watchdog-delay" (a "watchdogDelay") ++
    flag "watchdog-error-delay" (a "watchdogErrorDelay") ++
    flag "daemon" (VStr "false") ++
    flag "metrics-port" (a "metricsPort"))%list;
  pc_wait_ready := false;
  pc_kill_timeout := None
|}.

Definition address_watcher_config (a : Args) : ProcessConfig := {|
  pc_name := "address-watcher";
  pc_error_file := "~/.rainbow/logs/address-watcher/err.log";
  pc_out_file := "~/.rainbow/logs/address-watcher/out.log";
  pc_args := ([VStr "start"; VStr "address-watcher"] ++
    flag "eth-node-url" (a "ethNodeUrl") ++
    flag "near-node-url" (a "nearNodeUrl") ++
    flag "near-network-id" (a "nearNetworkId") ++
    flag "eth-master-sk" (a "ethMasterSk") ++
    flag "near-client-account" (a "nearClientAccount") ++
    flag "near-master-account" (a "nearMasterAccount") ++
    flag "monitor-accounts-path" (a "monitorAccountsPath") ++
    flag "daemon" (VStr "false") ++
    flag "metrics-port" (a "metricsPort"))%list;
  pc_wait_ready := false;
  pc_kill_timeout := None
|}.

Definition ganache_config : ProcessConfig := {|
  pc_name := "ganache";
  pc_error_file := "~/.rainbow/logs/ganache/err.log";
  pc_out_file := "~/.rainbow/logs/ganache/out.log";
  pc_args := [];
  pc_wait_ready := false;
  pc_kill_timeout := None
|}.

(** The commands that run as daemons, by name. *)
Definition daemons (a : Args) : list (string * ProcessConfig) :=
  [("eth2near-relay", eth2near_config a); ("near2eth-relay", near2eth_config a);
   ("bridge-watchdog", watchdog_config a); ("address-watcher", address_watcher_config a)].

(** What the process manager is asked to do. *)
Inductive PmEvent : Type :=
| PmConnect
| PmStart (config : ProcessConfig)
| PmDelete (name : string)
| PmDisconnect
| NearupStop
| Foreground.

(** The process manager: [pm_describe] gives the callback's error flag and
    the number of processes of that name ([None]: not an array);
    [pm_connect] and [pm_start] give the callback's error flag. *)
Class ProcessManager (W : Type) := {
  pm_connect : service W bool;
  pm_describe : string -> service W (bool * option nat);
  pm_start : ProcessConfig -> service W bool;
  pm_delete : string -> service W unit;
  pm_disconnect : service W unit;
  nearup_stop : service W unit
}.

Section Processes.
Context {W : Type} {PM : ProcessManager W}.

Definition spawnProcess (name : string) (config : ProcessConfig) : eff W PmEvent unit :=
  '(_, process) ← query (pm_describe name);
  match process with
  | None => throw (TypeError "Cannot read property 'length' of undefined")
  | Some O =>
      _ ← perform (PmStart config) (pm_start config);
      perform PmDisconnect pm_disconnect
  | Some (S _) => perform PmDisconnect pm_disconnect
  end.

(** The body shared by the four daemon commands; the foreground run of the
    service is one event here. *)
Definition startCommand (config : Args -> ProcessConfig) (a : Args) : eff W PmEvent unit :=
  match a "daemon" with
  | VStr "true" =>
      err ← perform PmConnect pm_connect;
      if (err : bool) then mret tt else spawnProcess (pc_name (config a)) (config a)
  | _ => emit Foreground
  end.

Definition StartEth2NearRelayCommand : Args -> eff W PmEvent unit := startCommand eth2near_config.
Definition StartNear2EthRelayCommand : Args -> eff W PmEvent unit := startCommand near2eth_config.
Definition StartWatchdogCommand : Args -> eff W PmEvent unit := startCommand watchdog_config.
Definition AddressWatcherCommand : Args -> eff W PmEvent unit := startCommand address_watcher_config.

(** [stopLocalNearNode] and [stop] log every error. *)
Definition stopLocalNearNode : eff W PmEvent unit :=
  try_catch (perform NearupStop nearup_stop) (fun _ => mret tt).

Definition stop (serviceName : string) : eff W PmEvent unit :=
  try_catch (perform (PmDelete serviceName) (pm_delete serviceName)) (fun _ => mret tt).

Fixpoint stopServices (serviceNames : list string) : eff W PmEvent unit :=
  match serviceNames with
  | [] => mret tt
  | serviceName :: rest =>
      _ ← stop serviceName; _ ← perform PmDisconnect pm_disconnect; stopServices rest
  end.

(** The services [stop all] goes through. *)
Definition managedServices : list string := ["ganache"; "eth2near-relay"; "near2eth-relay"; "bridge-watchdog"].

(** [StopManagedProcessCommand.execute]. *)
Definition stopCommand (serviceName : string) : eff W PmEvent unit :=
  if String.eqb serviceName "near-node" then stopLocalNearNode
  else if String.eqb serviceName "all" then _ ← stopLocalNearNode; stopServices managedServices
  else _ ← stop serviceName; perform PmDisconnect pm_disconnect.

End Processes.

(** What the process manager promises: [running] is the set of names it
    manages. *)
Class ProcessManagerOk (W : Type) {PM : ProcessManager W} := {
  running : W -> gset string;
  pm_connect_ok w : exists err w', pm_connect w = (Ret err, w') /\ running w' = running w;
  pm_describe_ok name w : exists n w', pm_describe name w = (Ret (false, Some n), w') /\ running w' = running w /\
    (n = 0%nat <-> name ∉ running w);
  pm_start_ok config w : exists err w', pm_start config w = (Ret err, w') /\
    running w' = if err : bool then running w else {[ pc_name config ]} ∪ running w;
  pm_delete_ok name w : exists w', running w' = running w ∖ {[ name ]} /\
    pm_delete name w = (if decide (name ∈ running w) then Ret tt else Throw (Error "process or namespace not found"), w');
  pm_disconnect_ok w : exists w', pm_disconnect w = (Ret tt, w') /\ running w' = running w;
  nearup_stop_ok w : exists o w', nearup_stop w = (o, w') /\ running w' = running w /\
    (o = Ret tt \/ exists e, o = Throw e)
}.

(** ** The name an option's value arrives under *)

Definition upcase (c : ascii) : ascii :=
  let n := nat_of_ascii c in if ((97 <=? n) && (n <=? 122))%nat then ascii_of_nat (n - 32) else c.

(** An option written [near-node-url] is the property [nearNodeUrl]. *)
Fixpoint property_from (upper : bool) (s : string) : string :=
  match s with
  | EmptyString => EmptyString
  | String c s' =>
      if Ascii.eqb c "-" then property_from true s'
      else String (if upper then upcase c else c) (property_from false s')
  end.

Definition property_of (option : string) : string := property_from false option.

(** The arguments a child process needs so as to see the handler's values,
    with the daemon option turned off. *)
Definition child_args (a : Args) (name : string) (options : list string) : list val :=
  (VStr "start" :: VStr name ::
   concat (map (fun o => flag o (if String.eqb o "daemon" then VStr "false" else a (property_of o))) options))%list.

(** ** Lemmas *)

Lemma declare_fold_other (os : list Option) c name :
  name ∉ map opt_name os -> paramDeclarations (fold_left declareOne os c) !! name = paramDeclarations c !! name.
Proof.
  revert c. induction os as [|o os IH]; intros c H; cbn in *; [done|]. apply not_elem_of_cons in H as [Hne H].
  rewrite IH by done. by apply lookup_insert_ne.
Qed.

Lemma declare_fold_lookup (os : list Option) c o :
  NoDup (map opt_name os) -> o ∈ os ->
  paramDeclarations (fold_left declareOne os c) !! opt_name o = Some (declaration_of o).
Proof.
  revert c. induction os as [|x os IH]; intros c Hnd Hin; [by apply not_elem_of_nil in Hin|].
  cbn in Hnd |- *. apply list.NoDup_cons in Hnd as [Hn Hnd]. apply elem_of_cons in Hin as [->|Hin]; [|by apply IH].
  rewrite declare_fold_other by done. apply lookup_insert_eq.
Qed.

Lemma declare_fold_state (os : list Option) c :
  paramValues (fold_left declareOne os c) = paramValues c /\ configFile (fold_left declareOne os c) = configFile c.
Proof. revert c. induction os as [|o os IH]; intros c; cbn; [done|]. apply (IH (declareOne c o)). Qed.

Section Names.
Context (path_join : string -> string -> string) (sol rs tc : string).

(** The names, which do not depend on the library paths. *)
Definition optionNames : list string := map opt_name (declarations path_join sol rs tc).

Lemma optionNames_NoDup : NoDup optionNames.
Proof. apply (bool_decide_unpack _). vm_compute. exact I. Qed.

Lemma command_options_known cmd o : cmd ∈ commands -> o ∈ cmd_options cmd -> o ∈ optionNames.
Proof.
  revert cmd o. assert (H : forallb (fun cmd => forallb (fun o => bool_decide (o ∈ optionNames)) (cmd_options cmd)) commands = true)
    by (vm_compute; reflexivity).
  intros cmd o Hc Ho. rewrite forallb_forall in H. apply list_elem_of_In in Hc, Ho. specialize (H _ Hc).
  rewrite forallb_forall in H. by apply (bool_decide_eq_true_1 _), H.
Qed.

Lemma addOption_fresh camelCase paramCase snakeCase c o :
  paramCase (opt_name o) = opt_name o -> o ∈ declarations path_join sol rs tc ->
  paramValues c = [] -> configFile c = ∅ ->
  exists x, addOption camelCase paramCase snakeCase (opt_name o) (declareAll path_join sol rs tc c) = Ret x /\
    optionDescription x = opt_description o /\
    optionDefault x = match default (VStr "") (opt_default o) with VNull => VUndef | v => v end.
Proof.
  intros Hp Hin Hv Hf. destruct (declare_fold_state (declarations path_join sol rs tc) c) as [Ev Ef].
  unfold addOption, maybeGetParam, declareAll. rewrite Hp, Ev, Hv, Ef, Hf, lookup_empty. cbn [assoc].
  rewrite (declare_fold_lookup _ _ _ optionNames_NoDup Hin). cbn [defaultValue description declaration_of].
  destruct (default (VStr "") (opt_default o)); by eexists.
Qed.

(** ** Properties *)

(** The command line is set up without error: every option a command
    takes was declared, exactly once, so registering the commands never
    reads a missing declaration; in a process that starts from an empty
    configuration each option is offered with its declared description and
    default value. *)
Theorem cli_options_declared camelCase paramCase snakeCase c cmd :
  cmd ∈ commands -> (forall o, o ∈ cmd_options cmd -> paramCase o = o) -> paramValues c = [] -> configFile c = ∅ ->
  exists l, addOptions camelCase paramCase snakeCase (cmd_options cmd) (declareAll path_join sol rs tc c) = Ret l /\
    Forall2 (fun name x => exists o, o ∈ declarations path_join sol rs tc /\ opt_name o = name /\
      optionDescription x = opt_description o /\
      optionDefault x = match default (VStr "") (opt_default o) with VNull => VUndef | v => v end)
      (cmd_options cmd) l.
Proof.
  intros Hc Hp Hv Hf. pose proof (fun o => command_options_known cmd o Hc) as Hk.
  induction (cmd_options cmd) as [|name options IH]; cbn [addOptions]; [by exists []; split; constructor|].
  destruct IH as (l & El & Hl); [intros; apply Hp; by constructor | intros; apply Hk; by constructor|].
  assert (Hn : name ∈ optionNames) by (apply Hk; constructor).
  apply list_elem_of_In, in_map_iff in Hn as (o & <- & Ho). apply list_elem_of_In in Ho.
  destruct (addOption_fresh camelCase paramCase snakeCase c o) as (x & Ex & Hd & Hdef); [apply Hp; constructor | done..|].
  rewrite Ex. cbn [mbind outcome_bind]. rewrite El. cbn [mbind outcome_bind]. eexists. split; [done|]. constructor; [|done]. by exists o.
Qed.

End Names.

(** Decide that two lists of names are permutations of each other. *)
Lemma permutation_of_mset (l k : list string) :
  NoDup l -> NoDup k -> Forall (fun x => x ∈ k) l -> Forall (fun x => x ∈ l) k -> l ≡ₚ k.
Proof. intros Hl Hk H1 H2. apply NoDup_Permutation; [done..|]. rewrite !list.Forall_forall in *. intros x. split; auto. Qed.

(** Give the command, by its place, and the order of its flags. *)
Ltac daemon i options :=
  split; [reflexivity|]; exists (nth i startCommands (command [] [] [] [])), options;
  repeat split;
    [ apply list_elem_of_In; cbn; tauto
    | apply permutation_of_mset; apply (bool_decide_unpack _); vm_compute; exact I ].

(** A daemon sees what its parent saw: the argument list of each of the
    four daemons starts the command of the same name and gives every option
    of that command exactly once, with the value the parent's handler
    received for it, the daemon option alone being turned off. *)
Theorem daemon_args_complete (a : Args) name config :
  (name, config) ∈ daemons a ->
  pc_name config = name /\
  exists cmd options, cmd ∈ startCommands /\ cmd_path cmd = ["start"; name] /\ options ≡ₚ cmd_options cmd /\
    pc_args config = child_args a name options.
Proof.
  intros H. repeat (apply elem_of_cons in H as [[= -> ->]|H]; [|]); [..|by apply not_elem_of_nil in H].
  - daemon 2%nat ["near-network-id"; "near-node-url"; "near-master-account"; "near-master-sk"; "near-client-account";
      "eth-node-url"; "total-submit-block"; "gas-per-transaction"; "daemon"; "metrics-port"].
  - daemon 3%nat ["near-node-url"; "near-network-id"; "eth-node-url"; "eth-master-sk"; "eth-client-artifact-path";
      "eth-client-address"; "eth-gas-multiplier"; "near2eth-relay-min-delay"; "near2eth-relay-max-delay";
      "near2eth-relay-error-delay"; "daemon"; "metrics-port"].
  - daemon 4%nat ["eth-node-url"; "eth-master-sk"; "eth-client-artifact-path"; "eth-client-address"; "watchdog-delay";
      "watchdog-error-delay"; "daemon"; "metrics-port"].
  - daemon 5%nat ["eth-node-url"; "near-node-url"; "near-network-id"; "eth-master-sk"; "near-client-account";
      "near-master-account"; "monitor-accounts-path"; "daemon"; "metrics-port"].
Qed.

Section ProcessProperties.
Context {W : Type} {PM : ProcessManager W} {PMok : ProcessManagerOk W}.

Lemma disconnect_run w :
  exists w', perform PmDisconnect pm_disconnect w = (Ret tt, w', [PmDisconnect]) /\ running w' = running w.
Proof. destruct (pm_disconnect_ok w) as (w' & E & H). exists w'. split; [by apply perform_run | done]. Qed.

(** [stop] never fails, and the service is gone. *)
Lemma stop_run name w :
  exists w', stop name w = (Ret tt, w', [PmDelete name]) /\ running w' = running w ∖ {[ name ]}.
Proof.
  destruct (pm_delete_ok name w) as (w' & H & E). exists w'. unfold stop, try_catch.
  rewrite (perform_run _ _ _ _ _ E). by destruct (decide _).
Qed.

Lemma stopServices_run names w :
  exists w' tr, stopServices names w = (Ret tt, w', tr) /\ running w' = running w ∖ list_to_set names.
Proof.
  revert w. induction names as [|name names IH]; intros w; cbn [stopServices].
  - exists w, []. split; [done|]. set_solver.
  - destruct (stop_run name w) as (w1 & E1 & H1). destruct (disconnect_run w1) as (w2 & E2 & H2).
    destruct (IH w2) as (w3 & tr & E3 & H3). eexists w3, _.
    split; [exact (eff_bind_run _ _ _ _ _ _ _ _ _ E1 (eff_bind_run _ _ _ _ _ _ _ _ _ E2 E3))|].
    rewrite H3, H2, H1. set_solver.
Qed.

Lemma stopLocalNearNode_run w :
  exists w', stopLocalNearNode w = (Ret tt, w', [NearupStop]) /\ running w' = running w.
Proof.
  destruct (nearup_stop_ok w) as (o & w' & E & H & Ho). exists w'. unfold stopLocalNearNode, try_catch.
  rewrite (perform_run _ _ _ _ _ E). by destruct Ho as [->|[e ->]].
Qed.

(** [stop all] always completes, whatever is running and whether or not
    the local node can be stopped, and afterwards exactly the four services
    of its list are gone; every other managed process is left running. *)
Theorem stop_all_stops w :
  exists w' tr, stopCommand "all" w = (Ret tt, w', tr) /\ running w' = running w ∖ list_to_set managedServices.
Proof.
  destruct (stopLocalNearNode_run w) as (w1 & E1 & H1). destruct (stopServices_run managedServices w1) as (w2 & tr & E2 & H2).
  eexists w2, _. split; [exact (eff_bind_run _ _ _ _ _ _ _ _ _ E1 E2)|]. by rewrite H2, H1.
Qed.

Lemma spawnProcess_run name config w :
  exists w' tr, spawnProcess name config w = (Ret tt, w', tr) /\
    (running w' = running w \/ running w' = {[ pc_name config ]} ∪ running w) /\
    forall c, PmStart c ∈ tr -> c = config /\ name ∉ running w.
Proof.
  destruct (pm_describe_ok name w) as (n & w1 & E1 & H1 & Hn). unfold spawnProcess.
  apply (query_run (E:=PmEvent)) in E1. destruct n as [|n].
  - destruct (pm_start_ok config w1) as (err & w2 & E2 & H2). destruct (disconnect_run w2) as (w3 & E3 & H3).
    apply (perform_run (PmStart config)) in E2. eexists w3, _.
    split; [exact (eff_bind_run _ _ _ _ _ _ _ _ _ E1 (eff_bind_run _ _ _ _ _ _ _ _ _ E2 E3))|].
    split; [rewrite H3, H2, H1; destruct err; auto|].
    intros c Hc. pose proof (proj1 Hn eq_refl). set_solver.
  - destruct (disconnect_run w1) as (w2 & E2 & H2). eexists w2, _.
    split; [exact (eff_bind_run _ _ _ _ _ _ _ _ _ E1 E2)|]. split; [left; congruence|]. set_solver.
Qed.

(** A daemon command in daemon mode always completes, asks for a start
    only with its own process configuration and only while no process of
    its name is managed, and disturbs no other managed process. *)
Theorem startCommand_guarded config (a : Args) w :
  a "daemon" = VStr "true" ->
  exists w' tr, startCommand config a w = (Ret tt, w', tr) /\
    (running w' = running w \/ running w' = {[ pc_name (config a) ]} ∪ running w) /\
    forall c, PmStart c ∈ tr -> c = config a /\ pc_name (config a) ∉ running w.
Proof.
  intros Hd. unfold startCommand. rewrite Hd. destruct (pm_connect_ok w) as (err & w1 & E & H).
  apply (perform_run PmConnect) in E. destruct err.
  - eexists w1, _. split; [refine (eff_bind_run _ _ _ _ _ _ _ _ _ E _); reflexivity|]. split; [by left|]. set_solver.
  - destruct (spawnProcess_run (pc_name (config a)) (config a) w1) as (w2 & tr & E2 & Hr & Hs).
    eexists w2, _. split; [exact (eff_bind_run _ _ _ _ _ _ _ _ _ E E2)|]. rewrite <- H. split; [done|].
    intros c Hc. apply Hs. set_solver.
Qed.

End ProcessProperties.

(** No token name turns the factory key's option into an account's. *)
Lemma factory_sk_not_account tokenName : "near-token-factory-sk" <> "near-" +:+ tokenName +:+ "-account".
Proof.
  intros E. assert (L : forall s t : string, String.length (s +:+ t) = (String.length s + String.length t)%nat)
    by (intros s t; induction s as [|x s IH]; [done|exact (f_equal S IH)]).
  assert (Hl := f_equal String.length E). rewrite !L in Hl. cbn in Hl.
  do 9 (destruct tokenName as [|? tokenName]; [cbn in *; discriminate|]). cbn in Hl. lia.
Qed.

Section DeployToken.
Context (camelCase paramCase capitalCase : string -> string) (tokenName : string).
(** The conversions keep the token's name. *)
Context (Haccount : paramCase ("near" +:+ capitalCase tokenName +:+ "Account") = "near-" +:+ tokenName +:+ "-account")
  (Haddress : paramCase ("eth" +:+ capitalCase tokenName +:+ "Address") = "eth-" +:+ tokenName +:+ "-address")
  (Hsk : paramCase "nearTokenFactorySk" = "near-token-factory-sk").

(** What the handler returns for the three properties [DeployToken.execute]
    resolves to. *)
Definition deployed (address account sk : string) : option (list (string * val)) :=
  deployTokenHandler capitalCase tokenName (VStr address)
    (Some {| nearTokenAccount := VStr account; ethTokenAddress_ := VStr address;
             otherDeployedTokenInfo := [("nearTokenFactorySk", VStr sk)] |}).

Lemma deployed_entries address account sk :
  exists entries, deployed address account sk = Some entries /\
    ("near" +:+ capitalCase tokenName +:+ "Account", VStr account) ∈ entries /\
    ("eth" +:+ capitalCase tokenName +:+ "Address", VStr address) ∈ entries /\
    NoDup (map (fun p => paramCase p.1) entries).
Proof.
  assert (H1 : "near" +:+ capitalCase tokenName +:+ "Account" <> "nearTokenFactorySk").
  { intros E. rewrite <- E, Haccount in Hsk. by apply eq_sym, factory_sk_not_account in Hsk. }
  assert (H2 : "eth" +:+ capitalCase tokenName +:+ "Address" <> "near" +:+ capitalCase tokenName +:+ "Account") by discriminate.
  assert (H3 : "nearTokenFactorySk" <> "eth" +:+ capitalCase tokenName +:+ "Address") by discriminate.
  exists [("near" +:+ capitalCase tokenName +:+ "Account", VStr account);
    ("eth" +:+ capitalCase tokenName +:+ "Address", VStr address); ("nearTokenFactorySk", VStr sk)].
  split; [|split; [|split]].
  - unfold deployed, deployTokenHandler. cbn [assoc_set fold_left otherDeployedTokenInfo nearTokenAccount fst snd].
    rewrite (proj2 (String.eqb_neq _ _) H2). cbn [assoc_set]. rewrite (proj2 (String.eqb_neq _ _) (not_eq_sym H1)).
    by rewrite (proj2 (String.eqb_neq _ _) H3).
  - rewrite !elem_of_cons. auto.
  - rewrite !elem_of_cons. auto.
  - cbn [map fst]. rewrite Haccount, Haddress, Hsk.
    rewrite !list.NoDup_cons, !not_elem_of_cons. repeat split; try apply not_elem_of_nil; try apply NoDup_nil_2;
      try (cbn; discriminate). intros E. by apply eq_sym, factory_sk_not_account in E.
Qed.

(** A deployed token can be used by name: after [deploy-token] of a
    token whose name the case conversions keep, a later process that names
    the token transfers with exactly the Ethereum address and the NEAR
    account that were deployed. *)
Theorem deployToken_lookup c address account sk args :
  tokenName <> "" ->
  NoDup (map (fun p => camelCase p.1) (paramValues (commandAction camelCase paramCase (deployed address account sk) c))) ->
  transferArgs camelCase (VStr tokenName) args
    (restart (commandAction camelCase paramCase (deployed address account sk) c)) =
    Ret (assoc_set "nearErc20Account" (VStr account) (assoc_set "ethErc20Address" (VStr address) args)).
Proof.
  intros Ht Hcc. destruct (deployed_entries address account sk) as (entries & E & Hac & Had & Hnd). rewrite E in *.
  unfold transferArgs. replace (truthy (VStr tokenName)) with true by (cbn; destruct (String.eqb_spec tokenName ""); done).
  rewrite <- Haddress, <- Haccount.
  rewrite (getParam_restart camelCase (paramCase ("eth" +:+ _ +:+ "Address")) (VStr address)) by (by try apply commandAction_file).
  cbn [mbind outcome_bind].
  rewrite (getParam_restart camelCase (paramCase ("near" +:+ _ +:+ "Account")) (VStr account)) by (by try apply commandAction_file).
  reflexivity.
Qed.

End DeployToken.

(** ** Witnesses *)

Module Witness.

(** A process manager whose state is the set of managed names. *)
#[export] Instance pm_set : ProcessManager (gset string) := {|
  pm_connect w := (Ret false, w);
  pm_describe name w := (Ret (false, Some (if decide (name ∈ w) then 1%nat else 0%nat)), w);
  pm_start config w := (Ret false, {[ pc_name config ]} ∪ w);
  pm_delete name w :=
    (if decide (name ∈ w) then Ret tt else Throw (Error "process or namespace not found"), w ∖ {[ name ]});
  pm_disconnect w := (Ret tt, w);
  nearup_stop w := (Throw (Error "Command failed: nearup stop"), w)
|}.

#[export] Instance pm_set_ok : ProcessManagerOk (gset string).
Proof.
  refine {| running w := w |}; intros.
  - by eexists _, _.
  - eexists _, _. split; [done|]. split; [done|]. by destruct (decide _).
  - by eexists _, _.
  - by eexists.
  - by eexists.
  - eexists _, _. split; [done|]. split; [done|]. right. by eexists.
Defined.

Definition up : gset string := {[ "eth2near-relay"; "address-watcher" ]}.

(** The address watcher survives [stop all]. *)
Lemma stop_all_stops_witness :
  exists w' tr, stopCommand "all" up = (Ret tt, w', tr) /\ running w' = running up ∖ list_to_set managedServices.
Proof. exact (stop_all_stops up). Defined.

Example stop_all_leaves_watcher : world_of (stopCommand "all" up) = {[ "address-watcher" ]}.
Proof. vm_compute. reflexivity. Qed.

Definition args0 : Args := fun p => if String.eqb p "daemon" then VStr "true" else VStr p.

Lemma startCommand_guarded_witness :
  exists w' tr, startCommand watchdog_config args0 up = (Ret tt, w', tr) /\
    (running w' = running up \/ running w' = {[ pc_name (watchdog_config args0) ]} ∪ running up) /\
    forall c, PmStart c ∈ tr -> c = watchdog_config args0 /\ pc_name (watchdog_config args0) ∉ running up.
Proof. apply startCommand_guarded. reflexivity. Defined.

Definition join (a b : string) : string := a +:+ "/" +:+ b.
Definition empty_config : RainbowConfig := {| paramValues := []; paramDeclarations := ∅; configFile := ∅ |}.
Definition id_case (s : string) : string := s.

Definition relay_command : Command := nth 2 startCommands (command [] [] [] []).

Lemma cli_options_declared_witness :
  exists l, addOptions id_case id_case id_case (cmd_options relay_command) (declareAll join "sol" "rs" "tc" empty_config) = Ret l /\
    Forall2 (fun name x => exists o, o ∈ declarations join "sol" "rs" "tc" /\ opt_name o = name /\
      optionDescription x = opt_description o /\
      optionDefault x = match default (VStr "") (opt_default o) with VNull => VUndef | v => v end)
      (cmd_options relay_command) l.
Proof.
  apply (cli_options_declared join "sol" "rs" "tc" id_case id_case id_case empty_config relay_command).
  - apply list_elem_of_In. cbn. tauto.
  - reflexivity.
  - reflexivity.
  - reflexivity.
Defined.

Lemma daemon_args_complete_witness :
  pc_name (eth2near_config args0) = "eth2near-relay" /\
  exists cmd options, cmd ∈ startCommands /\ cmd_path cmd = ["start"; "eth2near-relay"] /\ options ≡ₚ cmd_options cmd /\
    pc_args (eth2near_config args0) = child_args args0 "eth2near-relay" options.
Proof. apply daemon_args_complete. constructor. Defined.

(** Conversions that know one token. *)
Definition capital (s : string) : string := if String.eqb s "dai" then "Dai" else s.
Definition kebab (s : string) : string :=
  if String.eqb s "nearDaiAccount" then "near-dai-account"
  else if String.eqb s "ethDaiAddress" then "eth-dai-address"
  else if String.eqb s "nearTokenFactorySk" then "near-token-factory-sk" else s.

Lemma deployToken_lookup_witness :
  transferArgs id_case (VStr "dai") []
    (restart (commandAction id_case kebab (deployed capital "dai" "0xd1" "d1.factory" "sk") empty_config)) =
    Ret (assoc_set "nearErc20Account" (VStr "d1.factory") (assoc_set "ethErc20Address" (VStr "0xd1") [])).
Proof.
  apply deployToken_lookup; try reflexivity.
  - discriminate.
  - apply (bool_decide_unpack _). vm_compute. exact I.
Defined.

End Witness.
