(* ===== verification/Accounts.v ===== *)
(** * NEAR accounts (utils/helpers.js)

    [getAccountStatus], [maybeCreateAccount], [accountExists],
    [accountHasTheKey], [verifyAccount] and [verifyAccountGently] against an
    abstract NEAR connection, and the specification of the ledger they are
    verified against. *)

From S2P Require Import Prelude Robust.

(** ** The connection *)

(** An error of [createAccount]: its [type], if it has one. *)
Record CreateError := { ce_type : option string }.

(** [near]: the account calls of near-api-js, the key store and the file
    system.  A created account answers [inl]; a failed creation [inr]. *)
Record NearConnection (W : Type) := {
  nc_fetchState : string -> service W string;
  nc_createAccount : string -> string -> string -> Z -> service W (unit + CreateError);
  nc_readFile : string -> service W (list Z);
  nc_deployContract : string -> list Z -> service W unit;
  nc_getKey : string -> service W (option string);
  nc_getAccessKeys : string -> service W (list string)
}.

Arguments nc_fetchState {W}.
Arguments nc_createAccount {W}.
Arguments nc_readFile {W}.
Arguments nc_deployContract {W}.
Arguments nc_getKey {W}.
Arguments nc_getAccessKeys {W}.

Definition RETRY_NONCE : nat := 10.
Definition EMPTY_HASH : string := "11111111111111111111111111111111".

Inductive accountStatus : Type :=
| ACCOUNT_DOES_NOT_EXIST
| EMPTY_ACCOUNT
| WITH_CONTRACT.

Section Operations.
Context {W : Type} (near : NearConnection W).

(** [accountStatus.EMPTY_HASH] is not a property of [accountStatus]:
    [None] is the [undefined] it evaluates to. *)
Definition getAccountStatus (accountId : string) : eff W event (option accountStatus) :=
  try_catch
    (code_hash ← perform (Call "near.fetchState" [VStr accountId]) (nc_fetchState near accountId);
     mret (if String.eqb code_hash EMPTY_HASH then None else Some WITH_CONTRACT))
    (fun _ => mret (Some ACCOUNT_DOES_NOT_EXIST)).

(** The creation loop: [true] when the account was created. *)
Fixpoint create_loop (fuel : nat) (masterAccountId accountId accountPK : string) (balance : Z) : eff W event bool :=
  match fuel with
  | O => mret false
  | S fuel' =>
      r ← try_catch
            (perform (Call "near.createAccount" [VStr masterAccountId; VStr accountId; VStr accountPK; VNum balance])
               (nc_createAccount near masterAccountId accountId accountPK balance))
            (fun _ => mret (inr {| ce_type := None |}));
      match r with
      | inl _ => mret true
      | inr e =>
          match ce_type e with
          | Some ty =>
              if String.eqb ty "AccountAlreadyExists" then mret true
              else create_loop fuel' masterAccountId accountId accountPK balance
          | None => create_loop fuel' masterAccountId accountId accountPK balance
          end
      end
  end.

(** One deployment attempt: [true] once deployed, [false] to try again. *)
Definition deploy_attempt (accountId contractPath : string) : eff W event bool :=
  try_catch
    (data ← query (nc_readFile near contractPath);
     _ ← perform (Call "near.deployContract" [VStr accountId; VBytes data]) (nc_deployContract near accountId data);
     mret true)
    (fun e => if str_includes "Transaction nonce" (err_message e) then mret false else exit 1).

Fixpoint deploy_loop (fuel : nat) (accountId contractPath : string) : eff W event bool :=
  match fuel with
  | O => mret false
  | S fuel' =>
      deployed ← deploy_attempt accountId contractPath;
      if (deployed : bool) then mret true else deploy_loop fuel' accountId contractPath
  end.

Definition maybeCreateAccount (masterAccountId accountId accountPK : string) (initBalance : Z) (contractPath : string)
    : eff W event unit :=
  status ← getAccountStatus accountId;
  _ ← match status with
      | Some ACCOUNT_DOES_NOT_EXIST =>
          accountCreated ← create_loop RETRY_NONCE masterAccountId accountId accountPK initBalance;
          if (accountCreated : bool) then mret tt else exit 1
      | _ => mret tt
      end;
  match status with
  | Some WITH_CONTRACT => mret tt
  | _ =>
      contractDeployed ← deploy_loop RETRY_NONCE accountId contractPath;
      if (contractDeployed : bool) then mret tt else exit 1
  end.

Definition accountExists (accountId : string) : eff W event bool :=
  try_catch
    (_ ← perform (Call "near.fetchState" [VStr accountId]) (nc_fetchState near accountId); mret true)
    (fun _ => mret false).

(** The key is only looked at when there is an access key to compare. *)
Definition accountHasTheKey (accountId : string) : eff W event bool :=
  keyStoreKey ← query (nc_getKey near accountId);
  keys ← perform (Call "near.getAccessKeys" [VStr accountId]) (nc_getAccessKeys near accountId);
  match keys, keyStoreKey with
  | [], _ => mret false
  | _ :: _, None => throw (TypeError "Cannot read property 'getPublicKey' of null")
  | _ :: _, Some publicKey => mret (existsb (String.eqb publicKey) keys)
  end.

Definition verifyAccount (accountId : string) : eff W event bool :=
  exists_ ← accountExists accountId;
  if (exists_ : bool) then
    hasKey ← accountHasTheKey accountId;
    if (hasKey : bool) then mret true else exit 1
  else exit 1.

Definition verifyAccountGently (accountId : string) : eff W event bool :=
  exists_ ← accountExists accountId;
  if (exists_ : bool) then
    hasKey ← accountHasTheKey accountId;
    if (hasKey : bool) then mret true else mret false
  else mret false.

End Operations.

(** ** The ledger *)

(** What the accounts of the ledger promise: [code_of w id] is the code
    hash of an account, [None] when there is no account.  Requests may fail
    at any time; a creation that failed may have happened after all, and one
    rejected with [AccountAlreadyExists] found the account there. *)
Class Ledger {W : Type} (near : NearConnection W) := {
  code_of : W -> string -> option string;
  code_hash : list Z -> string;
  code_hash_nonempty bs : code_hash bs <> EMPTY_HASH;
  fetch_ok id w : exists w', code_of w' = code_of w /\
    ((exists h, nc_fetchState near id w = (Ret h, w') /\ code_of w id = Some h) \/
     (exists e, nc_fetchState near id w = (Throw e, w')));
  create_ok master id pk b w : exists o w', nc_createAccount near master id pk b w = (o, w') /\
    (forall id', id' <> id -> code_of w' id' = code_of w id') /\
    match o with
    | Ret (inl _) => is_Some (code_of w' id)
    | Ret (inr e) =>
        if decide (ce_type e = Some "AccountAlreadyExists") then is_Some (code_of w id) /\ code_of w' id = code_of w id
        else is_Some (code_of w id) -> is_Some (code_of w' id)
    | Throw _ => is_Some (code_of w id) -> is_Some (code_of w' id)
    | _ => False
    end;
  read_ok path w : exists o w', nc_readFile near path w = (o, w') /\ code_of w' = code_of w /\
    match o with Ret _ | Throw _ => True | _ => False end;
  deploy_ok id bs w : exists o w', nc_deployContract near id bs w = (o, w') /\
    (forall id', id' <> id -> code_of w' id' = code_of w id') /\
    match o with
    | Ret _ => code_of w' id = Some (code_hash bs)
    | Throw _ => is_Some (code_of w id) -> is_Some (code_of w' id)
    | _ => False
    end;
  key_ok id w : code_of (nc_getKey near id w).2 = code_of w;
  access_keys_ok id w : code_of (nc_getAccessKeys near id w).2 = code_of w
}.

(** ** Lemmas *)

Section Lemmas.
Context {W : Type} (near : NearConnection W) {L : Ledger near}.

(** The codes of all accounts but [id] are those of [w]. *)
Definition only (id : string) (w w' : W) : Prop := forall id', id' <> id -> code_of w' id' = code_of w id'.

Lemma only_refl id w : only id w w.
Proof. done. Qed.

Lemma only_eq id w w' : code_of w' = code_of w -> only id w w'.
Proof. intros H id' _. by rewrite H. Qed.

Lemma only_trans id w1 w2 w3 : only id w1 w2 -> only id w2 w3 -> only id w1 w3.
Proof. intros H1 H2 id' Hne. rewrite H2, H1; done. Qed.

Hint Resolve only_refl only_eq : core.

Lemma getAccountStatus_run id w :
  exists st w' tr, getAccountStatus near id w = (Ret st, w', tr) /\ length tr = 1%nat /\ code_of w' = code_of w /\
    match st with
    | Some WITH_CONTRACT => exists h, code_of w id = Some h /\ h <> EMPTY_HASH
    | Some ACCOUNT_DOES_NOT_EXIST => True
    | None => code_of w id = Some EMPTY_HASH
    | Some EMPTY_ACCOUNT => False
    end.
Proof.
  destruct (fetch_ok id w) as (w' & Hv & [(h & E & Hc)|(e & E)]); apply (perform_run (Call "near.fetchState" [VStr id])) in E.
  - eexists _, w', _. unfold getAccountStatus, try_catch.
    rewrite (eff_bind_run _ _ _ _ _ _ _ _ _ E eq_refl). split; [reflexivity|]. split; [reflexivity|]. split; [done|].
    destruct (String.eqb_spec h EMPTY_HASH) as [->|]; [done|by exists h].
  - eexists _, w', _. unfold getAccountStatus, try_catch. rewrite eff_bind_eq, E. by repeat split.
Qed.

Lemma create_loop_run fuel master id pk b w :
  exists r w' tr, create_loop near fuel master id pk b w = (Ret r, w', tr) /\ (length tr <= fuel)%nat /\ only id w w' /\
    (r = true -> is_Some (code_of w' id)).
Proof.
  revert w. induction fuel as [|fuel IH]; intros w; cbn [create_loop].
  - exists false, w, []. by repeat split.
  - destruct (create_ok master id pk b w) as (o & w1 & E & Ho & Hr).
    apply (perform_run (Call "near.createAccount" [VStr master; VStr id; VStr pk; VNum b])) in E.
    assert (Hagain : exists r w' tr, create_loop near fuel master id pk b w1 = (Ret r, w', tr) /\
        (S (length tr) <= S fuel)%nat /\ only id w w' /\ (r = true -> is_Some (code_of w' id))).
    { destruct (IH w1) as (r & w' & tr & Er & Hl & Ho' & Hs). exists r, w', tr. split; [done|]. split; [lia|].
      split; [by eapply only_trans | done]. }
    rewrite eff_bind_eq. unfold try_catch. rewrite E. destruct o as [[u|e]|e|c|]; [| | |done|done].
    + eexists true, w1, _. split; [reflexivity|]. cbn. split; [lia|]. by split.
    + destruct Hagain as (r & w' & tr & Er & Hl & Ho' & Hs). cbn [out_of world_of trace_of fst snd].
      destruct (ce_type e) as [ty|]; [destruct (String.eqb_spec ty "AccountAlreadyExists") as [->|Hne]|].
      * eexists true, w1, _. split; [reflexivity|]. cbn. split; [lia|]. split; [done|]. intros _.
        rewrite decide_True in Hr by done. destruct Hr as [Hi ->]. done.
      * eexists r, w', _. rewrite Er. split; [reflexivity|]. by repeat split.
      * eexists r, w', _. rewrite Er. split; [reflexivity|]. by repeat split.
    + destruct Hagain as (r & w' & tr & Er & Hl & Ho' & Hs). cbn [mret eff_ret out_of world_of trace_of fst snd ce_type].
      eexists r, w', _. rewrite Er. split; [reflexivity|]. by repeat split.
Qed.

Lemma deploy_attempt_run id path w :
  exists o w' tr, deploy_attempt near id path w = (o, w', tr) /\ (length tr <= 1)%nat /\ only id w w' /\
    (o = Ret false \/ o = Exit 1 \/ o = Ret true /\ exists h, code_of w' id = Some h /\ h <> EMPTY_HASH).
Proof.
  assert (Hcatch : forall (e : js_error) (w0 : W), exists o, (if str_includes "Transaction nonce" (err_message e) then mret false
      else exit 1 : eff W event bool) w0 = (o, w0, []) /\ (o = Ret false \/ o = Exit 1)).
  { intros e w0. destruct (str_includes _ _); eexists; split; try reflexivity; auto. }
  destruct (read_ok path w) as (o1 & w1 & E1 & H1 & Ht1). apply (query_run (E := event)) in E1.
  unfold deploy_attempt, try_catch. destruct o1 as [data|e|c|]; [| |done|done].
  - destruct (deploy_ok id data w1) as (o2 & w2 & E2 & Ho & Hr).
    apply (perform_run (Call "near.deployContract" [VStr id; VBytes data])) in E2.
    destruct o2 as [u|e|c|]; [| |done|done].
    + rewrite eff_bind_eq, E1, eff_bind_eq, E2. cbn [out_of world_of trace_of fst snd].
      eexists _, w2, _. split; [reflexivity|]. cbn. split; [lia|]. split; [by apply (only_trans _ _ w1); auto|].
      right. right. split; [done|]. exists (code_hash data). split; [done | apply code_hash_nonempty].
    + rewrite eff_bind_eq, E1, eff_bind_eq, E2. cbn [out_of world_of trace_of fst snd].
      destruct (Hcatch e w2) as (o & Eo & Hor). rewrite Eo. eexists o, w2, _. split; [reflexivity|]. cbn. split; [lia|].
      split; [by apply (only_trans _ _ w1); auto|]. tauto.
  - rewrite eff_bind_eq, E1. destruct (Hcatch e w1) as (o & Eo & Hor). rewrite Eo.
    eexists o, w1, _. split; [reflexivity|]. cbn. split; [lia|]. split; [auto|]. tauto.
Qed.

Lemma deploy_loop_run fuel id path w :
  exists o w' tr, deploy_loop near fuel id path w = (o, w', tr) /\ (length tr <= fuel)%nat /\ only id w w' /\
    (o = Ret false \/ o = Exit 1 \/ o = Ret true /\ exists h, code_of w' id = Some h /\ h <> EMPTY_HASH).
Proof.
  revert w. induction fuel as [|fuel IH]; intros w; cbn [deploy_loop].
  - exists (Ret false), w, []. repeat split; auto.
  - destruct (deploy_attempt_run id path w) as (o & w1 & tr1 & E & Hl & Ho & Hr).
    rewrite eff_bind_eq, E. destruct Hr as [->|[->|[-> Hd]]].
    + destruct (IH w1) as (o' & w' & tr & E' & Hl' & Ho' & Hr'). rewrite E'. eexists o', w', _. split; [reflexivity|].
      cbn. rewrite length_app. split; [lia|]. split; [by eapply only_trans | done].
    + eexists _, w1, _. split; [reflexivity|]. split; [lia|]. by auto.
    + eexists _, w1, _. split; [reflexivity|]. cbn. rewrite app_nil_r. split; [lia|]. by auto.
Qed.

(** The creation phase of [maybeCreateAccount]. *)
Lemma create_phase_run master id pk b w :
  exists o w' tr, (accountCreated ← create_loop near RETRY_NONCE master id pk b;
                   if (accountCreated : bool) then mret tt else exit 1) w = (o, w', tr) /\
    (length tr <= RETRY_NONCE)%nat /\ only id w w' /\ (o = Ret tt \/ o = Exit 1).
Proof.
  destruct (create_loop_run RETRY_NONCE master id pk b w) as (r & w' & tr & E & Hl & Ho & _). rewrite eff_bind_eq, E.
  destruct r; eexists _, w', _; (split; [reflexivity|]); cbn [out_of world_of trace_of fst snd]; rewrite ?app_nil_r; auto.
Qed.

(** The deployment phase of [maybeCreateAccount]. *)
Lemma deploy_phase_run id path w :
  exists o w' tr, (contractDeployed ← deploy_loop near RETRY_NONCE id path;
                   if (contractDeployed : bool) then mret tt else exit 1) w = (o, w', tr) /\
    (length tr <= RETRY_NONCE)%nat /\ only id w w' /\
    ((o = Ret tt /\ exists h, code_of w' id = Some h /\ h <> EMPTY_HASH) \/ o = Exit 1).
Proof.
  destruct (deploy_loop_run RETRY_NONCE id path w) as (o & w' & tr & E & Hl & Ho & Hr). rewrite eff_bind_eq, E.
  destruct Hr as [->|[->|[-> Hd]]]; eexists _, w', _; (split; [reflexivity|]); cbn [out_of world_of trace_of fst snd];
    rewrite ?app_nil_r; auto.
Qed.

(** What [maybeCreateAccount] does, on every branch. *)
Lemma maybeCreateAccount_run master id pk balance path w :
  exists o w' tr, maybeCreateAccount near master id pk balance path w = (o, w', tr) /\ (length tr <= 21)%nat /\
    only id w w' /\ ((o = Ret tt /\ exists h, code_of w' id = Some h /\ h <> EMPTY_HASH) \/ o = Exit 1).
Proof.
  unfold maybeCreateAccount. destruct (getAccountStatus_run id w) as (st & w1 & t1 & E1 & Hl1 & Hc1 & Hst).
  assert (Ho1 : only id w w1) by by apply only_eq. unfold RETRY_NONCE in *.
  destruct st as [[| |]|]; [|done| |].
  - destruct (create_phase_run master id pk balance w1) as (o2 & w2 & t2 & E2 & Hl2 & Ho2 & [->| ->]).
    + destruct (deploy_phase_run id path w2) as (o & w' & tr & E & Hl & Ho & Hr).
      eexists o, w', (t1 ++ t2 ++ tr)%list. unfold RETRY_NONCE in *.
      split; [eapply eff_bind_run; [exact E1|]; eapply eff_bind_run; [exact E2 | exact E]|].
      rewrite !length_app. split; [lia|]. split; [|done]. by repeat (eapply only_trans; [eassumption|]).
    + eexists (Exit 1), w2, (t1 ++ t2)%list. unfold RETRY_NONCE in *.
      split; [eapply eff_bind_run; [exact E1|]; by rewrite eff_bind_eq, E2|].
      rewrite length_app. split; [lia|]. split; [by eapply only_trans | by right].
  - eexists (Ret tt), w1, _. split; [exact (eff_bind_run _ _ _ _ _ _ _ _ _ E1 eq_refl)|]. rewrite length_app. cbn.
    split; [lia|]. split; [done|]. left. split; [done|]. by rewrite Hc1.
  - destruct (deploy_phase_run id path w1) as (o & w' & tr & E & Hl & Ho & Hr). unfold RETRY_NONCE in *.
    eexists o, w', (t1 ++ [] ++ tr)%list.
    split; [eapply eff_bind_run; [exact E1|]; eapply eff_bind_run; [reflexivity | exact E]|].
    rewrite !length_app. cbn. split; [lia|]. split; [by eapply only_trans | done].
Qed.

(** Checking an account changes no code. *)
Lemma verifyAccount_codes id w : code_of (world_of (verifyAccount near id w)) = code_of w.
Proof.
  unfold verifyAccount, accountExists, try_catch. rewrite eff_bind_eq, eff_bind_eq.
  destruct (fetch_ok id w) as (w1 & Hv & [(h & E & _)|(e & E)]); rewrite (perform_run _ _ _ _ _ E);
    cbn [out_of world_of trace_of fst snd mret eff_ret exit lift]; [|done].
  unfold accountHasTheKey. rewrite !eff_bind_eq. unfold query. pose proof (key_ok id w1) as Hk.
  destruct (nc_getKey near id w1) as [[key|e|c|] w2]; cbn in *; [|congruence..].
  rewrite eff_bind_eq. unfold perform. pose proof (access_keys_ok id w2) as Ha.
  destruct (nc_getAccessKeys near id w2) as [[keys|e|c|] w3]; cbn in *; [|congruence..].
  destruct keys as [|k keys]; [cbn; congruence|]. destruct key as [key|]; [|cbn; congruence].
  cbn. destruct (String.eqb key k || existsb (String.eqb key) keys); cbn; congruence.
Qed.

End Lemmas.

(** ** Properties *)

Section Properties.
Context {W : Type} (near : NearConnection W) {L : Ledger near}.
Context (master id pk : string) (balance : Z) (path : string).

Let run := maybeCreateAccount near master id pk balance path.

(** When [maybeCreateAccount] returns, the account exists with a
    contract deployed on it; otherwise the process has exited with code 1.
    Either way it ended after at most 21 requests, whichever of them failed,
    and no other account's contract changed. *)
Theorem maybeCreateAccount_deploys w :
  exists o w' tr, run w = (o, w', tr) /\ (length tr <= 21)%nat /\
    (forall id', id' <> id -> code_of w' id' = code_of w id') /\
    ((o = Ret tt /\ exists h, code_of w' id = Some h /\ h <> EMPTY_HASH) \/ o = Exit 1).
Proof.
  exact (maybeCreateAccount_run near master id pk balance path w).
Qed.

(** An account that already has a contract is left alone: once its
    state could be fetched, [maybeCreateAccount] sends nothing further. *)
Theorem maybeCreateAccount_keeps w h w1 :
  nc_fetchState near id w = (Ret h, w1) -> h <> EMPTY_HASH ->
  run w = (Ret tt, w1, [Call "near.fetchState" [VStr id]]).
Proof.
  intros E Hh. unfold run, maybeCreateAccount, getAccountStatus, try_catch. apply (perform_run (Call "near.fetchState" [VStr id])) in E.
  rewrite eff_bind_eq, eff_bind_eq, E. cbn [out_of world_of trace_of fst snd mret eff_ret].
  by rewrite (proj2 (String.eqb_neq _ _) Hh).
Qed.

End Properties.

Section Verify.
Context {W : Type} (near : NearConnection W) (id : string).

(** [verifyAccount] lets the program continue exactly when the
    account's state could be fetched and the key of the key store is one of
    the account's access keys, and [verifyAccountGently] answers true in
    exactly the same runs. *)
Theorem verifyAccount_iff w h w1 key w2 keys w3 :
  nc_fetchState near id w = (Ret h, w1) -> nc_getKey near id w1 = (Ret (Some key), w2) ->
  nc_getAccessKeys near id w2 = (Ret keys, w3) ->
  out_of (verifyAccount near id w) = (if decide (key ∈ keys) then Ret true else Exit 1) /\
  out_of (verifyAccountGently near id w) = Ret (bool_decide (key ∈ keys)).
Proof.
  intros E1 E2 E3.
  assert (Ee : accountExists near id w = (Ret true, w1, [Call "near.fetchState" [VStr id]])).
  { unfold accountExists, try_catch. apply (perform_run (Call "near.fetchState" [VStr id])) in E1. by rewrite eff_bind_eq, E1. }
  assert (Ek : accountHasTheKey near id w1 = (Ret (bool_decide (key ∈ keys)), w3, [Call "near.getAccessKeys" [VStr id]])).
  { unfold accountHasTheKey. apply (query_run (E := event)) in E2.
    apply (perform_run (Call "near.getAccessKeys" [VStr id])) in E3. rewrite eff_bind_eq, E2. cbn [out_of world_of trace_of fst snd].
    rewrite eff_bind_eq, E3. destruct keys as [|k keys]; [done|]. cbn [out_of world_of trace_of fst snd].
    assert (Hex : existsb (String.eqb key) (k :: keys) = bool_decide (key ∈ k :: keys)).
    { apply Bool.eq_iff_eq_true. rewrite existsb_exists, bool_decide_eq_true. split.
      - intros (x & Hx & ->%String.eqb_eq). by apply list_elem_of_In.
      - intros Hx%list_elem_of_In. exists key. by rewrite String.eqb_refl. }
    by rewrite Hex. }
  unfold verifyAccount, verifyAccountGently. rewrite !eff_bind_eq, Ee. cbn [out_of world_of trace_of fst snd].
  rewrite !eff_bind_eq, Ek. case_decide as Hin; [rewrite bool_decide_true by done | rewrite bool_decide_false by done]; done.
Qed.

End Verify.

(** ** Witnesses *)

Module Witness.

(** A ledger with a switch that makes state requests fail. *)
Record Chain := { codes : gmap string string; down : bool }.

Definition hash_of (bs : list Z) : string := "code".

Definition set_code (id h : string) (w : Chain) : Chain := {| codes := <[id := h]> (codes w); down := down w |}.

Definition chain : NearConnection Chain := {|
  nc_fetchState id w :=
    match codes w !! id with
    | Some h => if down w then (Throw (Error "timeout"), w) else (Ret h, w)
    | None => (Throw (Error "account does not exist"), w)
    end;
  nc_createAccount _ id _ _ w :=
    match codes w !! id with
    | Some _ => (Ret (inr {| ce_type := Some "AccountAlreadyExists" |}), w)
    | None => (Ret (inl tt), set_code id EMPTY_HASH w)
    end;
  nc_readFile _ w := (Ret [0; 97; 115; 109], w);
  nc_deployContract id bs w := (Ret tt, set_code id (hash_of bs) w);
  nc_getKey _ w := (Ret (Some "ed25519:K"), w);
  nc_getAccessKeys _ w := (Ret ["ed25519:A"; "ed25519:K"], w)
|}.

#[export] Instance chain_ledger : Ledger chain.
Proof.
  refine {| code_of w id := codes w !! id; code_hash := hash_of |}.
  - discriminate.
  - intros id w. exists w. split; [done|]. cbn. destruct (codes w !! id) as [h|] eqn:E.
    + destruct (down w); [right; by eexists | left; by exists h].
    + right. by eexists.
  - intros m id pk b w. cbn. destruct (codes w !! id) as [h|] eqn:E; eexists _, _; (split; [reflexivity|]).
    + split; [done|]. rewrite E. done.
    + split; [intros id' Hne; cbn; by rewrite lookup_insert_ne|]. cbn. rewrite lookup_insert_eq. by eexists.
  - intros path w. eexists _, _. by repeat split.
  - intros id bs w. eexists _, _. split; [reflexivity|]. split; [intros id' Hne; cbn; by rewrite lookup_insert_ne|].
    cbn. by rewrite lookup_insert_eq.
  - done.
  - done.
Defined.

Definition fresh : Chain := {| codes := {[ "master" := EMPTY_HASH ]}; down := false |}.

Lemma maybeCreateAccount_deploys_witness :
  exists o w' tr, maybeCreateAccount chain "master" "client" "ed25519:K" 100 "client.wasm" fresh = (o, w', tr) /\
    (length tr <= 21)%nat /\ (forall id', id' <> "client" -> code_of w' id' = code_of fresh id') /\
    ((o = Ret tt /\ exists h, code_of w' "client" = Some h /\ h <> EMPTY_HASH) \/ o = Exit 1).
Proof. exact (maybeCreateAccount_deploys chain "master" "client" "ed25519:K" 100 "client.wasm" fresh). Defined.

Definition running_chain : Chain := {| codes := {[ "master" := EMPTY_HASH; "client" := "other-code" ]}; down := false |}.

Lemma maybeCreateAccount_keeps_witness :
  maybeCreateAccount chain "master" "client" "ed25519:K" 100 "client.wasm" running_chain =
    (Ret tt, running_chain, [Call "near.fetchState" [VStr "client"]]).
Proof. apply (maybeCreateAccount_keeps chain "master" "client" "ed25519:K" 100 "client.wasm" running_chain "other-code");
  [reflexivity | discriminate]. Defined.

Lemma verifyAccount_iff_witness :
  out_of (verifyAccount chain "client" running_chain) =
    (if decide ("ed25519:K" ∈ ["ed25519:A"; "ed25519:K"]) then Ret true else Exit 1) /\
  out_of (verifyAccountGently chain "client" running_chain) = Ret (bool_decide ("ed25519:K" ∈ ["ed25519:A"; "ed25519:K"])).
Proof. apply (verifyAccount_iff chain "client" running_chain "other-code" running_chain "ed25519:K" running_chain _ running_chain);
  reflexivity. Defined.

(** A state request that fails for any reason counts as a missing account:
    the contract of an account that exists is replaced. *)
Theorem maybeCreateAccount_overwrites :
  let w := {| codes := {[ "client" := "other-code" ]}; down := true |} in
  code_of (world_of (maybeCreateAccount chain "master" "client" "ed25519:K" 100 "client.wasm" w)) "client" = Some "code".
Proof. vm_compute. reflexivity. Qed.

End Witness.
