(* ===== verification/Setup.v ===== *)
(** * Deploying the bridge (cli/init/eth-contracts.js, near-contracts.js)

    The Ethereum contract initializer with its retries, the five commands
    that deploy an Ethereum contract, and the command that creates the NEAR
    accounts and initializes the client and prover contracts.  The
    constructor arguments of the client are checked against the constructor
    of NearBridge.sol. *)

From S2P Require Import Prelude Interfaces Borsh Robust NearTx EthOnNearClient Eth2NearRelay NearBridge Accounts Config Cli.

(** ** [EthContractInitializer] *)

Definition RETRY_SEND_TX : nat := 15.

(** What a command passes to [execute]. *)
Record ContractSpec := {
  cs_args : list val;
  cs_gas : Z;
  cs_abiPath : val;
  cs_binPath : val;
  cs_artifactPath : val
}.

(** The file system and the Ethereum node: [ed_artifact] reads and parses
    an artifact, [ed_abi] and [ed_bin] the two separate files;
    [ed_send] sends the deployment and resolves to the contract's address. *)
Record EthDeployer (W : Type) := {
  ed_artifact : val -> service W (val * string);
  ed_abi : val -> service W val;
  ed_bin : val -> service W string;
  ed_getGasPrice : service W Z;
  ed_send : val -> string -> list val -> Z -> Z -> service W string
}.

Arguments ed_artifact {W}.
Arguments ed_abi {W}.
Arguments ed_bin {W}.
Arguments ed_getGasPrice {W}.
Arguments ed_send {W}.

Section Initializer.
Context {W : Type} (eth : EthDeployer W) (ethGasMultiplier : Z).

Definition read_contract (spec : ContractSpec) : eff W event (val * string) :=
  if truthy (cs_artifactPath spec) then query (ed_artifact eth (cs_artifactPath spec))
  else
    abi ← query (ed_abi eth (cs_abiPath spec));
    bin ← query (ed_bin eth (cs_binPath spec));
    mret (abi, "0x" +:+ bin).

(** The body of the [try]. *)
Definition deploy_once (spec : ContractSpec) : eff W event string :=
  '(abi, bytecode) ← read_contract spec;
  gasPrice ← query (ed_getGasPrice eth);
  address ← perform (Call "deploy" (VStr bytecode :: cs_args spec))
              (ed_send eth abi bytecode (cs_args spec) (cs_gas spec) (gasPrice * ethGasMultiplier));
  mret (normalizeEthKey address).

Fixpoint deploy_loop (fuel : nat) (spec : ContractSpec) : eff W event (option string) :=
  match fuel with
  | O => mret None
  | S fuel' =>
      r ← try_catch (address ← deploy_once spec; mret (inl (Some address)))
            (fun e => if nonce_error e then _ ← emit (Sleep (num_of_Z 5000)); mret (inr tt) else mret (inl None));
      match r with
      | inl result => mret result
      | inr _ => deploy_loop fuel' spec
      end
  end.

(** [null] and the [undefined] of a loop that ran out are both [None]. *)
Definition execute (spec : ContractSpec) : eff W event (option string) :=
  if (negb (truthy (cs_abiPath spec)) || negb (truthy (cs_binPath spec))) && negb (truthy (cs_artifactPath spec))
  then mret None
  else deploy_loop RETRY_SEND_TX spec.

(** ** The deployment commands *)

(** The end shared by the commands: a failure ends the process. *)
Definition deploy_or_exit (spec : ContractSpec) (name : string) (more : list (string * val))
    : eff W event (list (string * val)) :=
  success ← execute spec;
  match success with
  | Some address => mret ((name, VStr address) :: more)
  | None => exit 1
  end.

Definition initEthEd25519 (ethEd25519ArtifactPath : val) : eff W event (list (string * val)) :=
  deploy_or_exit {| cs_args := []; cs_gas := 5000000; cs_abiPath := VUndef; cs_binPath := VUndef;
                    cs_artifactPath := ethEd25519ArtifactPath |} "ethEd25519Address" [].

Definition initEthErc20 (ethErc20AbiPath ethErc20BinPath : val) : eff W event (list (string * val)) :=
  deploy_or_exit {| cs_args := []; cs_gas := 3000000; cs_abiPath := ethErc20AbiPath; cs_binPath := ethErc20BinPath;
                    cs_artifactPath := VUndef |} "ethErc20Address" [].

(** [web3.eth.accounts.privateKeyToAccount(ethMasterSk).address] and
    [Buffer.from(account, 'utf8')]. *)
Context (address_of : string -> val) (utf8 : string -> val).

Definition admin_address (ethAdminAddress : val) (ethMasterSk : string) : val :=
  match ethAdminAddress with VStr "" => address_of ethMasterSk | v => v end.

Definition initEthLocker (ethMasterSk nearTokenFactoryAccount : string) (ethProverAddress ethLockerAbiPath ethLockerBinPath
    ethAdminAddress : val) : eff W event (list (string * val)) :=
  let admin := admin_address ethAdminAddress ethMasterSk in
  deploy_or_exit {| cs_args := [utf8 nearTokenFactoryAccount; ethProverAddress; VNum 0; admin; VNum 0]; cs_gas := 5000000;
                    cs_abiPath := ethLockerAbiPath; cs_binPath := ethLockerBinPath; cs_artifactPath := VUndef |}
    "ethLockerAddress" [("ethAdminAddress", admin)].

(** [Number(v)] for the two durations, whole numbers of seconds ([None] is
    [NaN]), and [toBN] of the amount. *)
Context (toNumber : val -> option Z) (toBN : val -> outcome Z).

Definition minAllowedReplaceDuration (lock : Z) : Z := Z.min (lock + 20 * 60) (2 * lock).

(** A comparison with [NaN] is false; the error names the durations. *)
Definition client_guard (lock replace : option Z) : outcome unit :=
  match lock, replace with
  | Some l, Some r => if r <? minAllowedReplaceDuration l then Throw (Error "Invalid parameters") else Ret tt
  | _, _ => Ret tt
  end.

(** [toBN] of a number *)
Definition number_toBN (n : option Z) : outcome Z :=
  match n with Some z => Ret z | None => Throw (Error "Given input is not a valid number") end.

Definition initEthClient (ethMasterSk : string) (ethClientLockEthAmount ethClientLockDuration ethClientReplaceDuration
    ethEd25519Address ethClientArtifactPath ethAdminAddress : val) : eff W event (list (string * val)) :=
  let admin := admin_address ethAdminAddress ethMasterSk in
  let lock := toNumber ethClientLockDuration in
  let replace := toNumber ethClientReplaceDuration in
  _ ← lift (client_guard lock replace);
  lockEthAmount ← lift (toBN ethClientLockEthAmount);
  lockDuration ← lift (number_toBN lock);
  seconds ← lift (number_toBN replace);
  let replaceDuration := seconds * 1000000000 in
  deploy_or_exit {| cs_args := [ethEd25519Address; VNum lockEthAmount; VNum lockDuration; VNum replaceDuration; admin;
                                VNum 0];
                    cs_gas := 5000000; cs_abiPath := VUndef; cs_binPath := VUndef;
                    cs_artifactPath := ethClientArtifactPath |}
    "ethClientAddress" [].

Definition initEthProver (ethMasterSk : string) (ethClientAddress ethProverArtifactPath ethAdminAddress : val)
    : eff W event (list (string * val)) :=
  deploy_or_exit {| cs_args := [ethClientAddress; admin_address ethAdminAddress ethMasterSk; VNum 0]; cs_gas := 3000000;
                    cs_abiPath := VUndef; cs_binPath := VUndef; cs_artifactPath := ethProverArtifactPath |}
    "ethProverAddress" [].

End Initializer.

(** ** [InitNearContracts] *)

Section InitNear.
Context {N : Type} (near : NearConnection (KeyWorld N)) (node : NearNode N) (eth : Web3Node (KeyWorld N)).
Context (ethNodeUrl : string) (rpc_getBlockByNumber : Z -> service (KeyWorld N) val).
Context (header_rlp : string -> bool -> val -> outcome (list Z)).
(** The access key of an account, and the public key of a secret key. *)
Context (findAccessKey : string -> service N (option Z)) (publicKey : string -> outcome string).
Context (dag_merkle_roots : val).
Context {BW : BinaryWriter} {BN : BnLib} {HX : HexLib}.

Record NearArgs := {
  nearMasterAccount : string;
  nearMasterSk : val;
  nearClientAccount : string;
  nearClientSk : val;
  nearClientContractPath : string;
  nearClientInitBalance : Z;
  hashesGcThreshold : val;
  finalizedGcThreshold : val;
  numConfirmations : val;
  nearProverAccount : string;
  nearProverSk : val;
  nearProverContractPath : string;
  nearProverInitBalance : Z;
  nearNetworkId : string;
  nearClientValidateEthash : val;
  nearClientTrustedSigner : val
}.

Definition key_of (sk : val) : outcome string :=
  match sk with VStr s => publicKey s | _ => Throw (TypeError "encodedKey.split is not a function") end.

Definition initNearContracts (a : NearArgs) : eff (KeyWorld N) event (val * val) :=
  let clientSk := js_or (nearClientSk a) (nearMasterSk a) in
  let proverSk := js_or (nearProverSk a) (nearMasterSk a) in
  clientPk ← lift (key_of clientSk);
  proverPk ← lift (key_of proverSk);
  _ ← lift (key_of (nearMasterSk a));
  _ ← verifyAccount near (nearMasterAccount a);
  _ ← maybeCreateAccount near (nearMasterAccount a) (nearClientAccount a) clientPk (nearClientInitBalance a)
        (nearClientContractPath a);
  _ ← verifyAccount near (nearClientAccount a);
  _ ← maybeCreateAccount near (nearMasterAccount a) (nearProverAccount a) proverPk (nearProverInitBalance a)
        (nearProverContractPath a);
  _ ← verifyAccount near (nearProverAccount a);
  _ ← maybeInitialize node eth ethNodeUrl rpc_getBlockByNumber header_rlp (findAccessKey (nearClientAccount a))
        (nearClientAccount a) (nearClientAccount a) dag_merkle_roots (hashesGcThreshold a) (finalizedGcThreshold a)
        (numConfirmations a) (VBool (match nearClientValidateEthash a with VStr "true" => true | _ => false end))
        (js_or (nearClientTrustedSigner a) VNull) (VStr (nearNetworkId a));
  _ ← proverMaybeInitialize node (findAccessKey (nearProverAccount a)) (nearProverAccount a) (nearProverAccount a)
        (nearClientAccount a);
  mret (clientSk, proverSk).

End InitNear.

(** ** Lemmas *)

Section InitializerLemmas.
Context {W : Type} (eth : EthDeployer W) (ethGasMultiplier : Z).

(** The services answer: they return or throw. *)
Record deployer_answers : Prop := {
  artifact_answers path : answers (ed_artifact eth path);
  abi_answers path : answers (ed_abi eth path);
  bin_answers path : answers (ed_bin eth path);
  gasPrice_answers : answers (ed_getGasPrice eth);
  send_answers abi code args gas price : answers (ed_send eth abi code args gas price)
}.

(** The address is the one the last request of the run was answered with. *)
Definition deployed_at (spec : ContractSpec) (address : string) (w' : W) : Prop :=
  exists abi code price raw w1, ed_send eth abi code (cs_args spec) (cs_gas spec) price w1 = (Ret raw, w') /\
    address = normalizeEthKey raw.

Hypothesis Hok : deployer_answers.

Lemma read_contract_run spec w :
  exists o w', read_contract eth spec w = (o, w', []) /\ ((exists c, o = Ret c) \/ exists e, o = Throw e).
Proof.
  unfold read_contract, query. destruct (truthy (cs_artifactPath spec)).
  - pose proof (artifact_answers Hok (cs_artifactPath spec) w) as H.
    destruct (ed_artifact eth _ w) as [[c|e|c|] w1]; try done; eexists _, w1; eauto.
  - pose proof (abi_answers Hok (cs_abiPath spec) w) as H. rewrite eff_bind_eq.
    destruct (ed_abi eth _ w) as [[abi|e|c|] w1]; try done; [|eexists _, w1; eauto].
    pose proof (bin_answers Hok (cs_binPath spec) w1) as H1. cbn. rewrite eff_bind_eq.
    destruct (ed_bin eth _ w1) as [[bin|e|c|] w2]; try done; eexists _, w2; eauto.
Qed.

Lemma deploy_once_run spec w :
  exists o w' tr, deploy_once eth ethGasMultiplier spec w = (o, w', tr) /\ (calls "deploy" tr <= 1)%nat /\
    ((exists address, o = Ret address /\ deployed_at spec address w') \/ exists e, o = Throw e).
Proof.
  unfold deploy_once. destruct (read_contract_run spec w) as (o1 & w1 & E1 & [[[abi code] ->]|[e ->]]); rewrite eff_bind_eq, E1;
    cbn [out_of world_of trace_of fst snd]; [|eexists _, w1, []; split; [reflexivity|]; split; [cbv; lia | eauto]].
  unfold query, perform. pose proof (gasPrice_answers Hok w1) as H. rewrite eff_bind_eq.
  destruct (ed_getGasPrice eth w1) as [[price|e|c|] w2]; try done; cbn [out_of world_of trace_of fst snd];
    [|eexists _, w2, _; split; [reflexivity|]; split; [cbv; lia | eauto]].
  pose proof (send_answers Hok abi code (cs_args spec) (cs_gas spec) (price * ethGasMultiplier) w2) as H2. rewrite eff_bind_eq.
  destruct (ed_send eth abi code _ _ _ w2) as [[raw|e|c|] w3] eqn:Es; try done; eexists _, w3, _; (split; [reflexivity|]); cbn.
  - split; [done|]. left. eexists. split; [reflexivity|]. by exists abi, code, (price * ethGasMultiplier), raw, w2.
  - split; [done | eauto].
Qed.

Lemma initializer_loop_run fuel spec w :
  exists r w' tr, deploy_loop eth ethGasMultiplier fuel spec w = (Ret r, w', tr) /\ (calls "deploy" tr <= fuel)%nat /\
    forall address, r = Some address -> deployed_at spec address w'.
Proof.
  revert w. induction fuel as [|fuel IH]; intros w; cbn [deploy_loop]; [by exists None, w, []|].
  destruct (deploy_once_run spec w) as (o & w1 & tr & E & Hc & Ho). rewrite eff_bind_eq. unfold try_catch.
  rewrite eff_bind_eq, E. destruct Ho as [(address & -> & Hd)|[e ->]]; cbn [out_of world_of trace_of fst snd].
  - eexists _, w1, _. split; [reflexivity|]. cbn. rewrite !calls_app. split; [unfold calls in *; cbn; lia|]. by intros ? [= <-].
  - destruct (nonce_error e).
    + destruct (IH w1) as (r & w' & tr' & E' & Hc' & Hd). eexists r, w', _.
      rewrite eff_bind_eq. cbn [emit out_of world_of trace_of fst snd mret eff_ret]. rewrite E'. split; [reflexivity|].
      rewrite !calls_app. split; [unfold calls in *; cbn; lia | done].
    + eexists None, w1, _. split; [reflexivity|]. cbn. rewrite !calls_app. split; [unfold calls in *; cbn; lia | done].
Qed.

End InitializerLemmas.

(** Every deployment in a trace has these constructor arguments. *)
Definition deploys_with {W} (args : list val) (w w' : W) (tr : list event) : Prop :=
  forall code args', Call "deploy" (code :: args') ∈ tr -> args' = args.

#[global] Instance deploys_with_rel {W} args : TraceRel (@deploys_with W args).
Proof.
  split; [intros w c a H; by apply not_elem_of_nil in H|].
  intros w1 w2 w3 t1 t2 H1 H2 c a H. apply elem_of_app in H as [H|H]; eauto.
Qed.

Lemma deploys_with_nil {W} args (w w' : W) : deploys_with args w w' [].
Proof. intros c a H. by apply not_elem_of_nil in H. Qed.

#[export] Hint Resolve deploys_with_nil : bridge.

Section ArgumentLemmas.
Context {W : Type} (eth : EthDeployer W) (ethGasMultiplier : Z).

Lemma read_contract_deploys spec args : respects (deploys_with args) (read_contract eth spec).
Proof. unfold read_contract. destruct (truthy (cs_artifactPath spec)); auto 10 with bridge. Qed.

Lemma deploy_once_deploys spec : respects (deploys_with (cs_args spec)) (deploy_once eth ethGasMultiplier spec).
Proof.
  apply respects_bind; [apply _ | apply read_contract_deploys | intros [abi code]].
  apply respects_bind; [apply _ | auto with bridge | intros price].
  apply respects_bind; [apply _ | | auto with bridge]. apply respects_perform. intros w c a H.
  apply list_elem_of_singleton in H. by injection H.
Qed.

Lemma deploy_or_exit_deploys spec name more :
  respects (deploys_with (cs_args spec)) (deploy_or_exit eth ethGasMultiplier spec name more).
Proof.
  apply respects_bind; [apply _ | | intros [a|]; auto with bridge]. unfold execute.
  destruct (_ && _); [auto with bridge|]. generalize RETRY_SEND_TX as fuel.
  induction fuel as [|fuel IH]; cbn [deploy_loop]; [auto with bridge|].
  apply respects_bind; [apply _ | | intros [r|u]; auto with bridge].
  apply respects_try; [apply _ | | ].
  - apply respects_bind; [apply _ | apply deploy_once_deploys | auto with bridge].
  - intros e. destruct (nonce_error e); [|auto with bridge].
    apply respects_bind; [apply _ | | auto with bridge]. apply respects_emit. intros w c a H.
    by apply list_elem_of_singleton in H.
Qed.

End ArgumentLemmas.

(** ** Properties *)

(** The initializer always comes back, with at most fifteen deployment
    requests whichever of its services fail, and an address it returns is
    the normalized address answered by the last request: nothing is
    deployed after a success. *)
Theorem execute_returns {W} (eth : EthDeployer W) multiplier spec w :
  deployer_answers eth ->
  exists r w' tr, execute eth multiplier spec w = (Ret r, w', tr) /\ (calls "deploy" tr <= 15)%nat /\
    forall address, r = Some address -> deployed_at eth spec address w'.
Proof.
  intros Hok. unfold execute. destruct (_ && _); [|by apply initializer_loop_run].
  exists None, w, []. split; [done|]. split; [cbv; lia | done].
Qed.

(** The durations that pass the guard satisfy the contract's constructor,
    once the lock is positive. *)
Lemma guard_deploys amount lock seconds admin :
  client_guard (Some lock) (Some seconds) = Ret tt -> 0 < lock -> seconds * 1000000000 < 2 ^ 256 ->
  exists b, deploy amount lock (seconds * 1000000000) admin 0 = Ret b.
Proof.
  unfold client_guard, minAllowedReplaceDuration. destruct (seconds <? _) eqn:H; [done|]. intros _ Hl Hw.
  apply Z.ltb_ge in H. unfold deploy, require. rewrite (proj2 (Z.ltb_lt _ (2 ^ 256))) by lia. cbn [mbind outcome_bind]. rewrite (proj2 (Z.ltb_lt _ _)) by lia. by eexists.
Qed.

(** Whatever the command is given, every client contract it asks to
    deploy with a positive lock duration is accepted by the constructor of
    NearBridge, if the replace duration it passes fits in 256 bits: in
    nanoseconds, it exceeds the lock duration. *)
Theorem initEthClient_accepted {W} (eth : EthDeployer W) multiplier address_of toNumber toBN sk amount lock replace ed path
    admin w code args :
  Call "deploy" (code :: args) ∈
    trace_of (initEthClient eth multiplier address_of toNumber toBN sk amount lock replace ed path admin w) ->
  exists lockEthAmount lockDuration replaceDuration,
    args = [ed; VNum lockEthAmount; VNum lockDuration; VNum replaceDuration; admin_address address_of admin sk; VNum 0] /\
    toNumber lock = Some lockDuration /\
    (0 < lockDuration -> replaceDuration < 2 ^ 256 -> exists b, deploy lockEthAmount lockDuration replaceDuration "" 0 = Ret b).
Proof.
  unfold initEthClient. rewrite eff_bind_eq.
  destruct (client_guard (toNumber lock) (toNumber replace)) as [[]|e|c|] eqn:Hg; cbn; try (intros H; by apply not_elem_of_nil in H).
  rewrite eff_bind_eq. destruct (toBN amount) as [a|e|c|]; cbn; try (intros H; by apply not_elem_of_nil in H).
  rewrite eff_bind_eq. destruct (toNumber lock) as [l|]; cbn; [|intros H; by apply not_elem_of_nil in H].
  rewrite eff_bind_eq. destruct (toNumber replace) as [r|]; cbn; [|intros H; by apply not_elem_of_nil in H].
  intros H. apply (deploy_or_exit_deploys eth multiplier _ _ _ w) in H. cbn in H. subst args.
  exists a, l, (r * 1000000000). split; [done|]. split; [done|]. intros Hl Hw. by apply guard_deploys.
Qed.

Section NearProperties.
Context {N : Type} (near : NearConnection (KeyWorld N)) {L : Ledger near} (node : NearNode N) (eth : Web3Node (KeyWorld N)).
Context (ethNodeUrl : string) (rpc_getBlockByNumber : Z -> service (KeyWorld N) val).
Context (header_rlp : string -> bool -> val -> outcome (list Z)).
Context (findAccessKey : string -> service N (option Z)) (publicKey : string -> outcome string).
Context (dag_merkle_roots : val).
Context {BW : BinaryWriter} {BN : BnLib} {HX : HexLib}.

(** The account has a contract. *)
Definition has_contract (w : KeyWorld N) (id : string) : Prop := exists h, code_of w id = Some h /\ h <> EMPTY_HASH.

Lemma created_has_contract master id pk balance path w :
  out_of (maybeCreateAccount near master id pk balance path w) = Ret tt ->
  has_contract (world_of (maybeCreateAccount near master id pk balance path w)) id /\
  forall id', id' <> id -> code_of (world_of (maybeCreateAccount near master id pk balance path w)) id' = code_of w id'.
Proof.
  destruct (maybeCreateAccount_run near master id pk balance path w) as (o & w' & tr & E & _ & Ho & Hr). rewrite E.
  cbn. intros ->. split; [|done]. by destruct Hr as [[_ H]|].
Qed.


End NearProperties.

(** With an empty configuration a parameter is its declared default. *)
Lemma getParam_default path_join sol rs tc camelCase c n :
  paramValues c = [] -> configFile c = ∅ -> (n < length (declarations path_join sol rs tc))%nat ->
  let o := nth n (declarations path_join sol rs tc) (declared "" "" None false) in
  getParam camelCase (opt_name o) (declareAll path_join sol rs tc c) =
    match default (VStr "") (opt_default o) with
    | VNull | VUndef => Throw (Error ("Parameter " +:+ opt_name o +:+ " must be specified."))
    | v => Ret v
    end.
Proof.
  intros Hv Hf Hn o. assert (Ho : o ∈ declarations path_join sol rs tc) by (apply list_elem_of_In; by apply nth_In).
  destruct (declare_fold_state (declarations path_join sol rs tc) c) as [Ev Ef].
  unfold getParam, maybeGetParam, declareAll. rewrite Ev, Hv, Ef, Hf, lookup_empty. cbn [assoc].
  rewrite (declare_fold_lookup _ _ _ (optionNames_NoDup path_join sol rs tc) Ho). cbn [defaultValue declaration_of].
  by destruct (default (VStr "") (opt_default o)).
Qed.

(** The built-in defaults work together: a process started from an
    empty configuration offers a batch size and a gas limit that the
    relay's [initialize] accepts, and a lock and a replace duration that
    pass the guard of the client's deployment and its constructor. *)
Theorem defaults_accepted path_join sol rs tc camelCase c parseInt :
  paramValues c = [] -> configFile c = ∅ -> parseInt "4" = Some 4 ->
  let c' := declareAll path_join sol rs tc c in
  getParam camelCase "total-submit-block" c' = Ret (VNum 4) /\
  getParam camelCase "gas-per-transaction" c' = Ret (VStr "72000000000000") /\
  initialize parseInt "4" 72000000000000 = Ret {| totalSubmitBlock := 4; gasPerTransaction := 72000000000000 |} /\
  exists lock replace,
    getParam camelCase "eth-client-lock-duration" c' = Ret (VNum lock) /\
    getParam camelCase "eth-client-replace-duration" c' = Ret (VNum replace) /\
    client_guard (Some lock) (Some replace) = Ret tt /\
    forall amount admin, is_ret (deploy amount lock (replace * 1000000000) admin 0) = true.
Proof.
  intros Hv Hf Hp c'. subst c'.
  pose proof (fun n Hn => getParam_default path_join sol rs tc camelCase c n Hv Hf Hn) as Hget.
  split; [exact (Hget 50%nat ltac:(cbn; lia))|]. split; [exact (Hget 51%nat ltac:(cbn; lia))|].
  split; [unfold initialize; by rewrite Hp|]. exists 14400, 18000.
  split; [exact (Hget 36%nat ltac:(cbn; lia))|]. split; [exact (Hget 37%nat ltac:(cbn; lia))|].
  by split.
Qed.

(** ** Witnesses *)

Module Witness.
Import Reference NearTx.Witness EthOnNearClient.Witness.

(** A node that rejects two nonces before it deploys. *)
Definition deployer : EthDeployer nat := {|
  ed_artifact _ n := (Ret (VNull, "0x60"), n);
  ed_abi _ n := (Ret VNull, n);
  ed_bin _ n := (Ret "60", n);
  ed_getGasPrice n := (Ret 10, n);
  ed_send _ _ _ _ _ n :=
    if (n <? 2)%nat then (Throw (Error "the tx doesn't have the correct nonce"), S n) else (Ret "ABCD", S n)
|}.

Definition spec0 : ContractSpec :=
  {| cs_args := []; cs_gas := 5000000; cs_abiPath := VUndef; cs_binPath := VUndef; cs_artifactPath := VStr "Ed25519.json" |}.

Lemma deployer_ok : deployer_answers deployer.
Proof. split; try done. intros abi code args gas price n. by destruct n as [|[|n]]. Defined.

Lemma execute_returns_witness :
  exists r w' tr, execute deployer 1 spec0 0%nat = (Ret r, w', tr) /\ (calls "deploy" tr <= 15)%nat /\
    forall address, r = Some address -> deployed_at deployer spec0 address w'.
Proof. apply execute_returns. exact deployer_ok. Defined.

Example execute_third_try : out_of (execute deployer 1 spec0 0%nat) = Ret (Some "0xabcd").
Proof. vm_compute. reflexivity. Qed.

Definition asNumber (v : val) : option Z := match v with VNum n => Some n | _ => None end.
Definition asBN (v : val) : outcome Z := match v with VNum n => Ret n | _ => Throw (Error "") end.

Lemma initEthClient_accepted_witness :
  exists lockEthAmount lockDuration replaceDuration,
    [VStr "0xed"; VNum 1; VNum 14400; VNum 18000000000000; VStr "0xad"; VNum 0] =
      [VStr "0xed"; VNum lockEthAmount; VNum lockDuration; VNum replaceDuration;
       admin_address (fun _ => VNull) (VStr "0xad") "sk"; VNum 0] /\
    asNumber (VNum 14400) = Some lockDuration /\
    (0 < lockDuration -> replaceDuration < 2 ^ 256 -> exists b, deploy lockEthAmount lockDuration replaceDuration "" 0 = Ret b).
Proof.
  apply (initEthClient_accepted deployer 1 (fun _ => VNull) asNumber asBN "sk" (VNum 1) (VNum 14400) (VNum 18000)
    (VStr "0xed") (VStr "NearBridge.json") (VStr "0xad") 2%nat (VStr "0x60")).
  vm_compute. constructor.
Defined.

(** Two zero durations pass the guard and are refused by the constructor. *)
Theorem zero_durations_refused :
  client_guard (Some 0) (Some 0) = Ret tt /\ is_ret (deploy 1 0 (0 * 1000000000) "admin" 0) = false.
Proof. by split. Qed.

(** A ledger on which every account carries the same contract. *)
Definition static_chain : NearConnection (KeyWorld (list string)) := {|
  nc_fetchState _ w := (Ret "code", w);
  nc_createAccount _ _ _ _ w := (Ret (inr {| ce_type := Some "AccountAlreadyExists" |}), w);
  nc_readFile _ w := (Ret [], w);
  nc_deployContract _ _ w := (Ret tt, w);
  nc_getKey _ w := (Ret (Some "ed25519:K"), w);
  nc_getAccessKeys _ w := (Ret ["ed25519:K"], w)
|}.

#[export] Instance static_ledger : Ledger static_chain.
Proof.
  refine {| code_of _ _ := Some "code"; code_hash _ := "code" |}; try done.
  - intros id w. exists w. split; [done|]. left. by exists "code".
  - intros m id pk b w. eexists _, w. split; [reflexivity|]. split; [done|].
    rewrite decide_True by done. split; [by exists "code" | done].
  - intros path w. eexists _, w. by repeat split.
  - intros id bs w. eexists _, w. by repeat split.
Defined.

Definition near_args : NearArgs := {|
  nearMasterAccount := "master"; nearMasterSk := VStr "sk"; nearClientAccount := "client"; nearClientSk := VUndef;
  nearClientContractPath := "client.wasm"; nearClientInitBalance := 1; hashesGcThreshold := VNum 40000;
  finalizedGcThreshold := VNum 500; numConfirmations := VNum 30; nearProverAccount := "prover"; nearProverSk := VStr "psk";
  nearProverContractPath := "prover.wasm"; nearProverInitBalance := 1; nearNetworkId := "testnet";
  nearClientValidateEthash := VStr "true"; nearClientTrustedSigner := VStr ""
|}.


Lemma defaults_accepted_witness :
  let c' := declareAll Cli.Witness.join "sol" "rs" "tc" Cli.Witness.empty_config in
  getParam Cli.Witness.id_case "total-submit-block" c' = Ret (VNum 4) /\
  getParam Cli.Witness.id_case "gas-per-transaction" c' = Ret (VStr "72000000000000") /\
  initialize (fun _ => Some 4) "4" 72000000000000 = Ret {| totalSubmitBlock := 4; gasPerTransaction := 72000000000000 |} /\
  exists lock replace,
    getParam Cli.Witness.id_case "eth-client-lock-duration" c' = Ret (VNum lock) /\
    getParam Cli.Witness.id_case "eth-client-replace-duration" c' = Ret (VNum replace) /\
    client_guard (Some lock) (Some replace) = Ret tt /\
    forall amount admin, is_ret (deploy amount lock (replace * 1000000000) admin 0) = true.
Proof. apply defaults_accepted; reflexivity. Defined.

End Witness.
