(* ===== verification/Rlp.v ===== *)
(** * Recursive length prefix encoding

    The proof extractor encodes with the [rlp] packages of JavaScript
    (ethereumjs-util, eth-util-lite) and the contracts on NEAR decode with
    the [rlp] crate of Rust.  Neither is part of the repository: both enter
    as one class of operations with the laws of the format.  [Module RlpRef]
    is the format itself as an instance. *)

From S2P Require Import Prelude Interfaces.

(** An RLP item: a byte string or a list of items. *)
#[local] Unset Elimination Schemes.
Inductive item : Type :=
| Str (bs : list Z)
| Lst (items : list item).
#[local] Set Elimination Schemes.

(** Induction with a hypothesis for every member of a list. *)
Section ItemInd.
Variable P : item -> Prop.
Hypothesis P_str : forall bs, P (Str bs).
Hypothesis P_lst : forall items, Forall P items -> P (Lst items).

Fixpoint item_ind (i : item) : P i :=
  match i with
  | Str bs => P_str bs
  | Lst items =>
      P_lst items
        ((fix go (l : list item) : Forall P l :=
            match l with
            | [] => List.Forall_nil P
            | x :: l' => List.Forall_cons P x l' (item_ind x) (go l')
            end) items)
  end.
End ItemInd.

(** [rlp_encode] is [rlp.encode] of JavaScript and [rlp_uint] the encoding
    of a number; [rlp_count], [rlp_at] and [rlp_data] are [iter().count()],
    [at(pos)] (as raw bytes) and the byte string of an item in Rust, [None]
    being a decoder error. *)
Class RlpLib := {
  rlp_encode : item -> list Z;
  rlp_count : list Z -> nat;
  rlp_at : list Z -> nat -> option (list Z);
  rlp_data : list Z -> option (list Z)
}.

(** Numbers are encoded as their big-endian bytes without leading zeros. *)
Definition be_min (n : Z) : list Z := if n =? 0 then [] else reverse (le_bytes (Reference.byte_len n) n).

(** The number of big-endian bytes. *)
Definition be_value (bs : list Z) : Z := le_value (reverse bs).

Definition rlp_uint `{RlpLib} (n : Z) : list Z := rlp_encode (Str (be_min n)).

(** The items the format can express: bytes, and sizes of up to 8 bytes. *)
Fixpoint payload_size (i : item) : Z :=
  match i with
  | Str bs => Z.of_nat (length bs)
  | Lst items => foldr (fun x n => 9 + payload_size x + n) 0 items
  end.

Fixpoint item_bytes (i : item) : Prop :=
  match i with
  | Str bs => bytes_ok bs
  | Lst items => foldr (fun x P => item_bytes x /\ P) True items
  end.

Definition item_ok (i : item) : Prop := item_bytes i /\ payload_size i < 2 ^ 64.

Class RlpOk `{RlpLib} := {
  rlp_count_list : forall items, item_ok (Lst items) -> rlp_count (rlp_encode (Lst items)) = length items;
  rlp_at_list : forall items pos, item_ok (Lst items) ->
    rlp_at (rlp_encode (Lst items)) pos = rlp_encode <$> items !! pos;
  rlp_data_str : forall bs, item_ok (Str bs) -> rlp_data (rlp_encode (Str bs)) = Some bs;
  rlp_head_list : forall items, item_ok (Lst items) -> exists b t, rlp_encode (Lst items) = b :: t /\ 128 <= b;
  rlp_encode_bytes : forall i, item_ok i -> bytes_ok (rlp_encode i);
  rlp_length_max : forall i, item_ok i -> Z.of_nat (length (rlp_encode i)) <= 9 + payload_size i;
  rlp_length_str : forall bs, (length bs <= length (rlp_encode (Str bs)))%nat;
  rlp_length_list : forall items x, x ∈ items -> (length (rlp_encode x) <= length (rlp_encode (Lst items)))%nat
}.

(** ** Facts about items *)

Lemma payload_size_nonneg i : 0 <= payload_size i.
Proof.
  induction i as [bs | items IH] using item_ind; cbn [payload_size]; [lia|].
  induction IH as [|x l Hx Hl IHl]; cbn [foldr]; lia.
Qed.

Lemma item_bytes_list items : item_bytes (Lst items) <-> Forall item_bytes items.
Proof.
  cbn [item_bytes]. induction items as [|x l IH]; cbn [foldr]; [split; constructor|].
  rewrite list.Forall_cons, IH. done.
Qed.

Lemma payload_size_in items x : x ∈ items -> 9 + payload_size x <= payload_size (Lst items).
Proof.
  intros Hin. induction items as [|y l IH]; [by apply not_elem_of_nil in Hin|].
  pose proof (payload_size_nonneg (Lst l)) as Hl. pose proof (payload_size_nonneg y).
  cbn [payload_size foldr] in *. apply elem_of_cons in Hin as [->|Hin]; [lia|]. specialize (IH Hin). lia.
Qed.

Lemma item_ok_in items x : x ∈ items -> item_ok (Lst items) -> item_ok x.
Proof.
  intros Hin [Hb Hs]. split; [|pose proof (payload_size_in _ _ Hin); lia].
  apply item_bytes_list in Hb. rewrite list.Forall_forall in Hb. auto.
Qed.

Lemma item_ok_lookup items pos x : items !! pos = Some x -> item_ok (Lst items) -> item_ok x.
Proof. intros Hx. apply item_ok_in. by eapply list_elem_of_lookup_2. Qed.

#[export] Hint Resolve item_ok_in item_ok_lookup payload_size_nonneg : bridge.

(** ** Numbers *)

Lemma byte_len_bound n : 0 < n -> n < 256 ^ Z.of_nat (Reference.byte_len n).
Proof.
  intros Hn. unfold Reference.byte_len. pose proof (Z.log2_nonneg n). pose proof (Z.log2_spec n Hn) as [_ Hlt].
  rewrite Z2Nat.id by (apply Z.div_pos; lia). change 256 with (2 ^ 8). rewrite <- Z.pow_mul_r by (try apply Z.div_pos; lia).
  eapply Z.lt_le_trans; [exact Hlt|]. apply Z.pow_le_mono_r; [lia|].
  pose proof (Z.div_mod (Z.log2 n + 8) 8). pose proof (Z.mod_pos_bound (Z.log2 n + 8) 8). lia.
Qed.

Lemma be_value_min n : 0 <= n -> be_value (be_min n) = n.
Proof.
  intros Hn. unfold be_value, be_min. destruct (Z.eqb_spec n 0) as [->|Hne]; [done|].
  rewrite reverse_involutive. apply le_value_small. split; [done|]. apply byte_len_bound. lia.
Qed.

Lemma length_be_min n : 0 < n < 2 ^ 64 -> (1 <= length (be_min n) <= 8)%nat.
Proof.
  intros [Hn Hlt]. unfold be_min. rewrite (proj2 (Z.eqb_neq n 0)) by lia.
  rewrite length_reverse, length_le_bytes. unfold Reference.byte_len.
  pose proof (Z.log2_nonneg n). assert (Z.log2 n < 64) by (apply Z.log2_lt_pow2; lia).
  assert (1 <= (Z.log2 n + 8) / 8) by (apply Z.div_le_lower_bound; lia).
  assert ((Z.log2 n + 8) / 8 < 9) by (apply Z.div_lt_upper_bound; lia). lia.
Qed.

Lemma be_min_bytes n : bytes_ok (be_min n).
Proof.
  unfold be_min. case_match; [constructor|]. unfold bytes_ok. rewrite Forall_reverse. apply le_bytes_ok.
Qed.

(** ** The format as an instance *)

Module RlpRef.

(** The prefix of a payload of [len] bytes: one byte, or the length of the
    length and the length. *)
Definition prefix (offset len : Z) : list Z :=
  if len <? 56 then [offset + len]
  else (offset + 55 + Z.of_nat (length (be_min len))) :: be_min len.

Fixpoint encode (i : item) : list Z :=
  match i with
  | Str bs =>
      match bs with
      | [b] => if b <? 128 then [b] else prefix 128 1 ++ [b]
      | _ => prefix 128 (Z.of_nat (length bs)) ++ bs
      end
  | Lst items =>
      let payload := concat (map encode items) in
      prefix 192 (Z.of_nat (length payload)) ++ payload
  end.

(** Cut the first item off: whether it is a list, its payload, the rest. *)
Definition cut (is_list : bool) (len : Z) (bs : list Z) : option (bool * list Z * list Z) :=
  if Z.of_nat (length bs) <? len then None
  else Some (is_list, take (Z.to_nat len) bs, drop (Z.to_nat len) bs).

Definition split_item (bs : list Z) : option (bool * list Z * list Z) :=
  match bs with
  | [] => None
  | b :: r =>
      if b <? 128 then Some (false, [b], r)
      else if b <? 184 then cut false (b - 128) r
      else if b <? 192 then
        cut false (be_value (take (Z.to_nat (b - 183)) r)) (drop (Z.to_nat (b - 183)) r)
      else if b <? 248 then cut true (b - 192) r
      else cut true (be_value (take (Z.to_nat (b - 247)) r)) (drop (Z.to_nat (b - 247)) r)
  end.

(** The raw bytes of the items of a payload. *)
Fixpoint raw_items (fuel : nat) (bs : list Z) : list (list Z) :=
  match fuel with
  | O => []
  | S fuel' =>
      match split_item bs with
      | None => []
      | Some (_, _, rest) => take (length bs - length rest) bs :: raw_items fuel' rest
      end
  end.

Definition children (bs : list Z) : list (list Z) :=
  match split_item bs with
  | Some (true, payload, _) => raw_items (length payload) payload
  | _ => []
  end.

#[export] Instance rlp_ref : RlpLib := {|
  rlp_encode := encode;
  rlp_count bs := length (children bs);
  rlp_at bs pos := children bs !! pos;
  rlp_data bs :=
    match split_item bs with
    | Some (false, payload, _) => Some payload
    | _ => None
    end
|}.

(** ** The instance satisfies the laws *)

Lemma cut_app is_list (p rest : list Z) len :
  len = Z.of_nat (length p) -> cut is_list len (p ++ rest) = Some (is_list, p, rest).
Proof.
  intros ->. unfold cut. rewrite length_app, Nat2Z.inj_add, Nat2Z.id.
  rewrite (proj2 (Z.ltb_ge _ _)) by lia. by rewrite take_app_length, drop_app_length.
Qed.

(** A prefixed payload is cut off again. *)
Lemma split_prefix (is_list : bool) (p rest : list Z) :
  Z.of_nat (length p) < 2 ^ 64 ->
  split_item ((prefix (if is_list then 192 else 128) (Z.of_nat (length p)) ++ p) ++ rest) = Some (is_list, p, rest).
Proof.
  intros Hlt. unfold prefix. destruct (Z.ltb_spec (Z.of_nat (length p)) 56) as [Hs|Hs].
  - cbn [app split_item]. destruct is_list;
      repeat (case_match; zbool; try lia); by apply cut_app; lia.
  - pose proof (length_be_min (Z.of_nat (length p))) as Hl. specialize (Hl ltac:(lia)).
    cbn [app split_item]. rewrite <- app_assoc.
    destruct is_list; repeat (case_match; zbool; try lia); rewrite ?Z.add_simpl_l.
    + replace (192 + 55 + Z.of_nat (length (be_min (Z.of_nat (length p)))) - 247)
        with (Z.of_nat (length (be_min (Z.of_nat (length p))))) by lia.
      rewrite Nat2Z.id, take_app_length, drop_app_length. apply cut_app, be_value_min. lia.
    + replace (128 + 55 + Z.of_nat (length (be_min (Z.of_nat (length p)))) - 183)
        with (Z.of_nat (length (be_min (Z.of_nat (length p))))) by lia.
      rewrite Nat2Z.id, take_app_length, drop_app_length. apply cut_app, be_value_min. lia.
Qed.

Lemma length_prefix offset len : 0 <= len < 2 ^ 64 -> (1 <= length (prefix offset len) <= 9)%nat.
Proof.
  intros Hl. unfold prefix. destruct (Z.ltb_spec len 56); cbn [length]; [lia|].
  pose proof (length_be_min len ltac:(lia)). lia.
Qed.

Lemma length_encode i : payload_size i < 2 ^ 64 -> 1 <= Z.of_nat (length (encode i)) <= 9 + payload_size i.
Proof.
  induction i as [bs | items IH] using item_ind; intros Hs.
  - cbn [payload_size] in *. pose proof (length_prefix 128 (Z.of_nat (length bs)) ltac:(lia)).
    assert (1 <= Z.of_nat (length (prefix 128 (Z.of_nat (length bs)) ++ bs)) <= 9 + Z.of_nat (length bs))
      by (rewrite length_app; lia).
    destruct bs as [|b [|]]; cbn [encode]; auto. case_match; auto. cbn. lia.
  - assert (Hp : 0 <= Z.of_nat (length (concat (map encode items))) <= payload_size (Lst items)).
    { clear -IH Hs. induction IH as [|x l Hx Hl IHl]; cbn [map concat payload_size foldr] in *; [cbn; lia|].
      pose proof (payload_size_nonneg x). pose proof (payload_size_nonneg (Lst l)) as Hn. cbn [payload_size] in Hn.
      rewrite length_app. specialize (Hx ltac:(lia)). specialize (IHl ltac:(lia)). lia. }
    cbn [encode]. rewrite length_app.
    pose proof (length_prefix 192 (Z.of_nat (length (concat (map encode items)))) ltac:(lia)). lia.
Qed.

Definition is_lst (i : item) : bool := match i with Lst _ => true | Str _ => false end.
Definition payload (i : item) : list Z :=
  match i with Str bs => bs | Lst items => concat (map encode items) end.

Lemma length_payload items : payload_size (Lst items) < 2 ^ 64 -> Z.of_nat (length (payload (Lst items))) < 2 ^ 64.
Proof.
  intros Hs. pose proof (length_encode _ Hs) as Hl. cbn [encode payload] in *. rewrite length_app in Hl.
  cut (Z.of_nat (length (concat (map encode items))) <= payload_size (Lst items)); [lia|]. clear Hl.
  induction items as [|x l IHl]; cbn [map concat payload_size foldr] in *; [cbn; lia|].
  pose proof (payload_size_nonneg x). pose proof (payload_size_nonneg (Lst l)) as Hn. cbn [payload_size] in Hn.
  pose proof (length_encode x ltac:(lia)). specialize (IHl ltac:(lia)). rewrite length_app. lia.
Qed.

Lemma split_encode i rest : item_ok i -> split_item (encode i ++ rest) = Some (is_lst i, payload i, rest).
Proof.
  intros [Hb Hs]. destruct i as [bs|items].
  - assert (Hp := split_prefix false bs rest Hs). cbn [payload_size] in Hs.
    destruct bs as [|b [|]]; cbn [encode]; try exact Hp.
    case_match eqn:E; [|exact Hp]. cbn [app split_item]. by rewrite E.
  - apply (split_prefix true). by apply length_payload.
Qed.

Lemma raw_items_encode items fuel :
  Forall item_ok items -> (length items <= fuel)%nat ->
  raw_items fuel (concat (map encode items)) = map encode items.
Proof.
  intros Hok. revert fuel. induction Hok as [|x l Hx Hl IH]; intros fuel Hf.
  - by destruct fuel.
  - cbn [length] in Hf. destruct fuel as [|fuel]; [lia|]. cbn [map concat raw_items].
    rewrite split_encode by done. rewrite length_app, Nat.add_sub, take_app_length. by rewrite IH by lia.
Qed.

Lemma length_concat_encode items : Forall item_ok items -> (length items <= length (concat (map encode items)))%nat.
Proof.
  induction 1 as [|x l [_ Hx] Hl IH]; cbn [map concat length]; [done|].
  rewrite length_app. pose proof (length_encode x Hx). lia.
Qed.

Lemma children_encode items : item_ok (Lst items) -> children (encode (Lst items)) = map encode items.
Proof.
  intros Hok. unfold children. rewrite <- (app_nil_r (encode (Lst items))), split_encode by done. cbn [is_lst payload].
  assert (Forall item_ok items) by (apply list.Forall_forall; eauto with bridge).
  apply raw_items_encode; [done|]. by apply length_concat_encode.
Qed.

Lemma prefix_bytes offset len : 0 <= len < 2 ^ 64 -> offset = 128 \/ offset = 192 -> bytes_ok (prefix offset len).
Proof.
  intros Hl Ho. unfold prefix. destruct (Z.ltb_spec len 56).
  - apply bytes_ok_one. lia.
  - pose proof (length_be_min len ltac:(lia)). constructor; [|apply be_min_bytes]. unfold is_byte. lia.
Qed.

Lemma encode_bytes i : item_ok i -> bytes_ok (encode i).
Proof.
  induction i as [bs | items IH] using item_ind; intros [Hb Hs].
  - cbn [item_bytes payload_size] in *.
    assert (bytes_ok (prefix 128 (Z.of_nat (length bs)) ++ bs)) by (apply bytes_ok_app; [apply prefix_bytes; lia | done]).
    destruct bs as [|b [|]]; cbn [encode]; auto. by case_match.
  - cbn [encode]. pose proof (length_payload items Hs) as Hl. cbn [payload] in Hl.
    apply bytes_ok_app; [apply prefix_bytes; lia|].
    assert (Hin : forall x, x ∈ items -> item_ok x) by (intros x Hx; eapply item_ok_in; [exact Hx | done]).
    clear Hb Hs Hl. induction IH as [|x l Hx _ IHl]; cbn [map concat]; [constructor|].
    apply bytes_ok_app; [apply Hx, Hin; by left | apply IHl; intros y Hy; apply Hin; by right].
Qed.

(** Small encodings have small payloads. *)
Lemma payload_size_encode i : payload_size i + 9 <= 10 * Z.of_nat (length (encode i)).
Proof.
  induction i as [bs | items IH] using item_ind.
  - cbn [payload_size]. assert (Hp : (1 <= length (prefix 128 (Z.of_nat (length bs))))%nat)
      by (unfold prefix; case_match; cbn [length]; lia).
    destruct bs as [|b [|]]; cbn [encode]; try case_match; rewrite ?length_app in *; cbn [length] in *; lia.
  - assert (Hp : (1 <= length (prefix 192 (Z.of_nat (length (concat (map encode items))))))%nat)
      by (unfold prefix; case_match; cbn [length]; lia).
    cbn [encode]. rewrite length_app.
    cut (payload_size (Lst items) <= 10 * Z.of_nat (length (concat (map encode items)))); [lia|]. clear Hp.
    induction IH as [|x l Hx _ IHl]; cbn [payload_size foldr map concat] in *; [cbn; lia|]. rewrite length_app. lia.
Qed.

#[export] Instance rlp_ref_ok : RlpOk.
Proof.
  constructor; cbn [rlp_encode rlp_count rlp_at rlp_data rlp_ref].
  - intros items Hok. rewrite children_encode by done. apply length_map.
  - intros items pos Hok. rewrite children_encode by done. by rewrite <- list_lookup_fmap.
  - intros bs Hok. rewrite <- (app_nil_r (encode (Str bs))), split_encode by done. done.
  - intros items [_ Hs]. cbn [encode]. unfold prefix. pose proof (length_payload items Hs) as Hl. cbn [payload] in Hl.
    case_match; zbool; eexists _, _; (split; [reflexivity|]); lia.
  - apply encode_bytes.
  - intros i [_ Hs]. by apply length_encode.
  - intros bs. destruct bs as [|b [|]]; cbn [encode]; try case_match; rewrite ?length_app; cbn [length]; lia.
  - intros items x Hin. cbn [encode]. rewrite length_app. apply list_elem_of_lookup_1 in Hin as [j Hj].
    assert (Hm : map encode items !! j = Some (encode x)) by (by rewrite list_lookup_fmap, Hj).
    apply list.take_drop_middle in Hm. rewrite <- Hm, concat_app. cbn [concat]. rewrite !length_app. lia.
Qed.

End RlpRef.
