(* ===== verification/SolMemory.v ===== *)
(** * The contracts' decoder over the memory of the virtual machine

    Borsh.sol, Utils.sol and NearDecoder.sol (contracts/eth/nearbridge) as
    they are written: a cursor with an address and an end, words read with
    [mload] beyond the end of the data and cut to their first bytes,
    integers whose bytes are swapped with masks and shifts, a copy loop
    over words in memory.  LightClientBlock.v has the same decoder over
    lists of bytes, on which the other theorems rest; here the memory
    version is shown to compute it. *)

From S2P Require Import Prelude Interfaces LightClientBlock Rlp.

(** ** Utils.sol *)

Module Utils.

(** The left shift of a [w]-bit integer drops the high bits. *)
Definition shl (w v k : Z) : Z := Z.shiftl v k mod 2 ^ w.

Definition swapBytes2 (v : Z) : Z := Z.lor (shl 16 v 8) (Z.shiftr v 8).

Definition swapBytes4 (v : Z) : Z :=
  let v := Z.lor (shl 32 (Z.land v 0x00ff00ff) 8) (Z.shiftr (Z.land v 0xff00ff00) 8) in
  Z.lor (shl 32 v 16) (Z.shiftr v 16).

Definition swapBytes8 (v : Z) : Z :=
  let v := Z.lor (shl 64 (Z.land v 0x00ff00ff00ff00ff) 8) (Z.shiftr (Z.land v 0xff00ff00ff00ff00) 8) in
  let v := Z.lor (shl 64 (Z.land v 0x0000ffff0000ffff) 16) (Z.shiftr (Z.land v 0xffff0000ffff0000) 16) in
  Z.lor (shl 64 v 32) (Z.shiftr v 32).

Definition swapBytes16 (v : Z) : Z :=
  let v := Z.lor (shl 128 (Z.land v 0x00ff00ff00ff00ff00ff00ff00ff00ff) 8) (Z.shiftr (Z.land v 0xff00ff00ff00ff00ff00ff00ff00ff00) 8) in
  let v := Z.lor (shl 128 (Z.land v 0x0000ffff0000ffff0000ffff0000ffff) 16) (Z.shiftr (Z.land v 0xffff0000ffff0000ffff0000ffff0000) 16) in
  let v := Z.lor (shl 128 (Z.land v 0x00000000ffffffff00000000ffffffff) 32) (Z.shiftr (Z.land v 0xffffffff00000000ffffffff00000000) 32) in
  Z.lor (shl 128 v 64) (Z.shiftr v 64).

Definition swapBytes32 (v : Z) : Z :=
  let v := Z.lor (shl 256 (Z.land v 0x00ff00ff00ff00ff00ff00ff00ff00ff00ff00ff00ff00ff00ff00ff00ff00ff) 8)
    (Z.shiftr (Z.land v 0xff00ff00ff00ff00ff00ff00ff00ff00ff00ff00ff00ff00ff00ff00ff00ff00) 8) in
  let v := Z.lor (shl 256 (Z.land v 0x0000ffff0000ffff0000ffff0000ffff0000ffff0000ffff0000ffff0000ffff) 16)
    (Z.shiftr (Z.land v 0xffff0000ffff0000ffff0000ffff0000ffff0000ffff0000ffff0000ffff0000) 16) in
  let v := Z.lor (shl 256 (Z.land v 0x00000000ffffffff00000000ffffffff00000000ffffffff00000000ffffffff) 32)
    (Z.shiftr (Z.land v 0xffffffff00000000ffffffff00000000ffffffff00000000ffffffff00000000) 32) in
  let v := Z.lor (shl 256 (Z.land v 0x0000000000000000ffffffffffffffff0000000000000000ffffffffffffffff) 64)
    (Z.shiftr (Z.land v 0xffffffffffffffff0000000000000000ffffffffffffffff0000000000000000) 64) in
  Z.lor (shl 256 v 128) (Z.shiftr v 128).

(** *** Memory: a byte for every address *)

Definition memory := Z -> Z.

Definition mem_bytes (m : memory) (p : Z) (n : nat) : list Z := map (fun i => m (p + Z.of_nat i)) (seq 0 n).

Definition mload (m : memory) (p : Z) : Z := be_value (mem_bytes m p 32).

Definition mstore (m : memory) (p v : Z) : memory :=
  fun a => if (p <=? a) && (a <? p + 32) then Z.shiftr v (8 * (31 - (a - p))) mod 256 else m a.

Definition w256 (z : Z) : Z := z mod 2 ^ 256.

Definition readMemory (m : memory) (ptr : Z) : Z := mload m ptr.
Definition writeMemory (m : memory) (ptr value : Z) : memory := mstore m ptr value.

(** The copy loop of [memoryToBytes]. *)
Fixpoint copy_words (fuel : nat) (m : memory) (ptr destPtr end_ : Z) : outcome memory :=
  match fuel with
  | O => OutOfFuel
  | S fuel =>
      let m := mstore m destPtr (mload m ptr) in
      let destPtr := w256 (destPtr + 32) in
      if destPtr =? end_ then Ret m else copy_words fuel m (w256 (ptr + 32)) destPtr end_
  end.

(** [memoryToBytes]: the address of the new [bytes], 0x60 being the empty
    value of the type, with the memory after the call. *)
Definition memoryToBytes (fuel : nat) (m : memory) (ptr length : Z) : outcome (Z * memory) :=
  if length =? 0 then Ret (0x60, m)
  else
    let res := mload m 0x40 in
    let end_ := w256 (res + Z.land (w256 (length + 63)) 0xffffffffffffffffffffffffffffffffffffffffffffffffffffffffffffffe0) in
    let m := mstore m 0x40 end_ in
    let m := mstore m res length in
    m ← copy_words fuel m ptr (w256 (res + 32)) end_;
    Ret (res, m).

Section Hashes.
Context (keccak256 sha256 : list Z -> list Z).

Definition keccak256Raw (m : memory) (ptr length : Z) : list Z := keccak256 (mem_bytes m ptr (Z.to_nat length)).

(** The precompile leaves its answer in the scratch space below 0x40, from
    which the word is loaded; the scratch space is not read elsewhere. *)
Definition sha256Raw (m : memory) (ptr length : Z) : list Z := sha256 (mem_bytes m ptr (Z.to_nat length)).
End Hashes.

End Utils.
Import Utils.

(** ** Swapping bytes *)

(** One stage exchanges the neighbouring blocks of [k] bits. *)
Definition swap_stage (w m1 m2 k v : Z) : Z := Z.lor (shl w (Z.land v m1) k) (Z.shiftr (Z.land v m2) k).

Definition neighbour (k n : Z) : Z := if Z.even (n / k) then n + k else n - k.

(** What the masks of a stage must be, checked bit by bit. *)
Definition masks_ok (w m1 m2 k : Z) : bool :=
  forallb (fun i => let n := Z.of_nat i in
    Bool.eqb (Z.testbit m2 n) (Z.odd (n / k)) && Bool.eqb (Z.testbit m1 n) (Z.even (n / k))) (seq 0 (Z.to_nat w)).

Lemma below_forallb (w : Z) (f : Z -> bool) n : forallb (fun i => f (Z.of_nat i)) (seq 0 (Z.to_nat w)) = true -> 0 <= n < w -> f n = true.
Proof.
  intros H Hn. rewrite forallb_forall in H. specialize (H (Z.to_nat n)). rewrite Z2Nat.id in H by lia. apply H, in_seq. lia.
Qed.

Lemma testbit_shl w v k n : 0 <= k -> 0 <= n < w -> Z.testbit (shl w v k) n = Z.testbit v (n - k).
Proof. intros Hk Hn. unfold shl. rewrite Z.mod_pow2_bits_low by lia. apply Z.shiftl_spec. lia. Qed.

Lemma testbit_high w v n : 0 <= v < 2 ^ w -> 0 <= w <= n -> Z.testbit v n = false.
Proof. intros Hv Hn. rewrite <- (Z.mod_small v (2 ^ w)) by done. apply Z.mod_pow2_bits_high. lia. Qed.

Lemma neighbour_parity k n : 0 < k -> 0 <= n ->
  Z.even ((n + k) / k) = negb (Z.even (n / k)) /\ Z.even ((n - k) / k) = negb (Z.even (n / k)).
Proof.
  intros Hk Hn. replace (n + k) with (n + 1 * k) by lia. replace (n - k) with (n + (-1) * k) by lia. rewrite !Z.div_add by lia.
  rewrite !Z.even_add. by destruct (Z.even (n / k)).
Qed.

Lemma block_pair w k n : 0 < k -> (2 * k | w) -> 0 <= n < w -> Z.even (n / k) = true -> n + k < w.
Proof.
  intros Hk [c ->] Hn He. apply Z.even_spec in He as [q Hq]. pose proof (Z.div_mod n k ltac:(lia)). pose proof (Z.mod_pos_bound n k Hk).
  rewrite Hq in *. assert (q < c) by nia. nia.
Qed.

Lemma masks_at w m1 m2 k n : masks_ok w m1 m2 k = true -> 0 <= n < w -> Z.testbit m2 n = negb (Z.even (n / k)) /\ Z.testbit m1 n = Z.even (n / k).
Proof.
  intros H Hn. pose proof (below_forallb w (fun n => Bool.eqb (Z.testbit m2 n) (Z.odd (n / k)) && Bool.eqb (Z.testbit m1 n) (Z.even (n / k))) n H Hn) as Hb.
  cbv beta in Hb. apply andb_true_iff in Hb as [H1%eqb_prop H2%eqb_prop]. by rewrite H1, Z.negb_even.
Qed.

Lemma testbit_stage w m1 m2 k v n :
  masks_ok w m1 m2 k = true -> 0 < k -> (2 * k | w) -> 0 <= v < 2 ^ w -> 0 <= n < w ->
  Z.testbit (swap_stage w m1 m2 k v) n = Z.testbit v (neighbour k n).
Proof.
  intros Hm Hk Hw Hv Hn. unfold swap_stage, neighbour. rewrite Z.lor_spec, testbit_shl, Z.shiftr_spec, !Z.land_spec by lia.
  destruct (neighbour_parity k n Hk ltac:(lia)) as [Hp Hq]. destruct (Z.even (n / k)) eqn:He.
  - pose proof (block_pair w k n Hk Hw Hn He). destruct (masks_at w m1 m2 k (n + k) Hm ltac:(lia)) as [-> _]. rewrite Hp, andb_true_r.
    destruct (Z.ltb_spec (n - k) 0); [by rewrite (Z.testbit_neg_r v)|].
    destruct (masks_at w m1 m2 k (n - k) Hm ltac:(lia)) as [_ ->]. by rewrite Hq, andb_false_r.
  - assert (0 <= n - k). { destruct (Z.ltb_spec n k) as [Hlt|]; [|lia]. rewrite Z.div_small in He by lia. done. }
    destruct (masks_at w m1 m2 k (n - k) Hm ltac:(lia)) as [_ ->]. rewrite Hq, andb_true_r.
    destruct (Z.ltb_spec (n + k) w); [|rewrite (testbit_high w v (n + k)) by lia; by rewrite orb_false_r].
    destruct (masks_at w m1 m2 k (n + k) Hm ltac:(lia)) as [-> _]. rewrite Hp. by rewrite andb_false_r, orb_false_r.
Qed.

(** The last stage needs no masks. *)
Lemma testbit_halves k v n : 0 < k -> 0 <= v < 2 ^ (2 * k) -> 0 <= n < 2 * k ->
  Z.testbit (Z.lor (shl (2 * k) v k) (Z.shiftr v k)) n = Z.testbit v (neighbour k n).
Proof.
  intros Hk Hv Hn. unfold neighbour. rewrite Z.lor_spec, testbit_shl, Z.shiftr_spec by lia. destruct (Z.ltb_spec n k).
  - rewrite Z.div_small, (Z.testbit_neg_r v (n - k)) by lia. done.
  - replace (n / k) with 1 by (apply Z.div_unique with (n - k); lia). rewrite (testbit_high (2 * k) v (n + k)) by lia. by rewrite orb_false_r.
Qed.

Lemma bits_bound w v : 0 <= w -> 0 <= v -> (forall n, w <= n -> Z.testbit v n = false) -> 0 <= v < 2 ^ w.
Proof.
  intros Hw Hv Hb. replace v with (v mod 2 ^ w); [apply Z.mod_pos_bound; lia|]. apply Z.bits_inj'. intros n Hn.
  destruct (Z.ltb_spec n w); [by apply Z.mod_pow2_bits_low | rewrite Z.mod_pow2_bits_high, Hb by lia; done].
Qed.

Lemma lor_shift_bound w v1 v2 k : 0 <= w -> 0 <= k -> 0 <= v2 < 2 ^ w -> 0 <= Z.lor (shl w v1 k) (Z.shiftr v2 k) < 2 ^ w.
Proof.
  intros Hw Hk Hv. pose proof (Z.mod_pos_bound (Z.shiftl v1 k) (2 ^ w) ltac:(lia)) as Hs. fold (shl w v1 k) in Hs. apply bits_bound; [done| |].
  - apply Z.lor_nonneg. split; [lia | apply Z.shiftr_nonneg; lia].
  - intros n Hn. rewrite Z.lor_spec, Z.shiftr_spec, (testbit_high w (shl w v1 k)), (testbit_high w v2) by lia. done.
Qed.

Lemma stage_bound w m1 m2 k v : 0 <= w -> 0 <= k -> 0 <= v < 2 ^ w -> 0 <= swap_stage w m1 m2 k v < 2 ^ w.
Proof.
  intros Hw Hk Hv. apply lor_shift_bound; [done..|]. apply bits_bound; [done | apply Z.land_nonneg; lia|].
  intros n Hn. rewrite Z.land_spec, (testbit_high w v) by lia. done.
Qed.

(** A function that moves the bits of [w]-bit integers. *)
Definition moves_bits (w : Z) (f : Z -> Z) (place : Z -> Z) : Prop :=
  forall v, 0 <= v < 2 ^ w -> 0 <= f v < 2 ^ w /\ forall n, 0 <= n < w -> Z.testbit (f v) n = Z.testbit v (place n).

Lemma swap_stage_moves w m1 m2 k : masks_ok w m1 m2 k = true -> 0 <= w -> 0 < k -> (2 * k | w) -> moves_bits w (swap_stage w m1 m2 k) (neighbour k).
Proof. intros Hm Hw Hk Hd v Hv. split; [apply stage_bound; lia | intros n Hn; by apply testbit_stage]. Qed.

Lemma halves_moves k : 0 < k -> moves_bits (2 * k) (fun v => Z.lor (shl (2 * k) v k) (Z.shiftr v k)) (neighbour k).
Proof. intros Hk v Hv. split; [apply lor_shift_bound; lia | intros n Hn; by apply testbit_halves]. Qed.

Lemma moves_compose w f g p q : (forall n, 0 <= n < w -> 0 <= q n < w) -> moves_bits w f p -> moves_bits w g q -> moves_bits w (fun v => g (f v)) (fun n => p (q n)).
Proof.
  intros Hq Hf Hg v Hv. destruct (Hf v Hv) as [Hfv Hfb]. destruct (Hg (f v) Hfv) as [Hgv Hgb]. split; [done|].
  intros n Hn. rewrite Hgb by done. apply Hfb, Hq, Hn.
Qed.

Lemma moves_place w f p p' : moves_bits w f p -> (forall n, 0 <= n < w -> p n = p' n) -> moves_bits w f p'.
Proof. intros Hf Hp v Hv. destruct (Hf v Hv) as [Hb Ht]. split; [done|]. intros n Hn. rewrite <- Hp by done. by apply Ht. Qed.

Lemma neighbour_range w k n : 0 < k -> (2 * k | w) -> 0 <= n < w -> 0 <= neighbour k n < w.
Proof.
  intros Hk Hw Hn. unfold neighbour. destruct (Z.even (n / k)) eqn:He; [pose proof (block_pair w k n Hk Hw Hn He); lia|].
  destruct (Z.ltb_spec n k); [rewrite Z.div_small in He by lia; done | lia].
Qed.

(** The place of a bit when the bytes are in the other order. *)
Definition mirror (w n : Z) : Z := w - 8 - 8 * (n / 8) + n mod 8.

Definition mirrored (w : Z) (place : Z -> Z) : bool := forallb (fun i => (place (Z.of_nat i) =? mirror w (Z.of_nat i))) (seq 0 (Z.to_nat w)).

Lemma mirrored_moves w f place : mirrored w place = true -> moves_bits w f place -> moves_bits w f (mirror w).
Proof. intros Hm Hf. eapply moves_place; [done|]. intros n Hn. apply Z.eqb_eq. exact (below_forallb w (fun n => place n =? mirror w n) n Hm Hn). Qed.

#[local] Hint Extern 1 (_ | _) => apply Z.mod_divide; [discriminate | vm_compute; reflexivity] : swap.
#[local] Hint Extern 1 (masks_ok _ _ _ _ = true) => vm_compute; reflexivity : swap.
#[local] Hint Extern 1 (_ <= _) => done : swap.
#[local] Hint Extern 1 (_ < _) => done : swap.
#[local] Hint Resolve swap_stage_moves neighbour_range : swap.

Lemma swapBytes2_moves : moves_bits 16 swapBytes2 (mirror 16).
Proof. eapply mirrored_moves; [|exact (halves_moves 8 eq_refl)]. vm_compute. reflexivity. Qed.

Lemma swapBytes4_moves : moves_bits 32 swapBytes4 (mirror 32).
Proof.
  eapply mirrored_moves; [|apply (moves_compose _ (swap_stage 32 0x00ff00ff 0xff00ff00 8)
    (fun v => Z.lor (shl 32 v 16) (Z.shiftr v 16)) (neighbour 8) (neighbour 16)); [auto with swap..|exact (halves_moves 16 eq_refl)]].
  vm_compute. reflexivity.
Qed.

Lemma swapBytes8_moves : moves_bits 64 swapBytes8 (mirror 64).
Proof.
  eapply mirrored_moves; [|apply (moves_compose _ (fun v => swap_stage 64 0x0000ffff0000ffff 0xffff0000ffff0000 16 (swap_stage 64 0x00ff00ff00ff00ff 0xff00ff00ff00ff00 8 v))
    (fun v => Z.lor (shl 64 v 32) (Z.shiftr v 32)) (fun n => neighbour 8 (neighbour 16 n)) (neighbour 32));
    [auto with swap | apply moves_compose; auto with swap | exact (halves_moves 32 eq_refl)]].
  vm_compute. reflexivity.
Qed.

Lemma swapBytes16_moves : moves_bits 128 swapBytes16 (mirror 128).
Proof.
  eapply mirrored_moves; [|apply (moves_compose _ (fun v =>
      swap_stage 128 0x00000000ffffffff00000000ffffffff 0xffffffff00000000ffffffff00000000 32
      (swap_stage 128 0x0000ffff0000ffff0000ffff0000ffff 0xffff0000ffff0000ffff0000ffff0000 16
      (swap_stage 128 0x00ff00ff00ff00ff00ff00ff00ff00ff 0xff00ff00ff00ff00ff00ff00ff00ff00 8 v)))
    (fun v => Z.lor (shl 128 v 64) (Z.shiftr v 64)) (fun n => neighbour 8 (neighbour 16 (neighbour 32 n))) (neighbour 64));
    [auto with swap | | exact (halves_moves 64 eq_refl)]].
  - vm_compute. reflexivity.
  - apply (moves_compose _ (fun v => swap_stage 128 _ _ 16 (swap_stage 128 _ _ 8 v)) (swap_stage 128 _ _ 32) (fun n => neighbour 8 (neighbour 16 n)) (neighbour 32));
      [auto with swap | apply moves_compose; auto with swap | auto with swap].
Qed.

Lemma swapBytes32_moves : moves_bits 256 swapBytes32 (mirror 256).
Proof.
  eapply mirrored_moves; [|apply (moves_compose _ (fun v =>
      swap_stage 256 0x0000000000000000ffffffffffffffff0000000000000000ffffffffffffffff 0xffffffffffffffff0000000000000000ffffffffffffffff0000000000000000 64
      (swap_stage 256 0x00000000ffffffff00000000ffffffff00000000ffffffff00000000ffffffff 0xffffffff00000000ffffffff00000000ffffffff00000000ffffffff00000000 32
      (swap_stage 256 0x0000ffff0000ffff0000ffff0000ffff0000ffff0000ffff0000ffff0000ffff 0xffff0000ffff0000ffff0000ffff0000ffff0000ffff0000ffff0000ffff0000 16
      (swap_stage 256 0x00ff00ff00ff00ff00ff00ff00ff00ff00ff00ff00ff00ff00ff00ff00ff00ff 0xff00ff00ff00ff00ff00ff00ff00ff00ff00ff00ff00ff00ff00ff00ff00ff00 8 v))))
    (fun v => Z.lor (shl 256 v 128) (Z.shiftr v 128)) (fun n => neighbour 8 (neighbour 16 (neighbour 32 (neighbour 64 n)))) (neighbour 128));
    [auto with swap | | exact (halves_moves 128 eq_refl)]].
  - vm_compute. reflexivity.
  - apply (moves_compose _ (fun v => swap_stage 256 _ _ 32 (swap_stage 256 _ _ 16 (swap_stage 256 _ _ 8 v))) (swap_stage 256 _ _ 64)
      (fun n => neighbour 8 (neighbour 16 (neighbour 32 n))) (neighbour 64)); [auto with swap | | auto with swap].
    apply (moves_compose _ (fun v => swap_stage 256 _ _ 16 (swap_stage 256 _ _ 8 v)) (swap_stage 256 _ _ 32) (fun n => neighbour 8 (neighbour 16 n)) (neighbour 32));
      [auto with swap | apply moves_compose; auto with swap | auto with swap].
Qed.

(** *** Big-endian words and little-endian values *)

Lemma testbit_le_value bs n : bytes_ok bs -> 0 <= n -> Z.testbit (le_value bs) n = Z.testbit (nth (Z.to_nat (n / 8)) bs 0) (n mod 8).
Proof.
  intros Hbs. revert n. induction Hbs as [|b bs Hb Hbs IH]; intros n Hn; cbn [le_value].
  - rewrite Z.bits_0. destruct (Z.to_nat (n / 8)); by rewrite Z.bits_0.
  - unfold is_byte in Hb. destruct (Z.ltb_spec n 8).
    + rewrite Z.div_small, Z.mod_small by lia. cbn [nth Z.to_nat]. rewrite <- (Z.mod_pow2_bits_low _ 8) by lia.
      change (2 ^ 8) with 256. rewrite Z.add_comm, Z.mul_comm, Z.add_comm, Z.mod_add by lia. by rewrite Z.mod_small.
    + replace n with (n - 8 + 8) at 1 by lia. rewrite <- Z.div_pow2_bits by lia. change (2 ^ 8) with 256.
      rewrite Z.mul_comm, Z.div_add, (Z.div_small b), Z.add_0_l, IH by lia.
      replace n with (n - 8 + 1 * 8) at 3 4 by lia. rewrite Z.div_add, Z.mod_add by lia.
      replace (Z.to_nat ((n - 8) / 8 + 1)) with (S (Z.to_nat ((n - 8) / 8))); [done|].
      pose proof (Z.div_pos (n - 8) 8). lia.
Qed.

Lemma be_value_bound bs : bytes_ok bs -> 0 <= be_value bs < 256 ^ Z.of_nat (length bs).
Proof. intros H. unfold be_value. rewrite <- (length_reverse bs). apply le_value_bound. by apply Forall_reverse. Qed.

(** Swapping the bytes of the big-endian number gives the little-endian one. *)
Lemma swap_value (len : nat) f bs :
  moves_bits (8 * Z.of_nat len) f (mirror (8 * Z.of_nat len)) -> bytes_ok bs -> length bs = len -> f (be_value bs) = le_value bs.
Proof.
  intros Hf Hbs Hlen. assert (256 ^ Z.of_nat len = 2 ^ (8 * Z.of_nat len)) as Hpow by (change 256 with (2 ^ 8); symmetry; apply Z.pow_mul_r; lia).
  pose proof (be_value_bound bs Hbs) as Hb. pose proof (le_value_bound bs Hbs) as Hl. rewrite Hlen, Hpow in Hb, Hl.
  destruct (Hf _ Hb) as [Hfb Hbits]. apply Z.bits_inj'. intros n Hn. set (w := 8 * Z.of_nat len) in *.
  destruct (Z.ltb_spec n w) as [Hlt|]; [|by rewrite (testbit_high w (f _)), (testbit_high w (le_value bs)) by lia].
  rewrite Hbits by lia. pose proof (Z.div_mod n 8 ltac:(lia)) as Hdm. pose proof (Z.mod_pos_bound n 8 ltac:(lia)) as Hmod.
  assert (0 <= n / 8 < Z.of_nat len) as Hq by (split; [by apply Z.div_pos | apply Z.div_lt_upper_bound; lia]).
  assert (mirror w n = n mod 8 + (Z.of_nat len - 1 - n / 8) * 8) as -> by (unfold mirror, w; lia).
  unfold be_value. rewrite !testbit_le_value by (try lia; try done; by apply Forall_reverse).
  rewrite Z.div_add, Z.mod_add, (Z.div_small (n mod 8)), Z.mod_mod, Z.add_0_l by lia. f_equal.
  rewrite (nth_lookup (reverse bs)), (nth_lookup bs). f_equal. rewrite reverse_lookup by lia. f_equal. lia.
Qed.

(** ** Borsh.sol and NearDecoder.sol over memory *)

Record Data := { ptr : Z; end_ : Z }.

Module Mem.

Definition from (m : memory) (data : Z) : Data :=
  let p := w256 (data + 32) in {| ptr := p; end_ := w256 (p + readMemory m data) |}.

Definition requireSpace (d : Data) (length : Z) : outcome unit :=
  if w256 (ptr d + length) <=? end_ d then Ret tt else Contract.revert "Parse error: unexpected EOI".

Definition advance (d : Data) (length : Z) : Data := {| ptr := w256 (ptr d + length); end_ := end_ d |}.

Definition done (d : Data) : outcome unit :=
  if ptr d =? end_ d then Ret tt else Contract.revert "Parse error: EOI expected".

Section Decoders.
Context (m : memory).

(** A [bytes32] is the list of its bytes, so that [bytesN(x)] takes the
    first ones and [uintN(x)] is their big-endian value. *)
Definition read (d : Data) (length : Z) : outcome (list Z * Data) :=
  _ ← requireSpace d length;
  Ret (reverse (le_bytes 32 (readMemory m (ptr d))), advance d length).

Definition decodeU8 (d : Data) : outcome (Z * Data) := '(b, d) ← read d 1; Ret (be_value (take 1 b), d).
Definition decodeU16 (d : Data) : outcome (Z * Data) := '(b, d) ← read d 2; Ret (swapBytes2 (be_value (take 2 b)), d).
Definition decodeU32 (d : Data) : outcome (Z * Data) := '(b, d) ← read d 4; Ret (swapBytes4 (be_value (take 4 b)), d).
Definition decodeU64 (d : Data) : outcome (Z * Data) := '(b, d) ← read d 8; Ret (swapBytes8 (be_value (take 8 b)), d).
Definition decodeU128 (d : Data) : outcome (Z * Data) := '(b, d) ← read d 16; Ret (swapBytes16 (be_value (take 16 b)), d).
Definition decodeU256 (d : Data) : outcome (Z * Data) := '(b, d) ← read d 32; Ret (swapBytes32 (be_value b), d).
Definition decodeBytes20 (d : Data) : outcome (list Z * Data) := '(b, d) ← read d 20; Ret (take 20 b, d).
Definition decodeBytes32 (d : Data) : outcome (list Z * Data) := read d 32.

Definition decodeBool (d : Data) : outcome (bool * Data) :=
  '(res, d) ← decodeU8 d;
  if res <=? 1 then Ret (negb (res =? 0), d) else Contract.revert "Parse error: invalid bool".

Definition skipBytes (d : Data) : outcome (unit * Data) :=
  '(length, d) ← decodeU32 d;
  _ ← requireSpace d length;
  Ret (tt, advance d length).

(** [decodeBytes] allocates: it also returns the memory. *)
Definition decodeBytes (fuel : nat) (d : Data) : outcome (Z * memory * Data) :=
  '(length, d) ← decodeU32 d;
  _ ← requireSpace d length;
  '(res, m') ← memoryToBytes fuel m (ptr d) length;
  Ret (res, m', advance d length).

Fixpoint decodeLoop {A} (n : nat) (f : Data -> outcome (A * Data)) (d : Data) : outcome (list A * Data) :=
  match n with
  | O => Ret ([], d)
  | S n => '(a, d) ← f d; '(l, d) ← decodeLoop n f d; Ret (a :: l, d)
  end.

Definition decodePublicKey (d : Data) : outcome (list Z * Data) :=
  '(t, d) ← decodeU8 d;
  if t =? 0 then decodeBytes32 d else Contract.revert "Parse error: invalid key type".

Definition decodeSignature (d : Data) : outcome (Contract.Signature * Data) :=
  '(t, d) ← decodeU8 d;
  if t =? 0 then
    '(r, d) ← decodeBytes32 d; '(s, d) ← decodeBytes32 d;
    Ret ({| Contract.sig_r := r; Contract.sig_s := s |}, d)
  else Contract.revert "Parse error: invalid signature type".

Definition decodeBlockProducer (d : Data) : outcome (Contract.BlockProducer * Data) :=
  '(validator_version, d) ← decodeU8 d;
  '(_, d) ← skipBytes d;
  '(k, d) ← decodePublicKey d;
  '(s, d) ← decodeU128 d;
  if validator_version =? Contract.VALIDATOR_V2 then
    '(c, d) ← decodeU8 d;
    Ret ({| Contract.publicKey := k; Contract.stake := s; Contract.isChunkOnly := negb (c =? 0) |}, d)
  else Ret ({| Contract.publicKey := k; Contract.stake := s; Contract.isChunkOnly := false |}, d).

Definition decodeBlockProducers (d : Data) : outcome (list Contract.BlockProducer * Data) :=
  '(length, d) ← decodeU32 d; decodeLoop (Z.to_nat length) decodeBlockProducer d.

Definition decodeOptionalSignature (d : Data) : outcome (option Contract.Signature * Data) :=
  '(some, d) ← decodeBool d;
  if some : bool then '(s, d) ← decodeSignature d; Ret (Some s, d) else Ret (None, d).

Section Hashing.
Context (keccak256 sha256 : list Z -> list Z).

Definition peekKeccak256 (d : Data) (length : Z) : outcome (list Z) :=
  _ ← requireSpace d length; Ret (keccak256Raw keccak256 m (ptr d) length).

Definition peekSha256 (d : Data) (length : Z) : outcome (list Z) :=
  _ ← requireSpace d length; Ret (sha256Raw sha256 m (ptr d) length).

Definition decodeOptionalBlockProducers (d : Data) : outcome (option (list Contract.BlockProducer * list Z) * Data) :=
  '(some, d) ← decodeBool d;
  if some : bool then
    let start := ptr d in
    '(bps, d) ← decodeBlockProducers d;
    Ret (Some (bps, sha256Raw sha256 m start (ptr d - start)), d)
  else Ret (None, d).

Definition decodeBlockHeaderInnerLite (d : Data) : outcome (Contract.BlockHeaderInnerLite * Data) :=
  h ← peekSha256 d 208;
  '(ht, d) ← decodeU64 d;
  '(e, d) ← decodeBytes32 d;
  '(ne, d) ← decodeBytes32 d;
  '(ps, d) ← decodeBytes32 d;
  '(o, d) ← decodeBytes32 d;
  '(ts, d) ← decodeU64 d;
  '(nb, d) ← decodeBytes32 d;
  '(mr, d) ← decodeBytes32 d;
  Ret ({| Contract.height := ht; Contract.epoch_id := e; Contract.next_epoch_id := ne; Contract.prev_state_root := ps;
          Contract.outcome_root := o; Contract.timestamp := ts; Contract.next_bp_hash := nb; Contract.block_merkle_root := mr;
          Contract.inner_hash := h |}, d).

Definition decodeLightClientBlock (d : Data) : outcome (Contract.DecodedBlock * Data) :=
  '(pb, d) ← decodeBytes32 d;
  '(nb, d) ← decodeBytes32 d;
  '(il, d) ← decodeBlockHeaderInnerLite d;
  '(ir, d) ← decodeBytes32 d;
  '(bps, d) ← decodeOptionalBlockProducers d;
  '(length, d) ← decodeU32 d;
  '(appr, d) ← decodeLoop (Z.to_nat length) decodeOptionalSignature d;
  let h := sha256 (sha256 (Contract.inner_hash il ++ ir) ++ pb) in
  Ret ({| Contract.prev_block_hash := pb; Contract.next_block_inner_hash := nb; Contract.inner_lite := il;
          Contract.inner_rest_hash := ir; Contract.next_bps := bps; Contract.approvals_after_next := appr;
          Contract.hash := h; Contract.next_hash := sha256 (nb ++ h) |}, d).
End Hashing.
End Decoders.
End Mem.

(** ** The decoders over memory compute the decoders over lists *)

Definition mem_ok (m : memory) : Prop := forall a, is_byte (m a).

(** The cursor stands before [bs], with room for the 32-bit lengths the
    decoders add to it without a check. *)
Record represents (m : memory) (d : Data) (bs : list Z) : Prop := {
  rep_bytes : mem_bytes m (ptr d) (length bs) = bs;
  rep_end : end_ d = ptr d + Z.of_nat (length bs);
  rep_ptr : 0 <= ptr d;
  rep_room : end_ d + 2 ^ 32 <= 2 ^ 256
}.

(** Same answer, cursor before the remaining bytes, or the same revert. *)
Definition refines {A} (m : memory) (f : Data -> outcome (A * Data)) (g : list Z -> outcome (A * list Z)) : Prop :=
  forall d bs, represents m d bs ->
  match g bs with
  | Ret (y, bs') => exists d', f d = Ret (y, d') /\ represents m d' bs' /\ end_ d' = end_ d
  | Throw e => f d = Throw e
  | _ => False
  end.

Lemma length_mem_bytes m p n : length (mem_bytes m p n) = n.
Proof. unfold mem_bytes. by rewrite length_map, length_seq. Qed.

Lemma lookup_mem_bytes m p n i : (i < n)%nat -> mem_bytes m p n !! i = Some (m (p + Z.of_nat i)).
Proof. intros Hi. unfold mem_bytes. by rewrite list_lookup_fmap, lookup_seq_lt. Qed.

Lemma mem_bytes_app m p n k : mem_bytes m p (n + k) = mem_bytes m p n ++ mem_bytes m (p + Z.of_nat n) k.
Proof.
  unfold mem_bytes. rewrite seq_app, map_app. f_equal. cbn [Nat.add]. apply list_eq. intros i. rewrite !list_lookup_fmap.
  destruct (decide (i < k)%nat) as [Hi|]; [|by rewrite !lookup_seq_ge by lia]. rewrite !lookup_seq_lt by done. cbn. do 2 f_equal. lia.
Qed.

Lemma mem_bytes_take m p n k : (n <= k)%nat -> take n (mem_bytes m p k) = mem_bytes m p n.
Proof. intros Hn. replace k with (n + (k - n))%nat by lia. rewrite mem_bytes_app. apply take_app_length'. by rewrite length_mem_bytes. Qed.

Lemma mem_bytes_drop m p n k : (n <= k)%nat -> drop n (mem_bytes m p k) = mem_bytes m (p + Z.of_nat n) (k - n).
Proof. intros Hn. replace k with (n + (k - n))%nat at 1 by lia. rewrite mem_bytes_app. apply drop_app_length'. by rewrite length_mem_bytes. Qed.

Lemma mem_bytes_ok m p n : mem_ok m -> bytes_ok (mem_bytes m p n).
Proof. intros Hm. apply list.Forall_forall. intros x (i & -> & _)%list_elem_of_fmap. apply Hm. Qed.

Lemma readMemory_bytes m p : mem_ok m -> reverse (le_bytes 32 (readMemory m p)) = mem_bytes m p 32.
Proof.
  intros Hm. unfold readMemory, mload, be_value. rewrite <- (length_mem_bytes m p 32) at 1. rewrite <- length_reverse.
  rewrite le_bytes_le_value by (apply Forall_reverse, mem_bytes_ok, Hm). apply reverse_involutive.
Qed.

Section Refinement.
Context (m : memory) (Hm : mem_ok m).

Lemma refines_ret {A} (y : A) : refines m (fun d => Ret (y, d)) (fun bs => Ret (y, bs)).
Proof. intros d bs H. eauto. Qed.

Lemma refines_revert {A} s : refines (A := A) m (fun _ => Contract.revert s) (fun _ => Contract.revert s).
Proof. by intros d bs H. Qed.

Lemma refines_bind {A B} (f : Data -> outcome (A * Data)) g (k : A -> Data -> outcome (B * Data)) h :
  refines m f g -> (forall y, refines m (k y) (h y)) ->
  refines m (fun d => '(y, d) ← f d; k y d) (fun bs => '(y, bs) ← g bs; h y bs).
Proof.
  intros Hf Hk d bs H. specialize (Hf d bs H). destruct (g bs) as [[y bs1]|e|c|]; cbn [mbind outcome_bind]; [|by rewrite Hf|done..].
  destruct Hf as (d1 & -> & H1 & He). cbn [mbind outcome_bind]. specialize (Hk y d1 bs1 H1). destruct (h y bs1) as [[z bs2]|e|c|]; try done.
  destruct Hk as (d2 & ? & ? & ?). exists d2. split_and!; [done..|congruence].
Qed.

Lemma refines_if {A} (c : bool) (f1 f2 : Data -> outcome (A * Data)) g1 g2 :
  refines m f1 g1 -> refines m f2 g2 -> refines m (fun d => if c then f1 d else f2 d) (fun bs => if c then g1 bs else g2 bs).
Proof. by destruct c. Qed.

(** The check for space is the comparison with the length that is left. *)
Lemma requireSpace_spec d bs n : represents m d bs -> 0 <= n < 2 ^ 32 ->
  Mem.requireSpace d n = (if decide (Z.to_nat n <= length bs)%nat then Ret tt else Contract.revert "Parse error: unexpected EOI") /\
  w256 (ptr d + n) = ptr d + n.
Proof.
  intros [_ He Hp Hr] Hn. assert (w256 (ptr d + n) = ptr d + n) as Hw by (apply Z.mod_small; lia). split; [|done].
  unfold Mem.requireSpace. rewrite Hw. case_decide; destruct (Z.leb_spec (ptr d + n) (end_ d)); try done; lia.
Qed.

Lemma represents_drop d bs n : represents m d bs -> 0 <= n < 2 ^ 32 -> (Z.to_nat n <= length bs)%nat ->
  represents m (Mem.advance d n) (drop (Z.to_nat n) bs).
Proof.
  intros H Hn Hl. destruct (requireSpace_spec d bs n H Hn) as [_ Hw]. destruct H as [Hb He Hp Hr].
  split; cbn [Mem.advance ptr end_]; rewrite ?Hw, ?length_drop; try lia.
  rewrite <- Hb at 2. rewrite mem_bytes_drop by done. f_equal. lia.
Qed.

(** A read of at most 32 bytes: the first bytes of the word. *)
Lemma refines_read {A} (n : nat) (k : list Z -> A) (h : list Z -> A) :
  (n <= 32)%nat -> (forall b, bytes_ok b -> length b = 32%nat -> k b = h (take n b)) ->
  refines m (fun d => '(b, d) ← Mem.read m d (Z.of_nat n); Ret (k b, d)) (fun bs => '(b, bs) ← Contract.read n bs; Ret (h b, bs)).
Proof using Hm.
  intros Hn Hk d bs H. destruct (requireSpace_spec d bs (Z.of_nat n) H ltac:(lia)) as [Hs _]. unfold Mem.read, Contract.read, Contract.revert in *. rewrite Hs, Nat2Z.id.
  destruct (decide (n <= length bs)%nat) as [Hl|Hl]; cbn [mbind outcome_bind]; [|done].
  exists (Mem.advance d (Z.of_nat n)). split_and!; [| |done].
  - rewrite readMemory_bytes by exact Hm. rewrite Hk; [|by apply mem_bytes_ok | apply length_mem_bytes]. rewrite mem_bytes_take by done.
    pose proof (mem_bytes_take m (ptr d) n (length bs) Hl) as Ht. rewrite (rep_bytes _ _ _ H) in Ht. by rewrite Ht.
  - rewrite <- (Nat2Z.id n) at 2. apply represents_drop; [done | lia | by rewrite Nat2Z.id].
Qed.

(** *** The primitives of Borsh.sol *)

Lemma refines_uint (n : nat) f : (n <= 32)%nat -> (forall b, bytes_ok b -> length b = n -> f (be_value b) = le_value b) ->
  refines m (fun d => '(b, d) ← Mem.read m d (Z.of_nat n); Ret (f (be_value (take n b)), d)) (Contract.decodeUint n).
Proof using Hm.
  intros Hn Hf. apply (refines_read n (fun b => f (be_value (take n b))) le_value Hn).
  intros b Hb Hl. apply Hf; [by apply Forall_take | rewrite length_take; lia].
Qed.

Lemma refines_U8 : refines m (Mem.decodeU8 m) Contract.decodeU8.
Proof using Hm. apply (refines_uint 1 id); [lia|]. intros [|x [|]]; try done. Qed.

Lemma refines_U16 : refines m (Mem.decodeU16 m) (Contract.decodeUint 2).
Proof using Hm. apply (refines_uint 2 swapBytes2); [lia|]. intros b. apply (swap_value 2), swapBytes2_moves. Qed.

Lemma refines_U32 : refines m (Mem.decodeU32 m) Contract.decodeU32.
Proof using Hm. apply (refines_uint 4 swapBytes4); [lia|]. intros b. apply (swap_value 4), swapBytes4_moves. Qed.

Lemma refines_U64 : refines m (Mem.decodeU64 m) Contract.decodeU64.
Proof using Hm. apply (refines_uint 8 swapBytes8); [lia|]. intros b. apply (swap_value 8), swapBytes8_moves. Qed.

Lemma refines_U128 : refines m (Mem.decodeU128 m) Contract.decodeU128.
Proof using Hm. apply (refines_uint 16 swapBytes16); [lia|]. intros b. apply (swap_value 16), swapBytes16_moves. Qed.

Lemma refines_U256 : refines m (Mem.decodeU256 m) (Contract.decodeUint 32).
Proof using Hm.
  apply (refines_read 32 (fun b => swapBytes32 (be_value b)) le_value); [lia|]. intros b Hb Hl. rewrite take_ge by lia.
  apply (swap_value 32); [apply swapBytes32_moves | done..].
Qed.

Lemma refines_id_read (n : nat) : (n <= 32)%nat ->
  refines m (fun d => '(b, d) ← Mem.read m d (Z.of_nat n); Ret (take n b, d)) (Contract.read n).
Proof using Hm.
  intros Hn d bs H. pose proof (refines_read n (take n) id Hn (fun _ _ _ => eq_refl) d bs H) as Hr.
  cbv beta in Hr. destruct (Contract.read n bs) as [[]| | |]; exact Hr.
Qed.

Lemma refines_Bytes20 : refines m (Mem.decodeBytes20 m) (Contract.read 20).
Proof using Hm. apply (refines_id_read 20). lia. Qed.

Lemma refines_Bytes32 : refines m (Mem.decodeBytes32 m) Contract.decodeBytes32.
Proof using Hm.
  intros d bs H. pose proof (refines_id_read 32 ltac:(lia) d bs H) as Hr. unfold Mem.decodeBytes32, Contract.decodeBytes32.
  unfold Mem.read in *. change (Z.of_nat 32) with 32 in Hr. destruct (Mem.requireSpace d 32); cbn [mbind outcome_bind] in *; [|done..].
  rewrite take_ge in Hr by (rewrite length_reverse, length_le_bytes; lia). done.
Qed.

#[local] Hint Resolve refines_ret refines_revert refines_U8 refines_U32 refines_U64 refines_U128 refines_Bytes32 : refine.

(** Follow the structure of a decoder. *)
Ltac refine_steps :=
  repeat first
    [ solve [auto with refine]
    | apply refines_bind; [|intros ?]
    | apply refines_if ].

Lemma refines_Bool : refines m (Mem.decodeBool m) Contract.decodeBool.
Proof using Hm. unfold Mem.decodeBool, Contract.decodeBool. refine_steps. Qed.

Lemma refines_skip len : 0 <= len < 2 ^ 32 ->
  refines m (fun d => _ ← Mem.requireSpace d len; Ret (tt, Mem.advance d len)) (fun bs => '(_, bs) ← Contract.read (Z.to_nat len) bs; Ret (tt, bs)).
Proof.
  intros Hlen d bs H. destruct (requireSpace_spec d bs len H Hlen) as [-> _]. unfold Contract.read, Contract.revert.
  destruct (decide _); cbn [mbind outcome_bind]; [|done]. eexists. split_and!; [done | by apply represents_drop | done].
Qed.

(** A decoded 32-bit integer is one. *)
Lemma decodeU32_range bs n bs' : bytes_ok bs -> Contract.decodeU32 bs = Ret (n, bs') -> 0 <= n < 2 ^ 32 /\ bs' = drop 4 bs.
Proof.
  intros Hb. unfold Contract.decodeU32, Contract.decodeUint, Contract.read, Contract.revert. destruct (decide _) as [Hl|Hl]; cbn [mbind outcome_bind]; [|done].
  intros [= <- <-]. split; [|done]. pose proof (le_value_bound (take 4 bs) ltac:(by apply Forall_take)) as Hv.
  rewrite length_take_le in Hv by done. exact Hv.
Qed.

Lemma represents_ok d bs : represents m d bs -> bytes_ok bs.
Proof using Hm. intros H. rewrite <- (rep_bytes _ _ _ H). by apply mem_bytes_ok. Qed.

Lemma refines_length {A} (k : Z -> Data -> outcome (A * Data)) h :
  (forall n, 0 <= n < 2 ^ 32 -> refines m (k n) (h n)) ->
  refines m (fun d => '(n, d) ← Mem.decodeU32 m d; k n d) (fun bs => '(n, bs) ← Contract.decodeU32 bs; h n bs).
Proof using Hm.
  intros Hk d bs H. pose proof (refines_U32 d bs H) as Hf. destruct (Contract.decodeU32 bs) as [[n bs1]|e|c|] eqn:E; cbn [mbind outcome_bind]; [|by rewrite Hf|done..].
  destruct Hf as (d1 & -> & H1 & He). cbn [mbind outcome_bind]. apply decodeU32_range in E as [Hn _]; [|by eapply represents_ok].
  specialize (Hk n Hn d1 bs1 H1). destruct (h n bs1) as [[z bs2]|e|c|]; try done.
  destruct Hk as (d2 & ? & ? & ?). exists d2. split_and!; [done..|congruence].
Qed.

Lemma refines_skipBytes : refines m (Mem.skipBytes m) Contract.skipBytes.
Proof using Hm. unfold Mem.skipBytes, Contract.skipBytes. apply refines_length. apply refines_skip. Qed.

Lemma refines_loop {A} (f : Data -> outcome (A * Data)) g n : refines m f g -> refines m (Mem.decodeLoop n f) (Contract.decodeMany n g).
Proof.
  intros Hf. induction n as [|n IH]; cbn [Mem.decodeLoop Contract.decodeMany]; [apply refines_ret|].
  apply refines_bind; [done|]. intros a. apply refines_bind; [done|]. intros l. apply refines_ret.
Qed.

#[local] Hint Resolve refines_Bool refines_skipBytes refines_loop : refine.

(** *** NearDecoder.sol *)

Lemma refines_PublicKey : refines m (Mem.decodePublicKey m) Contract.decodePublicKey.
Proof using Hm. unfold Mem.decodePublicKey, Contract.decodePublicKey. refine_steps. Qed.

Lemma refines_Signature : refines m (Mem.decodeSignature m) Contract.decodeSignature.
Proof using Hm. unfold Mem.decodeSignature, Contract.decodeSignature. refine_steps. Qed.

#[local] Hint Resolve refines_PublicKey refines_Signature : refine.

Lemma refines_BlockProducer : refines m (Mem.decodeBlockProducer m) Contract.decodeBlockProducer.
Proof using Hm. unfold Mem.decodeBlockProducer, Contract.decodeBlockProducer. refine_steps. Qed.

#[local] Hint Resolve refines_BlockProducer : refine.

Lemma refines_BlockProducers : refines m (Mem.decodeBlockProducers m) Contract.decodeBlockProducers.
Proof using Hm. unfold Mem.decodeBlockProducers, Contract.decodeBlockProducers. refine_steps. Qed.

Lemma refines_OptionalSignature : refines m (Mem.decodeOptionalSignature m) Contract.decodeOptionalSignature.
Proof using Hm. unfold Mem.decodeOptionalSignature, Contract.decodeOptionalSignature. refine_steps. Qed.

#[local] Hint Resolve refines_BlockProducers refines_OptionalSignature : refine.

Section Hashing.
Context (sha256 : list Z -> list Z).

Lemma refines_peek {A} (n : nat) (k : list Z -> Data -> outcome (A * Data)) h :
  Z.of_nat n < 2 ^ 32 -> (forall x, refines m (k x) (h x)) ->
  refines m (fun d => x ← Mem.peekSha256 m sha256 d (Z.of_nat n); k x d) (fun bs => x ← Contract.peekSha256 sha256 n bs; h x bs).
Proof.
  intros Hn Hk d bs H. destruct (requireSpace_spec d bs (Z.of_nat n) H ltac:(lia)) as [Hs _].
  unfold Mem.peekSha256, Contract.peekSha256, Contract.read, Contract.revert in *. rewrite Hs, Nat2Z.id.
  destruct (decide (n <= length bs)%nat) as [Hl|Hl]; cbn [mbind outcome_bind]; [|done].
  pose proof (mem_bytes_take m (ptr d) n (length bs) Hl) as Ht. rewrite (rep_bytes _ _ _ H) in Ht. unfold sha256Raw. rewrite Nat2Z.id, <- Ht.
  by apply Hk.
Qed.

Lemma refines_InnerLite : refines m (Mem.decodeBlockHeaderInnerLite m sha256) (Contract.decodeBlockHeaderInnerLite sha256).
Proof using Hm. unfold Mem.decodeBlockHeaderInnerLite, Contract.decodeBlockHeaderInnerLite. apply (refines_peek 208); [lia|]. intros x. refine_steps. Qed.

(** The hashed bytes are those between the two positions of the cursor. *)
Lemma refines_OptionalBlockProducers :
  refines m (Mem.decodeOptionalBlockProducers m sha256) (Contract.decodeOptionalBlockProducers sha256).
Proof using Hm.
  unfold Mem.decodeOptionalBlockProducers, Contract.decodeOptionalBlockProducers. apply refines_bind; [apply refines_Bool|]. intros some.
  apply refines_if; [|apply refines_ret]. intros d bs H. pose proof (refines_BlockProducers d bs H) as Hb.
  destruct (Contract.decodeBlockProducers bs) as [[bps bs1]|e|c|] eqn:E; cbn [mbind outcome_bind]; [|by rewrite Hb|done..].
  destruct Hb as (d1 & -> & H1 & He). cbn [mbind outcome_bind]. exists d1. split_and!; [|done..].
  do 4 f_equal. unfold sha256Raw. f_equal. rewrite (rep_end _ _ _ H), (rep_end _ _ _ H1) in He.
  replace (Z.to_nat (ptr d1 - ptr d)) with (length bs - length bs1)%nat by lia.
  pose proof (mem_bytes_take m (ptr d) (length bs - length bs1) (length bs) ltac:(lia)) as Ht. by rewrite (rep_bytes _ _ _ H) in Ht.
Qed.

#[local] Hint Resolve refines_InnerLite refines_OptionalBlockProducers : refine.

Lemma refines_LightClientBlock : refines m (Mem.decodeLightClientBlock m sha256) (Contract.decodeLightClientBlock sha256).
Proof using Hm. unfold Mem.decodeLightClientBlock, Contract.decodeLightClientBlock. refine_steps. Qed.
End Hashing.
End Refinement.

(** ** Copying bytes *)

Lemma lookup_le_bytes n z i : (i < n)%nat -> le_bytes n z !! i = Some (z / 256 ^ Z.of_nat i mod 256).
Proof.
  revert z i. induction n as [|n IH]; intros z i Hi; [lia|]. cbn [le_bytes]. destruct i as [|i].
  - cbn. by rewrite Z.div_1_r.
  - cbn [lookup list_lookup]. rewrite IH by lia. f_equal. rewrite Nat2Z.inj_succ, Z.pow_succ_r, <- Z.div_div by lia. done.
Qed.

(** The byte [j] of a word, from the left. *)
Definition word_byte (v j : Z) : Z := Z.shiftr v (8 * (31 - j)) mod 256.

Lemma word_byte_lookup v j : 0 <= j < 32 -> reverse (le_bytes 32 v) !! Z.to_nat j = Some (word_byte v j).
Proof.
  intros Hj. rewrite reverse_lookup; rewrite length_le_bytes; [|lia]. rewrite lookup_le_bytes by lia. unfold word_byte. f_equal.
  rewrite Z.shiftr_div_pow2 by lia. rewrite Z.pow_mul_r by lia. change (2 ^ 8) with 256. do 3 f_equal. lia.
Qed.

Lemma mload_byte m p j : mem_ok m -> 0 <= j < 32 -> word_byte (mload m p) j = m (p + j).
Proof.
  intros Hm Hj. pose proof (word_byte_lookup (mload m p) j Hj) as H. fold (readMemory m p) in H. rewrite readMemory_bytes in H by done.
  rewrite lookup_mem_bytes in H by lia. rewrite Z2Nat.id in H by lia. by injection H as ->.
Qed.

Lemma mstore_in m p v j : 0 <= j < 32 -> mstore m p v (p + j) = word_byte v j.
Proof.
  intros Hj. unfold mstore, word_byte. rewrite (proj2 (Z.leb_le _ _)), (proj2 (Z.ltb_lt _ _)) by lia. cbn [andb]. do 2 f_equal. lia.
Qed.

Lemma mstore_out m p v a : a < p \/ p + 32 <= a -> mstore m p v a = m a.
Proof. intros Ha. unfold mstore. destruct (Z.leb_spec p a), (Z.ltb_spec a (p + 32)); cbn; try done; lia. Qed.

Lemma mstore_ok m p v : mem_ok m -> mem_ok (mstore m p v).
Proof. intros Hm a. unfold mstore. case_match; [apply Z.mod_pos_bound; lia | apply Hm]. Qed.

Lemma mem_bytes_ext m m' p n : (forall i, 0 <= i < Z.of_nat n -> m' (p + i) = m (p + i)) -> mem_bytes m' p n = mem_bytes m p n.
Proof. intros H. apply map_ext_in. intros i Hi%in_seq. apply H. lia. Qed.

Lemma mload_ext m m' p : (forall i, 0 <= i < 32 -> m' (p + i) = m (p + i)) -> mload m' p = mload m p.
Proof. intros H. unfold mload. by rewrite (mem_bytes_ext m m') by exact H. Qed.

Lemma mload_mstore m p v : 0 <= v < 2 ^ 256 -> mload (mstore m p v) p = v.
Proof.
  intros Hv. unfold mload. replace (mem_bytes (mstore m p v) p 32) with (reverse (le_bytes 32 v)).
  - unfold be_value. rewrite reverse_involutive. by apply le_value_small.
  - apply list_eq. intros i. destruct (decide (i < 32)%nat) as [Hi|Hi].
    + rewrite lookup_mem_bytes, mstore_in by lia. rewrite <- (Nat2Z.id i) at 1. apply word_byte_lookup. lia.
    + rewrite !lookup_ge_None_2; [done|rewrite length_mem_bytes; lia|rewrite length_reverse, length_le_bytes; lia].
Qed.

(** The copy loop stops after [n] words, and each byte of the source below
    the destination has arrived. *)
Lemma copy_words_spec n : forall fuel m src dest,
  (S n <= fuel)%nat -> mem_ok m -> 0 <= src <= dest -> dest + 32 * Z.of_nat (S n) < 2 ^ 256 ->
  exists m', copy_words fuel m src dest (dest + 32 * Z.of_nat (S n)) = Ret m' /\ mem_ok m' /\
    (forall a, a < dest \/ dest + 32 * Z.of_nat (S n) <= a -> m' a = m a) /\
    (forall i, 0 <= i < 32 * Z.of_nat (S n) -> src + i < dest -> m' (dest + i) = m (src + i)).
Proof.
  induction n as [|n IH]; intros [|fuel] m src dest Hf Hm Hs Hd; try lia; cbn [copy_words]; unfold w256; rewrite !Z.mod_small by lia.
  - rewrite (proj2 (Z.eqb_eq _ _)) by lia. eexists. split_and!; [done | by apply mstore_ok | |].
    + intros a Ha. apply mstore_out. lia.
    + intros i Hi Hlt. rewrite mstore_in by lia. apply mload_byte; [done | lia].
  - rewrite (proj2 (Z.eqb_neq _ _)) by lia.
    destruct (IH fuel (mstore m dest (mload m src)) (src + 32) (dest + 32)) as (m' & Hc & Hm' & Hout & Hin); [lia | by apply mstore_ok | lia..|].
    replace (dest + 32 * Z.of_nat (S (S n))) with (dest + 32 + 32 * Z.of_nat (S n)) in * by lia. exists m'. split_and!; [done..| |].
    + intros a Ha. rewrite Hout by lia. apply mstore_out. lia.
    + intros i Hi Hlt. destruct (Z.ltb_spec i 32).
      * rewrite Hout by lia. rewrite mstore_in by lia. apply mload_byte; [done | lia].
      * replace (dest + i) with (dest + 32 + (i - 32)) by lia. rewrite Hin by lia. rewrite mstore_out by lia. f_equal. lia.
Qed.

Lemma round_words x : 0 <= x < 2 ^ 256 -> Z.land x 0xffffffffffffffffffffffffffffffffffffffffffffffffffffffffffffffe0 = 32 * (x / 32).
Proof.
  intros Hx. replace (32 * (x / 32)) with (Z.shiftl (Z.shiftr x 5) 5) by (rewrite Z.shiftl_mul_pow2, Z.shiftr_div_pow2 by lia; change (2 ^ 5) with 32; lia).
  apply Z.bits_inj'. intros n Hn. rewrite Z.land_spec, Z.shiftl_spec by lia. destruct (Z.ltb_spec n 256) as [Hlt|Hge].
  - assert (Z.testbit 0xffffffffffffffffffffffffffffffffffffffffffffffffffffffffffffffe0 n = (5 <=? n)) as ->.
    { apply eqb_prop. refine (below_forallb 256 (fun n => Bool.eqb (Z.testbit _ n) (5 <=? n)) n _ (conj Hn Hlt)). vm_compute. reflexivity. }
    destruct (Z.leb_spec 5 n); [rewrite Z.shiftr_spec by lia; rewrite andb_true_r; f_equal; lia | rewrite andb_false_r, Z.testbit_neg_r by lia; done].
  - rewrite Z.shiftr_spec by lia. replace (n - 5 + 5) with n by lia. by rewrite (testbit_high 256 x n) by lia.
Qed.

(** The layout of Solidity: the free memory pointer at 0x40, the zero slot
    at 0x60, objects from 0x80 up to the free pointer. *)
Record layout (m : memory) (free : Z) : Prop := {
  lay_ok : mem_ok m;
  lay_free : mload m 0x40 = free;
  lay_zero : mload m 0x60 = 0;
  lay_low : 0x80 <= free
}.

(** The contents of a [bytes memory] at an address. *)
Definition bytes_at (m : memory) (p : Z) : list Z := mem_bytes m (p + 32) (Z.to_nat (mload m p)).

(** The new object holds the bytes, it lies between the old and the new
    free pointer and nothing else below has changed. *)
Lemma memoryToBytes_spec fuel m free src len :
  layout m free -> free + 2 ^ 33 <= 2 ^ 256 -> 0 <= len < 2 ^ 32 -> 0x80 <= src -> src + len <= free -> len <= 32 * Z.of_nat fuel ->
  exists res m' free', memoryToBytes fuel m src len = Ret (res, m') /\ bytes_at m' res = mem_bytes m src (Z.to_nat len) /\
    layout m' free' /\ free <= free' <= free + len + 63 /\ (forall a, 0x80 <= a < free -> m' a = m a).
Proof.
  intros [Hm Hfree Hzero Hlow] Hroom Hlen Hsrc Hend Hfuel. unfold memoryToBytes. destruct (Z.eqb_spec len 0) as [->|Hne].
  - exists 0x60, m, free. split_and!; [done | unfold bytes_at; by rewrite Hzero | done | lia | lia | done].
  - rewrite Hfree. unfold w256. rewrite (Z.mod_small (len + 63)), round_words by lia.
    pose proof (Z.div_mod (len + 63) 32 ltac:(lia)) as Hdm. pose proof (Z.mod_pos_bound (len + 63) 32 ltac:(lia)) as Hmod.
    set (k := Z.to_nat ((len + 63) / 32 - 2)). assert (32 * ((len + 63) / 32) = 32 + 32 * Z.of_nat (S k)) as Hk by lia.
    rewrite (Z.mod_small (free + _)), (Z.mod_small (free + 32)), Hk by lia. set (end' := free + (32 + 32 * Z.of_nat (S k))).
    destruct (copy_words_spec k fuel (mstore (mstore m 0x40 end') free len) src (free + 32)) as (m' & Hc & Hm' & Hout & Hin);
      [lia | by do 2 apply mstore_ok | lia | lia|].
    replace (free + 32 + 32 * Z.of_nat (S k)) with end' in * by lia. exists free, m', end'. cbv zeta. rewrite Hc.
    assert (forall a, a < free -> a < 0x40 \/ 0x60 <= a -> m' a = m a) as Hold by (intros a Ha Ha'; rewrite Hout, !mstore_out by lia; done).
    assert (mload m' free = len) as Hl. { rewrite (mload_ext (mstore (mstore m 64 end') free len)) by (intros; apply Hout; lia). apply mload_mstore. lia. }
    split_and!; [done | | | lia | lia | intros; apply Hold; lia].
    + unfold bytes_at. rewrite Hl. apply map_ext_in. intros i Hi%in_seq. rewrite Hin by lia. rewrite !mstore_out by lia. done.
    + split; [done | | | lia].
      * rewrite (mload_ext (mstore m 0x40 end')) by (intros; rewrite Hout, mstore_out by lia; done). apply mload_mstore. lia.
      * rewrite (mload_ext m); [done|]. intros. apply Hold; lia.
Qed.

(** ** Properties *)

(** C7: the decoder of the contracts works on memory as specified.  For
    data given as [bytes memory] anywhere in memory (room for 32-bit
    lengths above it), [Borsh.from] and [decodeLightClientBlock] of
    NearDecoder.sol followed by [done], with their cursor arithmetic modulo
    2^256, their words read past the end of the data and their byte swaps
    by masks and shifts, give exactly the block, or the revert, that the
    decoder over the list of the bytes gives. *)
Theorem memory_decoder_refines m p sha256 :
  mem_ok m -> 0 <= p -> p + 32 + mload m p + 2 ^ 32 <= 2 ^ 256 ->
  ('(x, d) ← Mem.decodeLightClientBlock m sha256 (Mem.from m p); _ ← Mem.done d; Ret x) =
  ('(x, d) ← Contract.decodeLightClientBlock sha256 (bytes_at m p); _ ← Contract.done_ok d; Ret x).
Proof.
  intros Hm Hp Hroom. assert (0 <= mload m p) as Hl by (apply be_value_bound, mem_bytes_ok, Hm).
  assert (represents m (Mem.from m p) (bytes_at m p)) as Hr.
  { unfold Mem.from, bytes_at, w256, readMemory. rewrite !Z.mod_small by lia. split; cbn [ptr end_]; rewrite ?length_mem_bytes; [done | lia..]. }
  pose proof (refines_LightClientBlock m Hm sha256 _ _ Hr) as H.
  destruct (Contract.decodeLightClientBlock sha256 (bytes_at m p)) as [[x bs]|e|c|]; cbn [mbind outcome_bind]; [|by rewrite H|done..].
  destruct H as (d & -> & [_ He _ _] & _). cbn [mbind outcome_bind]. unfold Mem.done, Contract.done_ok.
  destruct bs as [|b bs]; cbn [length] in He; [rewrite (proj2 (Z.eqb_eq _ _)) | rewrite (proj2 (Z.eqb_neq _ _))]; try done; lia.
Qed.


(** ** Witnesses *)

Module Witness.
Import LightClientBlock.Witness.

(** Bytes as an argument at 0x80, the free pointer above them. *)
Definition contents (bs : list Z) : memory := fun a => if a <? 0xa0 then 0 else nth (Z.to_nat (a - 0xa0)) bs 0.
Definition argument (bs : list Z) (free : Z) : memory := mstore (mstore (contents bs) 0x80 (Z.of_nat (length bs))) 0x40 free.

Lemma argument_ok bs free : bytes_ok bs -> mem_ok (argument bs free).
Proof.
  intros Hb. do 2 apply mstore_ok. intros a. unfold contents. case_match; [done|].
  destruct (nth_in_or_default (Z.to_nat (a - 0xa0)) bs 0) as [Hin| ->]; [|done]. unfold bytes_ok in Hb. rewrite List.Forall_forall in Hb. by apply Hb.
Qed.

Definition block_bytes : list Z := match borshify block with Ret bs => bs | _ => [] end.

Lemma block_bytes_ok : bytes_ok block_bytes.
Proof. apply (bool_decide_unpack _). vm_compute. exact I. Qed.

(** A swapped word. *)
Example swap_example : (swapBytes4 0x01020304, swapBytes8 1) = (0x04030201, 0x0100000000000000).
Proof. vm_compute. reflexivity. Qed.

Lemma memory_decoder_refines_witness :
  ('(x, d) ← Mem.decodeLightClientBlock (argument block_bytes 0x1000) toy_hash (Mem.from (argument block_bytes 0x1000) 0x80);
   _ ← Mem.done d; Ret x) = Ret decoded.
Proof.
  rewrite (memory_decoder_refines (argument block_bytes 0x1000) 0x80 toy_hash).
  - vm_compute. reflexivity.
  - apply argument_ok, block_bytes_ok.
  - lia.
  - vm_compute. discriminate.
Defined.

Definition message : list Z := [5; 0; 0; 0; 104; 101; 108; 108; 111; 77].

End Witness.
