(* ===== verification/BridgeStorage.v ===== *)
(** * How NearBridge.sol stores epochs and signatures

    The model of NearBridge.v keeps the stakes of an epoch as a list and
    the approvals of the head as a list of options.  The contract keeps
    arrays of fixed size: two 128-bit stakes in each word, a bit set of the
    approvals that are present and an array of signatures in which old
    entries stay.  This file has the loops of the contract over that
    storage and shows that they compute what NearBridge.v says, and that
    the message whose signature is checked is the approval message of
    NEAR. *)

From S2P Require Import Prelude Interfaces LightClientBlock NearBridge Rlp SolMemory.
Import Contract Utils.

(** ** Storage *)

Record StoredEpoch := {
  se_epochId : list Z;
  se_numBPs : nat;
  se_keys : list (list Z);
  packedStakes : list Z;
  se_stakeThreshold : Z
}.

(** [bytes32[MAX_BLOCK_PRODUCERS]] and [bytes32[MAX_BLOCK_PRODUCERS / 2]]. *)
Definition sized (e : StoredEpoch) : Prop := length (se_keys e) = 100%nat /\ length (packedStakes e) = 50%nat.

(** ** [setBlockProducers] *)

Fixpoint set_keys (i : nat) (src : list BlockProducer) (keys : list (list Z)) : list (list Z) :=
  match src with
  | [] => keys
  | p :: src => set_keys (S i) src (<[i := publicKey p]> keys)
  end.

(** The loop that packs the stakes [i], [i + 1], ... and adds them up. *)
Fixpoint pack_stakes (i : nat) (src : list BlockProducer) (packed : list Z) (totalStake : Z) : list Z * Z :=
  match src with
  | [] => (packed, totalStake)
  | [p] => (<[(S i / 2)%nat := Z.shiftl (stake p) 128]> packed, w256 (totalStake + stake p))
  | p1 :: p2 :: src =>
      pack_stakes (S (S i)) src (<[(S i / 2)%nat := w256 (Z.shiftl (stake p1) 128 + stake p2)]> packed)
        (w256 (w256 (totalStake + stake p1) + stake p2))
  end.

Definition store_setBlockProducers (src : list BlockProducer) (e : StoredEpoch) : outcome StoredEpoch :=
  _ ← require (Z.of_nat (length src) <=? MAX_BLOCK_PRODUCERS)
        "It is not expected having that many block producers for the provided block";
  let '(packed, totalStake) := pack_stakes 0 src (packedStakes e) 0 in
  Ret {| se_epochId := se_epochId e; se_numBPs := length src; se_keys := set_keys 0 src (se_keys e);
         packedStakes := packed; se_stakeThreshold := w256 (totalStake * 2) / 3 |}.

(** ** The loops of [addLightClientBlock] *)

Definition some_approval (l : list (option Signature)) (i : nat) : bool := match l !! i with Some (Some _) => true | _ => false end.

Fixpoint voted_loop (fuel i cnt : nat) (packed : list Z) (approvals : list (option Signature)) (votedFor : Z) : outcome Z :=
  match fuel with
  | O => OutOfFuel
  | S fuel =>
      if (i =? cnt)%nat then Ret votedFor
      else
        let stakes := default 0 (packed !! (i / 2)%nat) in
        let votedFor := if some_approval approvals i then w256 (votedFor + Z.shiftr stakes 128) else votedFor in
        let i := S i in
        if (i =? cnt)%nat then Ret votedFor
        else
          let votedFor := if some_approval approvals i then w256 (votedFor + stakes mod 2 ^ 128) else votedFor in
          voted_loop fuel (S i) cnt packed approvals votedFor
  end.

(** The signature set and the array of signatures after [i], ..., [i + n - 1]. *)
Fixpoint signature_loop (n i : nat) (approvals : list (option Signature)) (signatureSet : Z) (untrustedSignatures : list Signature)
    : Z * list Signature :=
  match n with
  | O => (signatureSet, untrustedSignatures)
  | S n =>
      match approvals !! i with
      | Some (Some sig) =>
          signature_loop n (S i) approvals (Z.lor signatureSet (shl 256 1 (Z.of_nat i))) (<[i := sig]> untrustedSignatures)
      | _ => signature_loop n (S i) approvals signatureSet untrustedSignatures
      end
  end.

(** The two arguments [abi.decode] takes from the packed message. *)
Definition approval_message (untrustedNextHash : list Z) (untrustedHeight : Z) : list Z :=
  [0] ++ untrustedNextHash ++ reverse (le_bytes 8 (swapBytes8 ((untrustedHeight + 2) mod 2 ^ 64))) ++ replicate 23 0.

Definition message_args (message : list Z) : list Z * list Z := (take 32 message, take 9 (drop 32 message)).

Section Check.
Context (edwards_check : list Z -> list Z -> list Z -> list Z -> list Z -> bool).

Definition store_check (e : StoredEpoch) (signatureSet : Z) (untrustedSignatures : list Signature)
    (untrustedNextHash : list Z) (untrustedHeight : Z) (signatureIndex : nat) : outcome bool :=
  _ ← require (negb (Z.land signatureSet (shl 256 1 (Z.of_nat signatureIndex)) =? 0)) "No such signature";
  match untrustedSignatures !! signatureIndex, se_keys e !! signatureIndex with
  | Some signature, Some key =>
      let '(arg1, arg2) := message_args (approval_message untrustedNextHash untrustedHeight) in
      Ret (edwards_check key (sig_r signature) (sig_s signature) arg1 arg2)
  | _, _ => revert "Panic"
  end.
End Check.

(** ** Stakes *)

(** The stake at a position of the packed array. *)
Definition stake_at (packed : list Z) (i : nat) : Z :=
  let w := default 0 (packed !! (i / 2)%nat) in if Nat.even i then Z.shiftr w 128 else w mod 2 ^ 128.

Definition stake_ok (p : BlockProducer) : Prop := 0 <= stake p < 2 ^ 128.

Lemma pack_high a b : 0 <= a < 2 ^ 128 -> 0 <= b < 2 ^ 128 -> Z.shiftr (w256 (Z.shiftl a 128 + b)) 128 = a /\ w256 (Z.shiftl a 128 + b) mod 2 ^ 128 = b.
Proof.
  intros Ha Hb. unfold w256. rewrite Z.shiftl_mul_pow2, Z.mod_small, Z.shiftr_div_pow2 by lia. rewrite Z.add_comm, Z.div_add, Z.mod_add by lia.
  rewrite Z.div_small, Z.mod_small by lia. split; lia.
Qed.

Lemma half_even i : Nat.even i = true -> (S i / 2 = i / 2)%nat /\ Nat.even (S i) = false.
Proof.
  intros H. apply Nat.even_spec in H as [k ->]. split; [|by rewrite Nat.even_succ, <- Nat.negb_even, Nat.even_mul].
  rewrite Nat.mul_comm, Nat.div_mul by lia. symmetry. apply Nat.div_unique with 1%nat; lia.
Qed.

Lemma stake_at_insert packed i j w : (i / 2)%nat <> (j / 2)%nat -> stake_at (<[(i / 2)%nat := w]> packed) j = stake_at packed j.
Proof. intros H. unfold stake_at. by rewrite list_lookup_insert_ne. Qed.

Lemma stake_at_new packed i w : (i / 2 < length packed)%nat ->
  stake_at (<[(i / 2)%nat := w]> packed) i = if Nat.even i then Z.shiftr w 128 else w mod 2 ^ 128.
Proof. intros H. unfold stake_at. by rewrite list_lookup_insert_eq. Qed.

Lemma half_below i j : Nat.even i = true -> (j < i)%nat -> (i / 2)%nat <> (j / 2)%nat.
Proof. intros [k ->]%Nat.even_spec Hj. rewrite Nat.mul_comm, Nat.div_mul by lia. pose proof (Nat.Div0.div_mod j 2). lia. Qed.

Lemma pack_stakes_spec n : forall src i packed total, (length src <= n)%nat -> Nat.even i = true -> length packed = 50%nat -> (i + length src <= 100)%nat ->
  Forall stake_ok src -> 0 <= total -> total + Z.of_nat (length src) * 2 ^ 128 < 2 ^ 256 ->
  exists packed', pack_stakes i src packed total = (packed', total + sum_stakes (map stake src)) /\ length packed' = 50%nat /\
    (forall j s, map stake src !! j = Some s -> stake_at packed' (i + j) = s) /\ (forall j, (j < i)%nat -> stake_at packed' j = stake_at packed j).
Proof.
  induction n as [|n IH]; intros [|p1 [|p2 src]] i packed total Hn He Hp Hi Hs Ht Hb; cbn [length] in *; try lia.
  1,2: exists packed; cbn; split_and!; [f_equal; lia | done | done | done].
  all: destruct (half_even i He) as [Hh Ho]; assert (i / 2 < length packed)%nat as Hlt by (rewrite Hp; apply Nat.Div0.div_lt_upper_bound; lia);
    apply list.Forall_cons in Hs as [Hs1 Hs]; unfold stake_ok in Hs1.
  - cbn [pack_stakes map sum_stakes fold_right]. eexists. split_and!.
    + unfold w256. rewrite Z.mod_small by lia. rewrite Z.add_0_r. reflexivity.
    + by rewrite length_insert.
    + intros [|j] s Hj; [|by destruct j]. injection Hj as <-. rewrite Nat.add_0_r, Hh, stake_at_new, He by done.
      rewrite Z.shiftr_div_pow2, Z.shiftl_mul_pow2, Z.div_mul by lia. done.
    + intros j Hj. rewrite Hh. apply stake_at_insert. by apply half_below.
  - apply list.Forall_cons in Hs as [Hs2 Hs]. unfold stake_ok in Hs2. destruct (pack_high _ _ Hs1 Hs2) as [Hhi Hlo]. cbn [pack_stakes].
    assert (w256 (w256 (total + stake p1) + stake p2) = total + stake p1 + stake p2) as -> by (unfold w256; rewrite (Z.mod_small (total + stake p1)), Z.mod_small by lia; done).
    destruct (IH src (S (S i)) (<[(S i / 2)%nat := w256 (Z.shiftl (stake p1) 128 + stake p2)]> packed) (total + stake p1 + stake p2))
      as (packed' & -> & Hl & Hnew & Hold); [lia | done | by rewrite length_insert | lia | done | lia | lia|].
    exists packed'. split_and!; [cbn [map sum_stakes fold_right]; f_equal; unfold sum_stakes; lia | done | |].
    + intros [|[|j]] s Hj.
      * injection Hj as <-. rewrite Nat.add_0_r, Hold, Hh, stake_at_new, He by (done || lia). done.
      * injection Hj as <-. rewrite Nat.add_1_r, Hold, stake_at_new, Ho by (done || lia). done.
      * replace (i + S (S j))%nat with (S (S i) + j)%nat by lia. by apply Hnew.
    + intros j Hj. rewrite Hold, Hh by lia. apply stake_at_insert. by apply half_below.
Qed.

Lemma set_keys_spec src : forall i keys, (i + length src <= length keys)%nat -> length (set_keys i src keys) = length keys /\
  (forall j, (j < length src)%nat -> set_keys i src keys !! (i + j)%nat = map publicKey src !! j) /\
  (forall j, (j < i)%nat -> set_keys i src keys !! j = keys !! j).
Proof.
  induction src as [|p src IH]; intros i keys Hi; cbn [length set_keys] in *; [split_and!; [done | lia | done]|].
  destruct (IH (S i) (<[i := publicKey p]> keys)) as (Hl & Hnew & Hold); [rewrite length_insert; lia|]. split_and!.
  - by rewrite Hl, length_insert.
  - intros [|j] Hj; [rewrite Nat.add_0_r, Hold, list_lookup_insert_eq by lia; done | rewrite Nat.add_succ_r; apply Hnew; lia].
  - intros j Hj. rewrite Hold by lia. apply list_lookup_insert_ne. lia.
Qed.

(** A stored epoch stands for an epoch of the model. *)
Record stands_for (se : StoredEpoch) (e : Epoch) : Prop := {
  sf_id : se_epochId se = epochId e;
  sf_num : se_numBPs se = numBPs e;
  sf_most : (numBPs e <= 100)%nat;
  sf_klen : length (ep_keys e) = numBPs e;
  sf_keys j : (j < numBPs e)%nat -> se_keys se !! j = ep_keys e !! j;
  sf_stakes j s : ep_stakes e !! j = Some s -> stake_at (packedStakes se) j = s;
  sf_range : Forall (fun s => 0 <= s < 2 ^ 128) (ep_stakes e);
  sf_threshold : se_stakeThreshold se = stakeThreshold e
}.

Lemma sum_stakes_bound l : Forall (fun s => 0 <= s < 2 ^ 128) l -> 0 <= sum_stakes l <= Z.of_nat (length l) * 2 ^ 128.
Proof. induction 1 as [|s l Hs _ IH]; cbn [sum_stakes fold_right length] in *; [lia|]. unfold sum_stakes in IH. lia. Qed.

Lemma setBlockProducers_stored src se e0 :
  sized se -> Forall stake_ok src -> se_epochId se = epochId e0 ->
  match setBlockProducers src e0 with
  | Ret e => exists se', store_setBlockProducers src se = Ret se' /\ stands_for se' e /\ sized se'
  | Throw err => store_setBlockProducers src se = Throw err
  | _ => False
  end.
Proof.
  intros [Hk Hp] Hs Hid. unfold setBlockProducers, store_setBlockProducers, require, MAX_BLOCK_PRODUCERS.
  destruct (Z.leb_spec (Z.of_nat (length src)) 100) as [Hle|]; cbn [mbind outcome_bind]; [|done].
  destruct (pack_stakes_spec (length src) src 0 (packedStakes se) 0) as (packed' & -> & Hl & Hnew & _); [lia | done | done | lia | done | lia | lia|].
  destruct (set_keys_spec src 0 (se_keys se)) as (Hlk & Hkeys & _); [lia|].
  assert (Forall (fun s => 0 <= s < 2 ^ 128) (map stake src)) as Hr by (by apply Forall_map).
  eexists. split; [reflexivity|]. split; [split; cbn | split; cbn; congruence]; unfold numBPs; cbn [ep_stakes]; rewrite ?length_map; try done.
  - lia.
  - pose proof (sum_stakes_bound _ Hr) as Hb. rewrite length_map in Hb. unfold w256. rewrite Z.mod_small by lia. done.
Qed.

(** ** Votes *)

Lemma votedFor_drop stakes approvals i s : stakes !! i = Some s -> (length stakes <= length approvals)%nat ->
  votedFor (drop i stakes) (drop i approvals) = (if some_approval approvals i then s else 0) + votedFor (drop (S i) stakes) (drop (S i) approvals).
Proof.
  intros Hs Hl. rewrite (drop_S _ s i Hs). unfold some_approval. destruct (approvals !! i) as [a|] eqn:Ha.
  - rewrite (drop_S _ a i Ha). cbn [votedFor]. by destruct a.
  - apply lookup_ge_None in Ha. apply lookup_lt_Some in Hs. lia.
Qed.

Lemma votedFor_bound stakes approvals : Forall (fun s => 0 <= s < 2 ^ 128) stakes -> 0 <= votedFor stakes approvals <= Z.of_nat (length stakes) * 2 ^ 128.
Proof.
  intros H. revert approvals. induction H as [|s stakes Hs _ IH]; intros [|[a|] approvals]; cbn [votedFor length]; try lia; specialize (IH approvals); lia.
Qed.

(** The loop adds the stakes that are left. *)
Lemma voted_loop_spec fuel : forall i stakes packed approvals acc,
  (length stakes <= 100)%nat -> Forall (fun s => 0 <= s < 2 ^ 128) stakes -> (forall j s, stakes !! j = Some s -> stake_at packed j = s) ->
  (length stakes <= length approvals)%nat -> Nat.even i = true -> (i <= length stakes)%nat -> (length stakes < i + fuel)%nat ->
  0 <= acc <= Z.of_nat i * 2 ^ 128 ->
  voted_loop fuel i (length stakes) packed approvals acc = Ret (acc + votedFor (drop i stakes) (drop i approvals)).
Proof.
  induction fuel as [|fuel IH]; intros i stakes packed approvals acc Hn Hr Hs Hl He Hi Hf Ha; [lia|]. cbn [voted_loop].
  destruct (Nat.eqb_spec i (length stakes)) as [->|Hne]; [rewrite (drop_ge stakes) by lia; f_equal; cbn; lia|].
  destruct (half_even i He) as [Hh Ho]. destruct (lookup_lt_is_Some_2 stakes i ltac:(lia)) as [s1 Hs1]. rewrite (votedFor_drop _ _ _ _ Hs1 Hl).
  pose proof (Forall_lookup_1 _ _ _ _ Hr Hs1) as Hr1. cbv beta in Hr1. pose proof (Hs i s1 Hs1) as E1. unfold stake_at in E1. rewrite He in E1. rewrite E1.
  set (v1 := if some_approval approvals i then s1 else 0).
  assert ((if some_approval approvals i then w256 (acc + s1) else acc) = acc + v1) as ->.
  { unfold v1. destruct (some_approval approvals i); [apply Z.mod_small|]; lia. }
  assert (0 <= v1 < 2 ^ 128) as Hv1 by (unfold v1; destruct (some_approval approvals i); lia). clearbody v1.
  destruct (Nat.eqb_spec (S i) (length stakes)) as [E|Hne']; [rewrite (drop_ge stakes) by lia; f_equal; cbn; lia|].
  destruct (lookup_lt_is_Some_2 stakes (S i) ltac:(lia)) as [s2 Hs2]. rewrite (votedFor_drop _ _ _ _ Hs2 Hl).
  pose proof (Forall_lookup_1 _ _ _ _ Hr Hs2) as Hr2. cbv beta in Hr2. pose proof (Hs (S i) s2 Hs2) as E2. unfold stake_at in E2. rewrite Ho, Hh in E2. rewrite E2.
  set (v2 := if some_approval approvals (S i) then s2 else 0).
  assert ((if some_approval approvals (S i) then w256 (acc + v1 + s2) else acc + v1) = acc + v1 + v2) as ->.
  { unfold v2. destruct (some_approval approvals (S i)); [apply Z.mod_small|]; lia. }
  assert (0 <= v2 < 2 ^ 128) as Hv2 by (unfold v2; destruct (some_approval approvals (S i)); lia).
  rewrite IH; [f_equal; lia | done | done | done | done | done | lia | lia | lia].
Qed.

(** ** Signatures *)

(** The bit set and the array stand for a list of approvals. *)
Definition signatures_stand (signatureSet : Z) (sigs : list Signature) (l : list (option Signature)) : Prop :=
  forall i : nat, match l !! i with
  | Some (Some s) => Z.testbit signatureSet (Z.of_nat i) = true /\ sigs !! i = Some s
  | _ => Z.testbit signatureSet (Z.of_nat i) = false
  end.

Lemma testbit_shl_one i j : 0 <= i < 256 -> Z.testbit (shl 256 1 i) j = bool_decide (i = j).
Proof.
  intros Hi. unfold shl. rewrite Z.shiftl_1_l, Z.mod_small by (split; [lia | apply Z.pow_lt_mono_r; lia]).
  rewrite Z.pow2_bits_eqb by lia. by destruct (Z.eqb_spec i j); [rewrite bool_decide_eq_true_2 | rewrite bool_decide_eq_false_2].
Qed.

Lemma signature_loop_spec approvals n : forall i set sigs,
  (i + n <= 100)%nat -> (i + n <= length approvals)%nat -> length sigs = 100%nat -> signatures_stand set sigs (take i approvals) ->
  let '(set', sigs') := signature_loop n i approvals set sigs in length sigs' = 100%nat /\ signatures_stand set' sigs' (take (i + n) approvals).
Proof.
  induction n as [|n IH]; intros i set sigs Hi Hl Hs H; cbn [signature_loop]; [by rewrite Nat.add_0_r|].
  destruct (lookup_lt_is_Some_2 approvals i ltac:(lia)) as [a Ha]. rewrite Ha. rewrite Nat.add_succ_r, <- Nat.add_succ_l.
  assert (forall j, take (S i) approvals !! j = if decide (j = i) then Some a else take i approvals !! j) as Htake.
  { intros j. rewrite (take_S_r approvals i a Ha). destruct (decide (j = i)) as [->|Hj].
    - rewrite lookup_app_r; rewrite length_take; [|lia]. by replace (i - i `min` length approvals)%nat with O by lia.
    - destruct (decide (j < i)%nat); [by rewrite lookup_app_l by (rewrite length_take; lia)|].
      rewrite !lookup_ge_None_2; [done | rewrite length_take; lia | rewrite length_app, length_take; cbn; lia]. }
  destruct a as [sig|]; apply IH; try lia; try done; [by rewrite length_insert | |]; intros j; rewrite Htake; specialize (H j); destruct (decide (j = i)) as [->|Hj].
  - rewrite Z.lor_spec, testbit_shl_one, bool_decide_eq_true_2, orb_true_r, list_lookup_insert_eq by (done || lia). done.
  - rewrite Z.lor_spec, testbit_shl_one, bool_decide_eq_false_2, orb_false_r, list_lookup_insert_ne by lia. done.
  - rewrite lookup_ge_None_2 in H by (rewrite length_take; lia). done.
  - done.
Qed.

(** The bit test of the contract. *)
Lemma bit_test set i : (i < 256)%nat -> (Z.land set (shl 256 1 (Z.of_nat i)) =? 0) = negb (Z.testbit set (Z.of_nat i)).
Proof.
  intros Hi. destruct (Z.testbit set (Z.of_nat i)) eqn:E; [apply Z.eqb_neq | apply Z.eqb_eq].
  - intros H. apply (f_equal (fun z => Z.testbit z (Z.of_nat i))) in H. rewrite Z.land_spec, testbit_shl_one, E, Z.bits_0, bool_decide_eq_true_2 in H by (done || lia). done.
  - apply Z.bits_inj'. intros n Hn. rewrite Z.land_spec, testbit_shl_one, Z.bits_0 by lia. case_bool_decide as En; [subst n; by rewrite E | by rewrite andb_false_r].
Qed.

Lemma bit_test_far set i : (256 <= i)%nat -> (Z.land set (shl 256 1 (Z.of_nat i)) =? 0) = true.
Proof.
  intros Hi. apply Z.eqb_eq. replace (shl 256 1 (Z.of_nat i)) with 0; [apply Z.land_0_r|]. unfold shl. rewrite Z.shiftl_1_l.
  replace (Z.of_nat i) with (Z.of_nat i - 256 + 256) by lia. rewrite Z.pow_add_r by lia. symmetry. apply Z.mod_mul. lia.
Qed.

(** ** The signed message *)

(** The approval of NEAR: the tag 0, the hash of the next block and the
    height of the block after it, little-endian. *)
Definition near_approval (next_hash : list Z) (target : Z) : list Z := 0 :: next_hash ++ le_bytes 8 target.

Lemma approval_args next_hash h : length next_hash = 32%nat -> 0 <= h -> h + 2 < 2 ^ 64 ->
  let '(arg1, arg2) := message_args (approval_message next_hash h) in
  length arg1 = 32%nat /\ length arg2 = 9%nat /\ arg1 ++ arg2 = near_approval next_hash (h + 2).
Proof.
  intros Hl Hh Hb. unfold message_args, approval_message, near_approval. rewrite Z.mod_small by lia.
  assert (reverse (le_bytes 8 (swapBytes8 (h + 2))) = le_bytes 8 (h + 2)) as ->.
  { assert (length (le_bytes 8 (h + 2)) = 8%nat) as Hlen by apply length_le_bytes.
    assert (bytes_ok (reverse (le_bytes 8 (h + 2)))) as Hrev by apply Forall_reverse, le_bytes_ok.
    replace (h + 2) with (be_value (reverse (le_bytes 8 (h + 2)))) at 1 by (unfold be_value; rewrite reverse_involutive; apply le_value_small; lia).
    rewrite (swap_value 8 swapBytes8 _ swapBytes8_moves Hrev) by (by rewrite length_reverse).
    rewrite <- Hlen at 1. rewrite <- length_reverse, le_bytes_le_value by done. apply reverse_involutive. }
  rewrite take_take_drop, !length_take, length_drop, !length_app, length_le_bytes, length_replicate, Hl. split_and!; [done..|].
  replace ([0] ++ next_hash ++ le_bytes 8 (h + 2) ++ replicate 23 0) with ((0 :: next_hash ++ le_bytes 8 (h + 2)) ++ replicate 23 0) by (cbn [app]; by rewrite <- app_assoc).
  apply take_app_length'. cbn [length]. rewrite length_app, length_le_bytes. lia.
Qed.

(** ** Properties *)

(** C15: the packed storage of an epoch is transparent.  Whatever the arrays
    held before, [setBlockProducers] of the contract, writing two stakes
    into each word, reverts exactly when the model's does; otherwise the
    stored keys and threshold are the model's, and for every list of
    approvals that is long enough the vote loop of [addLightClientBlock]
    over the packed words, an odd number of producers included, ends and
    counts exactly the stake the model counts. *)
Theorem packed_stakes_transparent src se e0 :
  sized se -> Forall stake_ok src -> se_epochId se = epochId e0 ->
  match setBlockProducers src e0 with
  | Ret e => exists se', store_setBlockProducers src se = Ret se' /\
      (forall i, (i < length src)%nat -> se_keys se' !! i = ep_keys e !! i) /\ se_stakeThreshold se' = stakeThreshold e /\
      forall approvals, (se_numBPs se' <= length approvals)%nat ->
        voted_loop 101 0 (se_numBPs se') (packedStakes se') approvals 0 = Ret (votedFor (ep_stakes e) approvals)
  | Throw err => store_setBlockProducers src se = Throw err
  | _ => False
  end.
Proof.
  intros Hsz Hs Hid. pose proof (setBlockProducers_stored src se e0 Hsz Hs Hid) as H. destruct (setBlockProducers src e0) as [e|err|c|] eqn:E; try done.
  destruct H as (se' & -> & [Fi Fn Fm Fl Fk Fs Fr Ft] & _). unfold setBlockProducers in E. apply require_inv in E as [_ E]. apply Ret_inj in E as <-.
  exists se'. split_and!; [done | | done |].
  - intros i Hi. apply Fk. unfold numBPs. cbn. by rewrite length_map.
  - intros approvals Ha. rewrite Fn in *. unfold numBPs in *. by rewrite voted_loop_spec by (done || lia).
Qed.

(** C16: the stored signatures are those of the head.  After the loop of
    [addLightClientBlock] over the approvals of a block, whatever
    signatures of earlier blocks the array still holds,
    [checkBlockProducerSignatureInHead] of the contract answers for every
    index, those beyond 255 included, what the model answers: it reverts
    for the approvals that are absent and otherwise checks the producer's
    key, signature and the 41 bytes of NEAR's approval message. *)
Theorem stored_signatures_checked edwards se b approvals sigs i :
  stands_for se (headEpoch b) -> length sigs = 100%nat -> (numBPs (headEpoch b) <= length approvals)%nat ->
  untrustedSignatures (head b) = take (numBPs (headEpoch b)) approvals ->
  length (untrustedNextHash (head b)) = 32%nat -> 0 <= untrustedHeight (head b) -> untrustedHeight (head b) + 2 < 2 ^ 64 ->
  let '(set', sigs') := signature_loop (se_numBPs se) 0 approvals 0 sigs in
  store_check edwards se set' sigs' (untrustedNextHash (head b)) (untrustedHeight (head b)) i =
  checkBlockProducerSignatureInHead
    (fun key sig next_hash target => let m := near_approval next_hash target in edwards key (sig_r sig) (sig_s sig) (take 32 m) (drop 32 m)) i b.
Proof.
  intros [Fi Fn Fm Fl Fk Fs Fr Ft] Hs Hl Hu Hn H0 Hh. rewrite Fn. pose proof (signature_loop_spec approvals (numBPs (headEpoch b)) 0 0 sigs) as H.
  destruct (signature_loop _ 0 approvals 0 sigs) as [set' sigs']. destruct H as [Hs' H]; [lia | lia | done | intros j; by rewrite Z.bits_0|].
  specialize (H i). cbn [Nat.add] in H. rewrite <- Hu in H. unfold store_check, checkBlockProducerSignatureInHead.
  assert (256 <= i -> (untrustedSignatures (head b) !! i) = None)%nat as Hfar by (intros; apply lookup_ge_None_2; rewrite Hu, length_take; lia).
  destruct (decide (i < 256)%nat); [rewrite bit_test by done | rewrite bit_test_far, Hfar by lia; done].
  destruct (untrustedSignatures (head b) !! i) as [[s|]|] eqn:Es; [destruct H as [-> ->]|by rewrite H..].
  assert (i < numBPs (headEpoch b))%nat as Hi by (apply lookup_lt_Some in Es; rewrite Hu, length_take in Es; lia).
  rewrite Fk by done. cbn [negb require mbind outcome_bind].
  destruct (lookup_lt_is_Some_2 (ep_keys (headEpoch b)) i ltac:(lia)) as [key ->]. cbn [default].
  unfold wrap64. rewrite Z.mod_small by lia. pose proof (approval_args _ _ Hn H0 Hh) as Ha. destruct (message_args _) as [arg1 arg2]. destruct Ha as (L1 & L2 & <-).
  cbv zeta. by rewrite (take_app_length' arg1 arg2), (drop_app_length' arg1 arg2) by done.
Qed.

(** ** Witnesses *)

Module Witness.
Import LightClientBlock.Witness NearBridge.Witness.

(** Arrays left by an earlier epoch. *)
Definition used : StoredEpoch :=
  {| se_epochId := zeros32; se_numBPs := 100; se_keys := replicate 100 (replicate 32 9); packedStakes := replicate 50 (2 ^ 256 - 1);
     se_stakeThreshold := 1 |}.

Definition three : list BlockProducer := [producer 7; producer (2 ^ 128 - 1); producer 5].
Definition three_epoch : Epoch := {| epochId := zeros32; ep_keys := []; ep_stakes := []; stakeThreshold := 0 |}.

Lemma packed_stakes_transparent_witness :
  exists se', store_setBlockProducers three used = Ret se' /\
    (forall i, (i < length three)%nat -> se_keys se' !! i = map publicKey three !! i) /\ se_stakeThreshold se' = (2 ^ 128 + 11) * 2 / 3 /\
    forall approvals, (se_numBPs se' <= length approvals)%nat ->
      voted_loop 101 0 (se_numBPs se') (packedStakes se') approvals 0 = Ret (votedFor [7; 2 ^ 128 - 1; 5] approvals).
Proof.
  apply (packed_stakes_transparent three used three_epoch).
  - done.
  - repeat constructor; unfold stake_ok; cbn; lia.
  - reflexivity.
Defined.

(** The epoch of the head of [st4], with its two producers packed. *)
Definition stored : StoredEpoch :=
  {| se_epochId := zeros32; se_numBPs := 2; se_keys := [zeros32; zeros32] ++ replicate 98 (replicate 32 9);
     packedStakes := [Z.shiftl 7 128 + 5] ++ replicate 49 0; se_stakeThreshold := 8 |}.

Definition sig0 : Signature := {| sig_r := zeros32; sig_s := zeros32 |}.

Lemma stored_stands : stands_for stored (headEpoch st4).
Proof.
  assert (headEpoch st4 = {| epochId := zeros32; ep_keys := [zeros32; zeros32]; ep_stakes := [7; 5]; stakeThreshold := 8 |}) as -> by (vm_compute; reflexivity).
  split; [reflexivity | reflexivity | cbn; lia | reflexivity | | | | reflexivity].
  - intros [|[|j]] Hj; [done..|cbn in Hj; lia].
  - intros [|[|j]] s Hj; [by injection Hj as <-..|by destruct j].
  - by repeat constructor.
Qed.

(** A check that compares the message with NEAR's approval of height 1009. *)
Definition is_approval (key r s arg1 arg2 : list Z) : bool :=
  bool_decide (arg1 ++ arg2 = near_approval (untrustedNextHash (head st4)) 1009).

Lemma stored_signatures_checked_witness :
  let '(set', sigs') := signature_loop 2 0 [Some sig0; Some sig0] 0 (replicate 100 {| sig_r := [9]; sig_s := [9] |}) in
  store_check is_approval stored set' sigs' (untrustedNextHash (head st4)) (untrustedHeight (head st4)) 1 =
  checkBlockProducerSignatureInHead
    (fun key sig next_hash target => let m := near_approval next_hash target in is_approval key (sig_r sig) (sig_s sig) (take 32 m) (drop 32 m)) 1 st4.
Proof.
  apply (stored_signatures_checked is_approval stored st4 [Some sig0; Some sig0] (replicate 100 {| sig_r := [9]; sig_s := [9] |}) 1).
  - exact stored_stands.
  - reflexivity.
  - vm_compute. lia.
  - vm_compute. reflexivity.
  - vm_compute. reflexivity.
  - vm_compute. discriminate.
  - vm_compute. reflexivity.
Defined.
End Witness.
