(* ===== verification/HeaderStorage.v ===== *)
(** * How the client contract stores headers

    The wrappers and the [BlockHeader] of eth-types/src/lib.rs with their
    Borsh encoding, in which the Ethereum client keeps headers in the
    storage of its account.  A reader takes the buffer it is given and
    leaves the rest, also when it fails: that is what [&mut &[u8]] means
    for the two attempts of [BlockHeader::deserialize].  The readers of the
    borsh crate itself are parameters with the laws of the format. *)

From S2P Require Import Prelude Interfaces.

(** ** Readers *)

(** A value or an error, and the buffer that is left. *)
Definition reader (A : Type) : Type := list Z -> option A * list Z.

Definition ret {A} (a : A) : reader A := fun buf => (Some a, buf).

(** The [?] operator: an error ends the function and leaves the buffer where it is. *)
Definition bind {A B} (f : reader A) (k : A -> reader B) : reader B :=
  fun buf => match f buf with (Some a, buf) => k a buf | (None, buf) => (None, buf) end.

Declare Scope reader_scope.
Notation "x <- f ;; k" := (bind f (fun x => k)) (at level 100, f at next level, right associativity) : reader_scope.
#[local] Open Scope reader_scope.

(** The borsh crate. *)
Class BorshCrate := {
  de_u64 : reader Z;
  de_vec_u8 : reader (list Z);
  de_option : forall {A}, reader A -> reader (option A)
}.

(** A [u64] is eight bytes, a [Vec] is preceded by its length, an [Option]
    by a flag; what a flag other than 0 and 1 means depends on the release:
    an error, or the same as 1. *)
Class BorshCrateOk `{BorshCrate} := {
  de_u64_ok bs rest : bytes_ok bs -> length bs = 8%nat -> de_u64 (bs ++ rest) = (Some (le_value bs), rest);
  de_vec_ok bs rest : bytes_ok bs -> Z.of_nat (length bs) < 2 ^ 32 -> de_vec_u8 (le_bytes 4 (Z.of_nat (length bs)) ++ bs ++ rest) = (Some bs, rest);
  de_none A (f : reader A) rest : de_option f (0 :: rest) = (Some None, rest);
  de_some A (f : reader A) rest : de_option f (1 :: rest) = (a <- f;; ret (Some a)) rest;
  de_other A (f : reader A) b rest : b <> 0 -> de_option f (b :: rest) = (None, rest) \/ de_option f (b :: rest) = (a <- f;; ret (Some a)) rest
}.

(** ** The wrappers *)

(** [arr_declare_wrapper_and_serde!]: an error leaves the buffer untouched. *)
Definition de_arr (len : nat) : reader (list Z) :=
  fun buf => if (length buf <? len)%nat then (None, buf) else (Some (take len buf), drop len buf).

(** [uint_declare_wrapper_and_serde!]: the words from the lowest up. *)
Fixpoint ser_uint (len : nat) (z : Z) : list Z :=
  match len with O => [] | S len => le_bytes 8 (z mod 2 ^ 64) ++ ser_uint len (z / 2 ^ 64) end.

Fixpoint de_uint `{BorshCrate} (len : nat) : reader Z :=
  match len with O => ret 0 | S len => w <- de_u64;; hi <- de_uint len;; ret (w + 2 ^ 64 * hi) end.

(** ** Headers *)

Record BlockHeader := {
  parent_hash : list Z; uncles_hash : list Z; author : list Z; state_root : list Z; transactions_root : list Z;
  receipts_root : list Z; log_bloom : list Z; difficulty : Z; number : Z; gas_limit : Z; gas_used : Z;
  timestamp : Z; extra_data : list Z; mix_hash : list Z; nonce : list Z; base_fee_per_gas : Z;
  hash : option (list Z); partial_hash : option (list Z)
}.

Definition ser_option (o : option (list Z)) : list Z := match o with None => [0] | Some bs => 1 :: bs end.

(** The fields before the base fee. *)
Definition ser_fields (h : BlockHeader) : list Z :=
  parent_hash h ++ uncles_hash h ++ author h ++ state_root h ++ transactions_root h ++ receipts_root h ++ log_bloom h ++
  ser_uint 4 (difficulty h) ++ le_bytes 8 (number h) ++ ser_uint 4 (gas_limit h) ++ ser_uint 4 (gas_used h) ++
  le_bytes 8 (timestamp h) ++ (le_bytes 4 (Z.of_nat (length (extra_data h))) ++ extra_data h) ++ mix_hash h ++ nonce h.

(** The derived [BorshSerialize], with the feature eip1559 and without. *)
Definition ser_header (h : BlockHeader) : list Z :=
  ser_fields h ++ le_bytes 8 (base_fee_per_gas h) ++ ser_option (hash h) ++ ser_option (partial_hash h).

Definition ser_header_pre (h : BlockHeader) : list Z := ser_fields h ++ ser_option (hash h) ++ ser_option (partial_hash h).

Section Deserialize.
Context `{BorshCrate}.

(** The derived readers of [BlockHeaderLondon] and [BlockHeaderPreLondon],
    the latter with the base fee of the conversion to [BlockHeader]. *)
Definition de_fields {A} (k : (Z -> option (list Z) -> option (list Z) -> BlockHeader) -> reader A) : reader A :=
  ph <- de_arr 32;; uh <- de_arr 32;; au <- de_arr 20;; sr <- de_arr 32;; tr <- de_arr 32;; rr <- de_arr 32;;
  lb <- de_arr 256;; di <- de_uint 4;; nu <- de_u64;; gl <- de_uint 4;; gu <- de_uint 4;; ts <- de_u64;;
  ed <- de_vec_u8;; mh <- de_arr 32;; no <- de_arr 8;;
  k (fun fee h p => {| parent_hash := ph; uncles_hash := uh; author := au; state_root := sr; transactions_root := tr;
       receipts_root := rr; log_bloom := lb; difficulty := di; number := nu; gas_limit := gl; gas_used := gu; timestamp := ts;
       extra_data := ed; mix_hash := mh; nonce := no; base_fee_per_gas := fee; hash := h; partial_hash := p |}).

Definition BlockHeaderLondon_deserialize : reader BlockHeader :=
  de_fields (fun mk => fee <- de_u64;; h <- de_option (de_arr 32);; p <- de_option (de_arr 32);; ret (mk fee h p)).

Definition BlockHeaderPreLondon_deserialize : reader BlockHeader :=
  de_fields (fun mk => h <- de_option (de_arr 32);; p <- de_option (de_arr 32);; ret (mk 7 h p)).

(** The second attempt gets the buffer the first one has left. *)
Definition BlockHeader_deserialize : reader BlockHeader :=
  fun buf => match BlockHeaderLondon_deserialize buf with
             | (Some header, buf) => (Some header, buf)
             | (None, buf) => BlockHeaderPreLondon_deserialize buf
             end.
End Deserialize.

(** The fields have the sizes of their types. *)
Record header_ok (h : BlockHeader) : Prop := {
  ok_ph : length (parent_hash h) = 32%nat; ok_uh : length (uncles_hash h) = 32%nat; ok_au : length (author h) = 20%nat;
  ok_sr : length (state_root h) = 32%nat; ok_tr : length (transactions_root h) = 32%nat; ok_rr : length (receipts_root h) = 32%nat;
  ok_lb : length (log_bloom h) = 256%nat; ok_di : 0 <= difficulty h < 2 ^ 256; ok_nu : 0 <= number h < 2 ^ 64;
  ok_gl : 0 <= gas_limit h < 2 ^ 256; ok_gu : 0 <= gas_used h < 2 ^ 256; ok_ts : 0 <= timestamp h < 2 ^ 64;
  ok_ed : bytes_ok (extra_data h) /\ Z.of_nat (length (extra_data h)) < 2 ^ 32; ok_mh : length (mix_hash h) = 32%nat;
  ok_no : length (nonce h) = 8%nat; ok_fee : 0 <= base_fee_per_gas h < 2 ^ 64;
  ok_hash : forall x, hash h = Some x -> bytes_ok x /\ length x = 32%nat;
  ok_partial : forall x, partial_hash h = Some x -> bytes_ok x /\ length x = 32%nat
}.

(** ** Reading what was written *)

Section Lemmas.
Context `{BorshCrateOk}.

Definition reads {A} (f : reader A) (bs : list Z) (a : A) : Prop := forall rest, f (bs ++ rest) = (Some a, rest).

Lemma reads_ret {A} (a : A) : reads (ret a) [] a.
Proof. done. Qed.

Lemma reads_bind {A B} (f : reader A) (k : A -> reader B) bs1 bs2 a b : reads f bs1 a -> reads (k a) bs2 b -> reads (bind f k) (bs1 ++ bs2) b.
Proof. intros Hf Hk rest. unfold bind. by rewrite <- app_assoc, Hf, Hk. Qed.

Lemma reads_arr len bs : length bs = len -> reads (de_arr len) bs bs.
Proof.
  intros Hl rest. unfold de_arr. rewrite length_app. destruct (Nat.ltb_spec (length bs + length rest) len); [lia|].
  by rewrite take_app_length', drop_app_length' by done.
Qed.

Lemma reads_u64 z : 0 <= z < 2 ^ 64 -> reads de_u64 (le_bytes 8 z) z.
Proof. intros Hz rest. rewrite de_u64_ok by (apply le_bytes_ok || apply length_le_bytes). by rewrite le_value_small. Qed.

Lemma reads_uint len z : 0 <= z < 2 ^ (64 * Z.of_nat len) -> reads (de_uint len) (ser_uint len z) z.
Proof.
  revert z. induction len as [|len IH]; intros z Hz; cbn [ser_uint de_uint].
  - replace z with 0 by (change (2 ^ (64 * Z.of_nat 0)) with 1 in Hz; lia). apply reads_ret.
  - eapply reads_bind; [apply reads_u64, Z.mod_pos_bound; lia|]. rewrite <- (app_nil_r (ser_uint len _)). eapply reads_bind.
    + apply IH. rewrite Nat2Z.inj_succ, Z.mul_succ_r, Z.pow_add_r in Hz by lia. split; [apply Z.div_pos; lia | apply Z.div_lt_upper_bound; lia].
    + intros rest. unfold ret. do 2 f_equal. pose proof (Z.div_mod z (2 ^ 64)). lia.
Qed.

Lemma reads_vec bs : bytes_ok bs -> Z.of_nat (length bs) < 2 ^ 32 -> reads de_vec_u8 (le_bytes 4 (Z.of_nat (length bs)) ++ bs) bs.
Proof. intros Hb Hl rest. rewrite <- app_assoc. by apply de_vec_ok. Qed.

Lemma reads_option o : (forall x, o = Some x -> bytes_ok x /\ length x = 32%nat) -> reads (de_option (de_arr 32)) (ser_option o) o.
Proof.
  intros Ho rest. destruct o as [bs|]; cbn [ser_option app]; [|apply de_none]. rewrite de_some. unfold bind. rewrite (reads_arr 32); [done|]. by apply Ho.
Qed.

#[local] Hint Resolve reads_arr reads_u64 reads_vec reads_option : reads.

Lemma bind_reads {A B} (f : reader A) (k : A -> reader B) bs a rest : reads f bs a -> bind f k (bs ++ rest) = k a rest.
Proof. intros Hf. unfold bind. by rewrite Hf. Qed.

(** The header with the fields of [h] and the other three values. *)
Definition with_tail (h : BlockHeader) (fee : Z) (x p : option (list Z)) : BlockHeader :=
  {| parent_hash := parent_hash h; uncles_hash := uncles_hash h; author := author h; state_root := state_root h;
     transactions_root := transactions_root h; receipts_root := receipts_root h; log_bloom := log_bloom h; difficulty := difficulty h;
     number := number h; gas_limit := gas_limit h; gas_used := gas_used h; timestamp := timestamp h; extra_data := extra_data h;
     mix_hash := mix_hash h; nonce := nonce h; base_fee_per_gas := fee; hash := x; partial_hash := p |}.

Lemma fields_read {A} h (k : _ -> reader A) rest : header_ok h -> de_fields k (ser_fields h ++ rest) = k (with_tail h) rest.
Proof.
  intros []. unfold ser_fields. rewrite <- !(app_assoc _ _ rest). unfold de_fields.
  repeat (erewrite bind_reads; [|first [apply reads_uint; done | apply reads_vec; by destruct ok_ed0 | by auto with reads]]). done.
Qed.
End Lemmas.

(** ** Properties *)

Section Properties.
Context `{BorshCrateOk}.

Lemma London_reads h : header_ok h -> reads BlockHeaderLondon_deserialize (ser_header h) h.
Proof.
  intros Hh rest. unfold BlockHeaderLondon_deserialize, ser_header. rewrite <- app_assoc, fields_read by done. destruct Hh. rewrite <- !app_assoc.
  rewrite (bind_reads _ _ _ _ _ (reads_u64 _ ok_fee0)), (bind_reads _ _ _ _ _ (reads_option _ ok_hash0)), (bind_reads _ _ _ _ _ (reads_option _ ok_partial0)).
  by destruct h.
Qed.

(** C18: stored headers are read back: what the contract writes for a header
    of the London format is read by [BlockHeader::deserialize] to the last
    byte and gives the same header, whatever the release of the borsh
    crate does with unknown flags. *)
Theorem stored_header_roundtrip h : header_ok h -> BlockHeader_deserialize (ser_header h) = (Some h, []).
Proof. intros Hh. unfold BlockHeader_deserialize. rewrite <- (app_nil_r (ser_header h)). by rewrite (London_reads h Hh). Qed.

(** A header needs more than 63 bytes. *)
Lemma fields_short {A} k buf : (length buf < 64)%nat -> (de_fields (A := A) k buf).1 = None.
Proof.
  intros Hb. unfold de_fields, bind, de_arr. destruct (Nat.ltb_spec (length buf) 32); [done|]. rewrite length_drop.
  destruct (Nat.ltb_spec (length buf - 32) 32); [done | lia].
Qed.

(** The two options read from the tail of an older header. *)
Lemma tail_fails {A} b1 x b2 y (k : option (list Z) -> option (list Z) -> A) :
  b1 <> 0 -> b2 <> 0 -> length x = 32%nat -> length y = 24%nat ->
  exists rest, (h <- de_option (de_arr 32);; p <- de_option (de_arr 32);; ret (k h p)) (b1 :: x ++ b2 :: y) = (None, rest) /\ (length rest < 64)%nat.
Proof.
  intros H1 H2 Hx Hy. unfold bind at 1. destruct (de_other _ (de_arr 32) b1 (x ++ b2 :: y) H1) as [-> | ->].
  - eexists. split; [done|]. rewrite length_app. cbn. lia.
  - unfold bind at 1. rewrite (reads_arr 32 x Hx). unfold ret at 1, bind at 1. destruct (de_other _ (de_arr 32) b2 y H2) as [-> | ->].
    + exists y. split; [done | lia].
    + unfold bind at 1, de_arr. rewrite (proj2 (Nat.ltb_lt _ _)) by lia. exists y. split; [done | lia].
Qed.

(** Headers stored before London cannot be read.  The first attempt of
    [BlockHeader::deserialize] has consumed the fields when it fails, and
    the second one starts from there: for a header written without a base
    fee, with its two hashes (whose eighth bytes are not zero), the
    contract gets an error. *)
Theorem pre_london_header_unreadable h x p :
  header_ok h -> hash h = Some x -> partial_hash h = Some p -> x !! 7%nat <> Some 0 -> p !! 7%nat <> Some 0 ->
  (BlockHeader_deserialize (ser_header_pre h)).1 = None.
Proof.
  intros Hh Ex Ep Hx Hp. destruct (ok_hash _ Hh x Ex) as [Bx Lx]. destruct (ok_partial _ Hh p Ep) as [Bp Lp].
  destruct (lookup_lt_is_Some_2 x 7 ltac:(lia)) as [b1 E1]. destruct (lookup_lt_is_Some_2 p 7 ltac:(lia)) as [b2 E2].
  assert (ser_option (Some x) ++ ser_option (Some p) = (1 :: take 7 x) ++ b1 :: (drop 8 x ++ 1 :: take 7 p) ++ b2 :: drop 8 p) as Etail.
  { cbn [ser_option app]. f_equal. rewrite <- (take_drop 7 x) at 1. rewrite (drop_S x b1 7 E1), <- !app_assoc. cbn [app]. do 3 f_equal.
    f_equal. rewrite <- (take_drop 7 p) at 1. by rewrite (drop_S p b2 7 E2). }
  unfold BlockHeader_deserialize, BlockHeaderLondon_deserialize, ser_header_pre. rewrite fields_read by done. rewrite Ex, Ep, Etail.
  assert (reads de_u64 (1 :: take 7 x) (le_value (1 :: take 7 x))) as Hu.
  { intros rest. apply de_u64_ok; [constructor; [done | by apply Forall_take] | cbn [length]; rewrite length_take; lia]. }
  rewrite (bind_reads _ _ _ _ _ Hu). destruct (tail_fails b1 (drop 8 x ++ 1 :: take 7 p) b2 (drop 8 p) (with_tail h (le_value (1 :: take 7 x)))) as (rest & E & Hlt);
    [congruence | congruence | rewrite length_app, length_drop; cbn [length]; rewrite length_take; lia | rewrite length_drop; lia|].
  rewrite E. by apply fields_short.
Qed.
End Properties.

(** ** Witnesses *)

Module Witness.

(** The format itself, with the strict reading of flags. *)
#[local] Instance format : BorshCrate := {|
  de_u64 := a <- de_arr 8;; ret (le_value a);
  de_vec_u8 := n <- de_arr 4;; de_arr (Z.to_nat (le_value n));
  de_option A f buf := match buf with
    | [] => (None, [])
    | b :: buf => if b =? 0 then (Some None, buf) else if b =? 1 then (a <- f;; ret (Some a)) buf else (None, buf)
    end
|}.

#[local] Instance format_ok : BorshCrateOk.
Proof.
  split.
  - intros bs rest Hb Hl. cbn [de_u64 format]. by rewrite (bind_reads _ _ _ _ _ (reads_arr 8 bs Hl)).
  - intros bs rest Hb Hl. cbn [de_vec_u8 format]. rewrite (bind_reads _ _ _ _ _ (reads_arr 4 _ (length_le_bytes 4 _))).
    rewrite le_value_small by (change (256 ^ Z.of_nat 4) with (2 ^ 32); lia). rewrite Nat2Z.id. by apply reads_arr.
  - done.
  - done.
  - intros A f b rest Hb. cbn [de_option format]. rewrite (proj2 (Z.eqb_neq _ _)) by done. destruct (b =? 1); [by right | by left].
Qed.

Definition h32 : list Z := replicate 32 17.

Definition sample : BlockHeader :=
  {| parent_hash := h32; uncles_hash := h32; author := replicate 20 1; state_root := h32; transactions_root := h32; receipts_root := h32;
     log_bloom := replicate 256 0; difficulty := 2 ^ 100 + 3; number := 12965000; gas_limit := 30000000; gas_used := 21000;
     timestamp := 1628166822; extra_data := [100; 101]; mix_hash := h32; nonce := replicate 8 9; base_fee_per_gas := 1000000000;
     hash := Some h32; partial_hash := Some h32 |}.

Lemma sample_ok : header_ok sample.
Proof.
  assert (bytes_ok h32) as Hb by (apply Forall_replicate; split; lia).
  split; cbn; try reflexivity; try lia; [split; [repeat constructor; lia | lia]|by intros x [= <-]..].
Qed.

Lemma stored_header_roundtrip_witness : BlockHeader_deserialize (ser_header sample) = (Some sample, []).
Proof. apply (stored_header_roundtrip sample). exact sample_ok. Defined.

Lemma pre_london_header_unreadable_witness : (BlockHeader_deserialize (ser_header_pre sample)).1 = None.
Proof. apply (pre_london_header_unreadable sample h32 h32); [exact sample_ok | reflexivity | reflexivity | discriminate | discriminate]. Defined.
End Witness.
