(* ===== verification/EthProver.v ===== *)
(** * The Ethereum prover contract on NEAR (contracts/near/eth-prover)

    [EthProver] of eth-prover/src/lib.rs with the types it decodes
    (eth-types/src/lib.rs) and its administration (admin-controlled): the
    contract that accepts the proofs the extractor builds.  A panic is
    [None]; [keccak256] is the host function.  The trie paths of the Yellow
    Paper are [trie_path]: every path is accepted, and a root and a key have
    at most one accepted proof. *)

From S2P Require Import Prelude Interfaces Rlp.

(** The host function [env::keccak256]. *)
Class Keccak := {
  keccak256 : list Z -> list Z;
  keccak256_length : forall bs, length (keccak256 bs) = 32%nat;
  keccak256_bytes : forall bs, bytes_ok (keccak256 bs)
}.

(** ** eth-types *)

Definition get_vec `{RlpLib} (data : list Z) (pos : nat) : option (list Z) := rlp_at data pos ≫= rlp_data.

(** Decoding of fixed-size arrays and of unsigned integers of [n] bytes. *)
Definition fixed (n : nat) (bs : list Z) : option (list Z) := if Nat.eqb (length bs) n then Some bs else None.

Definition uint (n : nat) (bs : list Z) : option Z :=
  match bs with
  | [] => Some 0
  | b :: _ => if (b =? 0) || Nat.ltb n (length bs) then None else Some (be_value bs)
  end.

Record LogEntry := { address : list Z; topics : list (list Z); data : list Z }.

#[global] Instance LogEntry_eq_dec : EqDecision LogEntry.
Proof. solve_decision. Defined.

Record Receipt := { status : bool; gas_used : Z; log_bloom : list Z; logs : list LogEntry }.

(** A header, in the default build of the contracts (feature [eip1559]). *)
Record BlockHeader := {
  parent_hash : list Z; uncles_hash : list Z; author : list Z; state_root : list Z; transactions_root : list Z;
  receipts_root : list Z; bloom : list Z; difficulty : Z; number : Z; gas_limit : Z; header_gas_used : Z;
  timestamp : Z; extra_data : list Z; mix_hash : list Z; nonce : list Z; base_fee_per_gas : Z;
  hash : list Z; partial_hash : list Z
}.

(** What [RlpStream] holds after [begin_list(n)] and the appends of [items]:
    the list is closed by its [n]-th item, later items follow it. *)
Definition rlp_stream `{RlpLib} (n : nat) (items : list item) : list Z :=
  (rlp_encode (Lst (take n items)) ++ concat (map rlp_encode (drop n items)))%list.

(** The first thirteen fields, as they are appended to the stream. *)
Definition header_fields (h : BlockHeader) : list item :=
  [Str (parent_hash h); Str (uncles_hash h); Str (author h); Str (state_root h); Str (transactions_root h);
   Str (receipts_root h); Str (bloom h); Str (be_min (difficulty h)); Str (be_min (number h)); Str (be_min (gas_limit h));
   Str (be_min (header_gas_used h)); Str (be_min (timestamp h)); Str (extra_data h)].

(** The number of items that [begin_list] announces does not count the base
    fee. *)
Definition stream_rlp `{RlpLib} (partial : bool) (h : BlockHeader) : list Z :=
  rlp_stream (13 + if partial then 0 else 2)
    (header_fields h ++ [Str (be_min (base_fee_per_gas h))] ++
     if partial then [] else [Str (mix_hash h); Str (nonce h)])%list.

Definition set_partial_hash (bs : list Z) (h : BlockHeader) : BlockHeader := {|
  parent_hash := parent_hash h; uncles_hash := uncles_hash h; author := author h; state_root := state_root h;
  transactions_root := transactions_root h; receipts_root := receipts_root h; bloom := bloom h;
  difficulty := difficulty h; number := number h; gas_limit := gas_limit h; header_gas_used := header_gas_used h;
  timestamp := timestamp h; extra_data := extra_data h; mix_hash := mix_hash h; nonce := nonce h;
  base_fee_per_gas := base_fee_per_gas h; hash := hash h; partial_hash := bs |}.

Section Decoding.
Context {RL : RlpLib} {KC : Keccak}.

(** The raw items of a list; [as_list] of something that is not a list is empty. *)
Definition rlp_items (d : list Z) : option (list (list Z)) := mapM (rlp_at d) (seq 0 (rlp_count d)).

Definition decode_log (d : list Z) : option LogEntry :=
  address ← get_vec d 0 ≫= fixed 20;
  topics ← (rlp_at d 1 ≫= rlp_items) ≫= mapM (fun t => rlp_data t ≫= fixed 32);
  data ← get_vec d 2;
  Some {| address := address; topics := topics; data := data |}.

Definition decode_derived_receipt (d : list Z) : option Receipt :=
  status ← get_vec d 0 ≫= uint 1;
  gas_used ← get_vec d 1 ≫= uint 32;
  log_bloom ← get_vec d 2 ≫= fixed 256;
  logs ← (rlp_at d 3 ≫= rlp_items) ≫= mapM decode_log;
  Some {| status := negb (status =? 0); gas_used := gas_used; log_bloom := log_bloom; logs := logs |}.

(** A first byte up to 0x7f is the type of an envelope. *)
Definition decode_receipt (d : list Z) : option Receipt :=
  decode_derived_receipt
    match d with
    | b :: rest => if b <=? 127 then rest else d
    | [] => d
    end.

Definition decode_header (d : list Z) : option BlockHeader :=
  parent_hash ← get_vec d 0 ≫= fixed 32;
  uncles_hash ← get_vec d 1 ≫= fixed 32;
  author ← get_vec d 2 ≫= fixed 20;
  state_root ← get_vec d 3 ≫= fixed 32;
  transactions_root ← get_vec d 4 ≫= fixed 32;
  receipts_root ← get_vec d 5 ≫= fixed 32;
  bloom ← get_vec d 6 ≫= fixed 256;
  difficulty ← get_vec d 7 ≫= uint 32;
  number ← get_vec d 8 ≫= uint 8;
  gas_limit ← get_vec d 9 ≫= uint 32;
  gas_used ← get_vec d 10 ≫= uint 32;
  timestamp ← get_vec d 11 ≫= uint 8;
  extra_data ← get_vec d 12;
  mix_hash ← get_vec d 13 ≫= fixed 32;
  nonce ← get_vec d 14 ≫= fixed 8;
  base_fee_per_gas ← get_vec d 15 ≫= uint 8;
  let block_header := {| parent_hash := parent_hash; uncles_hash := uncles_hash; author := author; state_root := state_root;
          transactions_root := transactions_root; receipts_root := receipts_root; bloom := bloom;
          difficulty := difficulty; number := number; gas_limit := gas_limit; header_gas_used := gas_used;
          timestamp := timestamp; extra_data := extra_data; mix_hash := mix_hash; nonce := nonce;
          base_fee_per_gas := base_fee_per_gas; hash := keccak256 d; partial_hash := [] |} in
  Some (set_partial_hash (keccak256 (stream_rlp true block_header)) block_header).

(** ** Trie proofs *)

Definition nibbles (bs : list Z) : list Z := concat (map (fun el => [el / 16; el mod 16]) bs).

Definition guard_bool (b : bool) : option unit := if b then Some tt else None.

(** The path of a leaf or extension node from its compact encoding: the
    first nibble and the nibbles of the path. *)
Definition node_path (path_u8 : list Z) : option (Z * list Z) :=
  match path_u8 with
  | [] => None
  | b :: rest =>
      let head := b / 16 in
      if head <=? 3 then Some (head, (if head mod 2 =? 1 then [b mod 16] else []) ++ nibbles rest)
      else None
  end.

(** The root is always a hash, a node below 32 bytes is not hashed. *)
Definition node_matches (key_index : nat) (node expected_root : list Z) : bool :=
  if Nat.eqb key_index 0 then bool_decide (keccak256 node = expected_root)
  else if Nat.ltb (length node) 32 then bool_decide (node = expected_root)
  else bool_decide (keccak256 node = expected_root).

(** [proof] is what is left of the proof from [proof_index] on. *)
Fixpoint _verify_trie_proof (expected_root key : list Z) (proof : list (list Z)) (key_index : nat) : option (list Z) :=
  match proof with
  | [] => None
  | node :: rest =>
      _ ← guard_bool (node_matches key_index node expected_root);
      if Nat.eqb (rlp_count node) 17 then
        if Nat.eqb key_index (length key) then
          _ ← guard_bool (bool_decide (rest = []));
          get_vec node 16
        else
          nibble ← key !! key_index;
          new_expected_root ← get_vec node (Z.to_nat nibble);
          _verify_trie_proof new_expected_root key rest (key_index + 1)
      else
        _ ← guard_bool (Nat.eqb (rlp_count node) 2);
        path_u8 ← get_vec node 0;
        '(head, path) ← node_path path_u8;
        _ ← guard_bool (bool_decide (path = take (length path) (drop key_index key)));
        if 2 <=? head then
          _ ← guard_bool (bool_decide (rest = []));
          _ ← guard_bool (Nat.eqb (key_index + length path) (length key));
          get_vec node 1
        else
          new_expected_root ← get_vec node 1;
          _verify_trie_proof new_expected_root key rest (key_index + length path)
  end.

Definition verify_trie_proof (expected_root key : list Z) (proof : list (list Z)) : option (list Z) :=
  _verify_trie_proof expected_root (nibbles key) proof 0.

End Decoding.

(** ** The contract *)

Record EthProver := { bridge_smart_contract : string; paused : Z }.

(** [env::current_account_id()] and [env::predecessor_account_id()]. *)
Record Env := { current_account_id : string; predecessor_account_id : string }.

Definition PAUSE_VERIFY : Z := 1.

(** A value, or a call of [block_hash_safe(number)] on the client whose
    answer goes to [on_block_hash] with the expected hash. *)
Inductive PromiseOrValue : Type :=
| Value (b : bool)
| BlockHashSafe (client : string) (block_number : Z) (expected_block_hash : list Z).

Section Contract.
Context {RL : RlpLib} {KC : Keccak} (env : Env).

Definition is_owner : bool := String.eqb (current_account_id env) (predecessor_account_id env).

Definition init (state : option EthProver) (bridge : string) : option EthProver :=
  match state with
  | None => Some {| bridge_smart_contract := bridge; paused := 0 |}
  | Some _ => None
  end.

Definition on_block_hash (block_hash : option (list Z)) (expected_block_hash : list Z) : option bool :=
  _ ← guard_bool is_owner;
  Some (bool_decide (block_hash = Some expected_block_hash)).

Definition assert_ethclient_hash (self : EthProver) (block_number : Z) (expected_block_hash : list Z) : PromiseOrValue :=
  BlockHashSafe (bridge_smart_contract self) block_number expected_block_hash.

Definition is_paused (self : EthProver) (flag : Z) : bool :=
  negb (Z.land (paused self) flag =? 0) && negb is_owner.

Definition set_paused (self : EthProver) (mask : Z) : option EthProver :=
  _ ← guard_bool is_owner;
  Some {| bridge_smart_contract := bridge_smart_contract self; paused := mask |}.

Definition set_bridge (self : EthProver) (bridge : string) : option EthProver :=
  _ ← guard_bool is_owner;
  Some {| bridge_smart_contract := bridge; paused := paused self |}.

(** [log_index as usize] keeps 32 bits: the contract is built for wasm32. *)
Definition as_usize (n : Z) : nat := Z.to_nat (n mod 2 ^ 32).

Definition verify_log_entry (self : EthProver) (log_index : Z) (log_entry_data : list Z) (receipt_index : Z)
    (receipt_data header_data : list Z) (proof : list (list Z)) (skip_bridge_call : bool) : option PromiseOrValue :=
  _ ← guard_bool (negb (is_paused self PAUSE_VERIFY));
  log_entry ← decode_log log_entry_data;
  receipt ← decode_receipt receipt_data;
  header ← decode_header header_data;
  _ ← guard_bool (bool_decide (logs receipt !! as_usize log_index = Some log_entry));
  value ← verify_trie_proof (receipts_root header) (rlp_uint receipt_index) proof;
  let verification_result := bool_decide (receipt_data = value) in
  if verification_result && skip_bridge_call then Some (Value true)
  else if negb verification_result then Some (Value false)
  else Some (BlockHashSafe (bridge_smart_contract self) (number header) (hash header)).

End Contract.

(** ** Trie paths

    The path from the root of a Merkle Patricia trie to a value: the nodes
    from the top down, each referring to the next. *)

(** Compact encoding of a path: a flag nibble, then the nibbles in pairs. *)
Fixpoint pack (p : list Z) : list Z :=
  match p with
  | a :: b :: p' => (16 * a + b) :: pack p'
  | _ => []
  end.

Definition compact (leaf : bool) (p : list Z) : list Z :=
  let flag := if leaf then 2 else 0 in
  if Nat.odd (length p) then
    match p with
    | x :: p' => (16 * (flag + 1) + x) :: pack p'
    | [] => []
    end
  else (16 * flag) :: pack p.

Definition is_nibble (n : Z) : Prop := 0 <= n < 16.

Section Paths.
Context {RL : RlpLib} {KC : Keccak}.

(** A node is referred to by its hash, or stands in its parent when its
    encoding is below 32 bytes. *)
Definition node_ref (n : item) : item :=
  if Nat.ltb (length (rlp_encode n)) 32 then n else Str (keccak256 (rlp_encode n)).

Inductive trie_path : list Z -> list item -> list Z -> Prop :=
| path_leaf p v : trie_path p [Lst [Str (compact true p); Str v]] v
| path_value children v :
    length children = 17%nat -> children !! 16%nat = Some (Str v) -> trie_path [] [Lst children] v
| path_branch children i p n stack v :
    length children = 17%nat -> children !! Z.to_nat i = Some (node_ref n) ->
    trie_path p (n :: stack) v -> trie_path (i :: p) (Lst children :: n :: stack) v
| path_extension q p n stack v :
    trie_path p (n :: stack) v ->
    trie_path (q ++ p) (Lst [Str (compact false q); node_ref n] :: n :: stack) v.

(** No node of one proof has the hash of a different node of the other. *)
Definition nodes_distinct (p1 p2 : list (list Z)) : Prop :=
  forall n1 n2, n1 ∈ p1 -> n2 ∈ p2 -> keccak256 n1 = keccak256 n2 -> n1 = n2.

End Paths.

(** ** Lemmas *)

Lemma nibbles_pack p : Forall is_nibble p -> Nat.even (length p) = true -> nibbles (pack p) = p.
Proof.
  remember (length p) as n eqn:Hn. revert p Hn. induction n as [n IH] using lt_wf_ind. intros p Hn Hp Hev.
  destruct p as [|a [|b p]]; [done | by subst |]. cbn [length] in Hn. subst n.
  apply list.Forall_cons in Hp as [Ha Hp]. apply list.Forall_cons in Hp as [Hb Hp]. unfold is_nibble in *.
  cbn [pack nibbles map concat app]. f_equal; [|f_equal].
  - rewrite Z.mul_comm, Z.div_add_l, Z.div_small by lia. lia.
  - rewrite Z.add_comm, Z.mul_comm, Z.mod_add, Z.mod_small by lia. done.
  - apply (IH (length p)); [lia | done | done | exact Hev].
Qed.

Lemma node_path_compact leaf p :
  Forall is_nibble p -> exists head, node_path (compact leaf p) = Some (head, p) /\ (2 <=? head) = leaf.
Proof.
  intros Hp. unfold compact. destruct (Nat.odd (length p)) eqn:Hodd.
  - destruct p as [|x p]; [done|]. apply list.Forall_cons in Hp as [Hx Hp]. unfold is_nibble in Hx.
    assert (Hev : Nat.even (length p) = true) by (rewrite <- Nat.odd_succ; exact Hodd).
    assert (Hd : forall f, (16 * f + x) / 16 = f) by (intros f; rewrite Z.mul_comm, Z.div_add_l, Z.div_small by lia; lia).
    assert (Hm : forall f, (16 * f + x) mod 16 = x)
      by (intros f; rewrite Z.add_comm, Z.mul_comm, Z.mod_add, Z.mod_small by lia; done).
    cbn [node_path]. rewrite Hd, Hm, nibbles_pack by done. exists ((if leaf then 2 else 0) + 1). by destruct leaf.
  - assert (Hev : Nat.even (length p) = true) by (rewrite <- Nat.negb_odd, Hodd; done).
    cbn [node_path]. rewrite nibbles_pack by done. exists (if leaf then 2 else 0). by destruct leaf.
Qed.

Section TrieLemmas.
Context {RL : RlpLib} {KC : Keccak}.

(** What one node of a proof gives: the value at the end of the key, or
    the root and the position to go on with. *)
Definition advance (key : list Z) (key_index : nat) (node : list Z) : option (list Z + list Z * nat) :=
  if Nat.eqb (rlp_count node) 17 then
    if Nat.eqb key_index (length key) then inl <$> get_vec node 16
    else
      nibble ← key !! key_index;
      r ← get_vec node (Z.to_nat nibble);
      Some (inr (r, (key_index + 1)%nat))
  else
    _ ← guard_bool (Nat.eqb (rlp_count node) 2);
    path_u8 ← get_vec node 0;
    '(head, path) ← node_path path_u8;
    _ ← guard_bool (bool_decide (path = take (length path) (drop key_index key)));
    if 2 <=? head then
      _ ← guard_bool (Nat.eqb (key_index + length path) (length key));
      inl <$> get_vec node 1
    else
      r ← get_vec node 1;
      Some (inr (r, (key_index + length path)%nat)).

Lemma verify_cons root key node rest ki :
  _verify_trie_proof root key (node :: rest) ki =
  if node_matches ki node root then
    match advance key ki node with
    | Some (inl v) => if bool_decide (rest = []) then Some v else None
    | Some (inr (r, ki')) => _verify_trie_proof r key rest ki'
    | None => None
    end
  else None.
Proof.
  cbn [_verify_trie_proof]. unfold advance, guard_bool. destruct (node_matches ki node root); [|done].
  destruct (Nat.eqb (rlp_count node) 17); cbn.
  - destruct (Nat.eqb ki (length key)); cbn.
    + case_bool_decide; destruct (get_vec node 16); done.
    + destruct (key !! ki); [|done]. cbn. by destruct (get_vec node (Z.to_nat z)).
  - destruct (Nat.eqb (rlp_count node) 2); [|done]. cbn. destruct (get_vec node 0) as [u|]; [|done]. cbn.
    destruct (node_path u) as [[head path]|]; [|done]. cbn. destruct (bool_decide (path = _)); [|done]. cbn.
    destruct (2 <=? head); cbn; [|by destruct (get_vec node 1)].
    destruct (Nat.eqb (ki + length path) (length key)); cbn; [|by case_bool_decide].
    case_bool_decide; by destruct (get_vec node 1).
Qed.

Lemma node_matches_same ki n1 n2 root : (keccak256 n1 = keccak256 n2 -> n1 = n2) ->
  node_matches ki n1 root = true -> node_matches ki n2 root = true -> n1 = n2.
Proof.
  unfold node_matches. intros Hinj H1 H2.
  assert (Hl : forall a b : list Z, Nat.ltb (length a) 32 = true -> a = keccak256 b -> False).
  { intros a b Ha ->. rewrite keccak256_length in Ha. done. }
  repeat case_match; apply bool_decide_eq_true in H1, H2; subst; try done;
    try (exfalso; eauto; fail); by apply Hinj.
Qed.

Lemma verify_unique root key ki p1 p2 v1 v2 : nodes_distinct p1 p2 ->
  _verify_trie_proof root key p1 ki = Some v1 -> _verify_trie_proof root key p2 ki = Some v2 -> p1 = p2 /\ v1 = v2.
Proof.
  revert root ki p2. induction p1 as [|n1 r1 IH]; intros root ki [|n2 r2] Hd H1 H2; try done.
  rewrite verify_cons in H1, H2.
  destruct (node_matches ki n1 root) eqn:M1, (node_matches ki n2 root) eqn:M2; try done.
  assert (n1 = n2) as -> by (eapply node_matches_same; [apply Hd; left | done | done]).
  destruct (advance key ki n2) as [[v|[r ki']]|]; try done.
  - do 2 case_bool_decide; try done. by simplify_eq.
  - destruct (IH r ki' r2) as [-> ->]; try done. intros a b Ha Hb. apply Hd; by right.
Qed.

Context {RLok : RlpOk}.

(** Every node on the way to a value of 32 bytes or more is hashed. *)
Lemma path_nodes_hashed p stack v :
  trie_path p stack v -> (32 <= length v)%nat -> Forall (fun n => (32 <= length (rlp_encode n))%nat) stack.
Proof.
  assert (Hstr : forall bs items, Str bs ∈ items -> (length bs <= length (rlp_encode (Lst items)))%nat).
  { intros bs items Hin. etrans; [apply rlp_length_str | by apply rlp_length_list]. }
  assert (Href : forall n items, (32 <= length (rlp_encode n))%nat -> node_ref n ∈ items ->
                   (32 <= length (rlp_encode (Lst items)))%nat).
  { intros n items Hn Hin. unfold node_ref in Hin. rewrite (proj2 (Nat.ltb_ge _ _) Hn) in Hin.
    rewrite <- (keccak256_length (rlp_encode n)). by apply Hstr. }
  induction 1 as [p v | children v Hl Hv | children i p n stack v Hl Hi _ IH | q p n stack v _ IH]; intros Hlen.
  - repeat constructor. etrans; [exact Hlen|]. apply Hstr. by right; left.
  - repeat constructor. etrans; [exact Hlen|]. apply Hstr. by eapply list_elem_of_lookup_2.
  - specialize (IH Hlen). constructor; [|done]. apply list.Forall_cons in IH as [Hn _].
    apply (Href n); [done|]. by eapply list_elem_of_lookup_2.
  - specialize (IH Hlen). constructor; [|done]. apply list.Forall_cons in IH as [Hn _].
    apply (Href n); [done|]. by right; left.
Qed.

Lemma get_vec_str items pos bs :
  item_ok (Lst items) -> items !! pos = Some (Str bs) -> get_vec (rlp_encode (Lst items)) pos = Some bs.
Proof.
  intros Hok Hpos. unfold get_vec. rewrite rlp_at_list, Hpos by done. cbn.
  apply rlp_data_str. eauto with bridge.
Qed.

Lemma node_ref_hashed n : (32 <= length (rlp_encode n))%nat -> node_ref n = Str (keccak256 (rlp_encode n)).
Proof. intros H. unfold node_ref. by rewrite (proj2 (Nat.ltb_ge _ _) H). Qed.

Lemma node_matches_hashed ki n :
  (32 <= length (rlp_encode n))%nat -> node_matches ki (rlp_encode n) (keccak256 (rlp_encode n)) = true.
Proof.
  intros H. unfold node_matches. rewrite (proj2 (Nat.ltb_ge _ _) H). rewrite bool_decide_true by done. by case_match.
Qed.

(** The steps of the verifier along a path. *)
Lemma advance_compact leaf (q p : list Z) pre x :
  item_ok (Lst [Str (compact leaf q); Str x]) -> Forall is_nibble q ->
  (leaf = true -> p = []) ->
  advance (pre ++ q ++ p) (length pre) (rlp_encode (Lst [Str (compact leaf q); Str x])) =
  Some (if leaf then inl x else inr (x, (length pre + length q)%nat)).
Proof.
  intros Hok Hq Hp. unfold advance. rewrite rlp_count_list by done. cbn [length Nat.eqb].
  rewrite (get_vec_str _ 0 _ Hok eq_refl), (get_vec_str _ 1 _ Hok eq_refl). cbn.
  destruct (node_path_compact leaf q Hq) as (head & -> & Hh). cbn.
  rewrite drop_app_length, take_app_length, bool_decide_true by done. cbn. rewrite Hh.
  destruct leaf; cbn; [|done]. rewrite Hp by done. rewrite app_nil_r, length_app, Nat.eqb_refl. done.
Qed.

Lemma advance_branch children i p pre x :
  item_ok (Lst children) -> length children = 17%nat -> children !! Z.to_nat i = Some (Str x) ->
  advance (pre ++ i :: p) (length pre) (rlp_encode (Lst children)) = Some (inr (x, (length pre + 1)%nat)).
Proof.
  intros Hok Hl Hx. unfold advance. rewrite rlp_count_list, Hl by done. cbn [Nat.eqb].
  rewrite (proj2 (Nat.eqb_neq _ _)) by (rewrite length_app; cbn; lia).
  rewrite list_lookup_middle by done. cbn. by rewrite (get_vec_str _ _ _ Hok Hx).
Qed.

Lemma verify_path p stack v : trie_path p stack v ->
  forall pre n rest, stack = n :: rest -> Forall item_ok stack -> Forall is_nibble p ->
  Forall (fun n => (32 <= length (rlp_encode n))%nat) stack ->
  _verify_trie_proof (keccak256 (rlp_encode n)) (pre ++ p) (map rlp_encode stack) (length pre) = Some v.
Proof.
  induction 1 as [p v | children v Hl Hv | children i p n' stack v Hl Hi Hpath IH | q p n' stack v Hpath IH];
    intros pre n rest Hst Hok Hnib Hlen; injection Hst as <- <-;
    apply list.Forall_cons in Hok as [Hok0 Hok]; apply list.Forall_cons in Hlen as [Hlen0 Hlen];
    cbn [map]; rewrite verify_cons, node_matches_hashed by done.
  - rewrite <- (app_nil_r p) at 1. by rewrite advance_compact.
  - unfold advance. rewrite rlp_count_list, Hl, app_nil_r by done. cbn [Nat.eqb].
    by rewrite Nat.eqb_refl, (get_vec_str _ _ _ Hok0 Hv).
  - apply list.Forall_cons in Hnib as [_ Hnib]. pose proof (Forall_inv Hlen) as Hn'.
    rewrite node_ref_hashed in Hi by exact Hn'. rewrite (advance_branch _ _ _ _ _ Hok0 Hl Hi).
    replace (pre ++ i :: p) with ((pre ++ [i]) ++ p) by (by rewrite <- app_assoc).
    replace (length pre + 1)%nat with (length (pre ++ [i])) by (by rewrite length_app). by eapply IH.
  - apply list.Forall_app in Hnib as [Hq Hnib]. pose proof (Forall_inv Hlen) as Hn'.
    rewrite node_ref_hashed in Hok0 |- * by exact Hn'. rewrite advance_compact by done.
    rewrite app_assoc, <- length_app. by eapply IH.
Qed.

Lemma nibbles_ok bs : bytes_ok bs -> Forall is_nibble (nibbles bs).
Proof.
  induction 1 as [|b bs Hb Hbs IH]; cbn [nibbles map concat]; [constructor|]. unfold is_byte in Hb.
  repeat constructor; unfold is_nibble; [apply Z.div_pos; lia | apply Z.div_lt_upper_bound; lia
    | apply Z.mod_pos_bound; lia | apply Z.mod_pos_bound; lia | exact IH].
Qed.

End TrieLemmas.

(** ** The consensus encodings

    The RLP lists of the Ethereum specification that logs, receipts and
    headers are encoded as. *)

Definition log_item (l : LogEntry) : item := Lst [Str (address l); Lst (map Str (topics l)); Str (data l)].

Definition receipt_item (r : Receipt) : item :=
  Lst [Str (if status r then [1] else []); Str (be_min (gas_used r)); Str (log_bloom r); Lst (map log_item (logs r))].

Definition header_item (h : BlockHeader) : item :=
  Lst (header_fields h ++ [Str (mix_hash h); Str (nonce h); Str (be_min (base_fee_per_gas h))]).

(** The header whose hash is sealed by the proof of work. *)
Definition seal_item (h : BlockHeader) : item := Lst (header_fields h ++ [Str (be_min (base_fee_per_gas h))]).

Definition log_ok (l : LogEntry) : Prop :=
  length (address l) = 20%nat /\ Forall (fun t => length t = 32%nat) (topics l).

Definition receipt_ok (r : Receipt) : Prop :=
  0 <= gas_used r < 2 ^ 256 /\ length (log_bloom r) = 256%nat /\ Forall log_ok (logs r) /\ item_ok (receipt_item r).

Definition header_ok (h : BlockHeader) : Prop :=
  Forall (fun bs => length bs = 32%nat)
    [parent_hash h; uncles_hash h; state_root h; transactions_root h; receipts_root h; mix_hash h] /\
  length (author h) = 20%nat /\ length (bloom h) = 256%nat /\ length (nonce h) = 8%nat /\
  Forall (fun n => 0 <= n < 2 ^ 256) [difficulty h; gas_limit h; header_gas_used h] /\
  Forall (fun n => 0 <= n < 2 ^ 64) [number h; timestamp h; base_fee_per_gas h] /\ item_ok (header_item h).

(** The two hashes of a decoded header are those of its encodings. *)
Definition hashed `{RlpLib, Keccak} (h : BlockHeader) : Prop :=
  hash h = keccak256 (rlp_encode (header_item h)) /\ partial_hash h = keccak256 (stream_rlp true h).

Section Consensus.
Context {RL : RlpLib} {RLok : RlpOk} {KC : Keccak}.

Lemma fixed_ok n bs : length bs = n -> fixed n bs = Some bs.
Proof. intros <-. unfold fixed. by rewrite Nat.eqb_refl. Qed.

Lemma be_min_head n b bs : be_min n = b :: bs -> 0 <= n -> b <> 0.
Proof.
  intros H Hn Hb. subst b. pose proof (be_value_min n Hn) as Hv. unfold be_min in H. unfold be_value in Hv.
  destruct (Z.eqb_spec n 0) as [->|Hne]; [done|].
  assert (Hl : length (be_min n) = Reference.byte_len n)
    by (unfold be_min; rewrite (proj2 (Z.eqb_neq _ _) Hne), length_reverse; apply length_le_bytes).
  unfold be_min in Hv, Hl. rewrite (proj2 (Z.eqb_neq _ _) Hne), H in Hv, Hl.
  rewrite reverse_cons in Hv. apply (f_equal reverse) in H. rewrite reverse_involutive, reverse_cons in H.
  assert (Hok : bytes_ok (reverse bs)).
  { pose proof (le_bytes_ok (Reference.byte_len n) n) as Hb. rewrite H in Hb. by apply list.Forall_app in Hb as [Hb _]. }
  assert (Hz : le_value (reverse bs ++ [0]) = le_value (reverse bs)).
  { clear. induction (reverse bs) as [|x l IH]; [done|]. cbn. by rewrite IH. }
  rewrite Hz in Hv. pose proof (le_value_bound _ Hok) as Hlt. rewrite Hv, length_reverse in Hlt. cbn [length] in Hl.
  unfold Reference.byte_len in Hl. pose proof (Z.log2_spec n ltac:(lia)) as [Hlog _].
  assert (Hlb : Z.of_nat (length bs) * 8 <= Z.log2 n).
  { pose proof (Z.log2_nonneg n). pose proof (Z.div_mod (Z.log2 n + 8) 8). pose proof (Z.mod_pos_bound (Z.log2 n + 8) 8). lia. }
  change 256 with (2 ^ 8) in Hlt. rewrite <- Z.pow_mul_r in Hlt by lia.
  assert (2 ^ (8 * Z.of_nat (length bs)) <= 2 ^ Z.log2 n) by (apply Z.pow_le_mono_r; lia). lia.
Qed.

Lemma length_be_min_le n k : 0 <= n < 256 ^ Z.of_nat k -> (length (be_min n) <= k)%nat.
Proof.
  intros [Hn Hlt]. unfold be_min. destruct (Z.eqb_spec n 0) as [->|Hne]; [cbn; lia|].
  rewrite length_reverse, length_le_bytes. unfold Reference.byte_len. pose proof (Z.log2_nonneg n).
  change 256 with (2 ^ 8) in Hlt. rewrite <- Z.pow_mul_r in Hlt by lia.
  assert (Z.log2 n < 8 * Z.of_nat k) by (apply Z.log2_lt_pow2; lia).
  assert ((Z.log2 n + 8) / 8 < Z.of_nat k + 1) by (apply Z.div_lt_upper_bound; lia). lia.
Qed.

Lemma uint_be_min k n : 0 <= n < 256 ^ Z.of_nat k -> uint k (be_min n) = Some n.
Proof.
  intros Hn. pose proof (length_be_min_le n k Hn) as Hl. pose proof (be_value_min n (proj1 Hn)) as Hv.
  unfold uint. destruct (be_min n) as [|b bs] eqn:E; [by rewrite <- Hv|].
  rewrite (proj2 (Z.eqb_neq b 0)) by (eapply be_min_head; [exact E | lia]).
  rewrite (proj2 (Nat.ltb_ge _ _)) by exact Hl. by rewrite Hv.
Qed.

Lemma rlp_items_list items : item_ok (Lst items) -> rlp_items (rlp_encode (Lst items)) = Some (map rlp_encode items).
Proof.
  intros Hok. unfold rlp_items. rewrite rlp_count_list by done. apply mapM_Some. apply Forall2_same_length_lookup.
  split; [by rewrite length_seq, length_map|]. intros i x y Hx Hy. apply lookup_seq in Hx as [-> Hi]. cbn.
  rewrite rlp_at_list by done. rewrite <- Hy. unfold map. by rewrite <- list_lookup_fmap.
Qed.

(** A list of items each of which decodes. *)
Lemma mapM_encoded {A} (f : list Z -> option A) (g : A -> item) l :
  (forall a, a ∈ l -> f (rlp_encode (g a)) = Some a) -> mapM f (map rlp_encode (map g l)) = Some l.
Proof.
  intros H. apply mapM_Some. rewrite map_map. induction l as [|a l IH]; [constructor|]. cbn [map]. constructor.
  - apply H. by left.
  - apply IH. intros b Hb. apply H. by right.
Qed.

Lemma decode_log_item l : log_ok l -> item_ok (log_item l) -> decode_log (rlp_encode (log_item l)) = Some l.
Proof.
  intros [Ha Ht] Hok. unfold decode_log, log_item in *. rewrite (get_vec_str _ 0 _ Hok eq_refl). cbn.
  rewrite fixed_ok by done. cbn. rewrite rlp_at_list by done. cbn.
  assert (Hok1 : item_ok (Lst (map Str (topics l)))) by (by eapply item_ok_lookup with (pos := 1%nat), Hok).
  rewrite rlp_items_list by done. cbn. rewrite mapM_encoded.
  - cbn. rewrite (get_vec_str _ 2 _ Hok eq_refl). cbn. by destruct l.
  - intros t Hin. rewrite rlp_data_str by (eapply item_ok_in; [|exact Hok1]; by apply list_elem_of_fmap_2).
    cbn. apply fixed_ok. rewrite list.Forall_forall in Ht. auto.
Qed.

Lemma decode_receipt_item r : receipt_ok r -> decode_receipt (rlp_encode (receipt_item r)) = Some r.
Proof.
  intros (Hg & Hb & Hl & Hok). unfold decode_receipt. destruct (rlp_head_list _ Hok) as (b & t & Hh & Hge).
  fold (receipt_item r) in Hh. rewrite Hh, (proj2 (Z.leb_gt _ _)) by lia. rewrite <- Hh.
  unfold decode_derived_receipt, receipt_item in *.
  rewrite (get_vec_str _ 0 _ Hok eq_refl), (get_vec_str _ 1 _ Hok eq_refl), (get_vec_str _ 2 _ Hok eq_refl). cbn.
  replace (uint 1 (if status r then [1] else [])) with (Some (if status r then 1 else 0)) by (by destruct (status r)).
  cbn. rewrite uint_be_min by exact Hg. cbn. rewrite fixed_ok by done. cbn. rewrite rlp_at_list by done. cbn.
  assert (Hok3 : item_ok (Lst (map log_item (logs r)))) by (by eapply item_ok_lookup with (pos := 3%nat), Hok).
  rewrite rlp_items_list by done. cbn. rewrite mapM_encoded; [by destruct r as [[] ? ? ?]|].
  intros l Hin. rewrite list.Forall_forall in Hl. apply decode_log_item; [auto|].
  eapply item_ok_in; [|exact Hok3]. by apply list_elem_of_fmap_2.
Qed.

(** The hash of a decoded header is the hash of its encoding. *)
Lemma decode_header_item h : header_ok h -> hashed h -> decode_header (rlp_encode (header_item h)) = Some h.
Proof.
  intros (H32 & Ha & Hb & Hn & Hu & H64 & Hok) [Hhash Hpart]. unfold decode_header.
  pose proof (fun pos bs => get_vec_str _ pos bs Hok) as Hget. fold (header_item h) in Hget.
  repeat match goal with
  | H : Forall _ (_ :: _) |- _ => apply list.Forall_cons in H as [? H]
  end.
  repeat (erewrite Hget by reflexivity; cbn [mbind option_bind];
    first [rewrite fixed_ok by done | rewrite uint_be_min by assumption | idtac]; cbn [mbind option_bind]).
  rewrite <- Hhash. destruct h. cbn [hash partial_hash] in *. unfold set_partial_hash. cbn. f_equal. rewrite Hpart. done.
Qed.

Lemma decode_header_hash d h : decode_header d = Some h -> hash h = keccak256 d.
Proof.
  unfold decode_header. intros Hd. repeat match type of Hd with (mbind _ ?o) = Some _ =>
    destruct o; cbn [mbind option_bind] in Hd; [|done] end. by injection Hd as <-.
Qed.

End Consensus.

(** ** Verification *)

Section Verification.
Context {RL : RlpLib} {KC : Keccak} (env : Env) (self : EthProver).

(** What an accepting call has checked. *)
Lemma verify_log_entry_inv li le ri rd hd proof skip r :
  verify_log_entry env self li le ri rd hd proof skip = Some r -> r <> Value false ->
  exists log receipt header,
    decode_log le = Some log /\ decode_receipt rd = Some receipt /\ decode_header hd = Some header /\
    logs receipt !! as_usize li = Some log /\
    verify_trie_proof (receipts_root header) (rlp_uint ri) proof = Some rd /\
    r = if skip then Value true else BlockHashSafe (bridge_smart_contract self) (number header) (hash header).
Proof.
  unfold verify_log_entry, guard_bool. intros H Hr.
  destruct (negb (is_paused _ _ _)); [|done]. cbn in H.
  destruct (decode_log le) as [log|]; [|done]. cbn in H.
  destruct (decode_receipt rd) as [receipt|]; [|done]. cbn in H.
  destruct (decode_header hd) as [header|]; [|done]. cbn in H.
  case_bool_decide as Hlog; [|done]. cbn in H.
  destruct (verify_trie_proof _ _ _) as [v|] eqn:Hv; [|done]. cbn in H.
  case_bool_decide as Heq; cbn in H; [|by simplify_eq]. subst v.
  exists log, receipt, header. repeat (split; [done|]). by destruct skip; cbn in H; simplify_eq.
Qed.

Lemma verify_log_entry_accepts li le ri rd hd proof skip log receipt header :
  is_paused env self PAUSE_VERIFY = false ->
  decode_log le = Some log -> decode_receipt rd = Some receipt -> decode_header hd = Some header ->
  logs receipt !! as_usize li = Some log ->
  verify_trie_proof (receipts_root header) (rlp_uint ri) proof = Some rd ->
  verify_log_entry env self li le ri rd hd proof skip =
  Some (if skip then Value true else BlockHashSafe (bridge_smart_contract self) (number header) (hash header)).
Proof.
  intros Hp Hl Hr Hh Hlog Hv. unfold verify_log_entry. rewrite Hp, Hl, Hr, Hh. cbn.
  rewrite bool_decide_true by exact Hlog. cbn. rewrite Hv. cbn. rewrite bool_decide_true by done. by destruct skip.
Qed.

Lemma verify_trie_path {RLok : RlpOk} key n stack v :
  trie_path (nibbles key) (n :: stack) v -> bytes_ok key -> Forall item_ok (n :: stack) -> (32 <= length v)%nat ->
  verify_trie_proof (keccak256 (rlp_encode n)) key (map rlp_encode (n :: stack)) = Some v.
Proof.
  intros Hpath Hkey Hok Hv. eapply (verify_path _ _ _ Hpath []); eauto using nibbles_ok, path_nodes_hashed.
Qed.

(** The index of the log is taken modulo 2^32. *)
Lemma verify_log_entry_truncates li le ri rd hd proof skip :
  verify_log_entry env self (li + 2 ^ 32) le ri rd hd proof skip = verify_log_entry env self li le ri rd hd proof skip.
Proof.
  unfold verify_log_entry, as_usize. by replace (li + 2 ^ 32) with (li + 1 * 2 ^ 32) by lia; rewrite Z.mod_add by lia.
Qed.

(** C24: The prover cannot be made to accept two stories about one receipt.
    If two calls of [verify_log_entry] for the same header and receipt index
    are accepted, with whatever logs and proofs, and no node of one proof
    has the hash of a different node of the other, then both carry the same
    receipt and the same proof, and where they name the same log index
    (modulo 2^32) the log entries decode to the same log. *)
Theorem verify_log_entry_binding ri hd li1 le1 rd1 p1 skip1 r1 li2 le2 rd2 p2 skip2 r2 :
  verify_log_entry env self li1 le1 ri rd1 hd p1 skip1 = Some r1 -> r1 <> Value false ->
  verify_log_entry env self li2 le2 ri rd2 hd p2 skip2 = Some r2 -> r2 <> Value false ->
  nodes_distinct p1 p2 ->
  rd1 = rd2 /\ p1 = p2 /\ (as_usize li1 = as_usize li2 -> decode_log le1 = decode_log le2).
Proof.
  intros H1 Hr1 H2 Hr2 Hd.
  apply verify_log_entry_inv in H1 as (log1 & rc1 & h1 & Hl1 & Hd1 & Hh1 & Hi1 & Hv1 & _); [|done].
  apply verify_log_entry_inv in H2 as (log2 & rc2 & h2 & Hl2 & Hd2 & Hh2 & Hi2 & Hv2 & _); [|done].
  rewrite Hh1 in Hh2. injection Hh2 as <-.
  destruct (verify_unique _ _ _ _ _ _ _ Hd Hv1 Hv2) as [<- <-].
  rewrite Hd1 in Hd2. injection Hd2 as <-. repeat (split; [done|]). intros Heq.
  rewrite Heq in Hi1. congruence.
Qed.

End Verification.

Module Witness.
Import RlpRef.

(** A toy hash: the bytes as a number to base 257, in 32 bytes. *)
Definition toy_hash (bs : list Z) : list Z := le_bytes 32 (foldl (fun h b => h * 257 + b + 1) 0 bs).

#[export] Instance toy_keccak : Keccak := {|
  keccak256 := toy_hash;
  keccak256_length bs := length_le_bytes 32 _;
  keccak256_bytes bs := le_bytes_ok 32 _
|}.

Definition log0 : item := Lst [Str (replicate 20 7); Lst [Str (replicate 32 9)]; Str [1; 2; 3]].
Definition receipt0 : item := Lst [Str [1]; Str [82; 8]; Str (replicate 256 0); Lst [log0]].
Definition leaf0 : item := Lst [Str (compact true (nibbles (rlp_uint 0))); Str (rlp_encode receipt0)].

Definition header_of (root : list Z) : item :=
  Lst [Str (replicate 32 1); Str (replicate 32 2); Str (replicate 20 3); Str (replicate 32 4); Str (replicate 32 5);
       Str root; Str (replicate 256 0); Str [7]; Str [100]; Str [8]; Str [6]; Str [50]; Str []; Str (replicate 32 6);
       Str (replicate 8 0); Str [7]].

Definition header0 : item := header_of (keccak256 (rlp_encode leaf0)).
Definition prover0 : EthProver := {| bridge_smart_contract := "client"; paused := 0 |}.
Definition env0 : Env := {| current_account_id := "prover"; predecessor_account_id := "user" |}.

Lemma verify_log_entry_binding_witness :
  verify_log_entry env0 prover0 0 (rlp_encode log0) 0 (rlp_encode receipt0) (rlp_encode header0) [rlp_encode leaf0] true
    = Some (Value true) /\
  rlp_encode receipt0 = rlp_encode receipt0 /\ [rlp_encode leaf0] = [rlp_encode leaf0] /\
  (as_usize 0 = as_usize (2 ^ 32) -> decode_log (rlp_encode log0) = decode_log (rlp_encode log0)).
Proof.
  split; [vm_compute; reflexivity|].
  apply (verify_log_entry_binding env0 prover0 0 (rlp_encode header0) 0 (rlp_encode log0) (rlp_encode receipt0)
           [rlp_encode leaf0] true (Value true) (2 ^ 32) (rlp_encode log0) (rlp_encode receipt0) [rlp_encode leaf0]
           false (BlockHashSafe "client" 100 (keccak256 (rlp_encode header0)))); try discriminate; [vm_compute; reflexivity..|].
  intros n1 n2 H1 H2 _. apply list_elem_of_singleton in H1 as ->, H2 as ->. reflexivity.
Defined.

End Witness.
