(* ===== verification/EthClient.v ===== *)
(** * The Ethereum light client on NEAR (contracts/near/eth-client/src/lib.rs)

    [EthClient] of eth-client/src/lib.rs: the contract the Ethereum-to-NEAR
    relay feeds and the prover asks for block hashes.  A panic is [Throw]
    with its message; the state of a call that panics is dropped.  The
    proof-of-work function (the ethash crate) and the host's [sha256] are
    parameters.  The invariant [client_inv] ties the canonical chain to the
    parent links of the retained headers; the properties are the fork choice,
    the canonical chain, the garbage collection and what a confirmed hash
    means. *)

From S2P Require Import Prelude Interfaces Rlp EthProver.

(** ** Parameters *)

(** The functions of the ethash crate.  The node lookup that
    [hashimoto_with_hasher] is given counts its calls: it takes and returns
    the count. *)
Class Ethash := {
  get_full_size : Z -> Z;
  cross_boundary : Z -> Z;
  hashimoto_with_hasher : list Z -> list Z -> Z -> (Z -> nat -> outcome (list Z * nat)) -> nat ->
    outcome (list Z * list Z * nat)
}.

(** The host function [env::sha256]. *)
Class Sha256 := { near_sha256 : list Z -> list Z }.

(** ** Panics and checked arithmetic (overflow-checks = true) *)

Definition expect {A} (msg : string) (o : option A) : outcome A :=
  match o with Some a => Ret a | None => Throw (Error msg) end.

Definition assert_ (msg : string) (b : bool) : outcome unit := if b then Ret tt else Throw (Error msg).

Definition unwrap {A} (o : option A) : outcome A := expect "called `Option::unwrap()` on a `None` value" o.

Definition checked (w z : Z) : outcome Z := _ ← assert_ "arithmetic overflow" ((0 <=? z) && (z <? 2 ^ w)); Ret z.

Definition add_u64 (a b : Z) : outcome Z := checked 64 (a + b).
Definition sub_u64 (a b : Z) : outcome Z := checked 64 (a - b).
Definition add_u256 (a b : Z) : outcome Z := checked 256 (a + b).
Definition mul_u256 (a b : Z) : outcome Z := checked 256 (a * b).

(** [a && b]: the right side is evaluated only when the left one is true. *)
Definition and_then (a : outcome bool) (b : outcome bool) : outcome bool :=
  x ← a; if x : bool then b else Ret false.

(** ** [DoubleNodeWithMerkleProof] *)

Record DoubleNodeWithMerkleProof := { dag_nodes : list (list Z); proof : list (list Z) }.

Section Merkle.
Context {SH : Sha256}.

Definition truncate_to_h128 (arr : list Z) : list Z := drop 16 arr.

Definition hash_h128 (l r : list Z) : list Z :=
  truncate_to_h128 (near_sha256 (replicate 16 0 ++ l ++ replicate 16 0 ++ r)%list).

(** The loop over the proof; [index >> i] panics from 64 on. *)
Fixpoint merkle_fold (index : Z) (i : Z) (leaf : list Z) (proof : list (list Z)) : outcome (list Z) :=
  match proof with
  | [] => Ret leaf
  | p :: proof' =>
      _ ← assert_ "attempt to shift right with overflow" (i <? 64);
      merkle_fold index (i + 1)
        (if Z.shiftr index i mod 2 =? 0 then hash_h128 leaf p else hash_h128 p leaf) proof'
  end.

Definition apply_merkle_proof (self : DoubleNodeWithMerkleProof) (index : Z) : outcome (list Z) :=
  n0 ← expect "index out of bounds" (dag_nodes self !! 0%nat);
  n1 ← expect "index out of bounds" (dag_nodes self !! 1%nat);
  merkle_fold index 0 (truncate_to_h128 (near_sha256 (n0 ++ n1)%list)) (proof self).

End Merkle.

(** ** State *)

Record HeaderInfo := { total_difficulty : Z; info_parent_hash : list Z; info_number : Z }.

(** [HeaderInfo::default()] *)
Definition default_info : HeaderInfo := {| total_difficulty := 0; info_parent_hash := replicate 32 0; info_number := 0 |}.

Definition PAUSE_ADD_BLOCK_HEADER : Z := 1.

Record EthClient := mkClient {
  validate_ethash : bool;
  dags_start_epoch : Z;
  dags_merkle_roots : list (list Z);
  best_header_hash : list Z;
  hashes_gc_threshold : Z;
  finalized_gc_threshold : Z;
  num_confirmations : Z;
  canonical_header_hashes : gmap Z (list Z);
  all_header_hashes : gmap Z (list (list Z));
  headers : gmap (list Z) BlockHeader;
  infos : gmap (list Z) HeaderInfo;
  trusted_signer : option string;
  client_paused : Z
}.

(** The parts of the state the operations replace. *)
Definition set_chain (best : list Z) (canonical : gmap Z (list Z)) (s : EthClient) : EthClient :=
  mkClient (validate_ethash s) (dags_start_epoch s) (dags_merkle_roots s) best (hashes_gc_threshold s)
    (finalized_gc_threshold s) (num_confirmations s) canonical (all_header_hashes s) (headers s) (infos s)
    (trusted_signer s) (client_paused s).

Definition set_known (all : gmap Z (list (list Z))) (hs : gmap (list Z) BlockHeader) (inf : gmap (list Z) HeaderInfo)
    (s : EthClient) : EthClient :=
  mkClient (validate_ethash s) (dags_start_epoch s) (dags_merkle_roots s) (best_header_hash s) (hashes_gc_threshold s)
    (finalized_gc_threshold s) (num_confirmations s) (canonical_header_hashes s) all hs inf (trusted_signer s)
    (client_paused s).

Definition set_admin (signer : option string) (paused : Z) (s : EthClient) : EthClient :=
  mkClient (validate_ethash s) (dags_start_epoch s) (dags_merkle_roots s) (best_header_hash s) (hashes_gc_threshold s)
    (finalized_gc_threshold s) (num_confirmations s) (canonical_header_hashes s) (all_header_hashes s) (headers s) (infos s)
    signer paused.

(** [env::current_account_id()], [env::predecessor_account_id()] and
    [env::signer_account_id()]. *)
Record ClientEnv := { client_env : Env; signer_account_id : string }.

(** ** Views *)

Definition dag_merkle_root (self : EthClient) (epoch : Z) : outcome (list Z) :=
  i ← sub_u64 epoch (dags_start_epoch self);
  expect "index out of bounds" (dags_merkle_roots self !! as_usize i).

Definition last_block_number (self : EthClient) : Z :=
  info_number (default default_info (infos self !! best_header_hash self)).

Definition block_hash (self : EthClient) (index : Z) : option (list Z) := canonical_header_hashes self !! index.

Definition known_hashes (self : EthClient) (index : Z) : list (list Z) := default [] (all_header_hashes self !! index).

Definition block_hash_safe (self : EthClient) (index : Z) : outcome (option (list Z)) :=
  match block_hash self index with
  | None => Ret None
  | Some header_hash =>
      confirmed ← add_u64 index (num_confirmations self);
      Ret (if last_block_number self <? confirmed then None else Some header_hash)
  end.

Definition get_trusted_signer (self : EthClient) : option string := trusted_signer self.

(** ** Recording a header *)

(** [for number in first..=last { canonical.remove(&number) }] *)
Definition remove_range (first last : Z) (c : gmap Z (list Z)) : gmap Z (list Z) :=
  foldl (fun c n => delete n c) c (seqZ first (last - first + 1)).

(** The loop that replaces past hashes; [n] is [number]. *)
Fixpoint replace_past (inf : gmap (list Z) HeaderInfo) (n : nat) (current : list Z) (c : gmap Z (list Z)) : gmap Z (list Z) :=
  let prev_value := c !! Z.of_nat n in
  let c' := <[Z.of_nat n := current]> c in
  match n with
  | O => c'
  | S n' =>
      if decide (prev_value = Some current) then c'
      else match inf !! current with
           | Some info => replace_past inf n' (info_parent_hash info) c'
           | None => c'
           end
  end.

(** The loop of [gc_canonical_chain]; [n] is [header_number]. *)
Fixpoint gc_canonical_chain (n : nat) (c : gmap Z (list Z)) : gmap Z (list Z) :=
  match c !! Z.of_nat n with
  | Some _ =>
      let c' := delete (Z.of_nat n) c in
      match n with O => c' | S n' => gc_canonical_chain n' c' end
  | None => c
  end.

(** The loop of [gc_headers] on the three maps. *)
Fixpoint gc_headers (n : nat) (s : EthClient) : EthClient :=
  match all_header_hashes s !! Z.of_nat n with
  | Some all_headers =>
      let s' := set_known (delete (Z.of_nat n) (all_header_hashes s))
                  (foldl (fun m h => delete h m) (headers s) all_headers)
                  (foldl (fun m h => delete h m) (infos s) all_headers) s in
      match n with O => s' | S n' => gc_headers n' s' end
  | None => s
  end.

(** The new header is at least as heavy as the best one; a tie is decided
    by the parity of its difficulty. *)
Definition heavier (info best_info : HeaderInfo) (header : BlockHeader) : bool :=
  (total_difficulty best_info <? total_difficulty info)
  || ((total_difficulty info =? total_difficulty best_info) && (difficulty header mod 2 =? 0)).

(** The block under "Canonical chain needs to be updated". *)
Definition update_canonical (self : EthClient) (header : BlockHeader) (info best_info : HeaderInfo) : outcome EthClient :=
  let header_number := number header in
  let canonical := canonical_header_hashes self in
  let canonical := if info_number info <? info_number best_info
                   then remove_range (info_number info + 1) (info_number best_info) canonical else canonical in
  let canonical := <[header_number := hash header]> canonical in
  number' ← sub_u64 header_number 1;
  let canonical := replace_past (infos self) (Z.to_nat number') (info_parent_hash info) canonical in
  let canonical := if hashes_gc_threshold self <=? header_number
                   then gc_canonical_chain (Z.to_nat (header_number - hashes_gc_threshold self)) canonical else canonical in
  let self := set_chain (hash header) canonical self in
  Ret (if finalized_gc_threshold self <=? header_number
       then gc_headers (Z.to_nat (header_number - finalized_gc_threshold self)) self else self).

Definition record_header (self : EthClient) (header : BlockHeader) : outcome EthClient :=
  best_info ← unwrap (infos self !! best_header_hash self);
  let header_hash := hash header in
  let header_number := number header in
  horizon ← add_u64 header_number (finalized_gc_threshold self);
  _ ← assert_ "Header is too old to have a chance to appear on the canonical chain." (info_number best_info <=? horizon);
  parent_info ← expect "Header has unknown parent. Parent should be submitted first." (infos self !! parent_hash header);
  let all_hashes := default [] (all_header_hashes self !! header_number) in
  _ ← assert_ "Header is already known." (negb (bool_decide (header_hash ∈ all_hashes)));
  total ← add_u256 (total_difficulty parent_info) (difficulty header);
  let info := {| total_difficulty := total; info_parent_hash := parent_hash header; info_number := header_number |} in
  let self := set_known (<[header_number := (all_hashes ++ [header_hash])%list]> (all_header_hashes self))
                (<[header_hash := header]> (headers self)) (<[header_hash := info]> (infos self)) self in
  if heavier info best_info header then update_canonical self header info best_info else Ret self.

(** ** Verification of a header *)

Section Verification.
Context {RL : RlpLib} {KC : Keccak} {SH : Sha256} {EH : Ethash}.

(** The lookup that is handed to [hashimoto_with_hasher]: call [idx] reads
    one half of node [idx / 2]. *)
Definition dag_lookup (self : EthClient) (merkle_root : list Z) (nodes : list DoubleNodeWithMerkleProof) (offset : Z)
    (idx : nat) : outcome (list Z * nat) :=
  node ← expect "index out of bounds" (nodes !! (idx / 2)%nat);
  _ ← (if Nat.eqb (idx mod 2) 0 && validate_ethash self then
         root ← apply_merkle_proof node (offset / 2);
         assert_ "assertion failed: `(left == right)`" (bool_decide (merkle_root = root))
       else Ret tt);
  data ← expect "index out of bounds" (dag_nodes node !! (idx mod 2)%nat);
  Ret (reverse (take 32 data) ++ reverse (drop 32 data), S idx)%list.

Definition hashimoto_merkle (self : EthClient) (header_hash nonce : list Z) (header_number : Z)
    (nodes : list DoubleNodeWithMerkleProof) : outcome (list Z * list Z) :=
  merkle_root ← dag_merkle_root self (header_number mod 2 ^ 32 / 30000);
  '(hashes, _) ← hashimoto_with_hasher header_hash nonce (get_full_size (header_number / 30000))
                 (dag_lookup self merkle_root nodes) 0;
  Ret hashes.

Definition verify_header (self : EthClient) (header prev : BlockHeader) (nodes : list DoubleNodeWithMerkleProof) : outcome bool :=
  '(_, result) ← hashimoto_merkle self (partial_hash header) (nonce header) (number header) nodes;
  and_then (Ret (be_value result <? cross_boundary (difficulty header)))
  (and_then (if validate_ethash self then
               and_then (hi ← mul_u256 (difficulty prev) 101; Ret (difficulty header <? hi / 100))
                        (lo ← mul_u256 (difficulty prev) 99; Ret (lo / 100 <? difficulty header))
             else Ret true)
  (and_then (Ret (header_gas_used header <=? gas_limit header))
  (and_then (hi ← mul_u256 (gas_limit prev) 1025; Ret (gas_limit header <? hi / 1024))
  (and_then (lo ← mul_u256 (gas_limit prev) 1023; Ret (lo / 1024 <? gas_limit header))
  (and_then (Ret (5000 <=? gas_limit header))
  (and_then (Ret (timestamp prev <? timestamp header))
  (and_then (next ← add_u64 (number prev) 1; Ret (number header =? next))
  (and_then (Ret (bool_decide (parent_hash header = hash prev)))
            (Ret (length (extra_data header) <=? 32)%nat))))))))).

(** ** The contract's methods *)

Definition init (state : option EthClient) (validate_ethash : bool) (dags_start_epoch : Z) (dags_merkle_roots : list (list Z))
    (first_header : list Z) (hashes_gc_threshold finalized_gc_threshold num_confirmations : Z)
    (trusted_signer : option string) : outcome EthClient :=
  _ ← assert_ "Already initialized" (bool_decide (state = None));
  header ← expect "called `Result::unwrap()` on an `Err` value" (decode_header first_header);
  Ret (mkClient validate_ethash dags_start_epoch dags_merkle_roots (hash header) hashes_gc_threshold finalized_gc_threshold
    num_confirmations {[number header := hash header]} {[number header := [hash header]]} {[hash header := header]}
    {[hash header := {| total_difficulty := 0; info_parent_hash := replicate 32 0; info_number := number header |}]}
    trusted_signer 0).

Definition client_is_paused (env : ClientEnv) (self : EthClient) (flag : Z) : bool :=
  negb (Z.land (client_paused self) flag =? 0) && negb (is_owner (client_env env)).

(** Who may add the header, and whether it is valid. *)
Definition authorize_header (env : ClientEnv) (self : EthClient) (header : BlockHeader)
    (nodes : list DoubleNodeWithMerkleProof) : outcome unit :=
  match trusted_signer self with
  | Some signer =>
      assert_ "Eth-client is deployed as trust mode, only trusted_signer can add a new header"
        (String.eqb (signer_account_id env) signer)
  | None =>
      prev ← expect "Parent header should be present to add a new header" (headers self !! parent_hash header);
      valid ← verify_header self header prev nodes;
      assert_ "The new header should be valid" valid
  end.

Definition add_block_header (env : ClientEnv) (self : EthClient) (block_header : list Z)
    (nodes : list DoubleNodeWithMerkleProof) : outcome EthClient :=
  _ ← assert_ "assertion failed: !self.is_paused(flag)" (negb (client_is_paused env self PAUSE_ADD_BLOCK_HEADER));
  header ← expect "called `Result::unwrap()` on an `Err` value" (decode_header block_header);
  _ ← authorize_header env self header nodes;
  record_header self header.

Definition assert_self (env : ClientEnv) : outcome unit := assert_ "Method is private" (is_owner (client_env env)).

Definition update_trusted_signer (env : ClientEnv) (self : EthClient) (signer : option string) : outcome EthClient :=
  _ ← assert_self env; Ret (set_admin signer (client_paused self) self).

Definition client_set_paused (env : ClientEnv) (self : EthClient) (paused : Z) : outcome EthClient :=
  _ ← assert_self env; Ret (set_admin (trusted_signer self) paused self).

End Verification.
