(* ===== verification/EthClientInv.v ===== *)
(** * The canonical chain of the Ethereum client

    The invariant of [EthClient]: the retained headers fill an interval of
    numbers and are linked by parent hashes, the best header has the largest
    total difficulty of all retained headers, and the canonical hashes are
    the ancestors of the best header.  Every operation preserves it, so every
    state the contract can reach has it. *)

From S2P Require Import Prelude Interfaces Rlp EthProver EthClient.

(** ** Ancestors *)

(** The header [k] parent links below [h]. *)
Fixpoint ancestor (inf : gmap (list Z) HeaderInfo) (h : list Z) (k : nat) : option (list Z) :=
  match k with
  | O => Some h
  | S k' => i ← inf !! h; ancestor inf (info_parent_hash i) k'
  end.

Lemma ancestor_mono inf inf' h k x : inf ⊆ inf' -> ancestor inf h k = Some x -> ancestor inf' h k = Some x.
Proof.
  intros Hsub. revert h. induction k as [|k IH]; intros h H; [done|]. cbn in *.
  destruct (inf !! h) as [i|] eqn:E; [|done]. rewrite (lookup_weaken _ _ _ _ E Hsub). cbn in *. auto.
Qed.

Lemma ancestor_add inf h j x k : ancestor inf h j = Some x -> ancestor inf h (j + k) = ancestor inf x k.
Proof.
  revert h. induction j as [|j IH]; intros h H; cbn in *; [by simplify_eq|].
  destruct (inf !! h) as [i|]; [|done]. cbn in *. auto.
Qed.

(** ** Lookups in the maps after the loops *)

Lemma remove_range_lookup first last c n :
  remove_range first last c !! n = if decide (first <= n <= last) then None else c !! n.
Proof.
  unfold remove_range.
  assert (forall ns (c : gmap Z (list Z)), foldl (fun c n => delete n c) c ns !! n = if decide (n ∈ ns) then None else c !! n) as Hl.
  { induction ns as [|m ns IH]; intros c0; cbn; [destruct (decide _) as [H|H]; [by apply not_elem_of_nil in H | done]|]. rewrite IH.
    destruct (decide (n ∈ ns)), (decide (n ∈ m :: ns)); try done; [set_solver| |].
    - assert (n = m) as -> by set_solver. apply lookup_delete_eq.
    - apply lookup_delete_ne. set_solver. }
  rewrite Hl. destruct (decide (n ∈ _)) as [H|H], (decide (first <= n <= last)) as [H'|H']; try done;
    rewrite elem_of_seqZ in H; exfalso; lia.
Qed.

Lemma replace_past_above inf n cur c m : Z.of_nat n < m -> replace_past inf n cur c !! m = c !! m.
Proof.
  revert cur c. induction n as [|n IH]; intros cur c Hm; cbn [replace_past].
  - apply lookup_insert_ne. lia.
  - destruct (decide _); [|destruct (inf !! cur)]; rewrite ?IH by lia; apply lookup_insert_ne; lia.
Qed.

(** Up to number [n], a hash at or above [lo] is followed by its ancestors. *)
Definition linked (inf : gmap (list Z) HeaderInfo) (lo n : Z) (c : gmap Z (list Z)) : Prop :=
  forall m x j y, m <= n -> c !! m = Some x -> ancestor inf x j = Some y -> lo <= m - Z.of_nat j ->
    c !! (m - Z.of_nat j) = Some y.

Lemma linked_insert inf lo n m x c : linked inf lo n c -> n < m -> linked inf lo n (<[m := x]> c).
Proof.
  intros Hl Hm m' x' j y Hle. rewrite lookup_insert_ne by lia. intros. rewrite lookup_insert_ne by lia. by apply (Hl m' x').
Qed.

Lemma linked_le inf lo n n' c : linked inf lo n c -> n' <= n -> linked inf lo n' c.
Proof. intros Hl Hle m x j y Hm. apply Hl. lia. Qed.

(** The loop writes the ancestors of the hash it starts from. *)
Lemma replace_past_chain inf lo n cur c k x :
  linked inf lo (Z.of_nat n) c -> (k <= n)%nat -> ancestor inf cur k = Some x -> lo <= Z.of_nat n - Z.of_nat k ->
  replace_past inf n cur c !! (Z.of_nat n - Z.of_nat k) = Some x.
Proof.
  revert cur c k. induction n as [|n IH]; intros cur c k Hl Hk Hx Hlo.
  - assert (k = 0%nat) as -> by lia. cbn in Hx. simplify_eq. cbn [replace_past]. apply lookup_insert_eq.
  - cbn [replace_past]. destruct k as [|k]; [cbn in Hx; simplify_eq|].
    + replace (Z.of_nat (S n) - Z.of_nat 0) with (Z.of_nat (S n)) by lia.
      destruct (decide _); [|destruct (inf !! x)]; rewrite ?replace_past_above by lia; apply lookup_insert_eq.
    + cbn [ancestor] in Hx. destruct (inf !! cur) as [i|] eqn:Ei; [|done]. cbn in Hx. destruct (decide _) as [Heq|_].
      * rewrite lookup_insert_ne by lia. apply (Hl (Z.of_nat (S n)) cur (S k)); [lia | done | | done].
        cbn. by rewrite Ei.
      * replace (Z.of_nat (S n) - Z.of_nat (S k)) with (Z.of_nat n - Z.of_nat k) by lia.
        apply IH; [|lia|done|lia]. apply linked_insert; [|lia]. eapply linked_le; [exact Hl | lia].
Qed.

Lemma gc_canonical_above n c m : Z.of_nat n < m -> gc_canonical_chain n c !! m = c !! m.
Proof.
  revert c. induction n as [|n IH]; intros c Hm; cbn [gc_canonical_chain]; destruct (c !! _); try done.
  - apply lookup_delete_ne. lia.
  - rewrite IH by lia. apply lookup_delete_ne. lia.
Qed.

Lemma gc_canonical_sub n c m x : gc_canonical_chain n c !! m = Some x -> c !! m = Some x.
Proof.
  revert c. induction n as [|n IH]; intros c; cbn [gc_canonical_chain]; destruct (c !! _); try done.
  - by intros [_ ?]%lookup_delete_Some.
  - intros H%IH. by apply lookup_delete_Some in H as [_ ?].
Qed.

Lemma foldl_delete_lookup {A} (hs : list (list Z)) (m : gmap (list Z) A) h :
  foldl (fun m h => delete h m) m hs !! h = if decide (h ∈ hs) then None else m !! h.
Proof.
  revert m. induction hs as [|x hs IH]; intros m; cbn; [destruct (decide _) as [H|H]; [by apply not_elem_of_nil in H | done]|]. rewrite IH.
  destruct (decide (h ∈ hs)), (decide (h ∈ x :: hs)); try done; [set_solver| |].
  - assert (h = x) as -> by set_solver. apply lookup_delete_eq.
  - apply lookup_delete_ne. set_solver.
Qed.

(** The hash is recorded at a number up to [n]. *)
Definition at_or_below (all : gmap Z (list (list Z))) (n : Z) (h : list Z) : Prop :=
  exists m l, m <= n /\ all !! m = Some l /\ h ∈ l.

Lemma at_or_below_none all lo n h :
  (forall m, m <= n -> is_Some (all !! m) <-> lo <= m) -> n < lo -> ~ at_or_below all n h.
Proof. intros Hsp Hlt (m & l & Hm & Hl & _). assert (lo <= m) by (apply Hsp; [done | by rewrite Hl]). lia. Qed.

Lemma at_or_below_step all n l h : all !! n = Some l ->
  at_or_below all n h <-> h ∈ l \/ at_or_below (delete n all) (n - 1) h.
Proof.
  intros Hn. split.
  - intros (m & l' & Hm & Hl & Hh). destruct (decide (m = n)) as [->|Hne]; [left; by simplify_eq|].
    right. exists m, l'. rewrite lookup_delete_ne by done. split; [lia | done].
  - intros [Hh|(m & l' & Hm & Hl & Hh)]; [by exists n, l|]. rewrite lookup_delete_ne in Hl by lia. exists m, l'. split; [lia | done].
Qed.

(** What [gc_headers] leaves of the headers: those above [n]. *)
Record collected (n : Z) (s s' : EthClient) : Prop := {
  col_all m : all_header_hashes s' !! m = if decide (m <= n) then None else all_header_hashes s !! m;
  col_infos h i : infos s' !! h = Some i <-> infos s !! h = Some i /\ ~ at_or_below (all_header_hashes s) n h;
  col_headers h x : headers s' !! h = Some x <-> headers s !! h = Some x /\ ~ at_or_below (all_header_hashes s) n h;
  col_rest : s' = set_known (all_header_hashes s') (headers s') (infos s') s
}.

Lemma collected_none lo n s :
  (forall m, m <= n -> is_Some (all_header_hashes s !! m) <-> lo <= m) -> n < lo -> collected n s s.
Proof.
  intros Hsp Hlt. split; [| | |by destruct s].
  - intros m. destruct (decide (m <= n)) as [Hm|]; [|done]. apply eq_None_not_Some. rewrite Hsp by done. lia.
  - intros h i. pose proof (at_or_below_none _ lo n h Hsp Hlt). naive_solver.
  - intros h i. pose proof (at_or_below_none _ lo n h Hsp Hlt). naive_solver.
Qed.

Lemma collected_level n l s s' : all_header_hashes s !! n = Some l ->
  collected (n - 1) (set_known (delete n (all_header_hashes s)) (foldl (fun m h => delete h m) (headers s) l)
    (foldl (fun m h => delete h m) (infos s) l) s) s' -> collected n s s'.
Proof.
  intros Hl [Ha Hi Hh Hr]. cbn in *. split.
  - intros m. rewrite Ha. destruct (decide (m <= n - 1)), (decide (m <= n)); try done; try lia.
    + assert (m = n) as -> by lia. apply lookup_delete_eq.
    + apply lookup_delete_ne. lia.
  - intros h i. rewrite Hi, foldl_delete_lookup, (at_or_below_step _ _ _ _ Hl). destruct (decide (h ∈ l)); naive_solver.
  - intros h i. rewrite Hh, foldl_delete_lookup, (at_or_below_step _ _ _ _ Hl). destruct (decide (h ∈ l)); naive_solver.
  - rewrite Hr at 1. by destruct s.
Qed.

Lemma gc_headers_spec lo n s :
  0 <= lo -> (forall m, m <= Z.of_nat n -> is_Some (all_header_hashes s !! m) <-> lo <= m) ->
  collected (Z.of_nat n) s (gc_headers n s).
Proof.
  intros H0. revert s. induction n as [|n IH]; intros s Hsp; cbn [gc_headers];
    destruct (all_header_hashes s !! _) as [l|] eqn:El.
  2, 4: (apply (collected_none lo); [done|]; apply Znot_ge_lt; intros Hge;
    destruct (proj2 (Hsp _ (Z.le_refl _)) ltac:(lia)) as [? Hs]; rewrite El in Hs; done).
  - apply (collected_level _ l); [done|]. apply (collected_none lo); [|lia]. intros m Hm. cbn in *.
    rewrite lookup_delete_ne by lia. apply Hsp. lia.
  - apply (collected_level _ l); [done|]. replace (Z.of_nat (S n) - 1) with (Z.of_nat n) by lia. apply IH.
    intros m Hm. cbn [set_known all_header_hashes]. rewrite lookup_delete_ne by lia. apply Hsp. lia.
Qed.

(** ** The invariant *)

Section Invariant.
Context {RL : RlpLib} {KC : Keccak} {SH : Sha256} {EH : Ethash}.
(** The encoded headers that are ever submitted. *)
Context (D : list Z -> Prop).

(** A header with this number and hash was submitted. *)
Definition submitted (n : Z) (h : list Z) : Prop :=
  exists d x, D d /\ decode_header d = Some x /\ hash x = h /\ number x = n.

(** The submitted headers have different hashes. *)
Definition collision_free : Prop := forall d d', D d -> D d' -> keccak256 d = keccak256 d' -> d = d'.

Lemma submitted_unique n n' h : collision_free -> submitted n h -> submitted n' h -> n = n'.
Proof.
  intros Hcf (d & x & HD & Hd & Hh & Hn) (d' & x' & HD' & Hd' & Hh' & Hn'). rewrite <- Hh' in Hh.
  rewrite (decode_header_hash _ _ Hd), (decode_header_hash _ _ Hd') in Hh. apply Hcf in Hh as <-; [congruence | done | done].
Qed.

(** The retained headers have the numbers [lo] to [hi]; the parent of each
    was submitted, unless it is the header the client started from. *)
Record known_inv (lo hi : Z) (s : EthClient) : Prop := {
  ki_lo : 0 <= lo;
  ki_span n : is_Some (all_header_hashes s !! n) <-> lo <= n <= hi;
  ki_known n h : h ∈ known_hashes s n <-> exists i, infos s !! h = Some i /\ info_number i = n;
  ki_header h x : headers s !! h = Some x -> exists i d,
    infos s !! h = Some i /\ number x = info_number i /\ D d /\ decode_header d = Some x /\ hash x = h;
  ki_info h i : infos s !! h = Some i -> is_Some (headers s !! h);
  ki_parent h i : infos s !! h = Some i -> lo < info_number i -> exists p x,
    infos s !! info_parent_hash i = Some p /\ info_number p = info_number i - 1 /\ headers s !! h = Some x /\
    info_parent_hash i = parent_hash x /\ total_difficulty i = total_difficulty p + difficulty x;
  ki_origin h i : infos s !! h = Some i -> submitted (info_number i - 1) (info_parent_hash i) \/
    info_number i = lo /\ forall x, x ∈ known_hashes s lo -> x = h
}.

(** The best header is the heaviest, and the canonical hashes from [lo] on
    are its ancestors. *)
Record chain_inv (lo : Z) (s : EthClient) : Prop := {
  ch_best : exists b, infos s !! best_header_hash s = Some b /\
    forall h i, infos s !! h = Some i -> total_difficulty i <= total_difficulty b;
  ch_above n : last_block_number s < n -> block_hash s n = None;
  ch_canon k h : ancestor (infos s) (best_header_hash s) k = Some h -> lo <= last_block_number s - Z.of_nat k ->
    block_hash s (last_block_number s - Z.of_nat k) = Some h;
  ch_submitted n h : block_hash s n = Some h -> submitted n h
}.

(** The thresholds the client is deployed with. *)
Definition thresholds_ok (s : EthClient) : Prop := 1 <= finalized_gc_threshold s <= hashes_gc_threshold s.

(** Headers that are [finalized_gc_threshold] or more below the best one are
    not retained. *)
Definition recent (lo : Z) (s : EthClient) : Prop := last_block_number s - finalized_gc_threshold s < lo.

Definition client_inv (s : EthClient) : Prop :=
  thresholds_ok s /\ exists lo hi, known_inv lo hi s /\ chain_inv lo s /\ recent lo s.

Lemma known_span lo hi s h i : known_inv lo hi s -> infos s !! h = Some i -> lo <= info_number i <= hi.
Proof.
  intros K Hi. apply (ki_span lo hi s K). assert (h ∈ known_hashes s (info_number i)) as Hh by (apply (ki_known _ _ _ K); eauto).
  unfold known_hashes in Hh. destruct (all_header_hashes s !! _); [done|]. by apply not_elem_of_nil in Hh.
Qed.

Lemma known_submitted lo hi s h i : known_inv lo hi s -> infos s !! h = Some i -> submitted (info_number i) h.
Proof.
  intros K Hi. destruct (ki_info _ _ _ K h i Hi) as [x Hx]. destruct (ki_header _ _ _ K h x Hx) as (i' & d & Ei & Hn & HD & Hd & Hh).
  rewrite Hi in Ei. injection Ei as <-. by exists d, x.
Qed.

Lemma ancestor_exists lo hi s k h i : known_inv lo hi s -> infos s !! h = Some i -> lo <= info_number i - Z.of_nat k ->
  exists x ix, ancestor (infos s) h k = Some x /\ infos s !! x = Some ix /\ info_number ix = info_number i - Z.of_nat k.
Proof.
  intros K. revert h i. induction k as [|k IH]; intros h i Hi Hlo; [exists h, i; repeat split; [done | lia]|].
  destruct (ki_parent _ _ _ K h i Hi ltac:(lia)) as (p & x & Hp & Hn & _).
  destruct (IH _ _ Hp ltac:(lia)) as (y & iy & Hy & Hiy & Hny). exists y, iy. cbn [ancestor]. rewrite Hi. cbn.
  repeat split; [done | done | lia].
Qed.

(** Canonical hashes are followed by their ancestors, also among more
    headers. *)
Lemma canon_linked lo hi s inf n : known_inv lo hi s -> chain_inv lo s -> infos s ⊆ inf ->
  linked inf lo n (canonical_header_hashes s).
Proof.
  intros K C Hsub m x j y _ Hx Hy Hlo. destruct (ch_best _ _ C) as (b & Hb & _).
  assert (last_block_number s = info_number b) as Hlast by (unfold last_block_number; by rewrite Hb).
  assert (m <= last_block_number s) as Hm.
  { apply Z.nlt_ge. intros Hlt. pose proof (ch_above _ _ C m Hlt) as Hno. unfold block_hash in Hno. by rewrite Hx in Hno. }
  set (k := Z.to_nat (last_block_number s - m)). assert (m = last_block_number s - Z.of_nat k) as Hk by lia.
  destruct (ancestor_exists _ _ _ k _ _ K Hb) as (z & iz & Hz & Hiz & Hnz); [lia|].
  pose proof (ch_canon _ _ C k z Hz ltac:(lia)) as Hcz. rewrite <- Hk in Hcz. unfold block_hash in Hcz.
  rewrite Hx in Hcz. injection Hcz as <-.
  destruct (ancestor_exists _ _ _ j _ _ K Hiz) as (y' & _ & Hy' & _); [lia|].
  rewrite (ancestor_mono _ _ _ _ _ Hsub Hy') in Hy. injection Hy as <-.
  rewrite Hk. replace (last_block_number s - Z.of_nat k - Z.of_nat j) with (last_block_number s - Z.of_nat (k + j)) by lia.
  apply (ch_canon _ _ C); [by rewrite (ancestor_add _ _ _ _ _ Hz) | lia].
Qed.

(** *** A header is inserted *)

Definition new_info (header : BlockHeader) (total : Z) : HeaderInfo :=
  {| total_difficulty := total; info_parent_hash := parent_hash header; info_number := number header |}.

(** The state after "Inserted". *)
Definition inserted (s : EthClient) (header : BlockHeader) (total : Z) : EthClient :=
  set_known (<[number header := (known_hashes s (number header) ++ [hash header])%list]> (all_header_hashes s))
    (<[hash header := header]> (headers s)) (<[hash header := new_info header total]> (infos s)) s.

Lemma known_inserted lo hi s header d p :
  known_inv lo hi s -> D d -> decode_header d = Some header -> infos s !! hash header = None ->
  infos s !! parent_hash header = Some p -> number header = info_number p + 1 ->
  known_inv lo (Z.max hi (number header)) (inserted s header (total_difficulty p + difficulty header)).
Proof.
  intros K HD Hd Hfresh Hp Hn. pose proof (known_span _ _ _ _ _ K Hp) as Hsp. split.
  - apply (ki_lo _ _ _ K).
  - intros n. cbn. destruct (decide (n = number header)) as [->|Hne].
    + rewrite lookup_insert_eq. split; [lia | done].
    + rewrite lookup_insert_ne by done. rewrite (ki_span _ _ _ K). lia.
  - intros n h. unfold known_hashes at 1. cbn. destruct (decide (n = number header)) as [->|Hne].
    + rewrite lookup_insert_eq. cbn. rewrite elem_of_app, list_elem_of_singleton, (ki_known _ _ _ K).
      destruct (decide (h = hash header)) as [->|Hneh].
      * rewrite lookup_insert_eq. split; [|auto]. intros _. by exists (new_info header (total_difficulty p + difficulty header)).
      * rewrite lookup_insert_ne by done. naive_solver.
    + rewrite lookup_insert_ne by done. change (default [] (all_header_hashes s !! n)) with (known_hashes s n).
      rewrite (ki_known _ _ _ K). destruct (decide (h = hash header)) as [->|Hneh].
      * rewrite lookup_insert_eq, Hfresh. split; [naive_solver|]. intros (i & [= <-] & Hi). by cbn in Hi.
      * by rewrite lookup_insert_ne.
  - intros h x. cbn. destruct (decide (h = hash header)) as [->|Hne].
    + rewrite !lookup_insert_eq. intros [= <-]. by do 2 eexists.
    + rewrite !lookup_insert_ne by done. apply (ki_header _ _ _ K).
  - intros h i. cbn. destruct (decide (h = hash header)) as [->|Hne]; [by rewrite !lookup_insert_eq|].
    rewrite !lookup_insert_ne by done. apply (ki_info _ _ _ K).
  - intros h i. cbn. destruct (decide (h = hash header)) as [->|Hne].
    + rewrite !lookup_insert_eq. intros [= <-] _. exists p, header. cbn. rewrite lookup_insert_ne by congruence.
      repeat split; [done | lia].
    + rewrite !lookup_insert_ne by done. intros Hi Hlt. destruct (ki_parent _ _ _ K h i Hi Hlt) as (q & x & Hq & Hrest).
      exists q, x. rewrite !lookup_insert_ne by congruence. done.
  - intros h i. cbn. destruct (decide (h = hash header)) as [->|Hne].
    + rewrite lookup_insert_eq. intros [= <-]. left. cbn. replace (number header - 1) with (info_number p) by lia.
      by apply (known_submitted lo hi s).
    + rewrite lookup_insert_ne by done. intros Hi. destruct (ki_origin _ _ _ K h i Hi) as [?|[Hi0 Hroot]]; [by left | right].
      split; [done|]. intros x. unfold known_hashes. cbn. rewrite lookup_insert_ne by lia. apply Hroot.
Qed.

(** *** Headers are collected *)

Lemma known_collected lo hi s n s' : known_inv lo hi s -> collected n s s' -> n <= hi -> known_inv (Z.max lo (n + 1)) hi s'.
Proof.
  intros K [Ha Hi Hh _] Hn.
  assert (forall h i, infos s !! h = Some i -> at_or_below (all_header_hashes s) n h <-> info_number i <= n) as Hbelow.
  { intros h i E. split.
    - intros (m & l & Hm & Hl & Hin). assert (h ∈ known_hashes s m) as Hk by (unfold known_hashes; by rewrite Hl).
      apply (ki_known _ _ _ K) in Hk as (i' & E' & Hi'). rewrite E in E'. simplify_eq. done.
    - intros Hle. assert (h ∈ known_hashes s (info_number i)) as Hk by (apply (ki_known _ _ _ K); eauto).
      unfold known_hashes in Hk. destruct (all_header_hashes s !! info_number i) as [l|] eqn:El; [|by apply not_elem_of_nil in Hk].
      by exists (info_number i), l. }
  split.
  - pose proof (ki_lo _ _ _ K). lia.
  - intros m. rewrite Ha. pose proof (ki_span _ _ _ K m) as Hs. destruct (decide (m <= n)).
    + split; [by intros [] | lia].
    + rewrite Hs. lia.
  - intros m h. unfold known_hashes. rewrite Ha. destruct (decide (m <= n)) as [Hm|Hm]; cbn.
    + split; [by intros ?%not_elem_of_nil|]. intros (i & Hi' & <-). apply Hi in Hi' as [E Hnot]. by rewrite (Hbelow h i E) in Hnot.
    + change (default [] (all_header_hashes s !! m)) with (known_hashes s m). rewrite (ki_known _ _ _ K).
      split; intros (i & E & <-); exists i; (split; [|done]); [apply Hi; split; [done|]; rewrite (Hbelow h i E); lia | by apply Hi in E as [E _]].
  - intros h x [E Hnot]%Hh. destruct (ki_header _ _ _ K h x E) as (i & d & Ei & Hrest). exists i, d. split; [|done]. by apply Hi.
  - intros h i [E Hnot]%Hi. destruct (ki_info _ _ _ K h i E) as [x Hx]. exists x. by apply Hh.
  - intros h i [E Hnot]%Hi Hlt. destruct (ki_parent _ _ _ K h i E ltac:(lia)) as (p & x & Hp & Hnum & Hx & Hrest).
    exists p, x. split; [|split; [done|]; split; [by apply Hh | done]]. apply Hi. split; [done|]. rewrite (Hbelow _ _ Hp). lia.
  - intros h i [E Hnot]%Hi. rewrite (Hbelow h i E) in Hnot.
    destruct (ki_origin _ _ _ K h i E) as [?|[Hi0 Hroot]]; [by left | right]. split; [lia|]. intros x.
    replace (Z.max lo (n + 1)) with lo by lia. unfold known_hashes. rewrite Ha. destruct (decide (lo <= n)); [lia|]. apply Hroot.
Qed.

(** *** The canonical chain *)

Lemma last_block_number_best s b : infos s !! best_header_hash s = Some b -> last_block_number s = info_number b.
Proof. intros Hb. unfold last_block_number. by rewrite Hb. Qed.

Lemma inserted_sub s header total : infos s !! hash header = None -> infos s ⊆ infos (inserted s header total).
Proof. apply insert_subseteq. Qed.

(** A header that is not heavier leaves the chain alone. *)
Lemma chain_inserted lo hi s header total b :
  known_inv lo hi s -> chain_inv lo s -> infos s !! hash header = None ->
  infos s !! best_header_hash s = Some b -> total <= total_difficulty b -> chain_inv lo (inserted s header total).
Proof.
  intros K C Hfresh Hb Hle. pose proof (inserted_sub s header total Hfresh) as Hsub.
  pose proof (lookup_weaken _ _ _ _ Hb Hsub) as Hb'. destruct (ch_best _ _ C) as (b' & Eb & Hmax). rewrite Hb in Eb. injection Eb as <-.
  assert (last_block_number (inserted s header total) = last_block_number s) as Hlast.
  { rewrite (last_block_number_best s b Hb). by apply last_block_number_best. }
  split.
  - exists b. split; [exact Hb'|]. intros h i. cbn. rewrite lookup_insert_Some. intros [[_ <-]|[_ Hi]]; [done | by apply (Hmax h)].
  - intros n. rewrite Hlast. apply (ch_above _ _ C).
  - intros k h Hk. rewrite Hlast. intros Hlo. apply (ch_canon _ _ C); [|done].
    destruct (ancestor_exists _ _ _ k _ _ K Hb) as (x & _ & Hx & _); [by rewrite <- (last_block_number_best _ _ Hb)|].
    pose proof (ancestor_mono _ _ _ _ _ Hsub Hx) as Hx'. cbn in Hk, Hx'. congruence.
  - apply (ch_submitted _ _ C).
Qed.

(** The canonical hashes that [update_canonical] writes before it collects. *)
Definition switched (s : EthClient) (header : BlockHeader) (inf : gmap (list Z) HeaderInfo) : gmap Z (list Z) :=
  replace_past inf (Z.to_nat (number header - 1)) (parent_hash header)
    (<[number header := hash header]>
      (if number header <? last_block_number s
       then remove_range (number header + 1) (last_block_number s) (canonical_header_hashes s) else canonical_header_hashes s)).

(** The loop that replaces past hashes writes hashes of submitted headers:
    it stops at the header the client started from, which is canonical. *)
Lemma replace_past_submitted lo hi s inf n cur c m x :
  collision_free -> known_inv lo hi s -> chain_inv lo s ->
  (forall h i, inf !! h = Some i -> submitted (info_number i) h /\ (info_number i <= Z.of_nat n -> infos s !! h = Some i)) ->
  (forall m, m <= Z.of_nat n -> c !! m = block_hash s m) -> submitted (Z.of_nat n) cur ->
  (forall m x, c !! m = Some x -> submitted m x) -> replace_past inf n cur c !! m = Some x -> submitted m x.
Proof.
  intros Hcf K C. revert cur c. induction n as [|n IH]; intros cur c Hinf Hc Hcur Hall.
  { cbn [replace_past]. intros [[<- <-]|[_ Hx]]%lookup_insert_Some; auto. }
  assert (forall m x, <[Z.of_nat (S n) := cur]> c !! m = Some x -> submitted m x) as Hall'.
  { intros m' x' [[<- <-]|[_ Hx]]%lookup_insert_Some; auto. }
  cbn [replace_past]. destruct (decide _) as [|Hprev]; [apply Hall'|].
  destruct (inf !! cur) as [info|] eqn:Ei; [|apply Hall'].
  destruct (Hinf cur info Ei) as [Hs Hknown]. assert (Z.of_nat (S n) = info_number info) as Hn by by apply (submitted_unique _ _ cur).
  specialize (Hknown ltac:(lia)). destruct (ki_origin _ _ _ K _ _ Hknown) as [Hpar|[Hlo Hroot]].
  - apply IH; [|intros m' Hm'; rewrite lookup_insert_ne by lia; apply Hc; lia| |done].
    + intros h i Hi. destruct (Hinf h i Hi) as [? Hk]. split; [done|]. intros Hle. apply Hk. lia.
    + by replace (Z.of_nat n) with (info_number info - 1) by lia.
  - exfalso. apply Hprev. rewrite Hc by lia. destruct (ch_best _ _ C) as (b & Hb & _).
    pose proof (known_span _ _ _ _ _ K Hb) as Hspan. pose proof (last_block_number_best s b Hb) as Hlast.
    set (k := Z.to_nat (info_number b - lo)).
    destruct (ancestor_exists _ _ _ k _ _ K Hb) as (y & iy & Hy & Hiy & Hny); [lia|].
    assert (y = cur) as -> by (apply Hroot, (ki_known _ _ _ K); exists iy; split; [done | lia]).
    pose proof (ch_canon _ _ C k cur Hy ltac:(lia)) as Hcan. by replace (Z.of_nat (S n)) with (last_block_number s - Z.of_nat k) by lia.
Qed.

(** A heavier header becomes the head of the chain of its ancestors. *)
Lemma chain_switched lo hi s header p b :
  let total := total_difficulty p + difficulty header in
  let s1 := inserted s header total in
  collision_free -> submitted (number header) (hash header) -> known_inv lo hi s -> chain_inv lo s ->
  infos s !! hash header = None -> infos s !! parent_hash header = Some p ->
  number header = info_number p + 1 -> infos s !! best_header_hash s = Some b -> total_difficulty b <= total ->
  chain_inv lo (set_chain (hash header) (switched s header (infos s1)) s1).
Proof.
  cbv zeta. intros Hcf Hsubm K C Hfresh Hp Hn Hb Hle. set (total := total_difficulty p + difficulty header) in *.
  pose proof (inserted_sub s header total Hfresh) as Hsub. pose proof (known_span _ _ _ _ _ K Hp) as Hsp.
  pose proof (ki_lo _ _ _ K) as H0.
  set (s2 := set_chain _ _ _).
  assert (infos s2 !! best_header_hash s2 = Some (new_info header total)) as Hbest by (cbn; apply lookup_insert_eq).
  pose proof (last_block_number_best s2 _ Hbest) as Hlast. cbn [new_info info_number] in Hlast.
  set (c0 := if number header <? last_block_number s then remove_range (number header + 1) (last_block_number s)
    (canonical_header_hashes s) else canonical_header_hashes s).
  assert (forall n, c0 !! n = if decide (number header < n) then None else canonical_header_hashes s !! n) as Hc0.
  { intros n. unfold c0. destruct (number header <? last_block_number s) eqn:E; zbool.
    - rewrite remove_range_lookup. repeat destruct (decide _); try done; try lia. apply (ch_above _ _ C). lia.
    - destruct (decide _); [|done]. apply (ch_above _ _ C). lia. }
  assert (canonical_header_hashes s2 = replace_past (infos s2) (Z.to_nat (number header - 1)) (parent_hash header)
    (<[number header := hash header]> c0)) as Hc2 by done.
  split.
  - exists (new_info header total). split; [done|]. intros h i. cbn. rewrite lookup_insert_Some. intros [[_ <-]|[_ Hi]]; [done|].
    cbn. destruct (ch_best _ _ C) as (b' & Eb & Hmax). rewrite Hb in Eb. injection Eb as <-. specialize (Hmax h i Hi). lia.
  - intros n. rewrite Hlast. intros Hlt. unfold block_hash. rewrite Hc2, replace_past_above, lookup_insert_ne, Hc0 by lia.
    by destruct (decide _).
  - intros k h Hk. rewrite Hlast. intros Hlo. unfold block_hash. rewrite Hc2. destruct k as [|k].
    + injection Hk as <-. rewrite Z.sub_0_r, replace_past_above by lia. apply lookup_insert_eq.
    + cbn [ancestor] in Hk. rewrite Hbest in Hk. cbn [mbind option_bind new_info info_parent_hash] in Hk.
      replace (number header - Z.of_nat (S k)) with (Z.of_nat (Z.to_nat (number header - 1)) - Z.of_nat k) by lia.
      apply (replace_past_chain _ lo); [|lia|done|lia]. apply linked_insert; [|lia].
      intros m x j y Hm. rewrite !Hc0. repeat destruct (decide _); try lia.
      apply (canon_linked lo hi s _ m K C Hsub). lia.
  - intros m x. unfold block_hash. rewrite Hc2. apply (replace_past_submitted lo hi s); try done.
    + intros h i. cbn. rewrite lookup_insert_Some. intros [[<- <-]|[_ Hi]]; [split; [done | cbn; lia]|].
      split; [by apply (known_submitted lo hi s) | done].
    + intros m' Hm'. rewrite lookup_insert_ne, Hc0 by lia. destruct (decide _); [lia | done].
    + replace (Z.of_nat (Z.to_nat (number header - 1))) with (info_number p) by lia. by apply (known_submitted lo hi s).
    + intros m' x' [[<- <-]|[_ Hx]]%lookup_insert_Some; [done|]. rewrite Hc0 in Hx. destruct (decide _); [done|].
      by apply (ch_submitted _ _ C).
Qed.

Lemma chain_gc_canonical lo lo' s n :
  chain_inv lo s -> lo <= lo' -> Z.of_nat n < lo' -> Z.of_nat n < last_block_number s ->
  chain_inv lo' (set_chain (best_header_hash s) (gc_canonical_chain n (canonical_header_hashes s)) s).
Proof.
  intros C Hlo Hn Hlast. split.
  - apply (ch_best _ _ C).
  - intros m Hm. unfold block_hash. cbn. rewrite gc_canonical_above by (change (last_block_number s < m) in Hm; lia). by apply (ch_above _ _ C).
  - intros k h Hk Hle. unfold block_hash. cbn [set_chain canonical_header_hashes]. change (lo' <= last_block_number s - Z.of_nat k) in Hle.
    change (gc_canonical_chain n (canonical_header_hashes s) !! (last_block_number s - Z.of_nat k) = Some h).
    rewrite gc_canonical_above by lia. apply (ch_canon _ _ C); [done | lia].
  - intros m x Hx%gc_canonical_sub. by apply (ch_submitted _ _ C).
Qed.

Lemma chain_collected lo lo' hi s n s' :
  known_inv lo hi s -> chain_inv lo' s -> collected n s s' -> n < last_block_number s -> chain_inv lo' s'.
Proof.
  intros K C Hcol Hn. destruct (ch_best _ _ C) as (b & Hb & Hmax). pose proof (last_block_number_best s b Hb) as Hl.
  pose proof (col_rest _ _ _ Hcol) as Hr.
  assert (best_header_hash s' = best_header_hash s) as Ebest by by rewrite Hr.
  assert (canonical_header_hashes s' = canonical_header_hashes s) as Ec by by rewrite Hr.
  assert (infos s' ⊆ infos s) as Hsub.
  { apply map_subseteq_spec. intros h i Hi. by apply (col_infos _ _ _ Hcol) in Hi as [Hi _]. }
  assert (infos s' !! best_header_hash s' = Some b) as Hb'.
  { rewrite Ebest. apply (col_infos _ _ _ Hcol). split; [done|]. intros (m & l & Hm & Hlk & Hin).
    assert (best_header_hash s ∈ known_hashes s m) as Hk by (unfold known_hashes; by rewrite Hlk).
    apply (ki_known _ _ _ K) in Hk as (i & Ei & Hi). rewrite Hb in Ei. simplify_eq. lia. }
  assert (last_block_number s' = last_block_number s) as Hlast by (rewrite Hl; by apply last_block_number_best).
  split.
  - exists b. split; [done|]. intros h i Hi. apply (Hmax h). by eapply lookup_weaken.
  - intros m. rewrite Hlast. unfold block_hash. rewrite Ec. apply (ch_above _ _ C).
  - intros k h Hk. rewrite Hlast. intros Hle. unfold block_hash. rewrite Ec. apply (ch_canon _ _ C); [|lia].
    rewrite Ebest in Hk. by apply (ancestor_mono (infos s')).
  - intros m x. unfold block_hash. rewrite Ec. apply (ch_submitted _ _ C).
Qed.

End Invariant.

(** ** Every operation preserves the invariant *)

Section Preservation.
Context {RL : RlpLib} {KC : Keccak} {SH : Sha256} {EH : Ethash} (D : list Z -> Prop).

Lemma expect_inv {A} msg (o : option A) a : expect msg o = Ret a -> o = Some a.
Proof. destruct o; cbn; [|done]. by intros ->%Ret_inj. Qed.

Lemma assert_inv msg b x : assert_ msg b = Ret x -> b = true.
Proof. by destruct b. Qed.

Lemma checked_inv w z y : checked w z = Ret y -> y = z /\ 0 <= z < 2 ^ w.
Proof.
  unfold checked. destruct ((0 <=? z) && (z <? 2 ^ w)) eqn:E; cbn; [|done]. intros ->%Ret_inj.
  apply andb_true_iff in E as [E1 E2]. zbool. done.
Qed.

Lemma checked_ok w z : 0 <= z < 2 ^ w -> checked w z = Ret z.
Proof.
  intros H. unfold checked. rewrite (proj2 (Z.leb_le 0 z)), (proj2 (Z.ltb_lt z (2 ^ w))) by lia. done.
Qed.

(** The collections at the end of [update_canonical]. *)
Definition collect_canonical (s : EthClient) (n : Z) (c : gmap Z (list Z)) : gmap Z (list Z) :=
  if hashes_gc_threshold s <=? n then gc_canonical_chain (Z.to_nat (n - hashes_gc_threshold s)) c else c.

Definition collect_headers (n : Z) (s : EthClient) : EthClient :=
  if finalized_gc_threshold s <=? n then gc_headers (Z.to_nat (n - finalized_gc_threshold s)) s else s.

(** The state after a heavier header, [s1] being the state it is inserted in. *)
Definition advanced (s : EthClient) (header : BlockHeader) (s1 : EthClient) : EthClient :=
  collect_headers (number header)
    (set_chain (hash header) (collect_canonical s (number header) (switched s header (infos s1))) s1).

(** What a recorded header has passed, and the state it leaves. *)
Lemma record_header_inv s header s' : record_header s header = Ret s' ->
  exists b p, infos s !! best_header_hash s = Some b /\ infos s !! parent_hash header = Some p /\
    info_number b <= number header + finalized_gc_threshold s /\ hash header ∉ known_hashes s (number header) /\
    let total := total_difficulty p + difficulty header in let s1 := inserted s header total in
    s' = if heavier (new_info header total) b header then advanced s header s1 else s1.
Proof.
  unfold record_header, unwrap. intros H.
  apply outcome_bind_inv in H as (b & Hb%expect_inv & H). apply outcome_bind_inv in H as (hz & Hhz%checked_inv & H).
  apply outcome_bind_inv in H as (u & Hold%assert_inv & H). apply outcome_bind_inv in H as (p & Hp%expect_inv & H).
  apply outcome_bind_inv in H as (u' & Hnew%assert_inv & H). apply outcome_bind_inv in H as (total & Ht%checked_inv & H).
  destruct Hhz as [-> _], Ht as [-> _]. rewrite negb_true_iff in Hnew. apply bool_decide_eq_false in Hnew. zbool.
  exists b, p. split; [done|]. split; [done|]. split; [lia|]. split; [exact Hnew|]. cbv zeta.
  fold (known_hashes s (number header)) in H. fold (new_info header (total_difficulty p + difficulty header)) in H.
  fold (inserted s header (total_difficulty p + difficulty header)) in H.
  destruct (heavier _ b header); [|by apply Ret_inj in H].
  unfold update_canonical in H. cbn [new_info info_number info_parent_hash] in H.
  apply outcome_bind_inv in H as (m & Hm%checked_inv & H). destruct Hm as [-> _]. apply Ret_inj in H. subst s'.
  unfold advanced, collect_headers, collect_canonical, switched. by rewrite (last_block_number_best _ _ Hb).
Qed.

(** A header that is recorded when it passes. *)
Lemma record_header_ok s header b p : let total := total_difficulty p + difficulty header in
  infos s !! best_header_hash s = Some b -> infos s !! parent_hash header = Some p ->
  info_number b <= number header + finalized_gc_threshold s -> hash header ∉ known_hashes s (number header) ->
  1 <= number header -> 0 <= number header + finalized_gc_threshold s < 2 ^ 64 -> number header < 2 ^ 64 -> 0 <= total < 2 ^ 256 ->
  record_header s header = Ret (if heavier (new_info header total) b header
    then advanced s header (inserted s header total) else inserted s header total).
Proof.
  cbv zeta. intros Hb Hp Hold Hnew H1 Hn Hn64 Ht. unfold record_header, unwrap. rewrite Hb. cbn [expect mbind outcome_bind].
  unfold add_u64, add_u256. rewrite checked_ok by done. cbn [mbind outcome_bind]. rewrite (proj2 (Z.leb_le _ _) Hold), Hp.
  cbn [assert_ expect mbind outcome_bind]. fold (known_hashes s (number header)). rewrite bool_decide_false by done.
  cbn [negb assert_ mbind outcome_bind]. rewrite checked_ok by done. cbn [mbind outcome_bind].
  fold (new_info header (total_difficulty p + difficulty header)).
  fold (inserted s header (total_difficulty p + difficulty header)).
  destruct (heavier _ b header); [|done]. unfold update_canonical, sub_u64. cbn [new_info info_number info_parent_hash].
  rewrite checked_ok by lia. cbn [mbind outcome_bind].
  unfold advanced, collect_headers, collect_canonical, switched. by rewrite (last_block_number_best _ _ Hb).
Qed.

Lemma heavier_total info b header : heavier info b header = true -> total_difficulty b <= total_difficulty info.
Proof. unfold heavier. intros [H|[H _]%andb_true_iff]%orb_true_iff; zbool; lia. Qed.

Lemma not_heavier_total info b header : heavier info b header = false -> total_difficulty info <= total_difficulty b.
Proof. unfold heavier. intros [H _]%orb_false_iff. zbool. lia. Qed.

Lemma known_set_chain lo hi best c s : known_inv D lo hi s -> known_inv D lo hi (set_chain best c s).
Proof. by intros []; constructor. Qed.

(** The new lower end after a heavier header at number [n]. *)
Definition new_lo (s : EthClient) (lo n : Z) : Z := Z.max lo (n - finalized_gc_threshold s + 1).

Lemma advanced_inv lo hi s header d p b :
  let total := total_difficulty p + difficulty header in let s1 := inserted s header total in
  collision_free D -> thresholds_ok s -> known_inv D lo hi s -> chain_inv D lo s -> D d -> decode_header d = Some header ->
  infos s !! hash header = None -> infos s !! parent_hash header = Some p -> number header = info_number p + 1 ->
  infos s !! best_header_hash s = Some b -> total_difficulty b <= total ->
  let lo' := new_lo s lo (number header) in
  known_inv D lo' (Z.max hi (number header)) (advanced s header s1) /\ chain_inv D lo' (advanced s header s1) /\
  best_header_hash (advanced s header s1) = hash header /\ last_block_number (advanced s header s1) = number header.
Proof.
  cbv zeta. intros Hcf [Hf Hh] K C HD Hd Hfresh Hp Hn Hb Hle. pose proof (ki_lo _ _ _ _ K) as H0.
  pose proof (known_inserted D lo hi s header d p K HD Hd Hfresh Hp Hn) as K1.
  pose proof (chain_switched D lo hi s header p b Hcf ltac:(by exists d, header) K C Hfresh Hp Hn Hb Hle) as C2. cbv zeta in C2.
  set (s1 := inserted s header (total_difficulty p + difficulty header)) in *.
  set (lo' := new_lo s lo (number header)). assert (lo <= lo') as Hlo' by (unfold lo', new_lo; lia).
  unfold advanced. set (c := switched s header (infos s1)) in *.
  set (s3 := set_chain (hash header) (collect_canonical s (number header) c) s1).
  assert (last_block_number s3 = number header) as Hl3.
  { apply (last_block_number_best s3 (new_info header (total_difficulty p + difficulty header))). cbn. apply lookup_insert_eq. }
  assert (chain_inv D lo' s3) as C3.
  { unfold s3, collect_canonical. destruct (hashes_gc_threshold s <=? number header) eqn:E; zbool.
    - apply (chain_gc_canonical D lo lo' (set_chain (hash header) c s1)); [exact C2 | lia | |].
      + unfold lo', new_lo. lia.
      + change (last_block_number (set_chain (hash header) c s1)) with (last_block_number s3). rewrite Hl3. lia.
    - destruct C2 as [Cb Ca Cc Cs]. split; [done | done | | done]. intros k h Hk Hkl. apply Cc; [done | lia]. }
  assert (known_inv D lo (Z.max hi (number header)) s3) as K3 by by apply known_set_chain.
  assert (best_header_hash s3 = hash header) as Hb3 by done. unfold collect_headers.
  change (finalized_gc_threshold s3) with (finalized_gc_threshold s).
  destruct (finalized_gc_threshold s <=? number header) eqn:E; zbool.
  - assert (collected (number header - finalized_gc_threshold s) s3
      (gc_headers (Z.to_nat (number header - finalized_gc_threshold s)) s3)) as Hcol.
    { rewrite <- (Z2Nat.id (number header - finalized_gc_threshold s)) at 1 by lia. apply (gc_headers_spec lo); [done|].
      intros m Hm. rewrite (ki_span _ _ _ _ K3). lia. }
    set (s4 := gc_headers _ s3) in *.
    assert (known_inv D lo' (Z.max hi (number header)) s4) as K4.
    { unfold lo', new_lo. apply (known_collected D lo _ s3); [done | done | lia]. }
    assert (chain_inv D lo' s4) as C4 by (apply (chain_collected D lo lo' _ s3 _ s4 K3 C3 Hcol); lia).
    assert (best_header_hash s4 = hash header) as Hb4 by by rewrite (col_rest _ _ _ Hcol).
    split; [exact K4|]. split; [exact C4|]. split; [done|].
    destruct (ch_best _ _ _ C4) as (b4 & Eb4 & _). rewrite (last_block_number_best _ _ Eb4).
    apply (col_infos _ _ _ Hcol) in Eb4 as [Eb4 _]. rewrite Hb4, <- Hb3 in Eb4. by rewrite <- (last_block_number_best _ _ Eb4).
  - assert (lo' = lo) as -> by (unfold lo', new_lo; lia). done.
Qed.

(** What an operation on the chain leaves alone. *)
Definition config (s : EthClient) : bool * Z * list (list Z) * Z * Z * Z * option string * Z :=
  (validate_ethash s, dags_start_epoch s, dags_merkle_roots s, hashes_gc_threshold s, finalized_gc_threshold s,
   num_confirmations s, trusted_signer s, client_paused s).

Lemma gc_headers_config n s : config (gc_headers n s) = config s.
Proof.
  revert s. induction n as [|n IH]; intros s; cbn [gc_headers]; destruct (all_header_hashes s !! _); try done. by rewrite IH.
Qed.

Lemma record_header_config s header s' : record_header s header = Ret s' -> config s' = config s.
Proof.
  intros (b & p & _ & _ & _ & _ & ->)%record_header_inv. destruct (heavier _ _ _); [|done].
  unfold advanced, collect_headers. destruct (_ <=? _); [|done]. exact (gc_headers_config _ _).
Qed.

(** A header that is not recorded under its number is not known at all. *)
Lemma unknown_fresh lo hi s d header : collision_free D -> known_inv D lo hi s -> D d -> decode_header d = Some header ->
  hash header ∉ known_hashes s (number header) -> infos s !! hash header = None.
Proof.
  intros Hcf K HD Hd Hno. destruct (infos s !! hash header) as [i|] eqn:Ei; [|done]. exfalso.
  destruct (ki_info _ _ _ _ K _ _ Ei) as [x Hx]. destruct (ki_header _ _ _ _ K _ _ Hx) as (i' & d' & Ei' & Hn & HD' & Hd' & Hh).
  rewrite Ei in Ei'. injection Ei' as <-. apply Hno. apply (ki_known _ _ _ _ K). exists i. split; [done|].
  rewrite (decode_header_hash _ _ Hd), (decode_header_hash _ _ Hd') in Hh. apply Hcf in Hh as <-; [|done|done]. congruence.
Qed.

Definition numbered (s : EthClient) (header : BlockHeader) : Prop :=
  forall p, infos s !! parent_hash header = Some p -> number header = info_number p + 1.

(** A recorded header: the invariant, and the state of the chain. *)
Lemma record_header_preserves lo hi s d header s' :
  collision_free D -> thresholds_ok s -> known_inv D lo hi s -> chain_inv D lo s -> recent lo s ->
  D d -> decode_header d = Some header -> numbered s header -> record_header s header = Ret s' ->
  exists lo', known_inv D lo' (Z.max hi (number header)) s' /\ chain_inv D lo' s' /\ recent lo' s' /\
    (lo' = lo \/ lo' = new_lo s lo (number header)).
Proof.
  intros Hcf Ht K C Hrec HD Hd Hnum Hrh. pose proof (record_header_config _ _ _ Hrh) as Hconf.
  assert (finalized_gc_threshold s' = finalized_gc_threshold s) as HfT by (injection Hconf; congruence). clear Hconf.
  apply record_header_inv in Hrh as (b & p & Hb & Hp & Hold & Hno & ->).
  pose proof (unknown_fresh _ _ _ _ _ Hcf K HD Hd Hno) as Hfresh. specialize (Hnum p Hp). cbv zeta.
  destruct (heavier _ b header) eqn:E.
  - apply heavier_total in E. cbn in E. exists (new_lo s lo (number header)).
    destruct (advanced_inv lo hi s header d p b Hcf Ht K C HD Hd Hfresh Hp Hnum Hb E) as (K' & C' & _ & Hl).
    split; [exact K'|]. split; [exact C'|]. split; [|auto]. unfold recent. rewrite Hl, HfT. unfold new_lo. lia.
  - apply not_heavier_total in E. cbn in E. exists lo.
    split; [by apply (known_inserted D lo hi s header d p)|]. split; [by apply (chain_inserted D lo hi s header _ b)|].
    split; [|auto]. unfold recent. replace (last_block_number _) with (last_block_number s); [exact Hrec|].
    rewrite (last_block_number_best _ _ Hb). symmetry. apply last_block_number_best. cbn. rewrite lookup_insert_ne by congruence. done.
Qed.

Lemma thresholds_config s s' : config s' = config s -> thresholds_ok s -> thresholds_ok s'.
Proof. unfold config, thresholds_ok. intros H. injection H. intros. congruence. Qed.

Lemma record_header_client_inv s d header s' : collision_free D -> client_inv D s -> D d -> decode_header d = Some header ->
  numbered s header -> record_header s header = Ret s' -> client_inv D s'.
Proof.
  intros Hcf (Ht & lo & hi & K & C & R) HD Hd Hnum Hr.
  destruct (record_header_preserves lo hi s d header s' Hcf Ht K C R HD Hd Hnum Hr) as (lo' & K' & C' & R' & _).
  split; [|by exists lo', (Z.max hi (number header))]. eapply thresholds_config; [|done]. by eapply record_header_config.
Qed.

Lemma set_admin_client_inv signer paused s : client_inv D s -> client_inv D (set_admin signer paused s).
Proof. intros (Ht & lo & hi & [] & [] & R). split; [done|]. exists lo, hi. split; [by constructor|]. split; [by constructor | exact R]. Qed.

Lemma init_client_inv v e roots d hT fT conf signer s : D d -> init None v e roots d hT fT conf signer = Ret s ->
  1 <= fT <= hT -> (forall header, decode_header d = Some header -> 0 <= number header) -> client_inv D s.
Proof.
  intros HD H Ht Hnum. unfold init in H. cbn in H. apply outcome_bind_inv in H as (header & Hd%expect_inv & <-%Ret_inj).
  specialize (Hnum header Hd). split; [done|]. exists (number header), (number header).
  split; [|split; [|unfold recent, last_block_number; cbn; rewrite lookup_singleton_eq; cbn; lia]]; split; cbn.
  - done.
  - intros n. destruct (decide (n = number header)) as [->|Hne].
    + rewrite lookup_singleton_eq. split; [lia | done].
    + rewrite lookup_singleton_ne by done. split; [by intros [] | lia].
  - intros n h. unfold known_hashes. cbn. destruct (decide (n = number header)) as [->|Hne].
    + rewrite lookup_singleton_eq. cbn. rewrite list_elem_of_singleton. setoid_rewrite lookup_singleton_Some. naive_solver.
    + rewrite lookup_singleton_ne by done. cbn. setoid_rewrite lookup_singleton_Some.
      split; [by intros ?%not_elem_of_nil|]. intros (i & [_ <-] & Hn). by cbn in Hn.
  - intros h x [<- <-]%lookup_singleton_Some. rewrite lookup_singleton_eq. by do 2 eexists.
  - intros h i [<- <-]%lookup_singleton_Some. by rewrite lookup_singleton_eq.
  - intros h i [<- <-]%lookup_singleton_Some Hlt. cbn in Hlt. lia.
  - intros h i [<- <-]%lookup_singleton_Some. right. split; [done|]. intros x. unfold known_hashes. cbn.
    rewrite lookup_singleton_eq. cbn. by rewrite list_elem_of_singleton.
  - eexists. split; [apply lookup_singleton_eq|]. by intros h i [_ <-]%lookup_singleton_Some.
  - intros n. unfold last_block_number, block_hash. cbn. rewrite lookup_singleton_eq. cbn. intros Hlt.
    apply lookup_singleton_ne. lia.
  - intros k h. unfold last_block_number, block_hash. cbn. rewrite lookup_singleton_eq. cbn. intros Hk Hle.
    assert (k = 0%nat) as -> by lia. cbn in Hk. rewrite Z.sub_0_r, lookup_singleton_eq. done.
  - intros n h. unfold block_hash. cbn. intros [<- <-]%lookup_singleton_Some. by exists d, header.
Qed.

End Preservation.

(** ** What [verify_header] checks *)

Section Verify.
Context {RL : RlpLib} {KC : Keccak} {SH : Sha256} {EH : Ethash}.

(** A valid child of [prev]: enough work on the nodes of the DAG, and the
    header conditions of the Yellow Paper with the simplified difficulty. *)
Record valid_child (s : EthClient) (header prev : BlockHeader) (nodes : list DoubleNodeWithMerkleProof) : Prop := {
  vc_work : exists mix result,
    hashimoto_merkle s (partial_hash header) (nonce header) (number header) nodes = Ret (mix, result) /\
    be_value result < cross_boundary (difficulty header);
  vc_difficulty : validate_ethash s = true -> difficulty prev * 99 / 100 < difficulty header < difficulty prev * 101 / 100;
  vc_gas : header_gas_used header <= gas_limit header;
  vc_gas_limit : gas_limit prev * 1023 / 1024 < gas_limit header < gas_limit prev * 1025 / 1024;
  vc_gas_min : 5000 <= gas_limit header;
  vc_time : timestamp prev < timestamp header;
  vc_number : number header = number prev + 1;
  vc_parent : parent_hash header = hash prev;
  vc_extra : (length (extra_data header) <= 32)%nat
}.

(** The products of the checks stay in 256 bits. *)
Record products_fit (prev : BlockHeader) : Prop := {
  pf_difficulty : 0 <= difficulty prev * 101 < 2 ^ 256;
  pf_gas_limit : 0 <= gas_limit prev * 1025 < 2 ^ 256;
  pf_number : 0 <= number prev + 1 < 2 ^ 64
}.

Lemma and_then_true a b : and_then a b = Ret true <-> a = Ret true /\ b = Ret true.
Proof.
  unfold and_then. destruct a as [[]|e|c|]; cbn; (split; [intros H | intros [Ha Hb]]); try done; by apply Ret_inj in H || apply Ret_inj in Ha.
Qed.

Lemma Ret_true (b : bool) : Ret b = Ret true <-> b = true.
Proof. split; [apply Ret_inj | by intros ->]. Qed.

Lemma checked_true w z (f : Z -> bool) : (x ← checked w z; Ret (f x)) = Ret true -> f z = true.
Proof. intros H. by apply outcome_bind_inv in H as (x & [-> _]%checked_inv & ?%Ret_inj). Qed.

Lemma checked_fits w z (f : Z -> bool) : 0 <= z < 2 ^ w -> f z = true -> (x ← checked w z; Ret (f x)) = Ret true.
Proof. intros Hz Hf. rewrite checked_ok by done. cbn. by rewrite Hf. Qed.

(** What is checked, whatever the numbers are. *)
Lemma verify_header_sound s header prev nodes :
  verify_header s header prev nodes = Ret true -> valid_child s header prev nodes.
Proof.
  unfold verify_header, mul_u256, add_u64. intros H. apply outcome_bind_inv in H as ([mix result] & Hw & H).
  rewrite !and_then_true, !Ret_true in H.
  destruct H as (Hb & Hd & Hg & Hhi%checked_true & Hlo%checked_true & Hm & Ht & Hn%checked_true & Hp & He).
  apply bool_decide_eq_true in Hp. apply Nat.leb_le in He. zbool. split; try done; try lia.
  - by exists mix, result.
  - intros Hv. rewrite Hv, and_then_true in Hd. destruct Hd as [H1%checked_true H2%checked_true]. zbool. lia.
Qed.

Lemma verify_header_complete s header prev nodes : products_fit prev ->
  valid_child s header prev nodes -> verify_header s header prev nodes = Ret true.
Proof.
  intros [Pd Pg Pn] [(mix & result & Hw & Hb) Hd Hg [Hl1 Hl2] Hm Ht Hn Hp He]. unfold verify_header. rewrite Hw.
  cbn [mbind outcome_bind]. rewrite !and_then_true, !Ret_true.
  rewrite bool_decide_true, (proj2 (Nat.leb_le _ _) He) by done.
  split_and!; try done; try (by first [apply Z.ltb_lt | apply Z.leb_le]); try (apply checked_fits; [lia|]; first [apply Z.ltb_lt | apply Z.eqb_eq]; lia).
  destruct (validate_ethash s); [|done]. rewrite and_then_true. destruct (Hd eq_refl) as [Hd1 Hd2].
  split; (apply checked_fits; [lia|]; by apply Z.ltb_lt).
Qed.

(** [verify_header] accepts exactly the valid children of the previous
    header, where the products of its checks stay in 256 bits. *)
Theorem verify_header_exact s header prev nodes : products_fit prev ->
  verify_header s header prev nodes = Ret true <-> valid_child s header prev nodes.
Proof. intros Hf. split; [apply verify_header_sound | by apply verify_header_complete]. Qed.

End Verify.

(** ** Reachable states *)

Section Reachable.
Context {RL : RlpLib} {KC : Keccak} {SH : Sha256} {EH : Ethash} (D : list Z -> Prop).

(** The headers that the contract accepts: no two have the same hash, and
    the numbers are 64-bit numbers. *)
Record Submissions : Prop := {
  sub_free : collision_free D;
  sub_number d header : D d -> decode_header d = Some header -> 0 <= number header
}.

(** A call that returns.  In trust mode the header is not verified: the
    signer is trusted to number it. *)
Inductive step : EthClient -> EthClient -> Prop :=
| step_add env s d nodes s' : D d -> add_block_header env s d nodes = Ret s' ->
    (forall header, trusted_signer s <> None -> decode_header d = Some header -> numbered s header) -> step s s'
| step_signer env s signer s' : update_trusted_signer env s signer = Ret s' -> step s s'
| step_paused env s mask s' : client_set_paused env s mask = Ret s' -> step s s'.

Inductive reachable : EthClient -> Prop :=
| reach_init v e roots d hT fT conf signer s : D d -> 1 <= fT <= hT ->
    init None v e roots d hT fT conf signer = Ret s -> reachable s
| reach_step s s' : reachable s -> step s s' -> reachable s'.

Lemma add_block_header_inv env s d nodes s' : add_block_header env s d nodes = Ret s' ->
  exists header, decode_header d = Some header /\ client_is_paused env s PAUSE_ADD_BLOCK_HEADER = false /\
    authorize_header env s header nodes = Ret tt /\ record_header s header = Ret s'.
Proof.
  unfold add_block_header. intros H. apply outcome_bind_inv in H as (u & Hpa%assert_inv & H).
  apply outcome_bind_inv in H as (header & Hd%expect_inv & H). apply outcome_bind_inv in H as ([] & Ha & H).
  exists header. rewrite negb_true_iff in Hpa. done.
Qed.

Lemma authorize_valid env s header nodes : authorize_header env s header nodes = Ret tt -> trusted_signer s = None ->
  exists prev, headers s !! parent_hash header = Some prev /\ valid_child s header prev nodes.
Proof.
  unfold authorize_header. intros H Ht. rewrite Ht in H. apply outcome_bind_inv in H as (prev & Hp%expect_inv & H).
  apply outcome_bind_inv in H as (v & Hv & ->%assert_inv). exists prev. split; [done | by apply verify_header_sound].
Qed.

Lemma valid_numbered lo hi s header prev nodes : known_inv D lo hi s -> headers s !! parent_hash header = Some prev ->
  valid_child s header prev nodes -> numbered s header.
Proof.
  intros K Hp Hv p Hi. destruct (ki_header _ _ _ _ K _ _ Hp) as (i & d & Ei & Hn & _). rewrite Hi in Ei. injection Ei as <-.
  rewrite (vc_number _ _ _ _ Hv). lia.
Qed.

Lemma client_step_inv s s' : Submissions -> step s s' -> client_inv D s -> client_inv D s'.
Proof.
  intros [Hcf _] [env s0 d nodes s1 HD Hadd Htrust|env s0 signer s1 H|env s0 mask s1 H] Hinv.
  - destruct (add_block_header_inv _ _ _ _ _ Hadd) as (header & Hd & _ & Ha & Hr).
    apply (record_header_client_inv D s0 d header s1 Hcf Hinv HD Hd); [|done].
    destruct (decide (trusted_signer s0 = None)) as [Ht|Ht]; [|by apply Htrust].
    destruct (authorize_valid _ _ _ _ Ha Ht) as (prev & Hp & Hv). destruct Hinv as (_ & lo & hi & K & _ & _).
    by apply (valid_numbered lo hi s0 header prev nodes).
  - apply outcome_bind_inv in H as (u & _ & <-%Ret_inj). by apply set_admin_client_inv.
  - apply outcome_bind_inv in H as (u & _ & <-%Ret_inj). by apply set_admin_client_inv.
Qed.

Lemma client_reachable_inv s : Submissions -> reachable s -> client_inv D s.
Proof.
  intros HS. induction 1 as [v e roots d hT fT conf signer s HD Ht Hi|s s' _ IH Hstep].
  - apply (init_client_inv D v e roots d hT fT conf signer s HD Hi Ht). intros header Hd. by apply (sub_number HS d).
  - by apply (client_step_inv s).
Qed.

(** The canonical hash at a retained number is the ancestor of the best
    header there. *)
Lemma canonical_ancestor s n : client_inv D s -> known_hashes s n <> [] -> n <= last_block_number s ->
  exists h i, ancestor (infos s) (best_header_hash s) (Z.to_nat (last_block_number s - n)) = Some h /\
    block_hash s n = Some h /\ infos s !! h = Some i /\ info_number i = n.
Proof.
  intros (_ & lo & hi & K & C & _) Hkn Hle. destruct (ch_best _ _ _ C) as (b & Hb & _). pose proof (last_block_number_best s b Hb) as Hl.
  assert (lo <= n) as Hlo.
  { unfold known_hashes in Hkn. apply (ki_span _ _ _ _ K). destruct (all_header_hashes s !! n); done. }
  set (k := Z.to_nat (last_block_number s - n)).
  destruct (ancestor_exists _ _ _ _ k _ _ K Hb) as (h & i & Hh & Hi & Hn); [lia|]. exists h, i. split; [done|].
  pose proof (ch_canon _ _ _ C k h Hh ltac:(lia)) as Hc. replace (last_block_number s - Z.of_nat k) with n in Hc by lia.
  split; [done|]. split; [done | lia].
Qed.

(** ** Properties *)

(** C9: The canonical chain of a reachable client: the best header has the
    largest total difficulty of all retained headers, the canonical hash at
    every number from the oldest retained header up to the best one is the
    ancestor of the best header at that number, and there is none above it. *)
Theorem client_follows_heaviest s : Submissions -> reachable s ->
  (exists b, infos s !! best_header_hash s = Some b /\ info_number b = last_block_number s /\
     forall h i, infos s !! h = Some i -> total_difficulty i <= total_difficulty b) /\
  (forall n, known_hashes s n <> [] -> n <= last_block_number s ->
     exists h i, ancestor (infos s) (best_header_hash s) (Z.to_nat (last_block_number s - n)) = Some h /\
       block_hash s n = Some h /\ infos s !! h = Some i /\ info_number i = n) /\
  (forall n, last_block_number s < n -> block_hash s n = None).
Proof.
  intros HS Hr. pose proof (client_reachable_inv s HS Hr) as Hinv. destruct Hinv as (Ht & lo & hi & K & C & R). destruct (ch_best _ _ _ C) as (b & Hb & Hmax).
  pose proof (last_block_number_best s b Hb) as Hl. split; [by exists b|]. split; [|apply (ch_above _ _ _ C)].
  intros n Hkn Hle. apply canonical_ancestor; [by exact (conj Ht (ex_intro _ lo (ex_intro _ hi (conj K (conj C R))))) | done..].
Qed.

(** Every hash the client answers for a number, however old, is the hash of
    a header with that number that was submitted to it. *)
Theorem block_hash_was_submitted s n h : Submissions -> reachable s -> block_hash s n = Some h ->
  exists d header, D d /\ decode_header d = Some header /\ hash header = h /\ number header = n.
Proof. intros HS Hr. destruct (client_reachable_inv s HS Hr) as (_ & lo & hi & _ & C & _). apply (ch_submitted _ _ _ C). Qed.

(** A retained header is less than [finalized_gc_threshold] below the best
    one, and the retained numbers have no gaps. *)
Theorem client_forgets_old s n : Submissions -> reachable s -> known_hashes s n <> [] ->
  last_block_number s - finalized_gc_threshold s < n /\
  forall m, n <= m <= last_block_number s -> is_Some (all_header_hashes s !! m).
Proof.
  intros HS Hr Hkn. destruct (client_reachable_inv s HS Hr) as (_ & lo & hi & K & C & R).
  assert (lo <= n <= hi) as Hn.
  { unfold known_hashes in Hkn. apply (ki_span _ _ _ _ K). by destruct (all_header_hashes s !! n). }
  split; [unfold recent in R; lia|]. intros m Hm. apply (ki_span _ _ _ _ K).
  destruct (ch_best _ _ _ C) as (b & Hb & _). pose proof (known_span _ _ _ _ _ _ K Hb).
  rewrite (last_block_number_best _ _ Hb) in Hm. lia.
Qed.

(** C10: The prover and the client together.  When the prover asks a
    reachable client and accepts its answer, and no header submitted to the
    client has the hash of the given header without being it, then the
    receipt with the log is in the trie of a header that was submitted to
    the client, that has the configured number of confirmations, that is
    canonical there, and that, while its number is retained, is the
    ancestor at its number of the heaviest header. *)
Theorem accepted_log_is_canonical s env env' self li le ri rd hd proof client n h bh :
  Submissions -> reachable s -> (forall d, D d -> keccak256 d = keccak256 hd -> d = hd) ->
  verify_log_entry env self li le ri rd hd proof false = Some (BlockHashSafe client n h) ->
  block_hash_safe s n = Ret bh -> on_block_hash env' bh h = Some true ->
  exists log receipt header,
    decode_log le = Some log /\ decode_receipt rd = Some receipt /\ logs receipt !! as_usize li = Some log /\
    decode_header hd = Some header /\ verify_trie_proof (receipts_root header) (rlp_uint ri) proof = Some rd /\
    D hd /\ block_hash s (number header) = Some (hash header) /\
    number header + num_confirmations s <= last_block_number s /\
    (0 <= num_confirmations s -> known_hashes s (number header) <> [] ->
       ancestor (infos s) (best_header_hash s) (Z.to_nat (last_block_number s - number header)) = Some (hash header)).
Proof.
  intros HS Hr Hcf Hv Hs Ho. apply verify_log_entry_inv in Hv as (log & receipt & header & Hl & Hrc & Hh & Hlog & Htrie & E); [|done].
  injection E as -> -> ->. exists log, receipt, header. unfold on_block_hash, guard_bool in Ho. destruct (is_owner env'); [|done].
  cbn in Ho. injection Ho as Ho. apply bool_decide_eq_true in Ho as ->. unfold block_hash_safe in Hs.
  destruct (block_hash s (number header)) as [x|] eqn:Ex; [|by apply Ret_inj in Hs].
  apply outcome_bind_inv in Hs as (y & [-> _]%checked_inv & Hs%Ret_inj). destruct (_ <? _) eqn:El; [done|]. injection Hs as ->.
  zbool. do 5 (split; [done|]). pose proof (client_reachable_inv s HS Hr) as Hinv. split.
  - destruct Hinv as (_ & lo & hi & _ & C & _). destruct (ch_submitted _ _ _ C _ _ Ex) as (d & x & HD & Hd & Hx & _).
    rewrite <- (Hcf d HD); [done|]. by rewrite <- (decode_header_hash _ _ Hd), <- (decode_header_hash _ _ Hh).
  - split; [done|]. split; [lia|]. intros H0 Hkn.
    destruct (canonical_ancestor s (number header) Hinv Hkn) as (x & i & Hx & Hc & _); [lia|]. congruence.
Qed.

End Reachable.

(** ** The seal hash *)

(** A list followed by more bytes is not the encoding of a list. *)
Lemma encode_list_closed items items' e : payload_size (Lst items) < 2 ^ 64 -> payload_size (Lst items') < 2 ^ 64 -> e <> [] ->
  (RlpRef.encode (Lst items) ++ e)%list <> RlpRef.encode (Lst items').
Proof.
  assert (forall l, payload_size (Lst l) < 2 ^ 64 -> Z.of_nat (length (concat (map RlpRef.encode l))) < 2 ^ 64) as Hlen.
  { intros l Hl. pose proof (RlpRef.length_encode (Lst l) Hl) as [_ H]. cbn [RlpRef.encode] in H. rewrite length_app in H.
    eapply Z.le_lt_trans; [|exact Hl]. induction l as [|x l IH]; [done|]. cbn [map concat payload_size foldr] in *.
    rewrite length_app. pose proof (payload_size_nonneg x). pose proof (payload_size_nonneg (Lst l)) as Hn. cbn [payload_size] in Hn.
    pose proof (RlpRef.length_encode x ltac:(lia)). specialize (IH ltac:(lia)).
    pose proof (RlpRef.length_encode (Lst l) ltac:(cbn [payload_size]; lia)) as [_ H']. cbn [RlpRef.encode payload_size] in H'.
    rewrite length_app in H'. specialize (IH ltac:(lia)). lia. }
  intros H1 H2 He Heq. apply He. cbn [RlpRef.encode] in Heq.
  pose proof (RlpRef.split_prefix true (concat (map RlpRef.encode items)) e (Hlen _ H1)) as S1.
  pose proof (RlpRef.split_prefix true (concat (map RlpRef.encode items')) [] (Hlen _ H2)) as S2.
  cbv iota in S1, S2. rewrite app_nil_r in S2. rewrite Heq, S2 in S1. by injection S1.
Qed.

(** With a base fee the stream of [stream_rlp] announces one item too few:
    what is hashed for the proof of work is not the encoding of the list of
    the fourteen sealed fields. *)
Theorem partial_stream_not_sealed h : payload_size (header_item h) < 2 ^ 64 ->
  stream_rlp (H := RlpRef.rlp_ref) true h <> RlpRef.encode (seal_item h).
Proof.
  intros Hs. unfold stream_rlp, rlp_stream, seal_item. rewrite app_nil_r.
  change (13 + 0)%nat with (length (header_fields h)). rewrite take_app_length, drop_app_length. cbn [map concat].
  unfold header_item in Hs.
  assert (forall a b, payload_size (Lst (a ++ b)) = payload_size (Lst a) + payload_size (Lst b)) as Happ.
  { intros a b. induction a as [|x a IH]; [done|]. cbn [app payload_size foldr] in *. lia. }
  rewrite Happ in Hs. pose proof (payload_size_nonneg (Lst (header_fields h))) as H0.
  cbn [payload_size foldr] in Hs, H0. apply encode_list_closed.
  - cbn [payload_size]. lia.
  - rewrite Happ. cbn [payload_size foldr]. lia.
  - rewrite app_nil_r. intros E%(f_equal length). pose proof (RlpRef.length_encode (Str (be_min (base_fee_per_gas h)))) as Hl.
    cbn [payload_size] in Hl. change (rlp_encode (Str (be_min (base_fee_per_gas h)))) with (RlpRef.encode (Str (be_min (base_fee_per_gas h)))) in E.
    specialize (Hl ltac:(lia)). rewrite E in Hl. cbn [length] in Hl. lia.
Qed.

(** ** Witnesses *)

Module Witness.
Import RlpRef.

(** A toy hash of 61 bits, in 32 bytes. *)
Definition small_hash (bs : list Z) : list Z :=
  le_bytes 32 (foldl (fun h b => Z.land (h * 257 + b + 1) (2 ^ 61 - 1)) 0 bs).

#[export] Instance small_keccak : Keccak := {|
  keccak256 := small_hash;
  keccak256_length bs := length_le_bytes 32 _;
  keccak256_bytes bs := le_bytes_ok 32 _
|}.

#[export] Instance small_sha : Sha256 := {| near_sha256 := small_hash |}.

(** A proof of work that reads one node and always succeeds. *)
#[export] Instance toy_ethash : Ethash := {|
  get_full_size n := n;
  cross_boundary _ := 2 ^ 256;
  hashimoto_with_hasher h n size lookup idx := '(_, idx') ← lookup 0 idx; Ret (replicate 32 0, replicate 32 0, idx')
|}.

Definition node1 : DoubleNodeWithMerkleProof := {| dag_nodes := [replicate 64 1; replicate 64 2]; proof := [] |}.

Definition header_at (parent : list Z) (diff n gas : Z) (root : list Z) : BlockHeader := {|
  parent_hash := parent; uncles_hash := replicate 32 2; author := replicate 20 3; state_root := replicate 32 4;
  transactions_root := replicate 32 5; receipts_root := root; bloom := replicate 256 0; difficulty := diff; number := n;
  gas_limit := gas; header_gas_used := 0; timestamp := 1000 + n; extra_data := []; mix_hash := replicate 32 6;
  nonce := replicate 8 0; base_fee_per_gas := 7; hash := []; partial_hash := [] |}.

Definition enc (parent : list Z) (diff n : Z) (root : list Z) : list Z :=
  rlp_encode (header_item (header_at parent diff n 8000000 root)).

Definition receipts : list Z := keccak256 (rlp_encode EthProver.Witness.leaf0).

(** A chain 100, 101, 102 and a heavier fork 101', 102'. *)
Definition e100 : list Z := Eval vm_compute in enc (replicate 32 1) 10 100 receipts.
Definition e101 : list Z := Eval vm_compute in enc (keccak256 e100) 10 101 receipts.
Definition e102 : list Z := Eval vm_compute in enc (keccak256 e101) 10 102 receipts.
Definition f101 : list Z := Eval vm_compute in enc (keccak256 e100) 11 101 (replicate 32 9).
Definition f102 : list Z := Eval vm_compute in enc (keccak256 f101) 11 102 receipts.

Definition all_headers : list (list Z) := [e100; e101; e102; f101; f102].
Definition D0 (d : list Z) : Prop := d ∈ all_headers.

Definition env1 : ClientEnv := {| client_env := {| current_account_id := "client"; predecessor_account_id := "relay" |};
  signer_account_id := "relay" |}.

Definition start : outcome EthClient := init None false 0 [replicate 16 0] e100 50 10 1 None.

(** The client after a list of headers. *)
Definition fed (ds : list (list Z)) : outcome EthClient :=
  foldl (fun o d => s ← o; add_block_header env1 s d [node1]) start ds.

Definition client5 : EthClient := Eval vm_compute in match fed [e101; e102; f101; f102] with Ret s => s
  | _ => mkClient false 0 [] [] 0 0 0 ∅ ∅ ∅ ∅ None 0 end.

Lemma submissions0 : Submissions D0.
Proof.
  split.
  - assert (Forall (fun d => Forall (fun d' => keccak256 d = keccak256 d' -> d = d') all_headers) all_headers) as H
      by (apply (bool_decide_unpack _); vm_compute; exact I).
    intros d d' Hd Hd'. rewrite list.Forall_forall in H. specialize (H d Hd). rewrite list.Forall_forall in H. auto.
  - assert (Forall (fun d => match decode_header d with Some h => 0 <=? number h | None => true end = true) all_headers) as H
      by (apply (bool_decide_unpack _); vm_compute; exact I).
    intros d h Hd Hh. rewrite list.Forall_forall in H. specialize (H d Hd). rewrite Hh in H. by apply Z.leb_le.
Qed.

Lemma reach_fed ds s : fed ds = Ret s -> Forall D0 ds -> trusted_signer s = None /\ reachable D0 s.
Proof.
  revert s. induction ds as [|d ds IH] using rev_ind; intros s H HD.
  - split; [by apply outcome_bind_inv in H as (? & _ & H); apply outcome_bind_inv in H as (? & _ & <-%Ret_inj)|].
    apply (reach_init D0 false 0 [replicate 16 0] e100 50 10 1 None s); [by left | lia | exact H].
  - unfold fed in H. rewrite foldl_app in H. cbn [foldl] in H. apply outcome_bind_inv in H as (s0 & H0 & H).
    apply list.Forall_app in HD as [HD1 HD2]. destruct (IH s0 H0 HD1) as [Ht Hr]. split.
    + apply add_block_header_inv in H as (x & _ & _ & _ & Hrec%record_header_config). injection Hrec. congruence.
    + apply (reach_step D0 s0); [done|].
      apply (step_add D0 env1 s0 d [node1] s); [by inversion HD2 | done | by intros header Hn].
Qed.

Lemma reachable5 : reachable D0 client5.
Proof.
  apply (reach_fed [e101; e102; f101; f102]); [vm_compute; reflexivity|].
  apply (bool_decide_unpack _). vm_compute. exact I.
Qed.

Lemma client_follows_heaviest_witness :
  Submissions D0 /\ reachable D0 client5 /\ best_header_hash client5 = keccak256 f102 /\
  block_hash client5 101 = Some (keccak256 f101) /\
  (exists b, infos client5 !! best_header_hash client5 = Some b /\ info_number b = last_block_number client5 /\
     forall h i, infos client5 !! h = Some i -> total_difficulty i <= total_difficulty b).
Proof.
  split; [exact submissions0|]. split; [exact reachable5|]. split; [vm_compute; reflexivity|]. split; [vm_compute; reflexivity|].
  apply (client_follows_heaviest D0 client5 submissions0 reachable5).
Defined.

Lemma block_hash_was_submitted_witness :
  exists d header, D0 d /\ decode_header d = Some header /\ hash header = keccak256 e100 /\ number header = 100.
Proof.
  apply (block_hash_was_submitted D0 client5 100 (keccak256 e100) submissions0 reachable5). vm_compute. reflexivity.
Defined.

Definition env2 : Env := {| current_account_id := "prover"; predecessor_account_id := "user" |}.
Definition env3 : Env := {| current_account_id := "prover"; predecessor_account_id := "prover" |}.

(** The log of the receipt of block 100, with two blocks on top. *)
Lemma accepted_log_is_canonical_witness :
  exists log receipt header,
    decode_log (rlp_encode EthProver.Witness.log0) = Some log /\
    decode_receipt (rlp_encode EthProver.Witness.receipt0) = Some receipt /\ logs receipt !! as_usize 0 = Some log /\
    decode_header e100 = Some header /\
    verify_trie_proof (receipts_root header) (rlp_uint 0) [rlp_encode EthProver.Witness.leaf0] =
      Some (rlp_encode EthProver.Witness.receipt0) /\
    D0 e100 /\ block_hash client5 (number header) = Some (hash header) /\
    number header + num_confirmations client5 <= last_block_number client5 /\
    (0 <= num_confirmations client5 -> known_hashes client5 (number header) <> [] ->
       ancestor (infos client5) (best_header_hash client5) (Z.to_nat (last_block_number client5 - number header)) = Some (hash header)).
Proof.
  apply (accepted_log_is_canonical D0 client5 env2 env3 EthProver.Witness.prover0 0 _ 0 _ e100 _ "client" 100 (keccak256 e100)
    (Some (keccak256 e100)) submissions0 reachable5); [|vm_compute; reflexivity..].
  intros d Hd. apply (sub_free D0 submissions0); [exact Hd | by left].
Defined.

End Witness.
