(* ===== verification/Eth2NearSystem.v ===== *)
(** * The Ethereum-to-NEAR relay and the client together

    Eth2NearRelay.v models the relay against any client, EthClient.v the
    client contract.  Here the relay runs against the contract: an interface
    ([ServicesOk]) states that its views read the contract, that a batch of
    [add_block_header] calls is executed by it as a whole, and that the
    Ethereum node and the ethashproof relayer serve one main chain.  A round
    finds the newest block of the main chain the client knows, even with the
    client on a fork, and the loop carries the client to the head of the main
    chain. *)

From S2P Require Import Prelude Interfaces Borsh Robust Metrics NearTx EthOnNearClient BinarySearch Eth2NearRelay Rlp EthProver EthClient EthClientInv.

(** ** The main chain *)

(** The nodes of the DAG as the contract reads them. *)
Definition to_node (d : DagNode) : DoubleNodeWithMerkleProof := {| dag_nodes := [dn_first d; dn_second d]; proof := dn_proof d |}.

Section MainChain.
Context {RL : RlpLib} {KC : Keccak} {SH : Sha256} {EH : Ethash} (D : list Z -> Prop).
(** The encoded header of every number, what it decodes to, its DAG nodes
    and its total difficulty; the head, and the configuration of the client. *)
Context (enc : Z -> list Z) (hdr : Z -> BlockHeader) (dag : Z -> list DagNode) (total : Z -> Z) (top : Z) (s0 : EthClient).

Abbreviation hash_at n := (hash (hdr n)).

(** The blocks up to [top] are valid for a client that is configured like
    [s0]. *)
Class MainChain : Prop := {
  mc_free : collision_free D;
  mc_submitted n : 0 <= n <= top -> D (enc n);
  mc_decode n : 0 <= n <= top -> decode_header (enc n) = Some (hdr n) /\ number (hdr n) = n;
  mc_parent n : 0 <= n < top -> parent_hash (hdr (n + 1)) = hash_at n;
  mc_valid s n : 0 <= n < top -> config s = config s0 -> valid_child s (hdr (n + 1)) (hdr n) (map to_node (dag (n + 1)));
  mc_fits n : 0 <= n < top -> products_fit (hdr n);
  mc_total n : 0 <= n < top -> total (n + 1) = total n + difficulty (hdr (n + 1));
  mc_difficulty n : 0 <= n <= top -> 0 < difficulty (hdr n);
  mc_range n : 0 <= n <= top -> 0 <= total n < 2 ^ 256;
  mc_top : top + finalized_gc_threshold s0 < 2 ^ 64;
  mc_open : trusted_signer s0 = None /\ client_paused s0 = 0;
  mc_thresholds : thresholds_ok s0
}.

(** The client knows the main chain up to [m] and nothing of it beyond; its
    other headers are lighter than every main chain block above them. *)
Record tracked (m lo hi : Z) (s : EthClient) : Prop := {
  tr_known : known_inv D lo hi s;
  tr_chain : chain_inv D lo s;
  tr_recent : recent lo s;
  tr_config : config s = config s0;
  tr_shared : hash_at m ∈ EthClient.known_hashes s m;
  tr_next n : m < n <= top -> hash_at n ∉ EthClient.known_hashes s n;
  tr_total n i : 0 <= n <= top -> infos s !! hash_at n = Some i -> total_difficulty i = total n;
  tr_fork h i : infos s !! h = Some i ->
    (info_number i <= top /\ h = hash_at (info_number i)) \/
    forall n, info_number i < n <= top -> total_difficulty i < total n
}.

Context {MC : MainChain}.

Lemma total_mono n n' : 0 <= n -> n < n' <= top -> total n < total n'.
Proof using MC.
  intros H0 [Hlt Htop]. remember (Z.to_nat (n' - n - 1)) as k eqn:Ek. revert n' Hlt Htop Ek.
  induction k as [|k IH]; intros n' Hlt Htop Ek; (replace n' with (n' - 1 + 1) by lia); rewrite mc_total by lia;
    pose proof (mc_difficulty (n' - 1 + 1) ltac:(lia)).
  - replace (n' - 1) with n by lia. replace (n' - 1 + 1) with (n + 1) in * by lia. lia.
  - specialize (IH (n' - 1) ltac:(lia) ltac:(lia) ltac:(lia)). lia.
Qed.

Lemma hash_at_inj n n' : 0 <= n <= top -> 0 <= n' <= top -> hash_at n = hash_at n' -> n = n'.
Proof using MC.
  intros Hn Hn' Heq. destruct (mc_decode n Hn) as [Hd <-], (mc_decode n' Hn') as [Hd' <-].
  rewrite (decode_header_hash _ _ Hd), (decode_header_hash _ _ Hd') in Heq.
  apply (mc_free) in Heq; [congruence | by apply mc_submitted | by apply mc_submitted].
Qed.

Section Tracked.
Context (m lo hi : Z) (s : EthClient) (T : tracked m lo hi s).

Abbreviation L := (EthClient.last_block_number s).

Lemma tracked_info : exists i, infos s !! hash_at m = Some i /\ info_number i = m.
Proof using T. apply (ki_known _ _ _ _ (tr_known _ _ _ _ T)), (tr_shared _ _ _ _ T). Qed.

Lemma tracked_span : lo <= m <= hi.
Proof using T. destruct tracked_info as (i & Hi & <-). apply (known_span D lo hi s _ _ (tr_known _ _ _ _ T) Hi). Qed.

(** The header stored under the hash of a main chain block is that block. *)
Lemma stored_header n x : 0 <= n <= top -> headers s !! hash_at n = Some x -> x = hdr n.
Proof using T MC.
  intros Hn Hx. destruct (ki_header _ _ _ _ (tr_known _ _ _ _ T) _ _ Hx) as (i & d & _ & _ & HD & Hd & Hh).
  destruct (mc_decode n Hn) as [Hdn _]. rewrite (decode_header_hash _ _ Hd), (decode_header_hash _ _ Hdn) in Hh.
  apply mc_free in Hh; [congruence | done | by apply mc_submitted].
Qed.

(** The main chain is known from [lo] to [m]. *)
Lemma shared_below n : m <= top -> lo <= n <= m -> exists i, infos s !! hash_at n = Some i /\ info_number i = n.
Proof using T MC.
  intros Hm Hn. pose proof (ki_lo _ _ _ _ (tr_known _ _ _ _ T)) as H0.
  replace n with (m - Z.of_nat (Z.to_nat (m - n))) by lia. assert (Z.of_nat (Z.to_nat (m - n)) <= m - lo) as Hk by lia.
  induction (Z.to_nat (m - n)) as [|k IH]; [rewrite Z.sub_0_r; apply tracked_info|].
  destruct (IH ltac:(lia)) as (i & Hi & Hin). set (j := m - Z.of_nat (S k)). replace (m - Z.of_nat k) with (j + 1) in * by lia.
  destruct (ki_parent _ _ _ _ (tr_known _ _ _ _ T) _ _ Hi ltac:(lia)) as (p & x & Hp & Hpn & Hx & Hpar & _).
  apply stored_header in Hx as ->; [|lia]. rewrite mc_parent in Hpar by lia. rewrite Hpar in Hp. exists p. split; [done | lia].
Qed.

(** The ancestors of the newest known block of the main chain. *)
Lemma shared_ancestor k : m <= top -> lo <= m - Z.of_nat k -> ancestor (infos s) (hash_at m) k = Some (hash_at (m - Z.of_nat k)).
Proof using T MC.
  intros Hm. pose proof (ki_lo _ _ _ _ (tr_known _ _ _ _ T)) as H0. induction k as [|k IH]; intros Hk; [by rewrite Z.sub_0_r|].
  replace (S k) with (k + 1)%nat by lia. rewrite (ancestor_add _ _ k _ 1 (IH ltac:(lia))). cbn [ancestor].
  set (j := m - Z.of_nat (k + 1)). replace (m - Z.of_nat k) with (j + 1) by lia.
  destruct (shared_below (j + 1) Hm ltac:(lia)) as (i & Hi & Hin). rewrite Hi. cbn.
  destruct (ki_parent _ _ _ _ (tr_known _ _ _ _ T) _ _ Hi ltac:(lia)) as (p & x & _ & _ & Hx & -> & _).
  apply stored_header in Hx as ->; [|lia]. by rewrite mc_parent by lia.
Qed.

(** A main chain block is known exactly from [lo] to [m]. *)
Lemma shared_known n : m <= top -> lo <= n <= top -> hash_at n ∈ EthClient.known_hashes s n <-> n <= m.
Proof using T MC.
  intros Hm Hn. destruct (decide (n <= m)) as [Hle|Hgt].
  - split; [done|]. intros _. apply (ki_known _ _ _ _ (tr_known _ _ _ _ T)). apply shared_below; lia.
  - split; [|done]. intros Hk. exfalso. exact (tr_next _ _ _ _ T n ltac:(lia) Hk).
Qed.

(** The best header is at [m] when it is on the main chain, and at [m] or
    above otherwise. *)
Lemma best_position : m <= top -> exists b, infos s !! best_header_hash s = Some b /\ info_number b = L /\ m <= L /\
  (best_header_hash s = hash_at m /\ L = m /\ total_difficulty b = total m \/
   forall n, L < n <= top -> total_difficulty b < total n).
Proof using T MC.
  intros Hm. destruct (ch_best _ _ _ (tr_chain _ _ _ _ T)) as (b & Hb & Hmax). pose proof (last_block_number_best s b Hb) as HL.
  exists b. split; [done|]. split; [done|]. destruct tracked_info as (i & Hi & Him). specialize (Hmax _ _ Hi).
  pose proof tracked_span as Hspan. pose proof (ki_lo _ _ _ _ (tr_known _ _ _ _ T)) as H0.
  pose proof (known_span _ _ _ _ _ _ (tr_known _ _ _ _ T) Hb) as Hbspan.
  rewrite (tr_total _ _ _ _ T m i) in Hmax by (done || lia).
  destruct (tr_fork _ _ _ _ T _ _ Hb) as [[Htop Hh]|Hoff]; rewrite <- HL in *.
  - rewrite (tr_total _ _ _ _ T L b) in Hmax by (lia || (rewrite <- Hh; done)).
    assert (hash_at L ∈ EthClient.known_hashes s L) as Hk by (apply (ki_known _ _ _ _ (tr_known _ _ _ _ T)); rewrite <- Hh; eauto).
    apply shared_known in Hk; [|lia|lia]. assert (L = m) as E.
    { destruct (decide (L < m)) as [Hlt|]; [|lia]. pose proof (total_mono L m ltac:(lia) ltac:(lia)). lia. }
    split; [lia|]. left. rewrite <- E at 1. split; [done|]. split; [done|]. rewrite <- E. apply (tr_total _ _ _ _ T); [lia | by rewrite <- Hh].
  - split; [|by right]. apply Z.nlt_ge. intros Hlt. specialize (Hoff m ltac:(lia)). lia.
Qed.

End Tracked.

(** *** One more block of the main chain *)

Lemma gc_headers_infos n s : infos (gc_headers n s) ⊆ infos s.
Proof.
  revert s. induction n as [|n IH]; intros s; cbn [gc_headers]; destruct (all_header_hashes s !! _) as [l|]; try done.
  all: assert (foldl (fun m h => delete h m) (infos s) l ⊆ infos s) as Hsub
    by (apply map_subseteq_spec; intros h i; rewrite foldl_delete_lookup; destruct (decide _); [done | auto]).
  - exact Hsub.
  - etransitivity; [apply IH | exact Hsub].
Qed.

Lemma advanced_infos s header s1 : infos (advanced s header s1) ⊆ infos s1.
Proof. unfold advanced, collect_headers. destruct (_ <=? _); [|done]. exact (gc_headers_infos _ _). Qed.

(** The next block is accepted. *)
Lemma next_accepted env m lo hi s : tracked m lo hi s -> m < top ->
  exists s', add_block_header env s (enc (m + 1)) (map to_node (dag (m + 1))) = Ret s' /\ record_header s (hdr (m + 1)) = Ret s'.
Proof using MC.
  intros T Hm. pose proof (tracked_span m lo hi s T) as Hspan. pose proof (ki_lo _ _ _ _ (tr_known _ _ _ _ T)) as H0.
  destruct (mc_decode (m + 1) ltac:(lia)) as [Hd Hn]. destruct mc_open as [Hts Hpa].
  destruct (tracked_info m lo hi s T) as (p & Hp & Hpn). destruct (ki_info _ _ _ _ (tr_known _ _ _ _ T) _ _ Hp) as [x Hx].
  pose proof (stored_header m lo hi s T m x ltac:(lia) Hx) as ->.
  destruct (best_position m lo hi s T ltac:(lia)) as (b & Hb & HbL & _).
  pose proof (tr_config _ _ _ _ T) as Hcfg. injection Hcfg as Hv He Hr HhT HfT Hnc Hts' Hpa'.
  pose proof (tr_recent _ _ _ _ T) as Hrec. unfold recent in Hrec. pose proof mc_thresholds as [Ht1 Ht2]. pose proof mc_top as Htop.
  assert (record_header s (hdr (m + 1)) = Ret (if heavier (new_info (hdr (m + 1)) (total_difficulty p + difficulty (hdr (m + 1)))) b (hdr (m + 1))
    then advanced s (hdr (m + 1)) (inserted s (hdr (m + 1)) (total_difficulty p + difficulty (hdr (m + 1))))
    else inserted s (hdr (m + 1)) (total_difficulty p + difficulty (hdr (m + 1))))) as Hrh.
  { apply record_header_ok; rewrite ?Hn; [done | by rewrite mc_parent by lia | lia | apply (tr_next _ _ _ _ T); lia | lia | lia | lia|].
    rewrite (tr_total _ _ _ _ T m p) by (done || lia). rewrite <- mc_total by lia. apply mc_range. lia. }
  eexists. split; [|exact Hrh]. unfold add_block_header, client_is_paused. rewrite Hpa', Hpa, Hd. cbn [Z.land Z.eqb negb andb assert_ expect mbind outcome_bind].
  unfold authorize_header. rewrite Hts', Hts, mc_parent, Hx by lia. cbn [expect mbind outcome_bind].
  rewrite verify_header_complete; [exact Hrh | apply mc_fits; lia | apply mc_valid; [lia | apply (tr_config _ _ _ _ T)]].
Qed.

Lemma tracked_next m lo hi s s' : tracked m lo hi s -> m < top -> record_header s (hdr (m + 1)) = Ret s' ->
  exists lo' hi', tracked (m + 1) lo' hi' s' /\ (lo' = lo \/ lo' = new_lo s0 lo (m + 1)) /\
    (EthClient.last_block_number s' = EthClient.last_block_number s /\ best_header_hash s' = best_header_hash s \/
     EthClient.last_block_number s' = m + 1 /\ best_header_hash s' = hash_at (m + 1)).
Proof using MC.
  intros T Hm Hrh. pose proof (tracked_span m lo hi s T) as Hspan. pose proof (ki_lo _ _ _ _ (tr_known _ _ _ _ T)) as H0.
  destruct (mc_decode (m + 1) ltac:(lia)) as [Hd Hn]. pose proof (tr_config _ _ _ _ T) as Hcfg.
  destruct (tracked_info m lo hi s T) as (p & Hp & Hpn). rewrite <- (mc_parent m) in Hp by lia.
  assert (numbered s (hdr (m + 1))) as Hnum by (intros q Hq; rewrite Hp in Hq; injection Hq as <-; lia).
  destruct (record_header_preserves D lo hi s (enc (m + 1)) (hdr (m + 1)) s') as (lo' & K' & C' & R' & Hlo'); try done.
  { apply mc_free. } { by eapply thresholds_config, mc_thresholds. } { apply T. } { apply T. } { apply T. } { apply mc_submitted. lia. }
  pose proof (record_header_config _ _ _ Hrh) as Hcfg'. rewrite Hcfg in Hcfg'.
  assert (finalized_gc_threshold s = finalized_gc_threshold s0) as HfT by (injection Hcfg; congruence).
  destruct (record_header_inv _ _ _ Hrh) as (b & p' & Hb & Hp' & _ & Hno & Hs'). rewrite Hp in Hp'. injection Hp' as <-.
  assert (total_difficulty p + difficulty (hdr (m + 1)) = total (m + 1)) as Htot.
  { rewrite mc_total by lia. f_equal. apply (tr_total _ _ _ _ T); [lia|]. by rewrite <- mc_parent by lia. }
  assert (infos s !! hash_at (m + 1) = None) as Hfresh.
  { apply (unknown_fresh D lo hi s (enc (m + 1))); try done; [apply mc_free | apply T | apply mc_submitted; lia]. }
  cbv zeta in Hs'. rewrite Htot in Hs'. set (i1 := new_info (hdr (m + 1)) (total (m + 1))) in *.
  set (s1 := inserted s (hdr (m + 1)) (total (m + 1))) in *.
  assert (infos s' ⊆ <[hash_at (m + 1) := i1]> (infos s)) as Hsub.
  { rewrite Hs'. destruct (heavier _ _ _); [exact (advanced_infos s (hdr (m + 1)) s1) | done]. }
  assert (infos s' !! hash_at (m + 1) = Some i1 /\
    (EthClient.last_block_number s' = EthClient.last_block_number s /\ best_header_hash s' = best_header_hash s \/
     EthClient.last_block_number s' = m + 1 /\ best_header_hash s' = hash_at (m + 1))) as [Hi1 Hlast].
  { destruct (heavier _ _ _) eqn:Eh.
    - destruct (advanced_inv D lo hi s (hdr (m + 1)) (enc (m + 1)) p b) as (_ & C1 & Hbest & Hl1); try done.
      { apply mc_free. } { by eapply thresholds_config, mc_thresholds. } { apply T. } { apply T. } { apply mc_submitted. lia. }
      { lia. } { apply heavier_total in Eh. cbn in Eh. lia. }
      rewrite Htot in C1, Hbest, Hl1. fold s1 in C1, Hbest, Hl1. rewrite <- Hs' in C1, Hbest, Hl1. rewrite Hn in Hl1. split; [|by right].
      destruct (ch_best _ _ _ C1) as (b1 & Hb1 & _). rewrite Hbest in Hb1. rewrite Hb1.
      pose proof (lookup_weaken _ _ _ _ Hb1 Hsub) as Hw. by rewrite lookup_insert_eq in Hw.
    - subst s'. split; [apply lookup_insert_eq|]. left. split; [|done]. unfold EthClient.last_block_number. cbn.
      by rewrite lookup_insert_ne by congruence. }
  assert (forall h i, infos s' !! h = Some i -> h = hash_at (m + 1) /\ i = i1 \/ infos s !! h = Some i) as Hold.
  { intros h i Hi. apply (lookup_weaken _ _ _ _ Hi) in Hsub. apply lookup_insert_Some in Hsub as [[<- <-]|[_ ?]]; auto. }
  exists lo', (Z.max hi (number (hdr (m + 1)))). split; [|split; [by unfold new_lo in *; rewrite <- HfT, <- Hn at 1 | exact Hlast]].
  split; try done.
  - apply (ki_known _ _ _ _ K'). exists i1. split; [done|]. by cbn.
  - intros n Hn' Hk. apply (ki_known _ _ _ _ K') in Hk as (i & Hi & Hin). destruct (Hold _ _ Hi) as [[Heq _]|Hi'].
    + apply hash_at_inj in Heq; lia.
    + apply (tr_next _ _ _ _ T n); [lia|]. apply (ki_known _ _ _ _ (tr_known _ _ _ _ T)). eauto.
  - intros n i Hn' Hi. destruct (Hold _ _ Hi) as [[Heq ->]|Hi']; [|by apply (tr_total _ _ _ _ T)].
    apply hash_at_inj in Heq as ->; [done | lia | lia].
  - intros h i Hi. destruct (Hold _ _ Hi) as [[-> ->]|Hi']; [left; cbn; rewrite Hn; split; [lia | done] | by apply (tr_fork _ _ _ _ T)].
Qed.

(** *** A batch of blocks *)

(** The calls of one transaction: the state is changed by all or by none. *)
Fixpoint add_headers (env : ClientEnv) (s : EthClient) (calls : list (list Z * list DoubleNodeWithMerkleProof)) : outcome EthClient :=
  match calls with
  | [] => Ret s
  | (header, nodes) :: rest => s' ← add_block_header env s header nodes; add_headers env s' rest
  end.

Definition call_at (n : Z) : list Z * list DoubleNodeWithMerkleProof := (enc n, map to_node (dag n)).

(** The client is on the way: it knows [2 * depth] blocks of the main chain
    below the newest one, its best header is at most [depth] above that, and
    it is the newest one or not above [start]. *)
Record on_way (depth start m : Z) (s : EthClient) : Prop := {
  ow_tracked : exists lo hi, tracked m lo hi s /\ 2 * depth <= m - lo;
  ow_depth : EthClient.last_block_number s - m <= depth;
  ow_start : best_header_hash s = hash_at m \/ EthClient.last_block_number s <= start
}.

Lemma on_way_next env depth start m s : on_way depth start m s -> 0 <= depth -> 2 * depth < finalized_gc_threshold s0 -> m < top ->
  exists s', add_block_header env s (call_at (m + 1)).1 (call_at (m + 1)).2 = Ret s' /\ on_way depth start (m + 1) s'.
Proof using MC.
  intros [(lo & hi & T & Hw) Hd Hst] Hd0 HfT Hm.
  destruct (next_accepted env m lo hi s T Hm) as (s' & Hadd & Hrh). exists s'. split; [exact Hadd|].
  destruct (tracked_next m lo hi s s' T Hm Hrh) as (lo' & hi' & T' & Hlo & HL).
  split; [exists lo', hi'; split; [done|]; unfold new_lo in Hlo; lia | lia|].
  destruct HL as [[HL Hbest]|[_ Hbest]]; [right | by left]. destruct Hst as [Hst|Hst]; [|lia]. exfalso.
  destruct (best_position (m + 1) lo' hi' s' T' ltac:(lia)) as (_ & _ & _ & Hle & _).
  destruct (tracked_info m lo hi s T) as (i & Hi & Him). rewrite <- Hst in Hi. pose proof (last_block_number_best s i Hi). lia.
Qed.

Lemma on_way_last depth start m s : on_way depth start m s -> m <= top -> m <= EthClient.last_block_number s <= Z.max start m.
Proof using MC.
  intros [(lo & hi & T & _) _ Hst] Hm. destruct (best_position m lo hi s T Hm) as (_ & _ & _ & Hle & _). split; [done|].
  destruct Hst as [Hst|Hst]; [|lia]. destruct (tracked_info m lo hi s T) as (i & Hi & Him). rewrite <- Hst in Hi.
  pose proof (last_block_number_best s i Hi). lia.
Qed.

Lemma on_way_batch env depth start m k s : on_way depth start m s -> 0 <= depth -> 2 * depth < finalized_gc_threshold s0 ->
  m + Z.of_nat k <= top ->
  exists s', add_headers env s (map call_at (from (m + 1) k)) = Ret s' /\ on_way depth start (m + Z.of_nat k) s'.
Proof using MC.
  intros Hw Hd HfT. revert m s Hw. induction k as [|k IH]; intros m s Hw Hk; [exists s; by rewrite Z.add_0_r|].
  destruct (on_way_next env depth start m s Hw Hd HfT ltac:(lia)) as (s1 & Hadd & Hw1).
  destruct (IH (m + 1) s1 Hw1 ltac:(lia)) as (s2 & Hadd2 & Hw2). exists s2.
  change (add_headers env s (map call_at (from (m + 1) (S k)))) with
    (s' ← add_block_header env s (call_at (m + 1)).1 (call_at (m + 1)).2; add_headers env s' (map call_at (from (m + 1 + 1) k))).
  rewrite Hadd. cbn [mbind outcome_bind]. split; [done|]. by replace (m + Z.of_nat (S k)) with (m + 1 + Z.of_nat k) by lia.
Qed.

End MainChain.

(** ** Hashes as strings *)

Section Hex.
Context {HX : HexLib} {HXok : HexLibOk}.

Lemma bytesToHex_inj a b : bytes_ok a -> bytes_ok b -> bytesToHex a = bytesToHex b -> a = b.
Proof.
  intros Ha Hb Heq. pose proof (hexToBytes_bytesToHex a Ha) as H. rewrite Heq, (hexToBytes_bytesToHex b Hb) in H. by apply Ret_inj in H.
Qed.

Lemma bytesToHex_nonempty a : bytes_ok a -> a <> [] -> bytesToHex a <> "".
Proof.
  intros Ha Hne He. destruct a as [|b a]; [done|]. inversion Ha as [|? ? Hb Ha']; subst.
  pose proof (bytesToHex_app [b] a) as H1. cbn [app] in H1. rewrite He in H1.
  assert (bytesToHex [b] = "") as H2 by (destruct (bytesToHex [b]); [done | discriminate]).
  pose proof (bytesToHex_app [b] [b]) as H3. rewrite H2 in H3. cbn in H3.
  assert (bytes_ok [b] /\ bytes_ok [b; b]) as [O1 O2] by (split; repeat constructor; apply Hb).
  assert ([b] = [b; b]) by (apply bytesToHex_inj; [done | done | by rewrite H2, H3]). done.
Qed.

Lemma hash_known_spec hs h : Forall bytes_ok hs -> bytes_ok h -> h <> [] ->
  hash_known (VArr (map (fun h => VStr (bytesToHex h)) hs)) (VStr (bytesToHex h)) = Ret (bool_decide (h ∈ hs)).
Proof.
  intros Hhs Hh Hne. cbn [hash_known]. f_equal. induction Hhs as [|x hs Hx _ IH]; [done|]. cbn [map existsb]. rewrite IH.
  destruct (decide (h = x)) as [->|Hneq].
  - rewrite String.eqb_refl. cbn [andb orb]. destruct (String.eqb_spec (bytesToHex x) "") as [He|_]; [by apply bytesToHex_nonempty in He|].
    symmetry. apply bool_decide_eq_true. by left.
  - destruct (String.eqb_spec (bytesToHex x) (bytesToHex h)) as [He|_]; [by apply bytesToHex_inj in He|]. cbn [andb orb].
    apply bool_decide_ext. set_solver.
Qed.

End Hex.

(** ** The interface of the relay *)

Section System.
Context {RL : RlpLib} {KC : Keccak} {SH : Sha256} {EH : Ethash} (D : list Z -> Prop).
Context (enc : Z -> list Z) (hdr : Z -> BlockHeader) (dag : Z -> list DagNode) (total : Z -> Z) (top : Z) (s0 : EthClient).
Context {N : Type} (near : NearNode N) (eth : Web3Node (KeyWorld N)) (ethNodeUrl : string).
Context (rpc : Z -> service (KeyWorld N) val) (header_rlp : string -> bool -> val -> outcome (list Z)).
Context (ethashproof : list Z -> service (KeyWorld N) ParsedBlock) (contractId : string) (relay : Eth2NearRelay).
Context (account_signAndSend : string -> list FunctionCall -> service (KeyWorld N) unit).
Context {BW : BinaryWriter} {BWok : BinaryWriterOk} {BN : BnLib} {BNok : BnLibOk} {HX : HexLib} {HXok : HexLibOk}.
(** The client contract in the network, and the account the relay signs for. *)
Context (contract : N -> EthClient) (env : ClientEnv).

Abbreviation hash_at n := (hash (hdr n)).

(** The contract is [c]. *)
Definition has (c : EthClient) (w : KeyWorld N) : Prop := contract (key_net w) = c.

(** A view of the contract: the bytes of the answer decode to the value. *)
Definition answers_view (method : string) (input output : option fieldType) (args : val) (value : EthClient -> val) : Prop :=
  forall bytes n, serialize schema_fuel borshSchema input args = Ret bytes -> exists q n' b bs,
    near_query near ("call/" +:+ contractId +:+ "/" +:+ method) bytes n = (Ret q, n') /\ contract n' = contract n /\
    qr_result q = Some (b :: bs) /\ deserialize schema_fuel borshSchema output (b :: bs) = Ret (value (contract n)).

(** A request that returns a value with [P] and leaves the contract alone. *)
Definition asks {A} (op : service (KeyWorld N) A) (P : A -> Prop) : Prop :=
  forall w, exists a w', op w = (Ret a, w') /\ contract (key_net w') = contract (key_net w) /\ P a.

(** The object the Ethereum node answers for block [n]. *)
Definition block_object (n : Z) (v : val) : Prop :=
  v <> VNull /\ get_prop v "hash" = Ret (VStr (bytesToHex (hash_at n))) /\ web3BlockToRlp header_rlp v VUndef = Ret (enc n).

(** What ethashproof prints for block [n]. *)
Definition printed (n : Z) (p : ParsedBlock) : Prop :=
  exists hex L nodes, p = raw_block hex L nodes /\ hexToBytes (VStr hex) = Ret (enc n) /\ Forall2 (node_denotes L) nodes (dag n) /\
    Z.of_nat (length (enc n)) < 2 ^ 32 /\ Z.of_nat (length nodes) < 2 ^ 32 /\ Z.of_nat L < 2 ^ 32.

(** The action is the [add_block_header] call for block [n]. *)
Definition adds (n : Z) (a : FunctionCall) : Prop :=
  fc_method a = "add_block_header" /\
  deserialize schema_fuel borshSchema (Some (FName "addBlockHeaderInput")) (fc_args a) =
    Ret (VObj [("block_header", VArr (map VNum (enc n))); ("dag_nodes", VArr (map dag_val (dag n)))]).

(** The node reports the head [head]; it serves the blocks up to [top],
    which are produced while the relay waits for them. *)
Class ServicesOk (head : Z) : Prop := {
  so_last_block_number : answers_view "last_block_number" None (Some (FName "u64")) VUndef
    (fun c => VNum (EthClient.last_block_number c));
  so_known_hashes n : 0 <= n < 2 ^ 64 -> answers_view "known_hashes" (Some (FName "u64")) (Some (FArray (FName "H256"))) (VNum n)
    (fun c => VArr (map (fun h => VStr (bytesToHex h)) (EthClient.known_hashes c n)));
  so_rpc n : 0 <= n <= top -> asks (rpc n) (block_object n);
  so_ethashproof n : 0 <= n <= top -> asks (ethashproof (enc n)) (printed n);
  so_blockNumber : asks (node_getBlockNumber eth) (fun v => v = VNum head);
  so_send numbers actions w : Forall2 adds numbers actions -> exists w',
    match add_headers env (contract (key_net w)) (map (call_at enc dag) numbers) with
    | Ret c => account_signAndSend contractId actions w = (Ret tt, w') /\ contract (key_net w') = c
    | _ => (exists e, account_signAndSend contractId actions w = (Throw e, w')) /\ contract (key_net w') = contract (key_net w)
    end;
  so_head : head + totalSubmitBlock relay <= top;
  so_top : top < 2 ^ 64
}.

Context (head : Z) {SO : ServicesOk head} {MC : MainChain D enc hdr dag total top s0}.

(** *** Requests *)

Lemma asks_returns {A} c e (op : service (KeyWorld N) A) P :
  asks op P -> returns_in (E := event) (has c) (perform e op) (fun a _ => P a).
Proof using. intros Ho. apply returns_in_perform. intros w Hw. destruct (Ho w) as (a & w' & E & Hc & HP). exists a, w'. unfold has in *. repeat split; [done | congruence | done]. Qed.

Lemma view_returns c method input output args value bytes :
  answers_view method input output args value -> serialize schema_fuel borshSchema input args = Ret bytes ->
  returns_in (has c) (view near contractId method input output args) (fun v _ => v = value c).
Proof using.
  intros Hv Hs w Hw. destruct (Hv bytes (key_net w) Hs) as (q & n' & b & bs & Hq & Hc & Hr & Hd).
  unfold view, viewMethod. cbn [spec inputFieldType outputFieldType methodName]. rewrite eff_bind_eq, Hs. cbn [lift out_of].
  rewrite eff_bind_eq. unfold backoff. cbn [backoff_with]. unfold try_catch, perform, net. rewrite Hq.
  cbn [fst snd out_of world_of]. rewrite Hr. cbn [lift]. rewrite Hd. unfold has in *. subst c.
  do 3 eexists. split; [reflexivity|]. split; done.
Qed.

Lemma last_block_number_returns c : returns_in (has c) (Eth2NearRelay.last_block_number near contractId) (fun v _ => v = VNum (EthClient.last_block_number c)).
Proof using SO. eapply (view_returns c _ _ _ _ (fun c => VNum (EthClient.last_block_number c))); [apply so_last_block_number | reflexivity]. Qed.

Lemma known_hashes_returns c n : 0 <= n < 2 ^ 64 -> returns_in (has c) (Eth2NearRelay.known_hashes near contractId n)
  (fun v _ => v = VArr (map (fun h => VStr (bytesToHex h)) (EthClient.known_hashes c n))).
Proof using SO BWok BNok.
  intros Hn. destruct (has_type_codes borshSchema 0 (FName "u64") (VNum n)) as [bs Hc]; [by constructor|].
  eapply (view_returns c _ _ _ _ (fun c => VArr (map (fun h => VStr (bytesToHex h)) (EthClient.known_hashes c n)))); [by apply so_known_hashes|].
  apply (serialize_codes _ _ _ _ _ schema_fuel Hc). unfold schema_fuel. lia.
Qed.

(** *** The predicate of a round *)

Lemma known_bytes lo hi c n : known_inv D lo hi c -> Forall bytes_ok (EthClient.known_hashes c n).
Proof using.
  intros K. apply list.Forall_forall. intros h Hh. apply (ki_known _ _ _ _ K) in Hh as (i & Hi & _).
  destruct (ki_info _ _ _ _ K _ _ Hi) as [x Hx]. destruct (ki_header _ _ _ _ K _ _ Hx) as (_ & d & _ & _ & _ & Hd & <-).
  rewrite (decode_header_hash _ _ Hd). apply keccak256_bytes.
Qed.

Lemma hash_at_ok n : 0 <= n <= top -> bytes_ok (hash_at n) /\ hash_at n <> [].
Proof using MC.
  intros Hn. destruct (mc_decode D enc hdr dag total top s0 n Hn) as [Hd _]. rewrite (decode_header_hash _ _ Hd). split; [apply keccak256_bytes|].
  intros He%(f_equal length). by rewrite keccak256_length in He.
Qed.

Lemma getEthBlock_returns c n : 0 <= n <= top -> returns_in (has c) (getEthBlock rpc n) (fun v _ => block_object n v).
Proof using SO.
  intros Hn w Hw. destruct (so_rpc n Hn w) as (v & w' & E & Hc & Hv). exists v, w'. eexists. unfold has in *.
  split; [apply getEthBlock_found; [exact E | apply Hv]|]. split; [congruence | done].
Qed.

Lemma predicate_returns m lo hi c fuel v : tracked D hdr total top s0 m lo hi c -> m <= top ->
  let n := EthClient.last_block_number c - v in lo <= n <= top ->
  returns_in (has c) (predicate near rpc contractId (S fuel) (EthClient.last_block_number c) v)
    (fun b _ => b = (EthClient.last_block_number c - m <=? v)).
Proof using SO MC BWok BNok HXok.
  intros T Hm n Hn. pose proof (ki_lo _ _ _ _ (tr_known _ _ _ _ _ _ _ _ _ T)) as H0. pose proof so_top as Htop.
  cbn [predicate]. apply returns_in_try. eapply returns_in_bind; [apply (getEthBlock_returns c n); lia|]. intros b t (Hnull & Hh & _).
  assert (returns_in (has c) (chainBlockHash ← lift (get_prop b "hash"); clientHashes ← Eth2NearRelay.known_hashes near contractId n;
    lift (hash_known clientHashes chainBlockHash)) (fun r _ => r = (EthClient.last_block_number c - m <=? v))) as Hrest.
  { eapply returns_in_bind; [by apply (returns_in_lift _ _ _ (fun a _ => a = VStr (bytesToHex (hash_at n))) Hh)|]. intros a ta ->.
    eapply returns_in_bind; [apply (known_hashes_returns c n); lia|]. intros hs th ->.
    destruct (hash_at_ok n ltac:(lia)) as [Hb Hne].
    eapply returns_in_lift; [apply hash_known_spec; [by apply (known_bytes lo hi), T | done | done]|].
    apply eq_true_iff_eq. rewrite bool_decide_eq_true, Z.leb_le.
    rewrite (shared_known D enc hdr dag total top s0 m lo hi c T n) by lia. unfold n. lia. }
  destruct b; try exact (returns_in_mono _ _ _ _ Hrest (fun a t' H => H)). done.
Qed.

(** *** A round *)

Lemma get_heights_returns c : returns_in (has c) (get_heights near eth ethNodeUrl contractId)
  (fun r _ => r = Some (EthClient.last_block_number c, head)).
Proof using SO.
  unfold get_heights. apply returns_in_try. eapply returns_in_bind; [apply last_block_number_returns|]. intros v t ->.
  eapply returns_in_bind; [by apply (returns_in_lift _ _ _ (fun a _ => a = EthClient.last_block_number c) eq_refl)|]. intros n t' ->.
  eapply returns_in_bind; [by apply (returns_in_emit _ _ (fun _ _ => True))|]. intros _ t'' _.
  assert (returns_in (has c) (getBlockNumber ethNodeUrl eth) (fun v _ => v = VNum head)) as Hn.
  { intros w Hw. destruct (so_blockNumber w) as (v & w' & E & Hc & ->). unfold getBlockNumber, backoff, reconnecting. cbn [RETRY backoff_with].
    unfold try_catch, perform. rewrite E. unfold has in *. do 3 eexists. split; [reflexivity|]. split; [congruence | done]. }
  eapply returns_in_bind; [exact Hn|]. intros v t3 ->.
  eapply returns_in_bind; [by apply (returns_in_emit _ _ (fun _ _ => True))|]. intros _ t4 _. by apply returns_in_ret.
Qed.

Lemma doublings_mono a b : 0 <= a <= b -> doublings a <= doublings b.
Proof using. intros H. apply Z.log2_up_le_mono. lia. Qed.

(** The distance from the estimate to the fork point is small. *)
Definition prev_ok (prev : option Z) (m : Z) : Prop :=
  match prev with None => True | Some q => m - totalSubmitBlock relay <= q < m end.

Context (depth start : Z) (fuel : nat).
Context (Hdepth : totalSubmitBlock relay <= depth) (Htotal : 1 <= totalSubmitBlock relay).
Context (Hstart : start < top) (Hfuel : doublings depth + 1 < Z.of_nat fuel) (HfT : 2 * depth < finalized_gc_threshold s0).

Abbreviation way := (on_way D hdr total top s0 depth start).

(** The search of a round finds the newest main chain block of the client. *)
Lemma search_returns m c prev : way m c -> m <= head -> prev_ok prev m ->
  returns_in (has c) (binarySearchWithEstimate (predicate near rpc contractId fuel (EthClient.last_block_number c)) fuel 0
    (EthClient.last_block_number c) (estimate relay prev (EthClient.last_block_number c)))
    (fun delta _ => EthClient.last_block_number c - delta = m).
Proof using SO MC BWok BNok HXok Hdepth Htotal Hstart Hfuel.
  intros Hway Hm Hprev. pose proof so_head as Hhead.
  destruct (on_way_last D enc hdr dag total top s0 depth start m c Hway ltac:(lia)) as [HmL Hst]. destruct Hway as [(lo & hi & T & Hw) Hd _].
  pose proof (tracked_span D hdr total top s0 m lo hi c T) as Hspan. pose proof (ki_lo _ _ _ _ (tr_known _ _ _ _ _ _ _ _ _ T)) as H0.
  set (L := EthClient.last_block_number c) in *. set (est := estimate relay prev L).
  assert (0 <= L - m - est <= depth /\ L - est + 1 <= top) as [Hest Htop].
  { unfold est, estimate. destruct prev as [q|]; cbn in Hprev; lia. }
  assert (0 <= doublings (L - m - est) <= doublings depth) as Hdb by (split; [apply Z.log2_up_nonneg | apply doublings_mono; lia]).
  destruct fuel as [|f] eqn:Ef; [lia|]. eapply returns_in_mono.
  - apply (search_window _ (has c) (L - m) (est - 1) (L - lo)); try lia.
    intros v Hv. apply (predicate_returns m lo hi c f v T); lia.
  - intros delta t ->. lia.
Qed.

Lemma getParseBlocks_returns c numbers : Forall (fun n => 0 <= n <= top) numbers ->
  returns_in (has c) (getParseBlocks rpc header_rlp ethashproof numbers)
    (fun blocks _ => exists ps, blocks = map Some ps /\ Forall2 printed numbers ps).
Proof using SO.
  induction 1 as [|n numbers Hn _ IH]; cbn [getParseBlocks]; [apply returns_in_ret; by exists []|].
  eapply returns_in_bind with (Q := fun b _ => exists p, b = Some p /\ printed n p).
  - unfold getParseBlock. apply returns_in_try. eapply returns_in_bind; [by apply getEthBlock_returns|]. intros v t (_ & _ & Hrlp).
    eapply returns_in_bind; [apply (returns_in_lift _ _ _ (fun a _ => a = enc n) Hrlp eq_refl)|]. intros rlp t' ->.
    eapply returns_in_bind; [apply asks_returns, (so_ethashproof n Hn)|]. intros p t'' Hp. apply returns_in_ret. by exists p.
  - intros b t (p & -> & Hp). eapply returns_in_bind; [exact IH|]. intros bs t' (ps & -> & Hps). apply returns_in_ret.
    exists (p :: ps). split; [done | by constructor].
Qed.

Lemma submitBlocks_adds numbers ps : Forall2 printed numbers ps ->
  exists actions, submitBlocks relay (map Some ps) = Ret actions /\ Forall2 adds numbers actions.
Proof using BWok BNok HXok.
  induction 1 as [|n p numbers ps (hex & L & nodes & -> & Hh & Hn & H1 & H2 & H3) _ (actions & Ha & Hf)]; [by exists []|].
  destruct (submitBlock_faithful relay L hex (enc n) nodes (dag n) Hh Hn H1 H2 H3) as (a & Es & Hmeth & _ & Hargs).
  exists (a :: actions). cbn [map submitBlocks]. rewrite Es. cbn [mbind outcome_bind]. rewrite Ha. split; [done|]. constructor; [by split | done].
Qed.

(** The batch of a round is accepted as a whole. *)
Lemma submit_batch_advances m c w : way m c -> m < head -> has c w ->
  exists w' t k c', submit_batch rpc header_rlp ethashproof contractId relay account_signAndSend m head w = (Ret true, w', t) /\
    has c' w' /\ way (m + k) c' /\ 1 <= k <= totalSubmitBlock relay /\ m + k <= head.
Proof using SO MC BWok BNok HXok Hdepth Htotal HfT fuel.
  intros Hway Hm Hw. pose proof so_head as Hhead.
  assert (0 <= m) as H0. { destruct Hway as [(lo & hi & T & _) _ _]. pose proof (ki_lo _ _ _ _ (tr_known _ _ _ _ _ _ _ _ _ T)).
    pose proof (tracked_span D hdr total top s0 m lo hi c T). lia. }
  destruct (batch_contiguous relay m head Hm Htotal) as (k & Hb & Hk1 & Hk2 & _ & Hin).
  assert (m + Z.of_nat k <= head) as Hkh.
  { rewrite Hb in Hin. rewrite list.Forall_forall in Hin. assert (m + Z.of_nat k ∈ from (m + 1) k) as Hmem; [|apply Hin in Hmem; lia].
    replace k with ((k - 1) + 1)%nat at 2 by lia. rewrite from_app. apply elem_of_app. right. apply list_elem_of_singleton. lia. }
  destruct (on_way_batch D enc hdr dag total top s0 env depth start m k c Hway ltac:(lia) HfT ltac:(lia)) as (c' & Hadd & Hway').
  unfold submit_batch, try_catch. rewrite eff_bind_eq.
  destruct (getParseBlocks_returns c (batch relay m head)) with (w := w) as (bs & w1 & t1 & E1 & Hw1 & ps & -> & Hps); [|done|].
  { rewrite list.Forall_forall in Hin |- *. intros n Hn%Hin. lia. }
  rewrite E1. destruct (submitBlocks_adds _ _ Hps) as (actions & Ea & Hadds). rewrite eff_bind_eq, Ea. cbn [lift]. rewrite eff_bind_eq.
  unfold perform. destruct (so_send _ _ w1 Hadds) as (w2 & Hsend). unfold has in Hw1. rewrite Hw1, Hb, Hadd in Hsend.
  destruct Hsend as [Es Hc]. rewrite Es. exists w2. eexists. exists (Z.of_nat k), c'. split; [reflexivity|].
  split; [done|]. split; [done|]. lia.
Qed.

(** A round adds main chain blocks to the client. *)
Lemma round_advances m c prev w : way m c -> m < head -> prev_ok prev m -> has c w ->
  exists w' t k c', Eth2NearRelay.round near eth ethNodeUrl rpc header_rlp ethashproof contractId relay account_signAndSend fuel prev w =
      (Ret (Some m), w', t) /\ has c' w' /\ way (m + k) c' /\ prev_ok (Some m) (m + k) /\ 1 <= k /\ m + k <= head.
Proof using SO MC BWok BNok HXok Hdepth Htotal HfT Hstart Hfuel.
  intros Hway Hm Hprev Hw. unfold Eth2NearRelay.round.
  destruct (get_heights_returns c w Hw) as (h & w1 & t1 & E1 & Hw1 & ->). rewrite eff_bind_eq, E1.
  destruct (search_returns m c prev Hway ltac:(lia) Hprev w1 Hw1) as (delta & w2 & t2 & E2 & Hw2 & Hdelta).
  rewrite eff_bind_eq, E2. cbv zeta. rewrite Hdelta, (proj2 (Z.ltb_lt _ _) Hm).
  destruct (submit_batch_advances m c w2 Hway Hm Hw2) as (w3 & t3 & k & c' & E3 & Hw3 & Hway3 & Hk & Hkh).
  rewrite !eff_bind_eq, E3. cbn [out_of world_of trace_of fst snd]. do 2 eexists. exists k, c'. split; [reflexivity|].
  split; [done|]. split; [done|]. cbn [prev_ok]. lia.
Qed.

(** ** The loop *)

(** The rounds of the endless loop, from one state to a later one. *)
Inductive runs : option Z -> KeyWorld N -> option Z -> KeyWorld N -> Prop :=
| runs_refl prev w : runs prev w prev w
| runs_round prev w prev1 w1 t prev2 w2 :
    Eth2NearRelay.round near eth ethNodeUrl rpc header_rlp ethashproof contractId relay account_signAndSend fuel prev w = (Ret prev1, w1, t) ->
    runs prev1 w1 prev2 w2 -> runs prev w prev2 w2.

Lemma loop_reaches k m c prev w : way m c -> m <= head -> head - m <= Z.of_nat k -> prev_ok prev m -> has c w ->
  exists prev' w' c', runs prev w prev' w' /\ has c' w' /\ way head c'.
Proof using SO MC BWok BNok HXok Hdepth Htotal HfT Hstart Hfuel.
  revert m c prev w. induction k as [|k IH]; intros m c prev w Hway Hm Hk Hprev Hw.
  - assert (m = head) as -> by lia. exists prev, w, c. split; [constructor | done].
  - destruct (decide (m = head)) as [->|Hne]; [exists prev, w, c; split; [constructor | done]|].
    destruct (round_advances m c prev w Hway ltac:(lia) Hprev Hw) as (w1 & t & j & c1 & E & Hw1 & Hway1 & Hprev1 & Hj & Hjh).
    destruct (IH (m + j) c1 (Some m) w1 Hway1 Hjh ltac:(lia) Hprev1 Hw1) as (prev' & w' & c' & Hr & Hw' & Hway').
    exists prev', w', c'. split; [by eapply runs_round | done].
Qed.

(** At the head of the main chain the retained blocks below it are
    canonical. *)
Lemma way_head c : way head c -> start < head ->
  EthClient.last_block_number c = head /\ best_header_hash c = hash_at head /\ config c = config s0 /\
  forall n, head - 2 * depth <= n <= head -> block_hash c n = Some (hash_at n).
Proof using SO MC Hdepth Htotal HfT Hstart Hfuel.
  intros Hway Hsh. pose proof so_head. pose proof (on_way_last D enc hdr dag total top s0 depth start head c Hway ltac:(lia)) as HL.
  destruct Hway as [(lo & hi & T & Hw) _ Hst].
  assert (EthClient.last_block_number c = head) as E by lia. assert (best_header_hash c = hash_at head) as Hbest by (destruct Hst; [done | lia]).
  split; [done|]. split; [done|]. split; [apply T|]. intros n Hn.
  pose proof (shared_ancestor D enc hdr dag total top s0 head lo hi c T (Z.to_nat (head - n)) ltac:(lia) ltac:(lia)) as Ha.
  replace (head - Z.of_nat (Z.to_nat (head - n))) with n in Ha by lia. rewrite <- Hbest in Ha.
  pose proof (ch_canon _ _ _ (tr_chain _ _ _ _ _ _ _ _ _ T) _ _ Ha) as Hc. rewrite E in Hc.
  replace (head - Z.of_nat (Z.to_nat (head - n))) with n in Hc by lia. apply Hc. lia.
Qed.

(** The loop, from a client that is somewhere on the main chain or off it. *)
Lemma loop_canonical m lo hi w :
  let s := contract (key_net w) in
  tracked D hdr total top s0 m lo hi s -> m <= head -> 2 * depth <= m - lo ->
  EthClient.last_block_number s - m <= depth -> EthClient.last_block_number s <= start -> start < head ->
  exists prev' w' c, runs None w prev' w' /\ has c w' /\
    EthClient.last_block_number c = head /\ best_header_hash c = hash_at head /\ config c = config s0 /\
    forall n, head - 2 * depth <= n <= head -> block_hash c n = Some (hash_at n).
Proof using SO MC BWok BNok HXok Hdepth Htotal HfT Hstart Hfuel.
  cbv zeta. intros T Hm Hwin Hd Hst Hsh.
  destruct (loop_reaches (Z.to_nat (head - m)) m (contract (key_net w)) None w) as (prev' & w' & c & Hr & Hw' & Hway); try done; try lia.
  { split; [by exists lo, hi | done | by right]. }
  exists prev', w', c. split; [done|]. split; [done|]. by apply way_head.
Qed.

(** C8: The relay carries the client to the head of the main chain, also when
    the client starts on a fork: if the client knows the main chain up to
    [m], no other header is heavier than a later main chain block, its best
    header is at most [depth] above [m] and below the head, and it retains
    [2 * depth] main chain blocks below [m] (with at least one batch for
    [depth]), then after finitely many rounds of the loop the head of the
    main chain is the client's best and canonical block. *)
Theorem eth2near_reaches_head m lo hi w :
  let s := contract (key_net w) in
  tracked D hdr total top s0 m lo hi s -> m <= head -> 2 * depth <= m - lo ->
  EthClient.last_block_number s - m <= depth -> EthClient.last_block_number s <= start -> start < head ->
  exists prev' w', runs None w prev' w' /\
    EthClient.last_block_number (contract (key_net w')) = head /\
    best_header_hash (contract (key_net w')) = hash_at head /\
    block_hash (contract (key_net w')) head = Some (hash_at head).
Proof using SO MC BWok BNok HXok Hdepth Htotal HfT Hstart Hfuel.
  cbv zeta. intros T Hm Hwin Hd Hst Hsh.
  destruct (loop_canonical m lo hi w T Hm Hwin Hd Hst Hsh) as (prev' & w' & c & Hr & Hw & HL & Hbest & _ & Hc).
  exists prev', w'. unfold has in Hw. rewrite Hw. split; [done|]. split; [done|]. split; [done|]. apply Hc. lia.
Qed.

End System.

(** ** Witness *)

Module Witness.
Import Reference RlpRef EthClientInv.Witness.

(** The main chain from 0 to 5, of difficulty 10, and a fork at 3. *)
Definition headers_from (parent : list Z) (n : Z) : list Z := EthClientInv.Witness.enc parent 10 n receipts.

Definition m0 : list Z := Eval vm_compute in headers_from (replicate 32 1) 0.
Definition m1 : list Z := Eval vm_compute in headers_from (keccak256 m0) 1.
Definition m2 : list Z := Eval vm_compute in headers_from (keccak256 m1) 2.
Definition m3 : list Z := Eval vm_compute in headers_from (keccak256 m2) 3.
Definition m4 : list Z := Eval vm_compute in headers_from (keccak256 m3) 4.
Definition m5 : list Z := Eval vm_compute in headers_from (keccak256 m4) 5.
Definition f3 : list Z := Eval vm_compute in EthClientInv.Witness.enc (keccak256 m2) 11 3 receipts.

Definition mains : list (list Z) := [m0; m1; m2; m3; m4; m5].
Definition D1 (d : list Z) : Prop := d ∈ f3 :: mains.

Definition enc1 (n : Z) : list Z := default [] (if n <? 0 then None else mains !! Z.to_nat n).

Definition no_header : BlockHeader := header_at [] 0 0 0 [].

Definition hdrs : list BlockHeader := Eval vm_compute in map (fun d => default no_header (decode_header d)) mains.
Definition hdr1 (n : Z) : BlockHeader := default no_header (if n <? 0 then None else hdrs !! Z.to_nat n).
Definition dag1 (n : Z) : list DagNode := [Eth2NearRelay.Witness.dag 255].
Definition total1 (n : Z) : Z := 10 * n.

(** The client after blocks 0 to 2, the fork at 3, and more main chain blocks. *)
Definition nodes1 : list DoubleNodeWithMerkleProof := map to_node (dag1 0).

Definition grown (k : nat) : outcome EthClient :=
  s ← init None false 0 [replicate 16 0] m0 50 10 1 None;
  add_headers env1 s (map (fun d => (d, nodes1)) ([m1; m2; f3] ++ take k [m3; m4; m5])%list).

Definition dead : EthClient := mkClient false 0 [] [] 0 0 0 ∅ ∅ ∅ ∅ None 0.
Definition state_of (o : outcome EthClient) : EthClient := match o with Ret s => s | _ => dead end.

Definition c2 : EthClient := Eval vm_compute in state_of (grown 0).
Definition c3 : EthClient := Eval vm_compute in state_of (grown 1).
Definition c4 : EthClient := Eval vm_compute in state_of (grown 2).
Definition c5 : EthClient := Eval vm_compute in state_of (grown 3).

(** The network is known by the newest main chain block of the client. *)
Inductive Net := N2 | N3 | N4 | N5.

Definition contract1 (n : Net) : EthClient := match n with N2 => c2 | N3 => c3 | N4 => c4 | N5 => c5 end.
Definition newest (n : Net) : Z := match n with N2 => 2 | N3 => 3 | N4 => 4 | N5 => 5 end.
Definition next_net (n : Net) : option Net :=
  match n with N2 => Some N3 | N3 => Some N4 | N4 => Some N5 | N5 => None end.

(** The number of the main chain block that an action carries. *)
Definition number_of (a : FunctionCall) : option Z :=
  match deserialize schema_fuel borshSchema (Some (FName "addBlockHeaderInput")) (fc_args a) with
  | Ret (VObj [("block_header", VArr l); _]) =>
      (fun p => Z.of_nat p.1) <$> list_find (fun d => d = omap (fun v => match v with VNum z => Some z | _ => None end) l) mains
  | _ => None
  end.

Fixpoint advance (n : Net) (numbers : list (option Z)) : option Net :=
  match numbers with
  | [] => Some n
  | None :: _ => None
  | Some k :: rest => if k =? newest n + 1 then next_net n ≫= fun n' => advance n' rest else None
  end.

Definition send1 (contractId : string) (actions : list FunctionCall) (w : KeyWorld Net) : outcome unit * KeyWorld Net :=
  match advance (key_net w) (map number_of actions) with
  | Some n => (Ret tt, mkKey (key_nonce w) n)
  | None => (Throw (Error "ExecutionError"), w)
  end.

Definition bytes_of (t : fieldType) (v : val) : list Z :=
  match serialize schema_fuel borshSchema (Some t) v with Ret bs => bs | _ => [] end.

Definition query1 (path : string) (args : list Z) (c : EthClient) : list Z :=
  if String.eqb path "call/client/last_block_number" then bytes_of (FName "u64") (VNum (EthClient.last_block_number c))
  else bytes_of (FArray (FName "H256"))
         (VArr (map (fun h => VStr (bytesToHex h)) (EthClient.known_hashes c (le_value args)))).

Definition near1 : NearNode Net := {|
  near_status n := (Ret "hash", n);
  near_sign _ _ _ _ := Throw (Error "not used");
  near_broadcast _ n := (Ret tt, n);
  near_txStatus _ n := (Throw (Error "not used"), n);
  near_query path args n := (Ret {| qr_result := Some (query1 path args (contract1 n)); qr_logs := [] |}, n)
|}.

Definition rpc1 (n : Z) (w : KeyWorld Net) : outcome val * KeyWorld Net :=
  (Ret (VObj [("hash", VStr (bytesToHex (hash (hdr1 n)))); ("rlp", VBytes (enc1 n))]), w).

Definition header_rlp1 (chain : string) (london : bool) (v : val) : outcome (list Z) :=
  rlp ← get_prop v "rlp"; match rlp with VBytes bs => Ret bs | _ => Throw (TypeError "not a block") end.

Definition ethashproof1 (rlp : list Z) (w : KeyWorld Net) : outcome ParsedBlock * KeyWorld Net :=
  (Ret (raw_block (bytesToHex rlp) 2 [Eth2NearRelay.Witness.raw_ff]), w).

Definition eth1 : Web3Node (KeyWorld Net) := {|
  node_getBlockNumber w := (Ret (VNum 4), w);
  node_getBlock b w := (Ret VNull, w);
  node_getTransactionReceipt t w := (Ret VNull, w);
  node_getGasPrice w := (Ret 1, w);
  node_getTransactionCount a w := (Ret 0, w);
  node_call tx w := (Ret VUndef, w);
  node_sendTransaction tx w := (None, w)
|}.

Definition relay1 : Eth2NearRelay := {| totalSubmitBlock := 1; gasPerTransaction := 72000000000000 |}.

(** *** The main chain *)

(** A case for every number up to 6. *)
Lemma numbers5 n : 0 <= n <= 5 -> n ∈ [0; 1; 2; 3; 4; 5].
Proof. intros H. set_unfold. lia. Qed.

Ltac each_number n :=
  let Hin := fresh in
  assert (n ∈ [0; 1; 2; 3; 4; 5]) as Hin by (apply numbers5; lia);
  set_unfold in Hin; destruct Hin as [->|[->|[->|[->|[->|[->|[]]]]]]].

Lemma config1 : config c2 = (false, 0, [replicate 16 0], 50, 10, 1, None, 0).
Proof. reflexivity. Qed.

Lemma valid1 s n : 0 <= n < 5 -> config s = config c2 -> valid_child s (hdr1 (n + 1)) (hdr1 n) (map to_node (dag1 (n + 1))).
Proof.
  intros Hn Hc. rewrite config1 in Hc. destruct s as [v e roots best hT fT conf canon all hs inf signer pa].
  unfold config in Hc. cbn in Hc. injection Hc as -> -> -> -> -> -> -> ->.
  each_number n; try (exfalso; clear -Hn; lia); (constructor; [do 2 eexists; split; [vm_compute; reflexivity | vm_compute; reflexivity] | discriminate | ..]);
    first [apply Z.leb_le; vm_compute; reflexivity | apply Z.ltb_lt; vm_compute; reflexivity
          | split; apply Z.ltb_lt; vm_compute; reflexivity | apply Nat.leb_le; vm_compute; reflexivity | vm_compute; reflexivity].
Qed.

Lemma main1 : MainChain D1 enc1 hdr1 dag1 total1 5 c2.
Proof.
  split.
  - assert (Forall (fun d => Forall (fun d' => keccak256 d = keccak256 d' -> d = d') (f3 :: mains)) (f3 :: mains)) as H
      by (apply (bool_decide_unpack _); vm_compute; exact I).
    intros d d' Hd Hd'. rewrite list.Forall_forall in H. specialize (H d Hd). rewrite list.Forall_forall in H. auto.
  - intros n Hn. right. unfold enc1. rewrite (proj2 (Z.ltb_ge n 0)) by lia.
    destruct (mains !! Z.to_nat n) as [d|] eqn:E; [by eapply list_elem_of_lookup_2|].
    apply lookup_ge_None in E. change (length mains) with 6%nat in E. lia.
  - intros n Hn. each_number n; (split; vm_compute; reflexivity).
  - intros n Hn. each_number n; try (exfalso; clear -Hn; lia); vm_compute; reflexivity.
  - intros s n. apply valid1.
  - intros n Hn. each_number n; try (exfalso; clear -Hn; lia); (split; (split; [apply Z.leb_le | apply Z.ltb_lt]; vm_compute; reflexivity)).
  - intros n Hn. each_number n; try (exfalso; clear -Hn; lia); vm_compute; reflexivity.
  - intros n Hn. each_number n; vm_compute; reflexivity.
  - intros n Hn. unfold total1. lia.
  - vm_compute. reflexivity.
  - split; vm_compute; reflexivity.
  - split; apply Z.leb_le; vm_compute; reflexivity.
Qed.

Lemma reach_add s calls s' : reachable D1 s -> trusted_signer s = None -> Forall (fun p => D1 p.1) calls ->
  add_headers env1 s calls = Ret s' -> reachable D1 s' /\ trusted_signer s' = None.
Proof.
  intros Hr Ht Hall. revert s Hr Ht. induction Hall as [|[d nodes] calls Hd _ IH]; intros s Hr Ht H; [by apply Ret_inj in H as <-|].
  cbn [add_headers] in H. apply outcome_bind_inv in H as (s1 & H1 & H). apply (IH s1); [| |done].
  - apply (reach_step D1 s); [done|]. by apply (step_add D1 env1 s d nodes s1).
  - apply add_block_header_inv in H1 as (x & _ & _ & _ & Hrec%record_header_config). injection Hrec. congruence.
Qed.

Lemma reachable_c2 : reachable D1 c2.
Proof.
  assert (grown 0 = Ret c2) as H by (vm_compute; reflexivity). unfold grown in H. apply outcome_bind_inv in H as (s & Hi & H).
  apply (reach_add s _ c2) in H as [H _]; [done| | |].
  - apply (reach_init D1 false 0 [replicate 16 0] m0 50 10 1 None s); [by right; left | lia | exact Hi].
  - apply outcome_bind_inv in Hi as (? & _ & Hi). by apply outcome_bind_inv in Hi as (? & _ & <-%Ret_inj).
  - repeat constructor; set_solver.
Qed.

Lemma submissions1 : Submissions D1.
Proof.
  split; [apply main1|].
  assert (Forall (fun d => match decode_header d with Some h => 0 <=? number h | None => true end = true) (f3 :: mains)) as H
    by (apply (bool_decide_unpack _); vm_compute; exact I).
  intros d h Hd Hh. rewrite list.Forall_forall in H. specialize (H d Hd). rewrite Hh in H. by apply Z.leb_le.
Qed.

Lemma tracked_c2 : exists hi, tracked D1 hdr1 total1 5 c2 2 0 hi c2.
Proof.
  destruct (client_reachable_inv D1 c2 submissions1 reachable_c2) as (_ & lo & hi & K & C & R). exists hi.
  assert (lo = 0) as ->. { pose proof (ki_lo _ _ _ _ K). assert (is_Some (all_header_hashes c2 !! 0)) as Hs by (vm_compute; eauto).
    apply (ki_span _ _ _ _ K) in Hs. lia. }
  split; [done | done | done | done | | | |].
  - apply (bool_decide_unpack _). vm_compute. exact I.
  - intros n Hn. each_number n; try (exfalso; clear -Hn; lia); (apply (bool_decide_unpack _); vm_compute; exact I).
  - intros n i Hn. each_number n; vm_compute; intros H; first [discriminate H | injection H as <-; reflexivity].
  - assert (map_Forall (fun h i => ((info_number i <=? 5) && bool_decide (h = hash (hdr1 (info_number i))))
      || (total_difficulty i <? 10 * (info_number i + 1)) = true) (infos c2)) as H by (apply (bool_decide_unpack _); vm_compute; exact I).
    intros h i Hi. apply H in Hi as [[H1 H2%bool_decide_eq_true]%andb_true_iff|H1]%orb_true_iff; zbool; [left; done | right].
    intros n Hn. unfold total1. lia.
Qed.

(** *** The services *)

Abbreviation adds1 := (adds enc1 dag1).

Lemma omap_nums (l : list Z) : omap (fun v => match v with VNum z => Some z | _ => None end) (map VNum l) = l.
Proof. induction l as [|z l IH]; [done|]. cbn. f_equal. exact IH. Qed.

Lemma enc1_out n : ~ 0 <= n <= 5 -> enc1 n = [].
Proof.
  intros Hn. unfold enc1. destruct (n <? 0) eqn:E; [done|]. zbool. rewrite (lookup_ge_None_2 mains); [done|].
  change (length mains) with 6%nat. lia.
Qed.

Lemma number_of_adds n a : adds1 n a -> number_of a = if decide (0 <= n <= 5) then Some n else None.
Proof.
  intros [_ Ha]. unfold number_of. rewrite Ha, omap_nums. destruct (decide _) as [Hn|Hn].
  - each_number n; vm_compute; reflexivity.
  - rewrite (enc1_out n Hn). vm_compute. reflexivity.
Qed.

(** A call succeeds exactly for the next block. *)
Lemma add_next1 net n : match add_block_header env1 (contract1 net) (call_at enc1 dag1 n).1 (call_at enc1 dag1 n).2 with
  | Ret c => 0 <= n <= 5 /\ n = newest net + 1 /\ contract1 <$> next_net net = Some c
  | Throw _ => ~ (0 <= n <= 5 /\ n = newest net + 1)
  | _ => False
  end.
Proof.
  destruct (decide (0 <= n <= 5)) as [Hn|Hn].
  - each_number n; destruct net; vm_compute;
      first [intros [_ Hx]; discriminate Hx | split; [split; intros Hx; discriminate Hx | split; reflexivity]].
  - unfold call_at. cbn [fst snd]. rewrite (enc1_out n Hn). destruct net; vm_compute; intros [Hx _]; apply Hn; exact Hx.
Qed.

Lemma send_advances numbers actions net : Forall2 adds1 numbers actions ->
  match add_headers env1 (contract1 net) (map (call_at enc1 dag1) numbers) with
  | Ret c => exists net', advance net (map number_of actions) = Some net' /\ contract1 net' = c
  | Throw _ => advance net (map number_of actions) = None
  | _ => False
  end.
Proof.
  intros H. revert net. induction H as [|n a numbers actions Ha _ IH]; intros net; [by exists net|].
  change (add_headers env1 (contract1 net) (map (call_at enc1 dag1) (n :: numbers))) with
    (s' ← add_block_header env1 (contract1 net) (call_at enc1 dag1 n).1 (call_at enc1 dag1 n).2;
     add_headers env1 s' (map (call_at enc1 dag1) numbers)).
  pose proof (add_next1 net n) as Hn. cbn [map advance]. rewrite (number_of_adds n a Ha).
  destruct (add_block_header env1 (contract1 net) _ _) as [c|e|x|]; [| |done|done].
  - destruct Hn as (Hr & -> & Hnext). rewrite decide_True, Z.eqb_refl by done. destruct (next_net net) as [net'|]; [|done].
    cbn in Hnext. injection Hnext as <-. apply IH.
  - cbn [mbind outcome_bind]. destruct (decide _) as [Hr|]; [|done]. destruct (Z.eqb_spec n (newest net + 1)); [by destruct Hn | done].
Qed.

Lemma known_typed net n : has_type borshSchema 1 (FArray (FName "H256"))
  (VArr (map (fun h => VStr (bytesToHex h)) (EthClient.known_hashes (contract1 net) n))).
Proof.
  assert (map_Forall (fun _ l => Forall (fun bs => length bs = 32%nat /\ bytes_ok bs) l /\ (length l <= 2)%nat) (all_header_hashes (contract1 net))) as H
    by (destruct net; apply (bool_decide_unpack _); vm_compute; exact I).
  unfold EthClient.known_hashes. destruct (all_header_hashes (contract1 net) !! n) as [l|] eqn:E; cbn [default from_option id].
  - apply H in E as [Hl Hlen]. apply (hashes_typed _ _ _ 32); [done | done | done | lia].
  - apply (hashes_typed _ _ _ 32 []); [done | done | done | cbn; lia].
Qed.

Lemma no_bytes v : deserialize schema_fuel borshSchema (Some (FArray (FName "H256"))) [] <> Ret v.
Proof. vm_compute. discriminate. Qed.

Lemma services1 : ServicesOk enc1 hdr1 dag1 5 near1 eth1 rpc1 header_rlp1 ethashproof1 "client" relay1 send1 contract1 env1 4.
Proof.
  split.
  - intros bytes n _. destruct n; do 4 eexists; (split; [reflexivity|]); (split; [reflexivity|]); (split; vm_compute; reflexivity).
  - intros n Hn bytes net Hs. rewrite (serialize_codes _ 0 _ _ _ schema_fuel (codes_u64 borshSchema 0 n Hn)) in Hs by (unfold schema_fuel; lia).
    apply Ret_inj in Hs as <-. destruct (has_type_codes _ _ _ _ (known_typed net n)) as [bs Hc].
    assert (1 < schema_fuel)%nat as Hf by (unfold schema_fuel; lia).
    pose proof (serialize_codes _ _ _ _ _ schema_fuel Hc Hf) as Hser.
    pose proof (deserialize_codes _ _ _ _ _ [] schema_fuel Hc Hf) as Hde. rewrite app_nil_r in Hde.
    destruct bs as [|b bs]; [by apply no_bytes in Hde|].
    do 2 eexists. exists b, bs. split; [reflexivity|]. split; [reflexivity|]. split; [|exact Hde].
    cbn [qr_result]. unfold query1. change (String.eqb _ _) with false. cbv iota. rewrite le_value_small by done. unfold bytes_of.
    by rewrite Hser.
  - intros n Hn w. do 2 eexists. split; [reflexivity|]. split; [done|]. split; [done|]. split; reflexivity.
  - intros n Hn w. do 2 eexists. split; [reflexivity|]. split; [done|]. exists (bytesToHex (enc1 n)), 2%nat, [Eth2NearRelay.Witness.raw_ff].
    split; [done|]. split; [|split; [constructor; [exact Eth2NearRelay.Witness.raw_denotes | constructor]|]].
    + apply hexToBytes_bytesToHex. each_number n; apply (bool_decide_unpack _); vm_compute; exact I.
    + split; [|cbn; lia]. each_number n; vm_compute; reflexivity.
  - intros w. by do 2 eexists.
  - intros numbers actions w H. pose proof (send_advances numbers actions (key_net w) H) as Hs. unfold send1.
    destruct (add_headers _ _ _) as [c|e|x|]; [| |done|done].
    + destruct Hs as (net' & -> & Hc). by eexists.
    + rewrite Hs. exists w. split; [by eexists | done].
  - cbn. lia.
  - lia.
Qed.

(** The client is on the fork at block 3, the main chain is at 4. *)
Lemma eth2near_reaches_head_witness :
  EthClient.last_block_number c2 = 3 /\ best_header_hash c2 = keccak256 f3 /\
  exists prev' w', runs near1 eth1 "ws" rpc1 header_rlp1 ethashproof1 "client" relay1 send1 5 None (mkKey 0 N2) prev' w' /\
    EthClient.last_block_number (contract1 (key_net w')) = 4 /\
    best_header_hash (contract1 (key_net w')) = hash (hdr1 4) /\
    block_hash (contract1 (key_net w')) 4 = Some (hash (hdr1 4)).
Proof.
  split; [vm_compute; reflexivity|]. split; [vm_compute; reflexivity|]. destruct tracked_c2 as [hi T].
  apply (eth2near_reaches_head D1 enc1 hdr1 dag1 total1 5 c2 near1 eth1 "ws" rpc1 header_rlp1 ethashproof1 "client" relay1 send1 contract1 env1 4
    (SO := services1) (MC := main1) 1 3 5) with (m := 2) (lo := 0) (hi := hi);
    first [exact T | apply Z.ltb_lt; vm_compute; reflexivity | apply Z.leb_le; vm_compute; reflexivity].
Defined.

End Witness.
