(* ===== verification/ProofExtractor.v ===== *)
(** * Proofs of Ethereum events (eth2near-block-relay/eth-proof-extractor.js)

    [EthProofExtractor] and [ethToNearFindProof]: the proof that a log is in
    a receipt and the receipt in a block.  The trie of merkle-patricia-tree
    and the serializers of eth-object are parameters.  On a node that
    answers, the printed proof is one the prover contract accepts. *)

From S2P Require Import Prelude Interfaces Robust Rlp EthProver.

(** ** Packages *)

(** merkle-patricia-tree, with [Proof.fromStack] of eth-object. *)
Class TrieLib := {
  trie : Type;
  new_trie : trie;
  trie_put : list Z -> list Z -> trie -> outcome trie;
  trie_node : Type;
  trie_findPath : list Z -> trie -> outcome (list trie_node);
  proof_fromStack : list trie_node -> list item
}.

(** [encode] of eth-util-lite, [Receipt], [Log] and [Header] of eth-object. *)
Class EthObject := {
  encode : val -> outcome (list Z);
  Receipt_fromWeb3_serialize : val -> outcome (list Z);
  Log_fromWeb3_serialize : val -> outcome (list Z);
  Header_fromWeb3_serialize : val -> outcome (list Z)
}.

(** The provider of a web3 object: only the WebSocket one has a connection
    that can be closed. *)
Inductive Provider : Type := HttpProvider | WebsocketProvider.

(** [a === b] for values of separate origin: objects are never the same. *)
Definition strict_eq (a b : val) : bool :=
  match a, b with
  | VUndef, VUndef | VNull, VNull => true
  | VBool x, VBool y => Bool.eqb x y
  | VNum x, VNum y => x =? y
  | VStr x, VStr y => String.eqb x y
  | _, _ => false
  end.

(** [v.map] of something that is not an array, [for (const x of v)]. *)
Definition array_of (v : val) (what : string) : outcome (list val) :=
  match items_of v with
  | Some vs => Ret vs
  | None => Throw (TypeError what)
  end.

(** ** JSON output (utils/index.js) *)

Definition JSONreplacer (value : val) : val :=
  match value with
  | VObj fs =>
      match assoc "type" fs with
      | Some (VStr "Buffer") => default VUndef (assoc "data" fs)
      | _ => value
      end
  | _ => value
  end.

(** [Buffer.prototype.toJSON] *)
Definition buffer_toJSON (bs : list Z) : val := VObj [("type", VStr "Buffer"); ("data", VArr (map VNum bs))].

(** The value that [JSON.stringify(v, JSONreplacer)] writes: a Buffer is
    first turned into an object, then the replacer takes its bytes. *)
Fixpoint json_view (v : val) : val :=
  match v with
  | VBytes bs => JSONreplacer (buffer_toJSON bs)
  | VArr vs => VArr (map json_view vs)
  | VObj fs =>
      match assoc "type" fs with
      | Some (VStr "Buffer") => default VUndef (assoc "data" (map (fun kv => (kv.1, json_view kv.2)) fs))
      | _ => VObj (map (fun kv => (kv.1, json_view kv.2)) fs)
      end
  | _ => v
  end.

(** ** The extractor *)

Definition console_log {W} (line : list val) : eff W event unit := emit (Call "console.log" line).

Record ExtractedProof := { header_rlp : list Z; receiptProof : list item; txIndex : val }.

Record ProofLocker := {
  log_index : Z;
  log_entry_data : list Z;
  receipt_index : val;
  receipt_data : list Z;
  header_data : list Z;
  proof : list (list Z)
}.

Definition proof_val (p : ProofLocker) : val :=
  VObj [("log_index", VNum (log_index p)); ("log_entry_data", VBytes (log_entry_data p));
        ("receipt_index", receipt_index p); ("receipt_data", VBytes (receipt_data p));
        ("header_data", VBytes (header_data p)); ("proof", VArr (map VBytes (proof p)))].

Section Extractor.
Context {W : Type} (ethNodeUrl : string) (node : Web3Node W) (provider : Provider).
Context {TL : TrieLib} {EO : EthObject} {RL : RlpLib}.
Context (JSON_parse : string -> outcome val).

Definition extractReceipt (txHash : val) : eff W event val := getTransactionReceipt ethNodeUrl node txHash.

Definition extractBlock (blockNumber : val) : eff W event val := getBlock ethNodeUrl node blockNumber.

(** Put the receipts into the tree; the tree takes one [put] at a time. *)
Fixpoint put_receipts (receipts : list val) (tree : trie) : outcome trie :=
  match receipts with
  | [] => Ret tree
  | receipt :: rest =>
      index ← get_prop receipt "transactionIndex";
      path ← encode index;
      serializedReceipt ← Receipt_fromWeb3_serialize receipt;
      tree' ← trie_put path serializedReceipt tree;
      put_receipts rest tree'
  end.

Definition buildTrie (block : val) : eff W event trie :=
  transactions ← lift (get_prop block "transactions" ≫= fun v => array_of v "Cannot read property 'map' of undefined");
  blockReceipts ← promise_all (map (getTransactionReceipt ethNodeUrl node) transactions);
  lift (put_receipts blockReceipts new_trie).

(** The block is asked for again, without a retry. *)
Definition extractProof (block : val) (tree : trie) (transactionIndex : val) : eff W event ExtractedProof :=
  path ← lift (encode transactionIndex);
  stack ← lift (trie_findPath path tree);
  number ← lift (get_prop block "number");
  blockData ← perform (Call "eth.getBlock" [number]) (node_getBlock node number);
  header ← lift (Header_fromWeb3_serialize blockData);
  mret {| header_rlp := header; receiptProof := proof_fromStack stack; txIndex := transactionIndex |}.

Definition destroy : eff W event unit :=
  match provider with
  | WebsocketProvider => emit (Call "connection.close" [])
  | HttpProvider => mret tt
  end.

(** The first log of the receipt with the log index of the event, and its
    position in the receipt. *)
Fixpoint find_log (txLogIndex : Z) (logs : list val) (wanted : val) : outcome (option (Z * val)) :=
  match logs with
  | [] => Ret None
  | receiptLog :: rest =>
      blockLogIndex ← get_prop receiptLog "logIndex";
      if strict_eq blockLogIndex wanted then Ret (Some (txLogIndex, receiptLog))
      else find_log (txLogIndex + 1) rest wanted
  end.

Definition print_proof (lockedEventRaw : string) (lockedEvent receipt block : val) (extractedProof : ExtractedProof)
    : eff W event unit :=
  logs ← lift (get_prop receipt "logs" ≫= fun v => array_of v "receipt.logs is not iterable");
  wanted ← lift (get_prop lockedEvent "logIndex");
  found ← lift (find_log 0 logs wanted);
  match found with
  | Some (txLogIndex, log) =>
      logEntryData ← lift (Log_fromWeb3_serialize log);
      receiptData ← lift (Receipt_fromWeb3_serialize receipt);
      block_number ← lift (get_prop block "number");
      let proofLocker :=
        {| log_index := txLogIndex; log_entry_data := logEntryData; receipt_index := txIndex extractedProof;
           receipt_data := receiptData; header_data := header_rlp extractedProof;
           proof := map rlp_encode (receiptProof extractedProof) |} in
      console_log [json_view (VObj [("block_number", block_number); ("proof_locker", proof_val proofLocker)])]
  | None => console_log [VStr ("Failed to find log for event " +:+ lockedEventRaw)]
  end.

Definition ethToNearFindProof (lockedEventRaw : string) : eff W event unit :=
  _ ← try_catch
        (parsed ← lift (JSON_parse lockedEventRaw);
         let lockedEvent := js_or parsed (VObj []) in
         transactionHash ← lift (get_prop lockedEvent "transactionHash");
         receipt ← extractReceipt transactionHash;
         blockNumber ← lift (get_prop receipt "blockNumber");
         block ← extractBlock blockNumber;
         tree ← buildTrie block;
         index ← lift (get_prop receipt "transactionIndex");
         extractedProof ← extractProof block tree index;
         _ ← destroy;
         print_proof lockedEventRaw lockedEvent receipt block extractedProof)
        (fun error => console_log [VStr "Failed"; VStr (err_toString error)]);
  match provider with
  | WebsocketProvider => emit (Call "connection.close" [])
  | HttpProvider => throw (TypeError "Cannot read property 'close' of undefined")
  end.

End Extractor.

(** ** What the packages promise *)

(** The trie holds what was put into it; the root of the trie is a
    function of its contents, and [findPath] gives the path from the root
    to a stored value. *)
Class TrieOk {TL : TrieLib} {RL : RlpLib} {KC : Keccak} := {
  contents : trie -> gmap (list Z) (list Z);
  commit : gmap (list Z) (list Z) -> list Z;
  contents_new : contents new_trie = ∅;
  trie_put_ok k v t : bytes_ok k -> v <> [] -> exists t', trie_put k v t = Ret t' /\ contents t' = <[k := v]> (contents t);
  trie_findPath_ok k v t :
    map_Forall (fun k v => bytes_ok k /\ bytes_ok v /\ Z.of_nat (length k) < 2 ^ 32 /\ Z.of_nat (length v) < 2 ^ 32) (contents t) ->
    contents t !! k = Some v ->
    exists stack n rest, trie_findPath k t = Ret stack /\ proof_fromStack stack = n :: rest /\
      trie_path (nibbles k) (n :: rest) v /\ Forall item_ok (n :: rest) /\
      commit (contents t) = keccak256 (rlp_encode n)
}.

(** ** The trie of a block *)

Section Receipts.
Context {RL : RlpLib} {KC : Keccak}.

(** The key and the value of the receipt at position [i] of a block. *)
Fixpoint receipt_map (i : Z) (rs : list Receipt) (m : gmap (list Z) (list Z)) : gmap (list Z) (list Z) :=
  match rs with
  | [] => m
  | r :: rs' => receipt_map (i + 1) rs' (<[rlp_uint i := rlp_encode (receipt_item r)]> m)
  end.

Context {RLok : RlpOk}.

Lemma be_min_ok n : 0 <= n < 2 ^ 64 -> item_ok (Str (be_min n)).
Proof.
  intros Hn. split; [apply be_min_bytes|]. cbn [payload_size].
  assert ((length (be_min n) <= 8)%nat) by (apply length_be_min_le; exact Hn). lia.
Qed.

Lemma rlp_uint_inj a b : 0 <= a < 2 ^ 64 -> 0 <= b < 2 ^ 64 -> rlp_uint a = rlp_uint b -> a = b.
Proof.
  intros Ha Hb H. apply (f_equal rlp_data) in H. unfold rlp_uint in H.
  rewrite !rlp_data_str in H by (by apply be_min_ok). injection H as H. apply (f_equal be_value) in H.
  by rewrite !be_value_min in H by lia.
Qed.

Lemma receipt_map_other k rs i m :
  0 <= k < i -> i + Z.of_nat (length rs) <= 2 ^ 64 -> receipt_map i rs m !! rlp_uint k = m !! rlp_uint k.
Proof.
  revert i m. induction rs as [|r rs IH]; intros i m Hk Hi; [done|]. cbn [receipt_map length] in *.
  rewrite IH by lia. rewrite lookup_insert_ne; [done|]. intros H. apply rlp_uint_inj in H; lia.
Qed.

Lemma receipt_map_lookup rs i m j r :
  rs !! j = Some r -> 0 <= i -> i + Z.of_nat (length rs) <= 2 ^ 64 ->
  receipt_map i rs m !! rlp_uint (i + Z.of_nat j) = Some (rlp_encode (receipt_item r)).
Proof.
  revert i m j. induction rs as [|r0 rs IH]; intros i m j Hj Hi Hl; [done|]. cbn [receipt_map length] in *.
  destruct j as [|j]; cbn in Hj.
  - injection Hj as ->. rewrite Z.add_0_r, receipt_map_other by lia. apply lookup_insert_eq.
  - replace (i + Z.of_nat (S j)) with (i + 1 + Z.of_nat j) by lia. by apply IH; [|lia|lia].
Qed.

Lemma receipt_length r : receipt_ok r -> (256 <= length (rlp_encode (receipt_item r)))%nat.
Proof.
  intros (_ & Hb & _ & _). rewrite <- Hb. etrans; [apply rlp_length_str|]. apply rlp_length_list.
  do 2 (apply elem_of_cons; right). apply elem_of_cons. by left.
Qed.

(** Every entry of the trie of a block is small enough to be encoded. *)
Lemma receipt_map_small (P : list Z -> list Z -> Prop) rs i m :
  (forall k r, r ∈ rs -> i <= k < i + Z.of_nat (length rs) -> P (rlp_uint k) (rlp_encode (receipt_item r))) ->
  map_Forall P m -> map_Forall P (receipt_map i rs m).
Proof.
  revert i m. induction rs as [|r rs IH]; intros i m Hrs Hm; [done|]. cbn [receipt_map length] in *. apply IH.
  - intros k r' Hr Hk. apply Hrs; [by right | lia].
  - apply map_Forall_insert_2; [|done]. apply Hrs; [by left | lia].
Qed.

End Receipts.

(** ** A node that serves a block *)

Section Served.
Context {W : Type} (node : Web3Node W) {TL : TrieLib} {EO : EthObject} {RL : RlpLib} {KC : Keccak} {TOk : TrieOk}.

(** A receipt as web3 gives it, and its logs, are serialized as their
    consensus encodings; the logs are numbered from [base] on. *)
Definition web_receipt (v : val) (r : Receipt) : Prop :=
  receipt_ok r /\ payload_size (receipt_item r) < 2 ^ 31 /\
  Receipt_fromWeb3_serialize v = Ret (rlp_encode (receipt_item r)) /\
  exists lvs base, get_prop v "logs" = Ret (VArr lvs) /\
    Forall2 (fun lv l => Log_fromWeb3_serialize lv = Ret (rlp_encode (log_item l))) lvs (logs r) /\
    forall j lv, lvs !! j = Some lv -> get_prop lv "logIndex" = Ret (VNum (base + Z.of_nat j)).

(** The node answers the requests about one block: the block, its
    receipts in order, and a header that commits to them. *)
Record serves (block : val) (n : Z) (txs receipts : list val) (rs : list Receipt) (h : BlockHeader) : Prop := {
  served_getBlock w : exists w', node_getBlock node (VNum n) w = (Ret block, w');
  served_number : get_prop block "number" = Ret (VNum n);
  served_txs : get_prop block "transactions" = Ret (VArr txs);
  served_getReceipt : Forall2 (fun tx v => forall w, exists w', node_getTransactionReceipt node tx w = (Ret v, w')) txs receipts;
  served_receipts : Forall2 web_receipt receipts rs;
  served_index i v : receipts !! i = Some v ->
    get_prop v "transactionIndex" = Ret (VNum (Z.of_nat i)) /\ get_prop v "blockNumber" = Ret (VNum n);
  served_count : Z.of_nat (length txs) < 2 ^ 32;
  served_encode i : 0 <= i < 2 ^ 32 -> encode (VNum i) = Ret (rlp_uint i);
  served_header : Header_fromWeb3_serialize block = Ret (rlp_encode (header_item h));
  served_header_ok : header_ok h;
  served_hash : hashed h;
  served_height : number h = n;
  served_root : receipts_root h = commit (receipt_map 0 rs ∅)
}.

(** The lines a run prints. *)
Definition printed (t : list event) : list (list val) :=
  omap (fun e => match e with Call "console.log" args => Some args | _ => None end) t.

Lemma printed_app t1 t2 : printed (t1 ++ t2) = (printed t1 ++ printed t2)%list.
Proof. apply omap_app. Qed.

(** Events other than output. *)
Definition quiet_event (e : event) : bool :=
  match e with
  | Call name _ => negb (String.eqb name "console.log") && negb (String.eqb name "fs.writeFile")
  | _ => true
  end.

Definition quiet (t : list event) : Prop := forallb quiet_event t = true.

Lemma quiet_app t1 t2 : quiet t1 -> quiet t2 -> quiet (t1 ++ t2).
Proof. intros H1 H2. unfold quiet. by rewrite forallb_app, H1, H2. Qed.

Lemma printed_quiet t0 t : quiet t0 -> printed (t0 ++ t) = printed t.
Proof.
  intros H. rewrite printed_app. replace (printed t0) with ([] : list (list val)); [done|]. symmetry.
  unfold quiet in H. induction t0 as [|e t0 IH]; [done|]. cbn [forallb] in H. apply andb_true_iff in H as [He H].
  cbn [printed omap list_omap]. destruct e as [d | u | name args]; try exact (IH H).
  cbn [quiet_event] in He. apply andb_true_iff in He as [He _]. destruct (String.eqb_spec name "console.log") as [->|Hne]; [done|].
  replace (match name with "console.log" => Some args | _ => None end) with (@None (list val)); [exact (IH H)|].
  clear -Hne. repeat (case_match; try done).
Qed.

Context {RLok : RlpOk} (url : string).

Lemma backoff_returns {A} n (fn : eff W event A) Q : returns fn Q -> returns (backoff n fn) Q.
Proof. intros H. destruct n; by apply returns_try. Qed.

Lemma getTransactionReceipt_returns tx v :
  (forall w, exists w', node_getTransactionReceipt node tx w = (Ret v, w')) ->
  returns (getTransactionReceipt url node tx) (fun b t => b = v /\ quiet t).
Proof. intros H. apply backoff_returns, returns_try. by eapply returns_perform. Qed.

Lemma getBlock_returns b block :
  (forall w, exists w', node_getBlock node b w = (Ret block, w')) -> block <> VNull ->
  returns (getBlock url node b) (fun v t => v = block /\ quiet t).
Proof.
  intros H Hn. apply backoff_returns, returns_try.
  eapply returns_bind; [by eapply (returns_perform _ _ _ (fun v t => v = block /\ quiet t))|].
  intros ? t [-> Ht]. destruct block; try done; apply returns_ret; by rewrite app_nil_r.
Qed.

Lemma put_receipts_contents receipts rs i t :
  Forall2 web_receipt receipts rs -> 0 <= i -> i + Z.of_nat (length rs) < 2 ^ 32 ->
  (forall j v, receipts !! j = Some v -> get_prop v "transactionIndex" = Ret (VNum (i + Z.of_nat j))) ->
  (forall k, 0 <= k < 2 ^ 32 -> encode (VNum k) = Ret (rlp_uint k)) ->
  exists t', put_receipts receipts t = Ret t' /\ contents t' = receipt_map i rs (contents t).
Proof.
  intros H. revert i t. induction H as [|v r receipts rs (Hok & _ & Hser & _) Hrest IH]; intros i t Hi Hl Hidx Henc.
  - by exists t.
  - cbn [put_receipts receipt_map length] in *. rewrite (Hidx 0%nat v eq_refl), Z.add_0_r. cbn.
    rewrite Henc by lia. cbn. rewrite Hser. cbn.
    destruct (trie_put_ok (rlp_uint i) (rlp_encode (receipt_item r)) t) as (t' & -> & Hc).
    + apply rlp_encode_bytes, be_min_ok. lia.
    + pose proof (receipt_length r Hok) as Hlen. intros H0. rewrite H0 in Hlen. cbn in Hlen. lia.
    + cbn. rewrite <- Hc. apply IH; [lia | lia | | done].
      intros j v' Hj. rewrite (Hidx (S j) v' Hj). do 2 f_equal. lia.
Qed.

(** A value, and no line printed or file written. *)
Definition gives {A} (a : A) : A -> list event -> Prop := fun b t => b = a /\ quiet t.

Lemma returns_gives {A B} (m : eff W event A) a (k : A -> eff W event B) Q :
  returns m (gives a) -> returns (k a) (fun b t => forall t0, quiet t0 -> Q b (t0 ++ t)%list) -> returns (m ≫= k) Q.
Proof.
  intros Hm Hk. eapply returns_bind; [exact Hm|]. intros ? t [-> Ht]. eapply returns_mono; [exact Hk|]. eauto.
Qed.

Lemma gives_lift {A} (o : outcome A) a : o = Ret a -> returns (W := W) (lift o) (gives a).
Proof. intros H. by eapply returns_lift. Qed.

Lemma gives_bind {A B} (m : eff W event A) a (k : A -> eff W event B) b :
  returns m (gives a) -> returns (k a) (gives b) -> returns (m ≫= k) (gives b).
Proof.
  intros Hm Hk. eapply returns_gives; [exact Hm|]. eapply returns_mono; [exact Hk|].
  intros ? t [-> Ht] t0 Ht0. split; [done|]. by apply quiet_app.
Qed.

Section OneBlock.
Context (block : val) (n : Z) (txs receipts : list val) (rs : list Receipt) (h : BlockHeader).
Context (Hs : serves block n txs receipts rs h).

Lemma receipts_length : length receipts = length txs /\ length rs = length txs.
Proof using Hs.
  destruct Hs as [_ _ _ H1 H2 _ _ _ _ _ _ _ _]. apply Forall2_length in H1, H2. split; congruence.
Qed.

Lemma buildTrie_returns :
  exists tree, contents tree = receipt_map 0 rs ∅ /\ returns (buildTrie url node block) (gives tree).
Proof using Hs RLok.
  pose proof receipts_length as [Hl1 Hl2]. pose proof (served_count _ _ _ _ _ _ Hs) as Hcount.
  destruct (put_receipts_contents receipts rs 0 new_trie) as (tree & Hput & Hc).
  - apply Hs.
  - lia.
  - lia.
  - intros j v Hj. by apply (served_index _ _ _ _ _ _ Hs).
  - apply Hs.
  - exists tree. rewrite <- contents_new, <- Hc. split; [done|]. unfold buildTrie.
    eapply gives_bind; [apply gives_lift; rewrite (served_txs _ _ _ _ _ _ Hs); reflexivity|].
    eapply gives_bind; [|by apply gives_lift].
    apply (returns_promise_all (fun t => quiet t)); [done | |].
    + apply quiet_app.
    + apply Forall2_fmap_l. eapply list.Forall2_impl; [exact (served_getReceipt _ _ _ _ _ _ Hs)|]. intros tx v Hv. by apply getTransactionReceipt_returns.
Qed.

(** The proof of the receipt at position [i] is a path that the prover follows. *)
Lemma extractProof_path tree i r :
  contents tree = receipt_map 0 rs ∅ -> rs !! i = Some r ->
  exists raw, trie_findPath (rlp_uint (Z.of_nat i)) tree = Ret raw /\ Forall item_ok (proof_fromStack raw) /\
    returns (extractProof node block tree (VNum (Z.of_nat i)))
      (gives {| header_rlp := rlp_encode (header_item h); receiptProof := proof_fromStack raw; txIndex := VNum (Z.of_nat i) |}) /\
    verify_trie_proof (receipts_root h) (rlp_uint (Z.of_nat i)) (map rlp_encode (proof_fromStack raw)) = Some (rlp_encode (receipt_item r)).
Proof using Hs RLok.
  intros Hc Hi. pose proof receipts_length as [Hl1 Hl2]. pose proof (served_count _ _ _ _ _ _ Hs) as Hcount.
  assert (Hlt : (i < length rs)%nat) by (by eapply lookup_lt_Some).
  destruct (trie_findPath_ok (rlp_uint (Z.of_nat i)) (rlp_encode (receipt_item r)) tree) as (stack & nd & rest & Hfind & Hst & Hpath & Hok & Hroot).
  - rewrite Hc. apply receipt_map_small; [|apply map_Forall_empty]. intros k r' Hr Hk.
    assert (Hu : item_ok (Str (be_min k))) by (apply be_min_ok; lia).
    apply list_elem_of_lookup_1 in Hr as [j Hj].
    destruct (Forall2_lookup_r _ _ _ _ _ (served_receipts _ _ _ _ _ _ Hs) Hj) as (v & _ & Hrok & Hsize & _).
    destruct Hrok as (_ & _ & _ & Hrok).
    pose proof (rlp_length_max _ Hu) as H1. pose proof (rlp_length_max _ Hrok) as H2. cbn [payload_size] in H1.
    assert ((length (be_min k) <= 8)%nat) by (apply length_be_min_le; change (256 ^ Z.of_nat 8) with (2 ^ 64); lia).
    split; [by apply rlp_encode_bytes|]. split; [by apply rlp_encode_bytes|].
    split; [unfold rlp_uint; lia|].  change (2 ^ 32) with (2 ^ 31 + 2 ^ 31). lia.
  - rewrite Hc. change (rlp_uint (Z.of_nat i)) with (rlp_uint (0 + Z.of_nat i)). apply receipt_map_lookup; [done | lia | lia].
  - exists stack. rewrite Hst. split; [done|]. split; [done|]. split.
    + unfold extractProof. eapply gives_bind; [apply gives_lift; apply (served_encode _ _ _ _ _ _ Hs); lia|].
      eapply gives_bind; [by apply gives_lift|].
      eapply gives_bind; [exact (gives_lift _ _ (served_number _ _ _ _ _ _ Hs))|].
      eapply gives_bind; [eapply returns_perform; [exact (served_getBlock _ _ _ _ _ _ Hs) | done]|].
      eapply gives_bind; [exact (gives_lift _ _ (served_header _ _ _ _ _ _ Hs))|]. rewrite Hst. by apply returns_ret.
    + rewrite (served_root _ _ _ _ _ _ Hs), <- Hc, Hroot. apply verify_trie_path; [done | | done |].
      * apply rlp_encode_bytes, be_min_ok. lia.
      * destruct (Forall2_lookup_r _ _ _ _ _ (served_receipts _ _ _ _ _ _ Hs) Hi) as (v & _ & Hrok & _).
        pose proof (receipt_length r Hrok). lia.
Qed.

Lemma extractProof_returns tree i r :
  contents tree = receipt_map 0 rs ∅ -> rs !! i = Some r ->
  exists stack, returns (extractProof node block tree (VNum (Z.of_nat i)))
      (gives {| header_rlp := rlp_encode (header_item h); receiptProof := stack; txIndex := VNum (Z.of_nat i) |}) /\
    verify_trie_proof (receipts_root h) (rlp_uint (Z.of_nat i)) (map rlp_encode stack) = Some (rlp_encode (receipt_item r)).
Proof using Hs RLok. intros Hc Hi. destruct (extractProof_path tree i r Hc Hi) as (raw & _ & _ & H). by exists (proof_fromStack raw). Qed.

End OneBlock.

Lemma find_log_numbered lvs base k j lv :
  (forall m lv, lvs !! m = Some lv -> get_prop lv "logIndex" = Ret (VNum (base + Z.of_nat m))) ->
  lvs !! j = Some lv -> find_log k lvs (VNum (base + Z.of_nat j)) = Ret (Some (k + Z.of_nat j, lv)).
Proof.
  revert base k j. induction lvs as [|l lvs IH]; intros base k j Hnum Hj; [done|]. cbn [find_log].
  rewrite (Hnum 0%nat l eq_refl). cbn. destruct j as [|j]; cbn in Hj.
  - injection Hj as ->. rewrite (proj2 (Z.eqb_eq _ _)) by lia. by rewrite Z.add_0_r.
  - rewrite (proj2 (Z.eqb_neq _ _)) by lia.
    replace (base + Z.of_nat (S j)) with (base + 1 + Z.of_nat j) by lia.
    rewrite (IH (base + 1)); [do 3 f_equal; lia | | done].
    intros m lv' Hm. rewrite (Hnum (S m) lv' Hm). do 2 f_equal. lia.
Qed.

End Served.

(** ** Properties *)

Section Properties.
Context {W : Type} (url : string) (node : Web3Node W) {TL : TrieLib} {EO : EthObject} {RL : RlpLib} {KC : Keccak}.
Context (JSON_parse : string -> outcome val).

(** Printing the proof of the log at position [j] of a receipt. *)
Lemma print_proof_returns {TOk : TrieOk} {RLok : RlpOk} raw ev rv r block ex n lvs base j lv l :
  Receipt_fromWeb3_serialize rv = Ret (rlp_encode (receipt_item r)) ->
  get_prop rv "logs" = Ret (VArr lvs) ->
  (forall m lv, lvs !! m = Some lv -> get_prop lv "logIndex" = Ret (VNum (base + Z.of_nat m))) ->
  lvs !! j = Some lv -> Log_fromWeb3_serialize lv = Ret (rlp_encode (log_item l)) ->
  get_prop ev "logIndex" = Ret (VNum (base + Z.of_nat j)) -> get_prop block "number" = Ret (VNum n) ->
  returns (print_proof (W := W) raw ev rv block ex) (fun _ t => printed t =
    [[json_view (VObj [("block_number", VNum n); ("proof_locker", proof_val
        {| log_index := Z.of_nat j; log_entry_data := rlp_encode (log_item l); receipt_index := txIndex ex;
           receipt_data := rlp_encode (receipt_item r); header_data := header_rlp ex;
           proof := map rlp_encode (receiptProof ex) |})])]]).
Proof.
  intros Hser Hlogs Hnum Hj Hl Hev Hn. unfold print_proof.
  eapply returns_gives; [apply gives_lift; rewrite Hlogs; reflexivity|].
  eapply returns_gives; [by apply gives_lift|].
  eapply returns_gives; [apply gives_lift, (find_log_numbered _ base); eassumption|].
  eapply returns_gives; [by apply gives_lift|].
  eapply returns_gives; [by apply gives_lift|].
  eapply returns_gives; [by apply gives_lift|].
  apply returns_emit. intros t1 H1 t2 H2 t3 H3 t4 H4 t5 H5 t6 H6.
  by rewrite !printed_quiet by assumption.
Qed.

(** The prover accepts a log of a receipt whose path it has verified. *)
Lemma proof_verifies {TOk : TrieOk} {RLok : RlpOk} block n txs receipts rs h i r j l path env self skip :
  serves node block n txs receipts rs h -> receipt_ok r -> logs r !! j = Some l -> Z.of_nat j < 2 ^ 32 ->
  verify_trie_proof (receipts_root h) (rlp_uint i) path = Some (rlp_encode (receipt_item r)) ->
  is_paused env self PAUSE_VERIFY = false ->
  verify_log_entry env self (Z.of_nat j) (rlp_encode (log_item l)) i (rlp_encode (receipt_item r))
    (rlp_encode (header_item h)) path skip =
  Some (if skip then Value true else BlockHashSafe (bridge_smart_contract self) n (hash h)).
Proof.
  intros Hs Hrok Hl Hj Hverify Hp.
  rewrite (verify_log_entry_accepts env self _ _ _ _ _ _ _ l r h); [by rewrite (served_height _ _ _ _ _ _ _ Hs) | done | | | | |].
  - destruct Hrok as (_ & _ & Hlok & Hok). rewrite list.Forall_forall in Hlok.
    assert (Hin : l ∈ logs r) by (by eapply list_elem_of_lookup_2). apply decode_log_item; [auto|].
    eapply item_ok_in; [by apply list_elem_of_fmap_2|]. by eapply item_ok_lookup with (pos := 3%nat), Hok.
  - by apply decode_receipt_item.
  - apply decode_header_item; apply Hs.
  - unfold as_usize. rewrite Z.mod_small, Nat2Z.id by lia. done.
  - exact Hverify.
Qed.

(** The event of a served block, and the proof that is printed for it. *)
Lemma findProof_accepted {TOk : TrieOk} {RLok : RlpOk} block n txs receipts rs h raw ev i tx rv r lvs base j lv :
  serves node block n txs receipts rs h ->
  JSON_parse raw = Ret ev -> truthy ev = true -> get_prop ev "transactionHash" = Ret tx ->
  txs !! i = Some tx -> receipts !! i = Some rv -> rs !! i = Some r ->
  get_prop rv "logs" = Ret (VArr lvs) ->
  (forall m lv, lvs !! m = Some lv -> get_prop lv "logIndex" = Ret (VNum (base + Z.of_nat m))) ->
  lvs !! j = Some lv -> get_prop ev "logIndex" = Ret (VNum (base + Z.of_nat j)) -> Z.of_nat j < 2 ^ 32 ->
  returns (ethToNearFindProof url node WebsocketProvider JSON_parse raw) (fun _ t =>
    exists p, printed t = [[json_view (VObj [("block_number", VNum n); ("proof_locker", proof_val p)])]] /\
      log_index p = Z.of_nat j /\ receipt_index p = VNum (Z.of_nat i) /\
      forall env self skip, is_paused env self PAUSE_VERIFY = false ->
        verify_log_entry env self (log_index p) (log_entry_data p) (Z.of_nat i) (receipt_data p) (header_data p) (proof p) skip =
        Some (if skip then Value true else BlockHashSafe (bridge_smart_contract self) n (hash h))).
Proof.
  intros Hs Hparse Htr Htx Hi Hrv Hr Hlogs Hnum Hj Hev Hjlt.
  destruct (Forall2_lookup_lr _ _ _ _ _ _ (served_receipts _ _ _ _ _ _ _ Hs) Hrv Hr) as (Hrok & _ & Hser & lvs' & base' & Hlogs' & Hll & _).
  rewrite Hlogs in Hlogs'. injection Hlogs' as <-.
  destruct (Forall2_lookup_l _ _ _ _ _ Hll Hj) as (l & Hl & Hlser).
  destruct (buildTrie_returns node url _ _ _ _ _ _ Hs) as (tree & Hc & Hbuild).
  destruct (extractProof_returns node _ _ _ _ _ _ Hs tree i r Hc Hr) as (stack & Hex & Hverify).
  destruct (served_index _ _ _ _ _ _ _ Hs i rv Hrv) as [Hidx Hbn].
  assert (Hget : forall w, exists w', node_getTransactionReceipt node tx w = (Ret rv, w'))
    by exact (Forall2_lookup_lr _ _ _ _ _ _ (served_getReceipt _ _ _ _ _ _ _ Hs) Hi Hrv).
  set (ex := {| header_rlp := _; receiptProof := stack; txIndex := _ |}) in Hex.
  set (p := {| log_index := Z.of_nat j; log_entry_data := rlp_encode (log_item l); receipt_index := txIndex ex;
               receipt_data := rlp_encode (receipt_item r); header_data := header_rlp ex;
               proof := map rlp_encode (receiptProof ex) |}).
  unfold ethToNearFindProof.
  apply (returns_bind _ _ (fun _ t => printed t =
    [[json_view (VObj [("block_number", VNum n); ("proof_locker", proof_val p)])]])).
  - apply returns_try. eapply returns_gives; [by apply gives_lift|]. unfold js_or. rewrite Htr.
    eapply returns_gives; [by apply gives_lift|].
    eapply returns_gives; [by apply getTransactionReceipt_returns|].
    eapply returns_gives; [by apply gives_lift|].
    eapply returns_gives; [apply getBlock_returns; [apply Hs | intros ->; by pose proof (served_number _ _ _ _ _ _ _ Hs)]|].
    eapply returns_gives; [exact Hbuild|].
    eapply returns_gives; [by apply gives_lift|].
    eapply returns_gives; [exact Hex|].
    eapply returns_gives; [by apply returns_emit|].
    eapply returns_mono; [eapply print_proof_returns; try eassumption; apply Hs|]. cbv beta.
    intros _ t Ht t1 H1 t2 H2 t3 H3 t4 H4 t5 H5 t6 H6 t7 H7 t8 H8 t9 H9.
    by rewrite !printed_quiet by assumption.
  - intros _ t Ht. apply returns_emit. rewrite printed_app. rewrite Ht. exists p. split; [reflexivity|].
    split; [done|]. split; [done|]. intros env self skip Hp. cbn [p log_index log_entry_data receipt_data header_data proof ex header_rlp receiptProof].
    by eapply proof_verifies.
Qed.

(** C23: A proof the extractor prints is one the prover contract accepts.
    Take a node behind a WebsocketProvider that serves a block with its
    receipts, all of the untyped (legacy) form, and its header, and an event
    of that block: the transaction hash and the log index, which counts the
    logs of the block.  [ethToNearFindProof] then returns and prints one
    line, a proof of the log for that block; and every [verify_log_entry] of
    the prover contract that is not paused accepts the proof: it answers
    true when the bridge call is skipped, and otherwise asks the client
    contract for the hash of this header. *)
Theorem ethToNearFindProof_accepted {TOk : TrieOk} {RLok : RlpOk} block n txs receipts rs h raw ev i tx rv r lvs base j lv :
  serves node block n txs receipts rs h ->
  JSON_parse raw = Ret ev -> truthy ev = true -> get_prop ev "transactionHash" = Ret tx ->
  txs !! i = Some tx -> receipts !! i = Some rv -> rs !! i = Some r ->
  get_prop rv "logs" = Ret (VArr lvs) ->
  (forall m lv, lvs !! m = Some lv -> get_prop lv "logIndex" = Ret (VNum (base + Z.of_nat m))) ->
  lvs !! j = Some lv -> get_prop ev "logIndex" = Ret (VNum (base + Z.of_nat j)) -> Z.of_nat j < 2 ^ 32 ->
  returns (ethToNearFindProof url node WebsocketProvider JSON_parse raw) (fun _ t =>
    exists p, printed t = [[json_view (VObj [("block_number", VNum n); ("proof_locker", proof_val p)])]] /\
      log_index p = Z.of_nat j /\ receipt_index p = VNum (Z.of_nat i) /\
      forall env self skip, is_paused env self PAUSE_VERIFY = false ->
        verify_log_entry env self (log_index p) (log_entry_data p) (Z.of_nat i) (receipt_data p) (header_data p) (proof p) skip =
        Some (if skip then Value true else BlockHashSafe (bridge_smart_contract self) n (hash h))).
Proof. apply findProof_accepted. Qed.

(** Over HTTP the command never ends well.  Whatever the node answers
    and whatever it prints, [ethToNearFindProof] on an HTTP provider does
    not return: it closes a connection that such a provider does not have. *)
Theorem ethToNearFindProof_http raw w : is_ret (out_of (ethToNearFindProof url node HttpProvider JSON_parse raw w)) = false.
Proof.
  unfold ethToNearFindProof. rewrite eff_bind_eq.
  match goal with |- context [match ?r with _ => _ end] => destruct r as [[[a|e|c|] w1] t1] end; reflexivity.
Qed.

End Properties.

(** ** A trie that satisfies the laws

    A trie without extension nodes: a node holds its only entry as a leaf,
    or branches on the next nibble. *)

Module RefTrie.
Import RlpRef.

Section Build.
Context {KC : Keccak}.

Definition entries : Type := list (list Z * list Z).

(** The entries below a nibble, and the value at the end of a key. *)
Definition below (i : Z) (l : entries) : entries :=
  omap (fun kv => match kv.1 with x :: q => if x =? i then Some (q, kv.2) else None | [] => None end) l.

Definition value_here (l : entries) : list Z :=
  match list_find (fun kv => kv.1 = []) l with Some (_, kv) => kv.2 | None => [] end.

Fixpoint build (fuel : nat) (l : entries) : item :=
  match l with
  | [] => Str []
  | [(p, v)] => Lst [Str (compact true p); Str v]
  | _ =>
      match fuel with
      | O => Str []
      | S fuel' => Lst (map (fun i => node_ref (build fuel' (below i l))) (seqZ 0 16) ++ [Str (value_here l)])
      end
  end.

Fixpoint path (fuel : nat) (l : entries) (key : list Z) : list item :=
  build fuel l ::
  match l, fuel, key with
  | _ :: _ :: _, S fuel', i :: q => path fuel' (below i l) q
  | _, _, _ => []
  end.

Lemma below_in i q v l : (i :: q, v) ∈ l -> (q, v) ∈ below i l.
Proof. intros H. apply list_elem_of_omap. exists (i :: q, v). cbn. by rewrite Z.eqb_refl. Qed.

Lemma below_NoDup i l : NoDup l.*1 -> NoDup (below i l).*1.
Proof.
  induction l as [|[p v] l IH]; cbn; [constructor|]. intros Hnd. apply list.NoDup_cons in Hnd as [Hn Hnd].
  destruct p as [|x q]; [by apply IH|]. cbn. destruct (Z.eqb_spec x i) as [->|]; [|by apply IH]. cbn.
  apply list.NoDup_cons. split; [|by apply IH]. intros Hin. apply Hn.
  apply list_elem_of_fmap in Hin as ([q' v'] & -> & Hin). apply list_elem_of_omap in Hin as ([p' v''] & Hin & Heq).
  cbn in Heq. destruct p' as [|x q'']; [done|]. destruct (Z.eqb_spec x i) as [->|]; [|done]. simplify_eq.
  apply list_elem_of_fmap. by exists (i :: q', v').
Qed.

Lemma value_here_in v l : NoDup l.*1 -> ([], v) ∈ l -> value_here l = v.
Proof.
  intros Hnd Hin. unfold value_here. destruct (list_find _ l) as [[j [p v']]|] eqn:E.
  - apply list_find_Some in E as (Hj & Hp & _). cbn in *. subst p. apply list_elem_of_lookup_1 in Hin as [k Hk].
    assert (j = k) as ->; [|congruence].
    eapply NoDup_lookup; [exact Hnd | |]; rewrite list_lookup_fmap; [rewrite Hj | rewrite Hk]; reflexivity.
  - apply list_find_None in E. rewrite list.Forall_forall in E. by destruct (E _ Hin).
Qed.

Lemma path_head fuel l key : exists rest, path fuel l key = build fuel l :: rest.
Proof. destruct fuel; eexists; reflexivity. Qed.

Lemma lookup_children (f : Z -> item) last i :
  is_nibble i -> (map f (seqZ 0 16) ++ [last]) !! Z.to_nat i = Some (f i).
Proof.
  intros Hi. unfold is_nibble in Hi. apply lookup_app_l_Some. fold (f <$> seqZ 0 16). rewrite list_lookup_fmap.
  rewrite lookup_seqZ_lt by lia. cbn. f_equal. f_equal. lia.
Qed.

Lemma path_ok fuel l p v :
  (length p < fuel)%nat -> NoDup l.*1 -> Forall is_nibble p -> (p, v) ∈ l -> trie_path p (path fuel l p) v.
Proof.
  revert l p. induction fuel as [|fuel IH]; intros l p Hf Hnd Hp Hin; [lia|].
  destruct l as [|[p0 v0] [|e l]].
  - by apply not_elem_of_nil in Hin.
  - apply list_elem_of_singleton in Hin. injection Hin as -> ->. apply path_leaf.
  - destruct p as [|i q].
    + apply path_value; [reflexivity|]. unfold value_here at 1. fold (value_here ((p0, v0) :: e :: l)).
      by rewrite (value_here_in v) by done.
    + apply list.Forall_cons in Hp as [Hi Hp].
      specialize (IH (below i ((p0, v0) :: e :: l)) q ltac:(cbn in Hf; lia) (below_NoDup i _ Hnd) Hp (below_in _ _ _ _ Hin)).
      change (path (S fuel) ((p0, v0) :: e :: l) (i :: q))
        with (build (S fuel) ((p0, v0) :: e :: l) :: path fuel (below i ((p0, v0) :: e :: l)) q).
      destruct (path_head fuel (below i ((p0, v0) :: e :: l)) q) as [rest Hh]. rewrite Hh in *.
      apply path_branch; [reflexivity | | exact IH].
      exact (lookup_children (fun i => node_ref (build fuel (below i ((p0, v0) :: e :: l)))) _ i Hi).
Qed.

(** Entries whose nodes the format can express. *)
Definition entry_ok (kv : list Z * list Z) : Prop :=
  Forall is_nibble kv.1 /\ bytes_ok kv.2 /\ Z.of_nat (length kv.1) < 2 ^ 34 /\ Z.of_nat (length kv.2) < 2 ^ 32.

Lemma pack_ok p : Forall is_nibble p -> bytes_ok (pack p) /\ (length (pack p) <= length p)%nat.
Proof.
  remember (length p) as n eqn:Hn. revert p Hn. induction n as [n IH] using lt_wf_ind. intros p Hn Hp.
  destruct p as [|a [|b p]]; [split; [constructor | cbn; lia] | split; [constructor | cbn; lia] |].
  apply list.Forall_cons in Hp as [Ha Hp]. apply list.Forall_cons in Hp as [Hb Hp]. unfold is_nibble in *.
  cbn [length] in Hn. subst n. destruct (IH (length p) ltac:(lia) p eq_refl Hp) as [H1 H2]. cbn [pack length].
  split; [|lia]. constructor; [|done]. unfold is_byte. lia.
Qed.

Lemma compact_ok p : Forall is_nibble p -> bytes_ok (compact true p) /\ (length (compact true p) <= S (length p))%nat.
Proof.
  intros Hp. unfold compact. destruct (Nat.odd (length p)).
  - destruct p as [|x p]; [split; [constructor | cbn; lia]|]. apply list.Forall_cons in Hp as [Hx Hp].
    destruct (pack_ok p Hp) as [H1 H2]. unfold is_nibble in Hx. cbn [length]. split; [|lia].
    constructor; [unfold is_byte; lia | done].
  - destruct (pack_ok p Hp) as [H1 H2]. cbn [length]. split; [|lia]. constructor; [unfold is_byte; lia | done].
Qed.

Lemma below_ok i l : Forall entry_ok l -> Forall entry_ok (below i l).
Proof.
  intros Hl. apply list.Forall_forall. intros [q v] Hin. apply list_elem_of_omap in Hin as ([p v'] & Hin & Heq).
  rewrite list.Forall_forall in Hl. destruct (Hl _ Hin) as (Hp & Hv & Hlp & Hlv). cbn in Heq.
  destruct p as [|x q']; [done|]. destruct (x =? i); [|done]. simplify_eq. cbn in *.
  apply list.Forall_cons in Hp as [_ Hp]. repeat split; try done. cbn [fst]. lia.
Qed.

Lemma value_here_ok l : Forall entry_ok l -> bytes_ok (value_here l) /\ Z.of_nat (length (value_here l)) < 2 ^ 32.
Proof.
  intros Hl. unfold value_here. destruct (list_find _ l) as [[j kv]|] eqn:E; [|split; [constructor | cbn; lia]].
  apply list_find_Some in E as (Hj & _ & _). eapply list.Forall_lookup_1 in Hl; [|exact Hj].
  by destruct Hl as (_ & Hv & _ & Hlv).
Qed.

Lemma node_ref_ok n : item_ok n -> item_bytes (node_ref n) /\ payload_size (node_ref n) <= 400.
Proof.
  intros [Hb Hs]. unfold node_ref. destruct (Nat.ltb_spec (length (rlp_encode n)) 32) as [Hlt|Hge].
  - split; [done|]. pose proof (payload_size_encode n). cbn [rlp_encode rlp_ref] in Hlt. lia.
  - split; [apply keccak256_bytes|]. cbn [payload_size]. rewrite keccak256_length. lia.
Qed.

Lemma payload_size_app l1 l2 : payload_size (Lst (l1 ++ l2)) = payload_size (Lst l1) + payload_size (Lst l2).
Proof. cbn [payload_size]. induction l1 as [|x l1 IH]; cbn [app foldr]; lia. Qed.

Lemma payload_size_small l : Forall (fun x => payload_size x <= 400) l -> payload_size (Lst l) <= 409 * Z.of_nat (length l).
Proof. intros H. cbn [payload_size]. induction H as [|x l Hx _ IH]; cbn [foldr length]; lia. Qed.

Lemma build_ok fuel l : Forall entry_ok l -> item_ok (build fuel l).
Proof.
  revert l. induction fuel as [|fuel IH]; intros l Hl; destruct l as [|[p v] [|e l]]; try (by split; [constructor | cbn; lia]).
  1, 2: apply list.Forall_cons in Hl as [(Hp & Hv & Hlp & Hlv) _]; cbn in *; destruct (compact_ok p Hp) as [Hc Hlc];
    (split; [cbn; done|]); cbn [build payload_size foldr];
    change (2 ^ 64) with (2 ^ 34 * 2 ^ 30); lia.
  set (l0 := (p, v) :: e :: l) in *. destruct (value_here_ok l0 Hl) as [Hvb Hvl].
  change (build (S fuel) l0) with (Lst (map (fun i => node_ref (build fuel (below i l0))) (seqZ 0 16) ++ [Str (value_here l0)])).
  assert (Hc : Forall (fun x => item_bytes x /\ payload_size x <= 400) (map (fun i => node_ref (build fuel (below i l0))) (seqZ 0 16))).
  { apply Forall_fmap, list.Forall_forall. intros i _. by apply node_ref_ok, IH, below_ok. }
  split.
  - apply item_bytes_list, list.Forall_app. split; [|by repeat constructor].
    eapply list.Forall_impl; [exact Hc|]. by intros x [Hx _].
  - rewrite payload_size_app. cbn [payload_size foldr].
    assert (Hsz := payload_size_small (map (fun i => node_ref (build fuel (below i l0))) (seqZ 0 16))).
    rewrite length_map in Hsz. change (length (seqZ 0 16)) with 16%nat in Hsz. cbn [payload_size] in Hsz.
    specialize (Hsz ltac:(eapply list.Forall_impl; [exact Hc|]; by intros x [_ Hx])). change (2 ^ 64) with (2 ^ 32 * 2 ^ 32). lia.
Qed.

Lemma path_items_ok fuel l key : Forall entry_ok l -> Forall item_ok (path fuel l key).
Proof.
  revert l key. induction fuel as [|fuel IH]; intros l key Hl; (constructor; [by apply build_ok|]);
    destruct l as [|e0 [|e l]]; try constructor.
  destruct key as [|i q]; [constructor|]. by apply IH, below_ok.
Qed.

Lemma nibbles_inj k1 k2 : nibbles k1 = nibbles k2 -> k1 = k2.
Proof.
  revert k2. induction k1 as [|a k1 IH]; intros [|b k2] H; try done. cbn in H. injection H as H1 H2 H3.
  f_equal; [|by apply IH]. rewrite (Z.div_mod a 16), (Z.div_mod b 16) by lia. lia.
Qed.

Definition entries_of (m : gmap (list Z) (list Z)) : entries := map (fun kv => (nibbles kv.1, kv.2)) (map_to_list m).
Definition fuel_of (m : gmap (list Z) (list Z)) : nat := S (max_list (map (fun kv => length kv.1) (entries_of m))).

Lemma entries_NoDup m : NoDup (entries_of m).*1.
Proof.
  assert (H : (entries_of m).*1 = nibbles <$> (map_to_list m).*1)
    by (unfold entries_of; rewrite <- !list_fmap_compose; reflexivity).
  rewrite H. apply NoDup_fmap_2; [|apply NoDup_fst_map_to_list]. intros a b. apply nibbles_inj.
Qed.

Lemma length_nibbles k : length (nibbles k) = (2 * length k)%nat.
Proof. induction k as [|a k IH]; [done|]. cbn [nibbles map concat app length] in *. unfold nibbles in IH. lia. Qed.

#[export] Instance ref_trie : TrieLib := {|
  trie := gmap (list Z) (list Z);
  new_trie := ∅;
  trie_put k v t := Ret (<[k := v]> t);
  trie_node := item;
  trie_findPath k t := Ret (path (fuel_of t) (entries_of t) (nibbles k));
  proof_fromStack stack := stack
|}.

#[export] Instance ref_trie_ok : TrieOk.
Proof.
  refine {| contents := fun t : trie => (t : gmap (list Z) (list Z));
            commit := fun m => keccak256 (rlp_encode (build (fuel_of m) (entries_of m))) |}.
  - reflexivity.
  - intros k v t _ _. by eexists.
  - intros k v t Hsmall Hk. destruct (path_head (fuel_of t) (entries_of t) (nibbles k)) as [rest Hh].
    exists (path (fuel_of t) (entries_of t) (nibbles k)), (build (fuel_of t) (entries_of t)), rest.
    assert (Hin : (nibbles k, v) ∈ entries_of t)
      by (apply list_elem_of_fmap; exists (k, v); split; [done|]; by apply elem_of_map_to_list).
    split; [done|]. split; [exact Hh|]. rewrite <- Hh. split; [|split; [|done]].
    + apply path_ok; [| apply entries_NoDup | apply nibbles_ok; by apply (Hsmall k v) | done].
      unfold fuel_of. apply Nat.lt_succ_r. apply max_list_elem_of_le.
      apply list_elem_of_fmap. by exists (nibbles k, v).
    + apply path_items_ok, Forall_fmap, list.Forall_forall. intros [k' v'] Hkv. apply elem_of_map_to_list in Hkv.
      destruct (Hsmall k' v' Hkv) as (H1 & H2 & H3 & H4). repeat split; cbn [fst snd compose]; try done; [by apply nibbles_ok|].
      rewrite length_nibbles. change (2 ^ 34) with (2 ^ 32 * 4). lia.
Defined.

End Build.

End RefTrie.

Module Witness.
Import RefTrie EthProver.Witness.
#[local] Existing Instances RlpRef.rlp_ref RlpRef.rlp_ref_ok.

(** Objects of web3 whose byte fields are Buffers. *)
Definition bytes_at (v : val) (name : string) : list Z :=
  match get_prop v name with Ret (VBytes bs) => bs | _ => [] end.

Definition arr_at (v : val) (name : string) : list val :=
  match get_prop v name with Ret (VArr vs) => vs | _ => [] end.

Definition num_at (v : val) (name : string) : Z :=
  match get_prop v name with Ret (VNum n) => n | _ => 0 end.

Definition log_of (v : val) : LogEntry :=
  {| address := bytes_at v "address";
     topics := map (fun t => match t with VBytes bs => bs | _ => [] end) (arr_at v "topics");
     data := bytes_at v "data" |}.

Definition receipt_of (v : val) : Receipt :=
  {| status := num_at v "status" =? 1; gas_used := num_at v "gasUsed"; log_bloom := bytes_at v "logsBloom";
     logs := map log_of (arr_at v "logs") |}.

#[export] Instance toy_objects : EthObject := {|
  encode v := match v with VNum n => Ret (rlp_uint n) | _ => Throw (TypeError "invalid type") end;
  Receipt_fromWeb3_serialize v := Ret (rlp_encode (receipt_item (receipt_of v)));
  Log_fromWeb3_serialize v := Ret (rlp_encode (log_item (log_of v)));
  Header_fromWeb3_serialize v := Ret (rlp_encode (Lst (map (fun f => match f with VBytes bs => Str bs | _ => Str [] end) (arr_at v "fields"))))
|}.

Definition log_val (index : Z) : val :=
  VObj [("address", VBytes (replicate 20 7)); ("topics", VArr [VBytes (replicate 32 9)]); ("data", VBytes [1; index]);
        ("logIndex", VNum index)].

Definition receipt_val (i : Z) (lvs : list val) : val :=
  VObj [("transactionIndex", VNum i); ("blockNumber", VNum 100); ("status", VNum 1); ("gasUsed", VNum 21000);
        ("logsBloom", VBytes (replicate 256 0)); ("logs", VArr lvs)].

Definition receipts0 : list val := [receipt_val 0 [log_val 0]; receipt_val 1 [log_val 1; log_val 2]].
Definition rs0 : list Receipt := map receipt_of receipts0.

Definition unhashed : BlockHeader := {|
  parent_hash := replicate 32 1; uncles_hash := replicate 32 2; author := replicate 20 3; state_root := replicate 32 4;
  transactions_root := replicate 32 5; receipts_root := commit (receipt_map 0 rs0 ∅); bloom := replicate 256 0;
  difficulty := 7; number := 100; gas_limit := 8000000; header_gas_used := 42000; timestamp := 1600000000;
  extra_data := []; mix_hash := replicate 32 6; nonce := replicate 8 0; base_fee_per_gas := 7; hash := []; partial_hash := [] |}.

Definition h0 : BlockHeader := {|
  parent_hash := parent_hash unhashed; uncles_hash := uncles_hash unhashed; author := author unhashed;
  state_root := state_root unhashed; transactions_root := transactions_root unhashed;
  receipts_root := receipts_root unhashed; bloom := bloom unhashed; difficulty := difficulty unhashed;
  number := number unhashed; gas_limit := gas_limit unhashed; header_gas_used := header_gas_used unhashed;
  timestamp := timestamp unhashed; extra_data := extra_data unhashed; mix_hash := mix_hash unhashed;
  nonce := nonce unhashed; base_fee_per_gas := base_fee_per_gas unhashed;
  hash := keccak256 (rlp_encode (header_item unhashed)); partial_hash := keccak256 (stream_rlp true unhashed) |}.

Definition txs0 : list val := [VStr "0xa"; VStr "0xb"].

Definition block0 : val :=
  VObj [("number", VNum 100); ("transactions", VArr txs0);
        ("fields", VArr (match header_item h0 with Lst l => map (fun i => match i with Str bs => VBytes bs | _ => VNull end) l | _ => [] end))].

Definition node0 : Web3Node unit := {|
  node_getBlockNumber w := (Ret (VNum 100), w);
  node_getBlock b w := (Ret block0, w);
  node_getTransactionReceipt t w :=
    (Ret match t with VStr "0xa" => receipt_val 0 [log_val 0] | _ => receipt_val 1 [log_val 1; log_val 2] end, w);
  node_getGasPrice w := (Ret 1, w);
  node_getTransactionCount a w := (Ret 0, w);
  node_call tx w := (Ret VUndef, w);
  node_sendTransaction tx w := (None, w)
|}.

Definition event0 : val := VObj [("transactionHash", VStr "0xb"); ("logIndex", VNum 2)].

Lemma web_receipt_ok v n lvs base :
  v = receipt_val n lvs -> receipt_ok (receipt_of v) -> payload_size (receipt_item (receipt_of v)) < 2 ^ 31 ->
  (forall j lv, lvs !! j = Some lv -> get_prop lv "logIndex" = Ret (VNum (base + Z.of_nat j))) -> web_receipt v (receipt_of v).
Proof.
  intros -> Hok Hs Hl. split; [done|]. split; [done|]. split; [done|]. exists lvs, base. split; [done|]. split; [|done].
  apply Forall2_fmap_r. apply Forall_Forall2_diag. by apply list.Forall_true.
Qed.

Lemma receipt_ok0 : Forall (fun v => receipt_ok (receipt_of v)) receipts0.
Proof.
  repeat constructor; try lia; try (vm_compute; reflexivity); apply (bool_decide_unpack _); vm_compute; exact I.
Qed.

Lemma logs_numbered base lvs : lvs = map log_val (seqZ base (Z.of_nat (length lvs))) ->
  forall j lv, lvs !! j = Some lv -> get_prop lv "logIndex" = Ret (VNum (base + Z.of_nat j)).
Proof.
  intros Heq j lv Hj. rewrite Heq in Hj. fold (log_val <$> seqZ base (Z.of_nat (length lvs))) in Hj.
  rewrite list_lookup_fmap in Hj. apply fmap_Some in Hj as (x & Hx & ->). apply lookup_seqZ in Hx as [-> _]. reflexivity.
Qed.

Lemma header_ok0 : header_ok h0.
Proof.
  assert (Hroot : length (receipts_root h0) = 32%nat) by apply keccak256_length.
  assert (Hbytes : bytes_ok (receipts_root h0)) by apply keccak256_bytes.
  unfold header_ok, item_ok, header_item, header_fields. cbn [app]. remember (receipts_root h0) as root eqn:E. clear E.
  cbn [h0 unhashed parent_hash uncles_hash author state_root transactions_root bloom difficulty number gas_limit
       header_gas_used timestamp extra_data mix_hash nonce base_fee_per_gas].
  split_and!; try lia; try reflexivity.
  - repeat (apply list.Forall_cons; split; [done|]). by apply list.Forall_nil.
  - repeat (apply list.Forall_cons; split; [lia|]). by apply list.Forall_nil.
  - repeat (apply list.Forall_cons; split; [lia|]). by apply list.Forall_nil.
  - cbn [item_bytes foldr]. split_and!; try done; apply (bool_decide_unpack _); vm_compute; exact I.
  - cbn [payload_size foldr]. rewrite Hroot. vm_compute. reflexivity.
Qed.

Lemma serves0 : serves node0 block0 100 txs0 receipts0 rs0 h0.
Proof.
  assert (Hok := receipt_ok0). unfold receipts0 in Hok.
  apply list.Forall_cons in Hok as [Hok1 Hok]. apply list.Forall_cons in Hok as [Hok2 _]. constructor.
  - intros w. by exists w.
  - reflexivity.
  - reflexivity.
  - repeat constructor; intros w; exists w; reflexivity.
  - constructor; [|constructor; [|constructor]].
    + eapply (web_receipt_ok _ 0 [log_val 0] 0); [done | done | vm_compute; reflexivity | by apply logs_numbered].
    + eapply (web_receipt_ok _ 1 [log_val 1; log_val 2] 1); [done | done | vm_compute; reflexivity | by apply logs_numbered].
  - intros [|[|i]] v Hv; cbn in Hv; simplify_eq; done.
  - cbn. lia.
  - reflexivity.
  - reflexivity.
  - apply header_ok0.
  - split; reflexivity.
  - reflexivity.
  - reflexivity.
Qed.

Lemma ethToNearFindProof_accepted_witness :
  serves node0 block0 100 txs0 receipts0 rs0 h0 /\
  returns (ethToNearFindProof "ws://localhost" node0 WebsocketProvider (fun _ => Ret event0) "event") (fun _ t =>
    exists p, printed t = [[json_view (VObj [("block_number", VNum 100); ("proof_locker", proof_val p)])]] /\
      log_index p = 1 /\ receipt_index p = VNum 1 /\
      forall env self skip, is_paused env self PAUSE_VERIFY = false ->
        verify_log_entry env self (log_index p) (log_entry_data p) 1 (receipt_data p) (header_data p) (proof p) skip =
        Some (if skip then Value true else BlockHashSafe (bridge_smart_contract self) 100 (hash h0))).
Proof.
  split; [exact serves0|].
  apply (ethToNearFindProof_accepted "ws://localhost" node0 (fun _ => Ret event0) block0 100 txs0 receipts0 rs0 h0 "event"
           event0 1%nat (VStr "0xb") (receipt_val 1 [log_val 1; log_val 2]) (receipt_of (receipt_val 1 [log_val 1; log_val 2]))
           [log_val 1; log_val 2] 1 1%nat (log_val 2)); try reflexivity.
  - exact serves0.
  - by apply logs_numbered.
Defined.

End Witness.
