(* ===== verification/EthToNear.v ===== *)
(** * From an event on Ethereum to its acceptance on NEAR

    The four programs on this way together: the relay (Eth2NearRelay.v)
    feeds the client contract (EthClient.v), the extractor
    (ProofExtractor.v) prints a proof of an event, and the prover contract
    (EthProver.v) checks the proof and asks the client for the hash of the
    header.  Eth2NearSystem.v and ProofExtractor.v verify the two halves;
    here they meet in the block of the event. *)

From S2P Require Import Prelude Interfaces Borsh Robust NearTx EthOnNearClient BinarySearch Eth2NearRelay Rlp EthProver EthClient EthClientInv Eth2NearSystem ProofExtractor.

(** ** The prover's question to the client *)

(** The whole of a call of [verify_log_entry] with the bridge call: the
    prover asks, the client answers, the prover compares. *)
Definition verify_with_client `{RlpLib, Keccak} (env callback : Env) (self : EthProver) (client : EthClient)
    (log_index : Z) (log_entry_data : list Z) (receipt_index : Z) (receipt_data header_data : list Z) (proof : list (list Z))
    : outcome bool :=
  match verify_log_entry env self log_index log_entry_data receipt_index receipt_data header_data proof false with
  | Some (Value b) => Ret b
  | Some (BlockHashSafe _ n expected) =>
      answer ← block_hash_safe client n;
      expect "panic" (on_block_hash callback answer expected)
  | None => Throw (Error "panic")
  end.

(** A header that is canonical and confirmed is vouched for. *)
Lemma block_hash_safe_confirmed s n h : block_hash s n = Some h -> 0 <= n + num_confirmations s < 2 ^ 64 ->
  n + num_confirmations s <= last_block_number s -> block_hash_safe s n = Ret (Some h).
Proof.
  intros Hb Hr Hc. unfold block_hash_safe. rewrite Hb. unfold add_u64, checked, assert_.
  rewrite (proj2 (Z.leb_le 0 _)), (proj2 (Z.ltb_lt _ (2 ^ 64))) by lia. cbn. by rewrite (proj2 (Z.ltb_ge _ _)) by lia.
Qed.

Lemma verify_with_client_accepts `{RlpLib, Keccak} env callback self client li le ri rd hd proof n h :
  verify_log_entry env self li le ri rd hd proof false = Some (BlockHashSafe (bridge_smart_contract self) n h) ->
  block_hash_safe client n = Ret (Some h) -> is_owner callback = true ->
  verify_with_client env callback self client li le ri rd hd proof = Ret true.
Proof.
  intros Hv Hs Ho. unfold verify_with_client. rewrite Hv, Hs. cbn [mbind outcome_bind]. unfold on_block_hash, guard_bool. rewrite Ho.
  cbn. by rewrite bool_decide_eq_true_2.
Qed.

Section EndToEnd.
Context {RL : RlpLib} {RLok : RlpOk} {KC : Keccak} {SH : Sha256} {EH : Ethash} (D : list Z -> Prop).
Context (enc : Z -> list Z) (hdr : Z -> BlockHeader) (dag : Z -> list DagNode) (total : Z -> Z) (top : Z) (s0 : EthClient).
Context {N : Type} (near : NearNode N) (eth : Web3Node (KeyWorld N)) (ethNodeUrl : string).
Context (rpc : Z -> service (KeyWorld N) val) (header_rlp : string -> bool -> val -> outcome (list Z)).
Context (ethashproof : list Z -> service (KeyWorld N) ParsedBlock) (contractId : string) (relay : Eth2NearRelay).
Context (account_signAndSend : string -> list FunctionCall -> service (KeyWorld N) unit).
Context {BW : BinaryWriter} {BWok : BinaryWriterOk} {BN : BnLib} {BNok : BnLibOk} {HX : HexLib} {HXok : HexLibOk}.
Context (contract : N -> EthClient) (env : ClientEnv) (head depth start : Z) (fuel : nat).
Context {MC : MainChain D enc hdr dag total top s0}.
Context {SO : ServicesOk enc hdr dag top near eth rpc header_rlp ethashproof contractId relay account_signAndSend contract env head}.
Context (Hdepth : totalSubmitBlock relay <= depth) (Htotal : 1 <= totalSubmitBlock relay).
Context (Hstart : start < top) (Hfuel : doublings depth + 1 < Z.of_nat fuel) (HfT : 2 * depth < finalized_gc_threshold s0).
(** The node the extractor asks. *)
Context {W : Type} (url : string) (node : Web3Node W) {TL : TrieLib} {TOk : TrieOk} {EO : EthObject} (JSON_parse : string -> outcome val).

(** C5: An event of the main chain becomes provable on NEAR.  Let the relay
    run against the client contract, which may have started on a fork as
    long as it knows the main chain up to a block [m], its best header is at
    most [depth] above [m] and below the head, no other header it has is
    heavier than a later main chain block, and it retains [2 * depth] main
    chain blocks below [m] (with at least one batch of the relay for
    [depth]).  Let an Ethereum node behind a WebsocketProvider serve the
    block [n] of the main chain, with receipts that are all of the untyped
    (legacy) form, to the extractor.  If [n] has the client's number of
    confirmations below the head, and is at most [2 * depth] below it, then
    after finitely many rounds of the relay the proof that
    [ethToNearFindProof] prints for an event of that block is accepted by
    every prover contract that is not paused together with the client: the
    trie proof holds and the client vouches for the header. *)
Theorem eth_event_accepted m lo hi w n block txs receipts rs raw ev i tx rv r lvs base j lv :
  let s := contract (key_net w) in
  tracked D hdr total top s0 m lo hi s -> m <= head -> 2 * depth <= m - lo ->
  EthClient.last_block_number s - m <= depth -> EthClient.last_block_number s <= start -> start < head ->
  head - 2 * depth <= n -> 0 <= num_confirmations s0 -> n + num_confirmations s0 <= head ->
  serves node block n txs receipts rs (hdr n) ->
  JSON_parse raw = Ret ev -> truthy ev = true -> get_prop ev "transactionHash" = Ret tx ->
  txs !! i = Some tx -> receipts !! i = Some rv -> rs !! i = Some r -> get_prop rv "logs" = Ret (VArr lvs) ->
  (forall k lv, lvs !! k = Some lv -> get_prop lv "logIndex" = Ret (VNum (base + Z.of_nat k))) ->
  lvs !! j = Some lv -> get_prop ev "logIndex" = Ret (VNum (base + Z.of_nat j)) -> Z.of_nat j < 2 ^ 32 ->
  exists prev' w', runs near eth ethNodeUrl rpc header_rlp ethashproof contractId relay account_signAndSend fuel None w prev' w' /\
    returns (ethToNearFindProof url node WebsocketProvider JSON_parse raw) (fun _ t =>
      exists p, ProofExtractor.printed t = [[json_view (VObj [("block_number", VNum n); ("proof_locker", proof_val p)])]] /\
        receipt_index p = VNum (Z.of_nat i) /\
        forall penv callback self, is_paused penv self PAUSE_VERIFY = false -> is_owner callback = true ->
          verify_with_client penv callback self (contract (key_net w')) (log_index p) (log_entry_data p) (Z.of_nat i)
            (receipt_data p) (header_data p) (ProofExtractor.proof p) = Ret true).
Proof using All.
  cbv zeta. intros T Hm Hwin Hd Hst Hsh Hn Hnc0 Hnc Hsv Hparse Htr Htx Hi Hrv Hr Hlogs Hnum Hj Hev Hjlt.
  destruct (loop_canonical D enc hdr dag total top s0 near eth ethNodeUrl rpc header_rlp ethashproof contractId relay account_signAndSend
    contract env head depth start fuel Hdepth Htotal Hstart Hfuel HfT m lo hi w T Hm Hwin Hd Hst Hsh)
    as (prev' & w' & c & Hruns & Hc & HL & _ & Hcfg & Hcanon).
  exists prev', w'. split; [exact Hruns|]. unfold has in Hc. rewrite Hc.
  assert (Hsafe : block_hash_safe c n = Ret (Some (hash (hdr n)))).
  { injection Hcfg as _ _ _ _ _ Hnce _ _. pose proof (ki_lo _ _ _ _ (tr_known _ _ _ _ _ _ _ _ _ T)). pose proof (mc_top _ _ _ _ _ _ _ (MainChain := MC)). pose proof (mc_thresholds _ _ _ _ _ _ _ (MainChain := MC)) as [Ht1 _].
    pose proof (so_head _ _ _ _ _ _ _ _ _ _ _ _ _ _ (ServicesOk := SO)).
    pose proof (tracked_span D hdr total top s0 m lo hi _ T).
    apply block_hash_safe_confirmed; [apply Hcanon; lia | rewrite Hnce; lia | rewrite Hnce, HL; lia]. }
  eapply returns_mono; [eapply (findProof_accepted url node JSON_parse); eassumption|]. cbv beta.
  intros _ t (p & Hprint & _ & Hri & Hver). exists p. split; [exact Hprint|]. split; [exact Hri|]. intros penv callback self Hp Ho.
  eapply verify_with_client_accepts; [by apply (Hver penv self false) | exact Hsafe | exact Ho].
Qed.
End EndToEnd.

(** ** Witness *)

Module Witness.
Import Interfaces.Reference RlpRef RefTrie EthClientInv.Witness Eth2NearSystem.Witness.
#[local] Existing Instances RlpRef.rlp_ref RlpRef.rlp_ref_ok ProofExtractor.Witness.toy_objects.

(** Block 3 of the main chain, which the client does not know at first, has
    one receipt with one log. *)
Definition log_val : val :=
  VObj [("address", VBytes (replicate 20 7)); ("topics", VArr [VBytes (replicate 32 9)]); ("data", VBytes [1; 2; 3]); ("logIndex", VNum 0)].

Definition receipt_val : val :=
  VObj [("transactionIndex", VNum 0); ("blockNumber", VNum 3); ("status", VNum 1); ("gasUsed", VNum 21000);
        ("logsBloom", VBytes (replicate 256 0)); ("logs", VArr [log_val])].

Definition receipt3 : Receipt := ProofExtractor.Witness.receipt_of receipt_val.

Definition block3 : val :=
  VObj [("number", VNum 3); ("transactions", VArr [VStr "0xa"]);
        ("fields", VArr (match header_item (hdr1 3) with Lst l => map (fun i => match i with Str bs => VBytes bs | _ => VNull end) l | _ => [] end))].

Definition node3 : Web3Node unit := {|
  node_getBlockNumber w := (Ret (VNum 4), w);
  node_getBlock _ w := (Ret block3, w);
  node_getTransactionReceipt _ w := (Ret receipt_val, w);
  node_getGasPrice w := (Ret 1, w);
  node_getTransactionCount _ w := (Ret 0, w);
  node_call _ w := (Ret VUndef, w);
  node_sendTransaction _ w := (None, w)
|}.

Definition event3 : val := VObj [("transactionHash", VStr "0xa"); ("logIndex", VNum 0)].

Lemma numbered3 k lv : [log_val] !! k = Some lv -> get_prop lv "logIndex" = Ret (VNum (0 + Z.of_nat k)).
Proof. destruct k as [|k]; cbn; [by intros [= <-] | done]. Qed.

Lemma receipt3_ok : receipt_ok receipt3.
Proof. repeat constructor; try lia; try (vm_compute; reflexivity); apply (bool_decide_unpack _); vm_compute; exact I. Qed.

(** The fields of the header, evaluated. *)
Definition fields3 : list (list Z) := Eval vm_compute in
  match header_item (hdr1 3) with Lst l => map (fun i => match i with Str bs => bs | _ => [] end) l | _ => [] end.

Lemma header3_item : header_item (hdr1 3) = Lst (map Str fields3).
Proof. vm_compute. reflexivity. Qed.

Lemma fields3_ok : Forall bytes_ok fields3.
Proof. apply (bool_decide_unpack _). vm_compute. exact I. Qed.

Lemma header3_ok : header_ok (hdr1 3).
Proof.
  split; [apply (bool_decide_unpack _); vm_compute; exact I|]. do 3 (split; [vm_compute; reflexivity|]).
  do 2 (split; [apply (bool_decide_unpack _); vm_compute; exact I|]). rewrite header3_item.
  split; [|apply Z.ltb_lt; vm_compute; reflexivity].
  apply item_bytes_list, Forall_fmap. exact fields3_ok.
Qed.

Lemma serves3 : serves node3 block3 3 [VStr "0xa"] [receipt_val] [receipt3] (hdr1 3).
Proof.
  constructor.
  - intros w. by exists w.
  - reflexivity.
  - reflexivity.
  - repeat constructor; intros w; exists w; reflexivity.
  - constructor; [|constructor]. split; [exact receipt3_ok|]. split; [vm_compute; reflexivity|]. split; [reflexivity|].
    exists [log_val], 0. split; [done|]. split; [by repeat constructor | apply numbered3].
  - intros [|i] v Hv; cbn in Hv; simplify_eq; done.
  - cbn. lia.
  - reflexivity.
  - vm_compute. reflexivity.
  - exact header3_ok.
  - split; vm_compute; reflexivity.
  - vm_compute. reflexivity.
  - vm_compute. reflexivity.
Qed.

Abbreviation runs1 := (runs near1 eth1 "ws" rpc1 header_rlp1 ethashproof1 "client" relay1 send1 5).

(** The client starts on the fork at block 3; the event is in block 3 of the
    main chain, one block below its head. *)
Lemma eth_event_accepted_witness :
  EthClient.last_block_number c2 = 3 /\ block_hash c2 3 <> Some (hash (hdr1 3)) /\
  exists prev' w', runs1 None (mkKey 0 N2) prev' w' /\
    returns (ethToNearFindProof "ws://localhost" node3 WebsocketProvider (fun _ => Ret event3) "event") (fun _ t =>
      exists p, ProofExtractor.printed t = [[json_view (VObj [("block_number", VNum 3); ("proof_locker", proof_val p)])]] /\
        receipt_index p = VNum 0 /\
        forall penv callback self, is_paused penv self PAUSE_VERIFY = false -> is_owner callback = true ->
          verify_with_client penv callback self (contract1 (key_net w')) (log_index p) (log_entry_data p) 0
            (receipt_data p) (header_data p) (ProofExtractor.proof p) = Ret true).
Proof.
  split; [vm_compute; reflexivity|]. split; [apply (bool_decide_unpack _); vm_compute; exact I|]. destruct tracked_c2 as [hi T].
  assert (Hle : totalSubmitBlock relay1 <= 1 /\ 1 <= totalSubmitBlock relay1) by (vm_compute; split; discriminate).
  assert (Hlt : doublings 1 + 1 < Z.of_nat 5 /\ 2 * 1 < finalized_gc_threshold c2) by (vm_compute; split; reflexivity).
  apply (eth_event_accepted D1 enc1 hdr1 dag1 total1 5 c2 near1 eth1 "ws" rpc1 header_rlp1 ethashproof1 "client" relay1 send1 contract1 env1 4
    1 3 5 (SO := services1) (MC := main1) (proj1 Hle) (proj2 Hle) eq_refl (proj1 Hlt) (proj2 Hlt) "ws://localhost" node3 (TOk := ref_trie_ok)
    (fun _ => Ret event3)) with (m := 2) (lo := 0) (hi := hi) (n := 3) (block := block3) (txs := [VStr "0xa"])
    (receipts := [receipt_val]) (rs := [receipt3]) (ev := event3) (i := 0%nat) (tx := VStr "0xa") (rv := receipt_val) (r := receipt3)
    (lvs := [log_val]) (base := 0) (j := 0%nat) (lv := log_val);
    first [exact T | exact serves3 | exact numbered3 | apply Z.ltb_lt; vm_compute; reflexivity | apply Z.leb_le; vm_compute; reflexivity | reflexivity].
Defined.

End Witness.
