(* ===== verification/FileNames.v ===== *)
(** * File names of the dumps

    Numbers inside file names, and the lemmas by which a name determines
    the numbers it was made from. *)

From stdpp Require Import pretty.
From S2P Require Import Prelude.

(** [`${v}`] for the values that occur in file names. *)
Definition template (v : val) : string :=
  match v with
  | VUndef => "undefined"
  | VNull => "null"
  | VBool true => "true"
  | VBool false => "false"
  | VNum n => pretty n
  | VStr s => s
  | VBytes _ | VArr _ | VObj _ => "[object Object]"
  end.

(** ** File names

    A number is printed without separators, so a name with separators can
    be taken apart again. *)

Fixpoint str_free (c : Ascii.ascii) (s : string) : bool :=
  match s with
  | EmptyString => true
  | String d s' => negb (Ascii.eqb c d) && str_free c s'
  end.

Lemma str_free_split c s1 s2 t1 t2 :
  str_free c s1 = true -> str_free c s2 = true -> s1 +:+ String c t1 = s2 +:+ String c t2 -> s1 = s2 /\ t1 = t2.
Proof.
  revert s2. induction s1 as [|a s1 IH]; intros [|b s2] H1 H2 Heq; cbn in *; zbool.
  - injection Heq as ->. done.
  - injection Heq as <- _. by rewrite Ascii.eqb_refl in *.
  - injection Heq as -> _. by rewrite Ascii.eqb_refl in *.
  - injection Heq as -> Heq. destruct (IH s2) as [-> ->]; done.
Qed.

Lemma pretty_free c (n : Z) : (forall m, negb (Ascii.eqb c (pretty_N_char m)) = true) -> c <> "-"%char -> str_free c (pretty n) = true.
Proof.
  intros Hd Hm. assert (Hgo : forall x s, str_free c s = true -> str_free c (pretty_N_go x s) = true).
  { intros x. induction (N.lt_wf_0 x) as [x _ IH]. intros s Hs. destruct (decide (0 < x)%N) as [Hx|Hx].
    - rewrite pretty_N_go_step by done. apply IH; [by apply N.div_lt|]. cbn. by rewrite Hd.
    - replace x with 0%N by lia. by rewrite pretty_N_go_0. }
  assert (H0 := Hd 0%N). change (pretty_N_char 0) with "0"%char in H0.
  assert (HN : forall x : N, str_free c (pretty x) = true).
  { intros x. unfold pretty, pretty_N. case_decide; [|by apply Hgo]. cbn. by rewrite H0. }
  destruct n as [|p|p]; unfold pretty, pretty_Z.
  - cbn. by rewrite H0.
  - exact (HN (N.pos p)).
  - change (negb (Ascii.eqb c "-") && str_free c (pretty (N.pos p)) = true). rewrite HN. by destruct (Ascii.eqb_spec c "-").
Qed.

Lemma pretty_free_sep (n : Z) : str_free "_" (pretty n) = true /\ str_free "." (pretty n) = true.
Proof. split; apply pretty_free; try done; intros m; unfold pretty_N_char; by repeat case_match. Qed.

(** [a_b.json] determines both numbers. *)
Lemma numbered_inj (a b a' b' : Z) :
  pretty a +:+ "_" +:+ pretty b +:+ ".json" = pretty a' +:+ "_" +:+ pretty b' +:+ ".json" -> a = a' /\ b = b'.
Proof.
  intros H. apply (str_free_split "_") in H as [Ha H]; try apply pretty_free_sep.
  apply (str_free_split ".") in H as [Hb _]; try apply pretty_free_sep.
  split; by apply (inj pretty).
Qed.
