(* ===== verification/EthDump.v ===== *)
(** * Dumps of Ethereum headers and proofs (cli/commands/eth-dump.js)

    The command downloads headers or event proofs for a range of blocks.
    The header files cover the range; the proofs are accepted by the prover
    contract. *)

From stdpp Require Import pretty.
From S2P Require Import Prelude Interfaces Robust Rlp EthProver ProofExtractor FileNames.

(** The [numBlocks] of the default range. *)
Definition WINDOW : Z := 43000.

(** The last and the first block to dump.  An option is a numeral, or
    absent when it was not given or empty. *)
Definition end_block (endBlock : option Z) (head : Z) : Z := default head endBlock.

Definition start_block (startBlock : option Z) (endBlock : Z) : Z :=
  match startBlock with
  | None => Z.max 0 (endBlock - WINDOW + 1)
  | Some s => if s <? 0 then Z.max 0 (endBlock + s + 1) else s
  end.

Section Dump.
Context {W : Type} (ethNodeUrl : string) (node : Web3Node W) (provider : Provider).
Context {TL : TrieLib} {EO : EthObject} {RL : RlpLib} {HX : HexLib}.
(** [web3BlockToRlp] and the ethashproof process with [JSON.parse]. *)
Context (web3BlockToRlp : val -> outcome (list Z)) (ethashproof : string -> service W val).
Context (writeFile : string -> string -> val -> service W unit).

(** [fs.writeFile(Path.join(path, name), JSON.stringify(v))] *)
Definition save (path name : string) (v : val) : eff W event unit :=
  perform (Call "fs.writeFile" [VStr path; VStr name; v]) (writeFile path name v).

Definition get_block (b : Z) : eff W event val := perform (Call "eth.getBlock" [VNum b]) (node_getBlock node (VNum b)).

Definition saveBlock (i : Z) (block : val) (path : string) : eff W event unit := save path (pretty i +:+ ".json") block.

Definition dumpHeaders (b : Z) (path : string) : eff W event unit :=
  raw ← get_block b;
  rlp ← lift (web3BlockToRlp raw);
  let command := "./eth2near/ethashproof/cmd/relayer/relayer " +:+ bytesToHex rlp +:+ " | sed -e '1,/Json output/d'" in
  block ← perform (Call "exec" [VStr command]) (ethashproof command);
  saveBlock b block path.

(** The arguments of [verify_log_entry], with bytes as hex strings. *)
Definition proof_args (logIndex : Z) (logEntryData : list Z) (extracted : ExtractedProof) (receiptData : list Z) : val :=
  let hex bs := VStr (Reference.hex_chars bs) in
  VObj [("log_index", VNum logIndex); ("log_entry_data", hex logEntryData); ("receipt_index", txIndex extracted);
        ("receipt_data", hex receiptData); ("header_data", hex (header_rlp extracted));
        ("proof", VArr (map (fun n => hex (rlp_encode n)) (receiptProof extracted))); ("skip_bridge_call", VBool false)].

Fixpoint dump_logs (b logIndex : Z) (logs : list val) (receipt : val) (extracted : ExtractedProof) (path : string)
    : eff W event unit :=
  match logs with
  | [] => mret tt
  | log :: rest =>
      logEntryData ← lift (Log_fromWeb3_serialize log);
      receiptData ← lift (Receipt_fromWeb3_serialize receipt);
      let file := pretty b +:+ "_" +:+ template (txIndex extracted) +:+ "_" +:+ pretty logIndex +:+ ".json" in
      _ ← save path file (proof_args logIndex logEntryData extracted receiptData);
      dump_logs b (logIndex + 1) rest receipt extracted path
  end.

(** One transaction; a receipt without logs is skipped. *)
Definition dump_transaction (b : Z) (path : string) (txHash : val) : eff W event unit :=
  receipt ← extractReceipt ethNodeUrl node txHash;
  logs ← lift (get_prop receipt "logs" ≫= fun v => array_of v "receipt.logs is not iterable");
  if Nat.eqb (length logs) 0 then mret tt
  else
    blockNumber ← lift (get_prop receipt "blockNumber");
    block ← extractBlock ethNodeUrl node blockNumber;
    tree ← buildTrie ethNodeUrl node block;
    index ← lift (get_prop receipt "transactionIndex");
    extracted ← extractProof node block tree index;
    dump_logs b 0 logs receipt extracted path.

Fixpoint dump_transactions (b : Z) (path : string) (txs : list val) : eff W event unit :=
  match txs with
  | [] => mret tt
  | txHash :: rest => _ ← dump_transaction b path txHash; dump_transactions b path rest
  end.

Definition dumpProofs (b : Z) (path : string) : eff W event unit :=
  block ← get_block b;
  txs ← lift (get_prop block "transactions" ≫= fun v => array_of v "block.transactions is not iterable");
  dump_transactions b path txs.

Definition dump_block (kindOfData : string) (b : Z) (path : string) : eff W event unit :=
  if String.eqb kindOfData "headers" then dumpHeaders b path
  else if String.eqb kindOfData "proofs" then dumpProofs b path
  else mret tt.

(** [for (let b = endBlock; b >= startBlock; b--)], [count] blocks. *)
Fixpoint dump_down (kindOfData : string) (count : nat) (b : Z) (path : string) : eff W event unit :=
  match count with
  | O => mret tt
  | S count' => _ ← dump_block kindOfData b path; dump_down kindOfData count' (b - 1) path
  end.

Definition USAGE : string := "Usage: node index.js eth-dump headers
       node index.js eth-dump proofs".

(** The command from the check of its argument on, given a web3 object.  A
    head that is not a number makes the loop condition false. *)
Definition run (kindOfData path : string) (startBlock endBlock : option Z) : eff W event unit :=
  _ ← (if String.eqb kindOfData "headers" || String.eqb kindOfData "proofs" then mret tt
       else _ ← console_log [VStr USAGE]; exit 2);
  head ← match endBlock with
         | Some e => mret (VNum e)
         | None => perform (Call "eth.getBlockNumber" []) (node_getBlockNumber node)
         end;
  _ ← match head with
      | VNum h =>
          let last := end_block endBlock h in
          let first := start_block startBlock last in
          dump_down kindOfData (Z.to_nat (last - first + 1)) last path
      | _ => mret tt
      end;
  _ ← match provider with
      | WebsocketProvider => emit (Call "connection.close" [])
      | HttpProvider => mret tt
      end;
  destroy provider.

(** [new C(...)] for the value of a binding: only a function constructs. *)
Inductive binding : Type := Constructor | ModuleObject.

Definition construct (c : binding) : outcome unit :=
  match c with
  | Constructor => Ret tt
  | ModuleObject => Throw (TypeError "Web3 is not a constructor")
  end.

(** [const Web3 = require('rainbow-bridge-utils')] binds the module. *)
Definition Web3 : binding := ModuleObject.

Definition execute (kindOfData path : string) (startBlock endBlock : option Z) : eff W event unit :=
  _ ← lift (construct Web3);
  run kindOfData path startBlock endBlock.

End Dump.

(** ** The files of an Ethereum dump *)

(** The files a run writes, with their contents. *)
Definition saved (t : list event) : list (string * val) :=
  omap (fun e => match e with Call "fs.writeFile" [_; VStr name; v] => Some (name, v) | _ => None end) t.

Lemma saved_app t1 t2 : saved (t1 ++ t2) = (saved t1 ++ saved t2)%list.
Proof. apply omap_app. Qed.

Lemma saved_quiet t0 t : quiet t0 -> saved (t0 ++ t) = saved t.
Proof.
  intros H. rewrite saved_app. replace (saved t0) with ([] : list (string * val)); [done|]. symmetry.
  unfold quiet in H. induction t0 as [|e t0 IH]; [done|]. cbn [forallb] in H. apply andb_true_iff in H as [He H].
  cbn [saved omap list_omap]. destruct e as [d | u | name args]; try exact (IH H).
  cbn [quiet_event] in He. apply andb_true_iff in He as [_ He]. destruct (String.eqb_spec name "fs.writeFile") as [->|Hne]; [done|].
  replace (match name with "fs.writeFile" => match args with [_; VStr name0; v] => Some (name0, v) | _ => None end | _ => None end)
    with (@None (string * val)); [exact (IH H)|].
  clear -Hne. repeat (case_match; try done).
Qed.

Definition file_name (b i j : Z) : string := pretty b +:+ "_" +:+ pretty i +:+ "_" +:+ pretty j +:+ ".json".

Lemma file_name_inj b i j i' j' : file_name b i j = file_name b i' j' -> i = i' /\ j = j'.
Proof.
  intros H. apply (str_free_split "_") in H as [_ H]; try apply pretty_free_sep. by apply numbered_inj.
Qed.

(** The names for the logs of the receipts from position [i] on. *)
Fixpoint file_names (b i : Z) (rs : list Receipt) : list string :=
  match rs with
  | [] => []
  | r :: rs' => ((file_name b i <$> seqZ 0 (Z.of_nat (length (logs r)))) ++ file_names b (i + 1) rs')%list
  end.

Lemma file_names_NoDup b i rs : NoDup (file_names b i rs) /\ forall name, name ∈ file_names b i rs -> exists k j, i <= k /\ name = file_name b k j.
Proof.
  revert i. induction rs as [|r rs IH]; intros i; cbn [file_names].
  - split; [constructor|]. intros name H. by apply not_elem_of_nil in H.
  - destruct (IH (i + 1)) as [Hnd Hin]. split.
    + apply list.NoDup_app. split; [|split; [|done]].
      * apply NoDup_fmap_2; [|apply NoDup_seqZ]. intros x y H. by apply file_name_inj in H as [_ ->].
      * intros name H1 H2. apply list_elem_of_fmap in H1 as (j & -> & _). destruct (Hin _ H2) as (k & j' & Hk & Heq).
        apply file_name_inj in Heq as [-> _]. lia.
    + intros name H. apply elem_of_app in H as [H|H].
      * apply list_elem_of_fmap in H as (j & -> & _). exists i, j. split; [lia | done].
      * destruct (Hin _ H) as (k & j & Hk & ->). exists k, j. split; [lia | done].
Qed.

Lemma items_length items : Z.of_nat (length items) <= payload_size (Lst items).
Proof.
  induction items as [|x l IH]; cbn [payload_size foldr length] in *; [lia|]. pose proof (payload_size_nonneg x). lia.
Qed.

Section Proofs.
Context {W : Type} (url : string) (node : Web3Node W) {TL : TrieLib} {EO : EthObject} {RL : RlpLib} {KC : Keccak}.
Context {TOk : TrieOk} {RLok : RlpOk} (writeFile : string -> string -> val -> service W unit).
Hypothesis writes_ok : forall path name v w, exists w', writeFile path name v w = (Ret tt, w').
Context (block : val) (n : Z) (txs receipts : list val) (rs : list Receipt) (h : BlockHeader).
Context (Hs : serves node block n txs receipts rs h).

(** A file for a log of a receipt that holds a proof the prover accepts. *)
Definition accepted (file : string * val) : Prop :=
  exists i j r l stack, rs !! i = Some r /\ logs r !! j = Some l /\
    file = (file_name n (Z.of_nat i) (Z.of_nat j),
            proof_args (Z.of_nat j) (rlp_encode (log_item l))
              {| header_rlp := rlp_encode (header_item h); receiptProof := stack; txIndex := VNum (Z.of_nat i) |}
              (rlp_encode (receipt_item r))) /\
    forall env self skip, is_paused env self PAUSE_VERIFY = false ->
      verify_log_entry env self (Z.of_nat j) (rlp_encode (log_item l)) (Z.of_nat i) (rlp_encode (receipt_item r))
        (rlp_encode (header_item h)) (map rlp_encode stack) skip =
      Some (if skip then Value true else BlockHashSafe (bridge_smart_contract self) n (hash h)).

(** What a run writes for one receipt, from the log at position [j] on. *)
Definition writes_logs (i j : nat) (ls : list LogEntry) (t : list event) : Prop :=
  Forall accepted (saved t) /\ (saved t).*1 = file_name n (Z.of_nat i) <$> seqZ (Z.of_nat j) (Z.of_nat (length ls)).

Lemma dump_logs_returns path i r rv stack j lvs :
  rs !! i = Some r -> receipt_ok r -> Z.of_nat (length (logs r)) < 2 ^ 32 ->
  Receipt_fromWeb3_serialize rv = Ret (rlp_encode (receipt_item r)) ->
  verify_trie_proof (receipts_root h) (rlp_uint (Z.of_nat i)) (map rlp_encode stack) = Some (rlp_encode (receipt_item r)) ->
  Forall2 (fun lv l => Log_fromWeb3_serialize lv = Ret (rlp_encode (log_item l))) lvs (drop j (logs r)) ->
  returns (dump_logs writeFile n (Z.of_nat j) lvs rv
      {| header_rlp := rlp_encode (header_item h); receiptProof := stack; txIndex := VNum (Z.of_nat i) |} path)
    (fun _ t => writes_logs i j (drop j (logs r)) t).
Proof using Hs RLok writes_ok.
  intros Hr Hrok Hlen Hser Hv. revert j. induction lvs as [|lv lvs IH]; intros j Hl.
  - apply Forall2_nil_inv_l in Hl. apply returns_ret. unfold writes_logs. rewrite Hl. split; [constructor|]. reflexivity.
  - apply Forall2_cons_inv_l in Hl as (l & ls & Hlv & Hlvs & E). cbn [dump_logs]. assert (Hj : logs r !! j = Some l) by (rewrite <- (Nat.add_0_r j), <- lookup_drop, E; done).
    assert (Hd : drop (S j) (logs r) = ls) by (rewrite (drop_S _ _ _ Hj) in E; by injection E).
    eapply returns_gives; [by apply gives_lift|]. eapply returns_gives; [by apply gives_lift|].
    eapply returns_bind; [eapply returns_perform; [apply writes_ok|]; instantiate (1 := fun _ t => t = [_]); reflexivity|].
    intros _ ? ->. specialize (IH (S j)). rewrite Hd in IH. specialize (IH Hlvs).
    replace (Z.of_nat j + 1) with (Z.of_nat (S j)) by lia. eapply returns_mono; [exact IH|].
    intros _ t [Hacc Hnames] t1 H1 t2 H2. rewrite E. unfold writes_logs. rewrite !saved_quiet, saved_app by assumption. split.
    + constructor; [|done]. exists i, j, r, l, stack. repeat (split; [done|]). intros env self skip Hp.
      eapply proof_verifies; try eassumption. apply lookup_lt_Some in Hj. lia.
    + change (file_name n (Z.of_nat i) (Z.of_nat j) :: (saved t).*1 =
              file_name n (Z.of_nat i) <$> seqZ (Z.of_nat j) (Z.of_nat (S (length ls)))).
      rewrite (seqZ_cons (Z.of_nat j)), fmap_cons, Hnames by lia. do 3 f_equal; lia.
Qed.

Lemma dump_transaction_returns path i tx rv r :
  txs !! i = Some tx -> receipts !! i = Some rv -> rs !! i = Some r ->
  returns (dump_transaction url node writeFile n path tx) (fun _ t => writes_logs i 0 (logs r) t).
Proof using Hs RLok writes_ok.
  intros Htx Hrv Hr.
  destruct (Forall2_lookup_lr _ _ _ _ _ _ (served_receipts _ _ _ _ _ _ _ Hs) Hrv Hr) as (Hrok & Hsize & Hser & lvs & base & Hlogs & Hll & _).
  destruct (served_index _ _ _ _ _ _ _ Hs i rv Hrv) as [Hidx Hbn].
  assert (Hget : forall w, exists w', node_getTransactionReceipt node tx w = (Ret rv, w'))
    by exact (Forall2_lookup_lr _ _ _ _ _ _ (served_getReceipt _ _ _ _ _ _ _ Hs) Htx Hrv).
  assert (Hlen : Z.of_nat (length (logs r)) < 2 ^ 32).
  { pose proof (items_length (map log_item (logs r))) as H1. rewrite length_map in H1.
    assert (Hin : Lst (map log_item (logs r)) ∈ [Str (if status r then [1] else []); Str (be_min (gas_used r)); Str (log_bloom r); Lst (map log_item (logs r))])
      by (do 3 (apply elem_of_cons; right); by apply elem_of_cons; left).
    pose proof (payload_size_in _ _ Hin). fold (receipt_item r) in *. change (2 ^ 32) with (2 ^ 31 + 2 ^ 31). lia. }
  unfold dump_transaction. eapply returns_gives; [by apply getTransactionReceipt_returns|].
  eapply returns_gives; [apply gives_lift; rewrite Hlogs; reflexivity|].
  destruct (Nat.eqb_spec (length lvs) 0) as [H0|Hne].
  - apply nil_length_inv in H0. subst lvs. apply Forall2_nil_inv_l in Hll. rewrite Hll. apply returns_ret.
    intros t1 H1 t2 H2. unfold writes_logs. rewrite !saved_quiet by assumption. split; [constructor | done].
  - destruct (buildTrie_returns node url _ _ _ _ _ _ Hs) as (tree & Hc & Hbuild).
    destruct (extractProof_returns node _ _ _ _ _ _ Hs tree i r Hc Hr) as (stack & Hex & Hverify).
    eapply returns_gives; [by apply gives_lift|].
    eapply returns_gives; [apply getBlock_returns; [apply Hs | intros ->; by pose proof (served_number _ _ _ _ _ _ _ Hs)]|].
    eapply returns_gives; [exact Hbuild|]. eapply returns_gives; [by apply gives_lift|]. eapply returns_gives; [exact Hex|].
    eapply returns_mono; [apply (dump_logs_returns path i r rv stack 0 lvs Hr Hrok Hlen Hser Hverify Hll)|].
    intros ? t Ht t1 H1 t2 H2 t3 H3 t4 H4 t5 H5 t6 H6 t7 H7. unfold writes_logs in *. by rewrite !saved_quiet by assumption.
Qed.

Lemma dump_transactions_returns path i : (i <= length txs)%nat ->
  returns (dump_transactions url node writeFile n path (drop i txs))
    (fun _ t => Forall accepted (saved t) /\ (saved t).*1 = file_names n (Z.of_nat i) (drop i rs)).
Proof using Hs RLok writes_ok.
  destruct (receipts_length node _ _ _ _ _ _ Hs) as [Hl1 Hl2]. intros Hi.
  remember (length txs - i)%nat as k eqn:Hk. revert i Hi Hk. induction k as [|k IH]; intros i Hi Hk.
  - rewrite !drop_ge by lia. apply returns_ret. split; [constructor | done].
  - destruct (lookup_lt_is_Some_2 txs i) as [tx Htx]; [lia|]. destruct (lookup_lt_is_Some_2 receipts i) as [rv Hrv]; [lia|].
    destruct (lookup_lt_is_Some_2 rs i) as [r Hr]; [lia|]. rewrite (drop_S _ _ _ Htx), (drop_S _ _ _ Hr). cbn [dump_transactions].
    eapply returns_bind; [by eapply dump_transaction_returns|]. intros _ t [Hacc Hn].
    eapply returns_mono; [apply IH; lia|]. intros _ t' [Hacc' Hn']. rewrite saved_app, fmap_app, Hn, Hn'. cbn [file_names].
    split; [by apply list.Forall_app|]. by replace (Z.of_nat i + 1) with (Z.of_nat (S i)) by lia.
Qed.

End Proofs.

Section DumpProperties.
Context {W : Type} (url : string) (node : Web3Node W) {TL : TrieLib} {EO : EthObject} {RL : RlpLib} {KC : Keccak}.
Context {TOk : TrieOk} {RLok : RlpOk} (writeFile : string -> string -> val -> service W unit).

(** A dump of the proofs of a block is complete and right.  On a node
    that serves a block, [dumpProofs] returns and has written one file for
    every log of every receipt of the block and no other, all under
    different names made of the block, the receipt and the log; and every
    file holds arguments of [verify_log_entry] that the prover contract
    accepts for this block. *)
Theorem dumpProofs_accepted block n txs receipts rs h path :
  serves node block n txs receipts rs h ->
  (forall path name v w, exists w', writeFile path name v w = (Ret tt, w')) ->
  returns (dumpProofs url node writeFile n path) (fun _ t =>
    Forall (accepted n rs h) (saved t) /\ (saved t).*1 = file_names n 0 rs /\ NoDup (saved t).*1).
Proof.
  intros Hs Hw. unfold dumpProofs, get_block.
  eapply returns_gives; [eapply returns_perform; [exact (served_getBlock _ _ _ _ _ _ _ Hs) | done]|].
  eapply returns_gives; [apply gives_lift; rewrite (served_txs _ _ _ _ _ _ _ Hs); reflexivity|].
  eapply returns_mono; [apply (dump_transactions_returns url node writeFile Hw _ _ _ _ _ _ Hs path 0); lia|].
  intros _ t [Hacc Hn] t1 H1 t2 H2. rewrite !saved_quiet by assumption. split; [done|]. rewrite Hn.
  split; [done|]. apply file_names_NoDup.
Qed.

End DumpProperties.

Section Range.
Context {W : Type} (url : string) (node : Web3Node W) (provider : Provider) {TL : TrieLib} {EO : EthObject} {RL : RlpLib} {HX : HexLib}.
Context (web3BlockToRlp : val -> outcome (list Z)) (ethashproof : string -> service W val).
Context (writeFile : string -> string -> val -> service W unit).

Lemma dumpHeaders_saved b path w :
  out_of (dumpHeaders node web3BlockToRlp ethashproof writeFile b path w) = Ret tt ->
  (saved (trace_of (dumpHeaders node web3BlockToRlp ethashproof writeFile b path w))).*1 = [pretty b +:+ ".json"].
Proof.
  unfold dumpHeaders, get_block, saveBlock, save, perform, lift, mbind, eff_bind.
  destruct (node_getBlock node (VNum b) w) as [[raw|e|c|] w1]; try done.
  destruct (web3BlockToRlp raw) as [rlp|e|c|]; try done.
  destruct (ethashproof _ w1) as [[block|e|c|] w2]; try done.
  by destruct (writeFile _ _ block w2) as [[[]|e|c|] w3].
Qed.

Lemma dump_down_saved count b path w :
  out_of (dump_down url node web3BlockToRlp ethashproof writeFile "headers" count b path w) = Ret tt ->
  (saved (trace_of (dump_down url node web3BlockToRlp ethashproof writeFile "headers" count b path w))).*1 =
  (fun k => pretty (b - Z.of_nat k) +:+ ".json") <$> seq 0 count.
Proof.
  revert b w. induction count as [|count IH]; intros b w H; [done|]. cbn [dump_down] in *.
  pose proof H as H0. apply eff_bind_ret_inv in H0 as ([] & H1 & H2). rewrite (trace_bind_ret _ _ _ _ H1), saved_app, fmap_app.
  change (dump_block url node web3BlockToRlp ethashproof writeFile "headers" b path)
    with (dumpHeaders node web3BlockToRlp ethashproof writeFile b path) in *.
  rewrite (dumpHeaders_saved _ _ _ H1), (IH _ _ H2). cbn [seq fmap list_fmap app]. f_equal; [by rewrite Z.sub_0_r|].
  rewrite <- fmap_S_seq, <- list_fmap_compose. apply list_fmap_ext. intros k x _. cbn. do 2 f_equal. lia.
Qed.

(** The header dump covers its range.  When the command, given a web3
    object, returns on ["headers"], it has written one file per block from
    the last to the first block of the range, downwards; the last block is
    the one given or else the head of the chain; the first is the one given,
    or counted back from the last when negative, or else such that at most
    43000 blocks are dumped; and a block that was counted back or chosen by
    default is not below zero. *)
Theorem header_dump_range path startBlock endBlock head w :
  (endBlock = None -> (node_getBlockNumber node w).1 = Ret (VNum head)) ->
  out_of (run url node provider web3BlockToRlp ethashproof writeFile "headers" path startBlock endBlock w) = Ret tt ->
  let last := end_block endBlock head in
  let first := start_block startBlock last in
  (saved (trace_of (run url node provider web3BlockToRlp ethashproof writeFile "headers" path startBlock endBlock w))).*1 =
    ((fun k => pretty (last - Z.of_nat k) +:+ ".json") <$> seq 0 (Z.to_nat (last - first + 1))) /\
  (startBlock = None -> last - first + 1 <= WINDOW) /\
  (match startBlock with Some s => s < 0 | None => True end -> 0 <= first).
Proof.
  intros Hhead H last first. split; [|split].
  - unfold run in *. cbn [String.eqb Ascii.eqb Bool.eqb orb] in *. pose proof H as H0.
    apply eff_bind_ret_inv in H0 as ([] & H1 & H0). rewrite (trace_bind_ret _ _ _ _ H1). clear H H1. cbn [mret eff_ret world_of trace_of fst snd app] in *.
    pose proof H0 as H. apply eff_bind_ret_inv in H0 as (hv & H1 & H0). rewrite (trace_bind_ret _ _ _ _ H1), saved_app. clear H.
    assert (Hhv : exists h, hv = VNum h /\ end_block endBlock h = last).
    { destruct endBlock as [e|]; [injection H1 as <-; by exists e|]. exists head. unfold perform in H1.
      specialize (Hhead eq_refl). destruct (node_getBlockNumber node w) as [o w1]. cbn in *. by simplify_eq. }
    destruct Hhv as (h & -> & Hlast). rewrite Hlast in H0 |- *. fold first in H0 |- *.
    assert (Hq : forall w', saved (trace_of (match endBlock with Some e => mret (VNum e) | None => perform (Call "eth.getBlockNumber" []) (node_getBlockNumber node) end w')) = []).
    { intros w'. destruct endBlock; [done|]. unfold perform. by destruct (node_getBlockNumber node w'). }
    rewrite Hq. cbn [app]. pose proof H0 as H. apply eff_bind_ret_inv in H0 as ([] & H2 & H0). rewrite (trace_bind_ret _ _ _ _ H2).
    rewrite saved_app, fmap_app, (dump_down_saved _ _ _ _ H2). 
    match goal with |- (_ ++ ?y)%list = _ => assert (y = []) as -> by (by destruct provider) end. apply app_nil_r.
  - intros ->. cbn in first. unfold first. lia.
  - unfold first, start_block. destruct startBlock as [s|]; [|intros _; lia]. intros Hneg. rewrite (proj2 (Z.ltb_lt _ _) Hneg). lia.
Qed.

End Range.

Module Witness.
Import ProofExtractor.Witness.
#[local] Existing Instances RlpRef.rlp_ref RlpRef.rlp_ref_ok RefTrie.ref_trie RefTrie.ref_trie_ok EthProver.Witness.toy_keccak.

Definition no_files (path name : string) (v : val) (w : unit) : outcome unit * unit := (Ret tt, w).

Lemma dumpProofs_accepted_witness :
  serves node0 block0 100 txs0 receipts0 rs0 h0 /\
  returns (dumpProofs "http://localhost" node0 no_files 100 "dump") (fun _ t =>
    Forall (accepted 100 rs0 h0) (saved t) /\ (saved t).*1 = file_names 100 0 rs0 /\ NoDup (saved t).*1).
Proof.
  split; [exact serves0|].
  apply (dumpProofs_accepted "http://localhost" node0 no_files block0 100 txs0 receipts0 rs0 h0 "dump"); [exact serves0|].
  intros path name v w. by exists w.
Defined.

Lemma header_dump_range_witness :
  let r := run "http://localhost" node0 HttpProvider (fun _ => Ret [1]) (fun _ w => (Ret VNull, w)) no_files "headers" "dump" (Some (-3)) None tt in
  (saved (trace_of r)).*1 = ["100.json"; "99.json"; "98.json"] /\ (Some (-3) = None -> 100 - 98 + 1 <= WINDOW).
Proof.
  destruct (header_dump_range "http://localhost" node0 HttpProvider (fun _ => Ret [1]) (fun _ w => (Ret VNull, w)) no_files
              "dump" (Some (-3)) None 100 tt) as (H & Hw & _); [reflexivity | vm_compute; reflexivity |].
  split; [rewrite H; vm_compute; reflexivity | exact Hw].
Defined.

End Witness.
