(* ===== verification/NearDump.v ===== *)
(** * Dumps of NEAR headers and proofs (cli/commands/near-dump.js)

    The command follows the final head of NEAR and saves light client
    blocks or outcome proofs.  It ends when the chain keeps growing, and no
    proof file is written twice. *)

From stdpp Require Import pretty.
From S2P Require Import Prelude Interfaces Robust ProofExtractor FileNames.

Record Block := { height : Z; block_hash : string; first_chunk : option string }.
Record Txn := { txn_hash : string; txn_receiver : string; txn_signer : string }.
Record ReceiptRef := { receipt_id : string; receipt_receiver : string }.
Record Chunk := { transactions : list Txn; receipts : list ReceiptRef }.

(** The JSON RPC requests: [None] is an answer without a [result]. *)
Record NearRpc (W : Type) := {
  rpc_final_block : service W (option Block);
  rpc_chunk : string -> service W (option Chunk);
  rpc_tx_proof : Txn -> string -> service W val;
  rpc_receipt_proof : ReceiptRef -> string -> service W val;
  rpc_next_light_client_block : string -> service W (option (Z * val));
  rpc_writeFile : string -> string -> val -> service W unit
}.

Arguments rpc_final_block {W}.
Arguments rpc_chunk {W}.
Arguments rpc_tx_proof {W}.
Arguments rpc_receipt_proof {W}.
Arguments rpc_next_light_client_block {W}.
Arguments rpc_writeFile {W}.

Section Dump.
Context {W : Type} (rpc : NearRpc W).

Definition undefined_result {A} : eff W event A := throw (TypeError "Cannot read property 'header' of undefined").

Definition getLatestBlock : eff W event (option Block) := perform (Call "block" [VStr "final"]) (rpc_final_block rpc).

Definition getBlockChunk (block : Block) : eff W event (option Chunk) :=
  match first_chunk block with
  | Some hash => perform (Call "chunk" [VStr hash]) (rpc_chunk rpc hash)
  | None => throw (TypeError "Cannot read property 'chunk_hash' of undefined")
  end.

Definition getTxProof (futureBlock : Block) (txn : Txn) : eff W event val :=
  perform (Call "light_client_proof" [VStr "transaction"; VStr (txn_hash txn); VStr (txn_receiver txn);
                                      VStr (txn_signer txn); VStr (block_hash futureBlock)])
    (rpc_tx_proof rpc txn (block_hash futureBlock)).

Definition getReceiptProof (futureBlock : Block) (receipt : ReceiptRef) : eff W event val :=
  perform (Call "light_client_proof" [VStr "receipt"; VStr (receipt_id receipt); VStr (receipt_receiver receipt);
                                      VStr (block_hash futureBlock)])
    (rpc_receipt_proof rpc receipt (block_hash futureBlock)).

(** A light client block with its [inner_lite.height]. *)
Definition getNextLightClientBlock (blockHash : string) : eff W event (option (Z * val)) :=
  perform (Call "next_light_client_block" [VStr blockHash]) (rpc_next_light_client_block rpc blockHash).

Definition write (path name : string) (v : val) : eff W event unit :=
  perform (Call "fs.writeFile" [VStr path; VStr name; v]) (rpc_writeFile rpc path name v).

Definition saveBlock (i : Z) (block : val) (path : string) : eff W event unit := write path (pretty i +:+ ".json") block.

Definition proof_name (blockI : Z) (type : string) (i : Z) : string :=
  pretty blockI +:+ "_" +:+ type +:+ "_" +:+ pretty i +:+ ".json".

Definition saveProof (blockI : Z) (type : string) (i : Z) (proof : val) (path : string) : eff W event unit :=
  write path (proof_name blockI type i) proof.

(** [do { block = ... } while (!block)] *)
Fixpoint await_light_client_block (fuel : nat) (hash : string) : eff W event (Z * val) :=
  match fuel with
  | O => stuck
  | S fuel' =>
      block ← getNextLightClientBlock hash;
      match block with
      | Some b => mret b
      | None => await_light_client_block fuel' hash
      end
  end.

Definition header_step (fuel : nat) (path : string) (latestBlock newLatestBlock : Block) : eff W event unit :=
  '(h, block) ← await_light_client_block fuel (block_hash newLatestBlock);
  saveBlock h block path.

Fixpoint tx_proofs (path : string) (latestBlock newLatestBlock : Block) (i : Z) (txns : list Txn) : eff W event unit :=
  match txns with
  | [] => mret tt
  | txn :: rest =>
      proof ← getTxProof newLatestBlock txn;
      _ ← saveProof (height latestBlock) "txn" i proof path;
      tx_proofs path latestBlock newLatestBlock (i + 1) rest
  end.

Fixpoint receipt_proofs (path : string) (latestBlock newLatestBlock : Block) (i : Z) (rs : list ReceiptRef) : eff W event unit :=
  match rs with
  | [] => mret tt
  | r :: rest =>
      proof ← getReceiptProof newLatestBlock r;
      _ ← saveProof (height latestBlock) "receipt" i proof path;
      receipt_proofs path latestBlock newLatestBlock (i + 1) rest
  end.

Definition proof_step (path : string) (latestBlock newLatestBlock : Block) : eff W event unit :=
  answer ← getBlockChunk latestBlock;
  match answer with
  | None => throw (TypeError "Cannot read property 'transactions' of undefined")
  | Some chunk =>
      _ ← tx_proofs path latestBlock newLatestBlock 0 (transactions chunk);
      receipt_proofs path latestBlock newLatestBlock 0 (receipts chunk)
  end.

(** The loop of both dumps: poll the final head, and when it has grown do
    the step and count one block down. *)
Fixpoint dump_loop (fuel : nat) (step : Block -> Block -> eff W event unit) (latestBlock : Block) (numBlocks : Z)
    : eff W event unit :=
  if 0 <? numBlocks then
    match fuel with
    | O => stuck
    | S fuel' =>
        answer ← getLatestBlock;
        match answer with
        | None => undefined_result
        | Some newLatestBlock =>
            if height latestBlock <? height newLatestBlock then
              _ ← step latestBlock newLatestBlock;
              dump_loop fuel' step newLatestBlock (numBlocks - 1)
            else dump_loop fuel' step latestBlock numBlocks
        end
    end
  else mret tt.

Definition dumpHeaders (fuel : nat) (path : string) (latestBlock : Block) (numBlocks : Z) : eff W event unit :=
  dump_loop fuel (header_step fuel path) latestBlock numBlocks.

Definition dumpProofs (fuel : nat) (path : string) (latestBlock : Block) (numBlocks : Z) : eff W event unit :=
  dump_loop fuel (proof_step path) latestBlock numBlocks.

Definition USAGE : string := "Usage: node index.js near-dump headers
       node index.js near-dump proofs".

(** [numBlocks] is a numeral, or absent when it was not given or empty. *)
Definition execute (fuel : nat) (kindOfData path : string) (numBlocks : option Z) : eff W event unit :=
  _ ← (if String.eqb kindOfData "headers" || String.eqb kindOfData "proofs" then mret tt
       else _ ← console_log [VStr USAGE]; exit 2);
  let n := default 100 numBlocks in
  answer ← getLatestBlock;
  match answer with
  | None => undefined_result
  | Some latestBlock =>
      if String.eqb kindOfData "headers" then dumpHeaders fuel path latestBlock n
      else if String.eqb kindOfData "proofs" then dumpProofs fuel path latestBlock n
      else mret tt
  end.

End Dump.
(** ** A chain that keeps going *)

(** The node answers; its head passes every height, each head is followed
    by a light client block after a while, and files can be written. *)
Class Live {W} (rpc : NearRpc W) : Prop := {
  live_final w : exists b w', rpc_final_block rpc w = (Ret (Some b), w') /\ first_chunk b <> None;
  live_grows h w : eventually (rpc_final_block rpc) (fun o => exists b, o = Some b /\ h < height b) w;
  live_next hash w : eventually (rpc_next_light_client_block rpc hash) (fun o => o <> None) w;
  live_chunk hash w : exists c w', rpc_chunk rpc hash w = (Ret (Some c), w');
  live_tx txn hash w : exists v w', rpc_tx_proof rpc txn hash w = (Ret v, w');
  live_receipt r hash w : exists v w', rpc_receipt_proof rpc r hash w = (Ret v, w');
  live_write path name v w : exists w', rpc_writeFile rpc path name v w = (Ret tt, w')
}.

(** The names of the files a run writes. *)
Definition written (t : list event) : list string :=
  omap (fun e => match e with Call "fs.writeFile" [_; VStr name; _] => Some name | _ => None end) t.

Lemma written_app t1 t2 : written (t1 ++ t2) = (written t1 ++ written t2)%list.
Proof. apply omap_app. Qed.

Section Liveness.
Context {W : Type} (rpc : NearRpc W) {HL : Live rpc}.

Lemma await_ends hash w :
  exists b w' t, ends (fun fuel => await_light_client_block rpc fuel hash) w (Ret b) w' t /\ written t = [].
Proof using HL.
  set (k fuel o := match o with Some b => mret b | None => await_light_client_block rpc fuel hash end).
  induction (live_next hash w) as [w o w' Hop HP | w o w' Hop HP _ (b & w2 & t & IH & Ht)];
    assert (Hq := perform_run (Call "next_light_client_block" [VStr hash]) _ _ _ _ Hop).
  - destruct o as [b|]; [|done]. exists b, w', ([Call "next_light_client_block" [VStr hash]] ++ [])%list. split; [|reflexivity].
    apply (ends_poll _ _ k _ _ _ _ _ _ [] (fun _ => eq_refl) Hq). by apply ends_const.
  - destruct o as [b0|]; [by destruct HP|]. exists b, w2, ([Call "next_light_client_block" [VStr hash]] ++ t)%list. split; [|exact Ht].
    exact (ends_poll _ _ k _ _ _ _ _ _ _ (fun _ => eq_refl) Hq IH).
Qed.

Lemma write_runs path name v w : exists w', write rpc path name v w = (Ret tt, w', [Call "fs.writeFile" [VStr path; VStr name; v]]).
Proof using HL. destruct (live_write path name v w) as [w' H]. exists w'. unfold write. by erewrite perform_run. Qed.

Lemma header_step_ends path a b w : exists w' t, ends (fun fuel => header_step rpc fuel path a b) w (Ret tt) w' t /\ length (written t) = 1%nat.
Proof using HL.
  destruct (await_ends (block_hash b) w) as ([h block] & w1 & t1 & H1 & Ht1).
  destruct (write_runs path (pretty h +:+ ".json") block w1) as [w2 H2].
  eexists w2, (t1 ++ _)%list. split; [eapply ends_bind; [exact H1 | by apply ends_const]|].
  by rewrite written_app, Ht1.
Qed.

Lemma tx_proofs_run path a b i txns w : exists w' t, tx_proofs rpc path a b i txns w = (Ret tt, w', t).
Proof using HL.
  revert i w. induction txns as [|txn rest IH]; intros i w; [by exists w, []|]. cbn [tx_proofs].
  destruct (live_tx txn (block_hash b) w) as (v & w1 & H1).
  destruct (write_runs path (proof_name (height a) "txn" i) v w1) as [w2 H2].
  destruct (IH (i + 1) w2) as (w3 & t3 & H3). eexists w3, _.
  eapply eff_bind_run; [unfold getTxProof; by apply perform_run|]. by eapply eff_bind_run.
Qed.

Lemma receipt_proofs_run path a b i rs w : exists w' t, receipt_proofs rpc path a b i rs w = (Ret tt, w', t).
Proof using HL.
  revert i w. induction rs as [|r rest IH]; intros i w; [by exists w, []|]. cbn [receipt_proofs].
  destruct (live_receipt r (block_hash b) w) as (v & w1 & H1).
  destruct (write_runs path (proof_name (height a) "receipt" i) v w1) as [w2 H2].
  destruct (IH (i + 1) w2) as (w3 & t3 & H3). eexists w3, _.
  eapply eff_bind_run; [unfold getReceiptProof; by apply perform_run|]. by eapply eff_bind_run.
Qed.

Lemma proof_step_ends path a b w : first_chunk a <> None -> exists w' t, ends (fun _ => proof_step rpc path a b) w (Ret tt) w' t.
Proof using HL.
  intros Ha. destruct (first_chunk a) as [hash|] eqn:E; [|done].
  destruct (live_chunk hash w) as (c & w1 & H1). destruct (tx_proofs_run path a b 0 (transactions c) w1) as (w2 & t2 & H2).
  destruct (receipt_proofs_run path a b 0 (receipts c) w2) as (w3 & t3 & H3). eexists w3, _. apply ends_const.
  unfold proof_step, getBlockChunk. rewrite E. eapply eff_bind_run; [by apply perform_run|]. by eapply eff_bind_run.
Qed.

Section Loop.
Context (step : nat -> Block -> Block -> eff W event unit) (P : nat -> list event -> Prop).
Hypothesis P_done : P 0 [].
Hypothesis P_poll : forall n t0 t, written t0 = [] -> P n t -> P n (t0 ++ t)%list.
Hypothesis step_ends : forall a b w, first_chunk a <> None ->
  exists w' t, ends (fun fuel => step fuel a b) w (Ret tt) w' t /\ forall n t', P n t' -> P (S n) (t ++ t')%list.

(** The loop ends when its steps do, for all fuel from some amount on. *)
Lemma dump_loop_ends n latest w : first_chunk latest <> None ->
  exists w' t N, (forall fuel F, (N <= fuel)%nat -> (N <= F)%nat ->
    dump_loop rpc fuel (step F) latest (Z.of_nat n) w = (Ret tt, w', t)) /\ P n t.
Proof using HL P_done P_poll step_ends.
  revert latest w. induction n as [|n IHn]; intros latest w Hl.
  { exists w, [], 0%nat. split; [|done]. by intros [|fuel] F _ _. }
  induction (live_grows (height latest) w) as [w o w1 Hop HP | w o w1 Hop HP _ (w2 & t & N & IH & Ht)];
    assert (Hq := perform_run (Call "block" [VStr "final"]) _ _ _ _ Hop);
    destruct (live_final w) as (b & w1' & Hb & Hbc); rewrite Hop in Hb; injection Hb as -> <-.
  - destruct HP as (b' & [= <-] & Hgt). destruct (step_ends latest b w1 Hl) as (w2 & t2 & [N2 H2] & HP2).
    destruct (IHn b w2 Hbc) as (w3 & t3 & N3 & H3 & HP3).
    exists w3, ([Call "block" [VStr "final"]] ++ t2 ++ t3)%list, (S (max N2 N3)). split.
    + intros [|fuel] F Hf HF; [lia|]. cbn [dump_loop]. rewrite (proj2 (Z.ltb_lt 0 _)) by lia.
      eapply eff_bind_run; [exact Hq|]. cbv beta iota. rewrite (proj2 (Z.ltb_lt _ _) Hgt).
      eapply eff_bind_run; [apply H2; lia|]. replace (Z.of_nat (S n) - 1) with (Z.of_nat n) by lia. apply H3; lia.
    + apply P_poll; [done|]. by apply HP2.
  - exists w2, ([Call "block" [VStr "final"]] ++ t)%list, (S N). split; [|by apply P_poll].
    intros [|fuel] F Hf HF; [lia|]. cbn [dump_loop]. rewrite (proj2 (Z.ltb_lt 0 _)) by lia.
    eapply eff_bind_run; [exact Hq|]. cbv beta iota.
    destruct (Z.ltb_spec (height latest) (height b)) as [Hgt|_]; [by destruct HP; eauto|]. apply IH; lia.
Qed.

End Loop.

(** A dump of NEAR comes to its end.  On a node that answers, whose
    final head passes every height and which has a next light client block
    for every head after a while, the command returns, for every path and
    count of blocks and all fuel from some amount on; and a dump of headers
    has then written as many files as blocks were asked for, 100 when no
    count was given. *)
Theorem near_dump_completes kind path numBlocks w :
  kind = "headers" \/ kind = "proofs" ->
  exists w' t N, (forall fuel, (N <= fuel)%nat -> execute rpc fuel kind path numBlocks w = (Ret tt, w', t)) /\
    (kind = "headers" -> length (written t) = Z.to_nat (default 100 numBlocks)).
Proof using HL.
  intros Hk. destruct (live_final w) as (b & w1 & Hb & Hbc).
  assert (Hq := perform_run (E := event) (Call "block" [VStr "final"]) _ _ _ _ Hb).
  set (n := default 100 numBlocks). assert (Hn : forall fuel step, dump_loop rpc fuel step b n w1 = dump_loop rpc fuel step b (Z.of_nat (Z.to_nat n)) w1).
  { intros fuel step. destruct (Z.leb_spec 0 n) as [Hpos|Hneg]; [by rewrite Z2Nat.id by done|].
    replace (Z.to_nat n) with 0%nat by lia. destruct fuel; cbn [dump_loop]; by rewrite (proj2 (Z.ltb_ge 0 n)) by lia. }
  destruct Hk as [-> | ->].
  - destruct (dump_loop_ends (fun F => header_step rpc F path) (fun n t => length (written t) = n)) with (n := Z.to_nat n) (latest := b) (w := w1)
      as (w2 & t & N & Hrun & Ht); [done | | | done |].
    + intros k t0 t H0 Ht. by rewrite written_app, H0.
    + intros a c v _. destruct (header_step_ends path a c v) as (v' & t & He & Ht). exists v', t. split; [done|].
      intros k t' Ht'. rewrite written_app, length_app. lia.
    + exists w2, ([Call "block" [VStr "final"]] ++ t)%list, N. split; [|intros _; exact Ht]. intros fuel Hf. eapply (eff_bind_run _ _ _ tt w []); [reflexivity|]. cbv beta zeta.
      apply (eff_bind_run _ _ _ _ _ _ _ _ t Hq). cbv beta iota. cbn [String.eqb Ascii.eqb Bool.eqb]. unfold dumpHeaders. rewrite Hn. by apply Hrun.
  - destruct (dump_loop_ends (fun _ => proof_step rpc path) (fun n t => True)) with (n := Z.to_nat n) (latest := b) (w := w1)
      as (w2 & t & N & Hrun & _); [done | done | | done |].
    + intros a c v Ha. destruct (proof_step_ends path a c v Ha) as (v' & t & He). by exists v', t.
    + exists w2, ([Call "block" [VStr "final"]] ++ t)%list, N. split; [|done]. intros fuel Hf. eapply (eff_bind_run _ _ _ tt w []); [reflexivity|]. cbv beta zeta.
      apply (eff_bind_run _ _ _ _ _ _ _ _ t Hq). cbv beta iota. cbn [String.eqb Ascii.eqb Bool.eqb]. unfold dumpProofs. rewrite Hn. by apply (Hrun _ fuel).
Qed.

End Liveness.

(** ** Names of proof files *)

Lemma proof_name_inj h h' ty ty' i i' :
  str_free "_" ty = true -> str_free "_" ty' = true -> proof_name h ty i = proof_name h' ty' i' -> h = h' /\ ty = ty' /\ i = i'.
Proof.
  intros Hty Hty' H. unfold proof_name in H. apply (str_free_split "_") in H as [Hh H]; try apply pretty_free_sep.
  apply (str_free_split "_") in H as [Ht H]; try done.
  apply (str_free_split ".") in H as [Hi _]; try apply pretty_free_sep.
  split; [by apply (inj pretty)|]. split; [done | by apply (inj pretty)].
Qed.

(** The names of one kind of proof for the block at height [h]. *)
Definition names (h : Z) (ty : string) (i : Z) (n : nat) : list string := proof_name h ty <$> seqZ i (Z.of_nat n).

Lemma names_NoDup h ty i n : str_free "_" ty = true -> NoDup (names h ty i n).
Proof.
  intros Hty. apply NoDup_fmap_2; [|apply NoDup_seqZ]. intros a b H. by apply proof_name_inj in H as (_ & _ & ->).
Qed.

Lemma names_cons h ty i n : names h ty i (S n) = proof_name h ty i :: names h ty (i + 1) n.
Proof.
  unfold names. rewrite (seqZ_cons i (Z.of_nat (S n))) by lia.
  replace (Z.pred (Z.of_nat (S n))) with (Z.of_nat n) by lia. by replace (Z.succ i) with (i + 1) by lia.
Qed.

Section Names.
Context {W : Type} (rpc : NearRpc W).

(** However it ends, a step writes proofs in order, without gaps. *)
Definition writes_names (h : Z) (ty : string) (i : Z) (r : outcome unit * W * list event) : Prop :=
  exists n, written (trace_of r) = names h ty i n.

(** One proof asked for and saved, then the rest. *)
Lemma writes_one (ask : eff W event val) h ty i path (k : eff W event unit) w :
  (forall v, written (trace_of (ask v)) = []) -> (forall v, writes_names h ty (i + 1) (k v)) ->
  writes_names h ty i ((ask ≫= fun proof => saveProof rpc h ty i proof path ≫= fun _ => k) w).
Proof.
  intros Hask Hk. unfold writes_names. rewrite eff_bind_eq. specialize (Hask w).
  destruct (ask w) as [[[v|e|c|] w1] t1]; cbn [trace_of snd out_of fst] in *; try (exists 0%nat; exact Hask).
  rewrite written_app, Hask. cbn [app]. rewrite eff_bind_eq. unfold saveProof, write, perform.
  destruct (rpc_writeFile rpc path (proof_name h ty i) v w1) as [[[]|e|c|] w2]; cbn [trace_of snd]; try by exists 1%nat.
  destruct (Hk w2) as [n Hn]. exists (S n). rewrite names_cons, written_app. cbn. by rewrite Hn.
Qed.

Lemma tx_proofs_names path a b i txns w : writes_names (height a) "txn" i (tx_proofs rpc path a b i txns w).
Proof.
  revert i w. induction txns as [|txn rest IH]; intros i w; [by exists 0%nat|]. cbn [tx_proofs]. apply writes_one; [|intros; apply IH].
  intros v. unfold getTxProof, perform. by destruct (rpc_tx_proof rpc txn (block_hash b) v).
Qed.

Lemma receipt_proofs_names path a b i rs w : writes_names (height a) "receipt" i (receipt_proofs rpc path a b i rs w).
Proof.
  revert i w. induction rs as [|r rest IH]; intros i w; [by exists 0%nat|]. cbn [receipt_proofs]. apply writes_one; [|intros; apply IH].
  intros v. unfold getReceiptProof, perform. by destruct (rpc_receipt_proof rpc r (block_hash b) v).
Qed.

Lemma proof_step_names path a b w :
  exists n1 n2, written (trace_of (proof_step rpc path a b w)) = (names (height a) "txn" 0 n1 ++ names (height a) "receipt" 0 n2)%list.
Proof.
  unfold proof_step. rewrite eff_bind_eq.
  assert (Hq : written (trace_of (getBlockChunk rpc a w)) = []).
  { unfold getBlockChunk. destruct (first_chunk a); [|done]. unfold perform. by destruct (rpc_chunk rpc s w). }
  destruct (getBlockChunk rpc a w) as [[[[c|]|e|x|] w1] t1]; cbn [trace_of snd] in *; try (by exists 0%nat, 0%nat).
  - destruct (tx_proofs_names path a b 0 (transactions c) w1) as [n1 H1].
    rewrite written_app, Hq, eff_bind_eq. cbn [app].
    destruct (tx_proofs rpc path a b 0 (transactions c) w1) as [[[[]|e|x|] w2] t2]; cbn [trace_of snd] in *;
      try (exists n1, 0%nat; by rewrite app_nil_r).
    destruct (receipt_proofs_names path a b 0 (receipts c) w2) as [n2 H2]. exists n1, n2. by rewrite written_app, H1, H2.
  - exists 0%nat, 0%nat. by rewrite written_app, Hq.
Qed.

(** The names of a loop that starts at [h]: no two alike, none below [h]. *)
Definition fresh_from (h : Z) (l : list string) : Prop :=
  NoDup l /\ forall name, name ∈ l -> exists h' ty i, h <= h' /\ str_free "_" ty = true /\ name = proof_name h' ty i.

Lemma names_elem h ty i n name : name ∈ names h ty i n -> exists k, name = proof_name h ty k.
Proof. intros H. apply list_elem_of_fmap in H as (k & -> & _). by exists k. Qed.

Lemma fresh_step h h' l n1 n2 :
  fresh_from h' l -> h < h' -> fresh_from h ((names h "txn" 0 n1 ++ names h "receipt" 0 n2) ++ l)%list.
Proof.
  intros [Hnd Hl] Hlt.
  assert (Hstep : forall name, name ∈ (names h "txn" 0 n1 ++ names h "receipt" 0 n2)%list ->
            exists ty k, (ty = "txn" \/ ty = "receipt") /\ name = proof_name h ty k).
  { intros name Hin. apply elem_of_app in Hin as [Hin|Hin]; apply names_elem in Hin as [k ->]; eauto. }
  split.
  - rewrite !list.NoDup_app. split; [split; [by apply names_NoDup|split; [|by apply names_NoDup]]|split; [|done]].
    + intros name H1 H2. apply names_elem in H1 as [k ->]. apply names_elem in H2 as [k' H2].
      by apply proof_name_inj in H2 as (_ & ? & _).
    + intros name H1 H2. destruct (Hstep name H1) as (ty & k & Hty & ->). destruct (Hl _ H2) as (h2 & ty2 & k2 & Hge & Hf & Heq).
      apply proof_name_inj in Heq as (-> & _ & _); [lia | by destruct Hty as [-> | ->] | done].
  - intros name Hin. apply elem_of_app in Hin as [Hin|Hin].
    + destruct (Hstep name Hin) as (ty & k & Hty & ->). exists h, ty, k. split; [lia|]. by destruct Hty as [-> | ->].
    + destruct (Hl _ Hin) as (h2 & ty2 & k2 & Hge & Hf & Heq). exists h2, ty2, k2. split; [lia | done].
Qed.

Lemma fresh_weaken h h' l : fresh_from h' l -> h <= h' -> fresh_from h l.
Proof.
  intros [Hnd Hl] Hle. split; [done|]. intros name Hin. destruct (Hl _ Hin) as (h2 & ty & k & Hge & Hr).
  exists h2, ty, k. split; [lia | done].
Qed.

Lemma fresh_nil h : fresh_from h [].
Proof. split; [constructor|]. intros name H. by apply not_elem_of_nil in H. Qed.

(** A dump of proofs never overwrites a file.  However a run of
    [dumpProofs] ends, after any number of blocks and for any answers of
    the node, the names of the files it has written are all different: they
    are made of the height of the block, the kind of proof and the position
    in the chunk, and the dump only goes on from a block to a higher one. *)
Theorem dumpProofs_files_distinct fuel path latestBlock numBlocks w :
  NoDup (written (trace_of (dumpProofs rpc fuel path latestBlock numBlocks w))).
Proof.
  cut (fresh_from (height latestBlock) (written (trace_of (dumpProofs rpc fuel path latestBlock numBlocks w)))); [by intros [H _]|].
  unfold dumpProofs. revert latestBlock numBlocks w. induction fuel as [|fuel IH]; intros a n w; cbn [dump_loop].
  { case_match; apply fresh_nil. }
  destruct (0 <? n); [|apply fresh_nil]. rewrite eff_bind_eq. unfold getLatestBlock, perform.
  destruct (rpc_final_block rpc w) as [[[b|]|e|c|] w1]; cbn [trace_of snd]; rewrite ?written_app; try apply fresh_nil.
  cbn [app written omap list_omap].
  destruct (Z.ltb_spec (height a) (height b)) as [Hlt|_]; [|apply IH].
  rewrite eff_bind_eq. destruct (proof_step_names path a b w1) as (n1 & n2 & Hn).
  assert (Hs := fresh_step (height a) (height b)).
  destruct (proof_step rpc path a b w1) as [[[[]|e|c|] w2] t2]; cbn [trace_of snd] in *;
    try (change (fresh_from (height a) (written t2)); rewrite Hn, <- app_nil_r; by apply (Hs []); [apply fresh_nil|]).
  change (fresh_from (height a) (written (t2 ++ trace_of (dump_loop rpc fuel (proof_step rpc path) b (n - 1) w2)))).
  rewrite written_app, Hn. apply Hs; [apply IH | done].
Qed.

End Names.

Module Witness.

(** A chain with a clock: the head grows with every second request, and
    light client blocks are there at even times. *)
Definition clock_rpc : NearRpc Z := {|
  rpc_final_block w := (Ret (Some {| height := w / 2; block_hash := "hash"; first_chunk := Some "chunk" |}), w + 1);
  rpc_chunk hash w := (Ret (Some {| transactions := [{| txn_hash := "t"; txn_receiver := "r"; txn_signer := "s" |}]; receipts := [] |}), w + 1);
  rpc_tx_proof txn hash w := (Ret VNull, w + 1);
  rpc_receipt_proof r hash w := (Ret VNull, w + 1);
  rpc_next_light_client_block hash w := (Ret (if Z.even w then Some (w, VObj []) else None), w + 1);
  rpc_writeFile path name v w := (Ret tt, w)
|}.

Lemma clock_grows h n w : 2 * (h + 1) - w <= Z.of_nat n ->
  eventually (rpc_final_block clock_rpc) (fun o => exists b, o = Some b /\ h < height b) w.
Proof.
  revert w. induction n as [|n IH]; intros w Hn.
  - eapply eventually_now; [reflexivity|]. eexists. split; [reflexivity|]. cbn.
    assert (h + 1 <= w / 2) by (apply Z.div_le_lower_bound; lia). lia.
  - destruct (decide (h < w / 2)) as [Hlt|Hge].
    + eapply eventually_now; [reflexivity|]. by eexists.
    + eapply eventually_later; [reflexivity | |apply IH; lia]. intros (b & [= <-] & Hb). done.
Qed.

#[export] Instance clock_live : Live clock_rpc.
Proof.
  constructor.
  - intros w. by eexists _, _.
  - intros h w. apply (clock_grows h (Z.to_nat (2 * (h + 1) - w))). lia.
  - intros hash w. destruct (Z.even w) eqn:E.
    + eapply eventually_now; [reflexivity|]. cbn. by rewrite E.
    + eapply eventually_later; [reflexivity | cbn; by rewrite E; intros H; apply H|].
      eapply eventually_now; [reflexivity|]. rewrite Z.even_add, E. done.
  - intros hash w. by eexists _, _.
  - intros txn hash w. by eexists _, _.
  - intros r hash w. by eexists _, _.
  - intros path name v w. by eexists.
Qed.

Lemma near_dump_completes_witness :
  exists w' t N, (forall fuel, (N <= fuel)%nat -> execute clock_rpc fuel "headers" "dump" (Some 3) 0 = (Ret tt, w', t)) /\
    ("headers" = "headers" -> length (written t) = 3%nat).
Proof. apply (near_dump_completes clock_rpc "headers" "dump" (Some 3) 0). by left. Defined.

End Witness.
