(* ===== verification/Milestones.v ===== *)
(** * Milestones of a run

    The calls of a run whose names are in a given list, in order.  The
    programs of the shared library (robust.js, helpers.js, borsh.js and the
    proof extractor) make none of them: between the milestones of a command
    they may do what they like. *)

From S2P Require Import Prelude Interfaces Borsh Robust NearTx Accounts Rlp ProofExtractor.

(** The calls the shared library records. *)
Definition library_calls : list string :=
  ["eth.getBlockNumber"; "eth.getBlock"; "eth.getTransactionReceipt"; "eth.getGasPrice"; "eth.getTransactionCount";
   "eth.call"; "eth.sendTransaction"; "provider.status"; "signTransaction"; "broadcast_tx_async"; "txStatus"; "query";
   "findAccessKey"; "near.fetchState"; "near.getAccessKeys"; "connection.close"; "recordTransferLog"; "loadTransferLog"].

Definition milestones (names : list string) (t : list event) : list (string * list val) :=
  omap (fun e => match e with
                 | Call n args => if existsb (String.eqb n) names then Some (n, args) else None
                 | _ => None
                 end) t.

Arguments milestones : simpl never.

Lemma milestones_app names t1 t2 : milestones names (t1 ++ t2) = (milestones names t1 ++ milestones names t2)%list.
Proof. apply omap_app. Qed.

(** A run without milestones. *)
Definition silent (names : list string) {W} (w w' : W) (t : list event) : Prop := milestones names t = [].

#[global] Instance silent_rel names {W} : TraceRel (silent names (W := W)).
Proof. split; [done|]. unfold silent. intros w1 w2 w3 t1 t2 H1 H2. by rewrite milestones_app, H1, H2. Qed.

(** None of the names is a call of the library. *)
Class Unmarked (names : list string) : Prop :=
  unmarked : forallb (fun n => negb (existsb (String.eqb n) names)) library_calls = true.

Lemma library_silent names {W} n args (w w' : W) `{!Unmarked names} :
  existsb (String.eqb n) library_calls = true -> silent names w w' [Call n args].
Proof.
  intros Hn. pose proof unmarked as H. rewrite forallb_forall in H.
  apply existsb_exists in Hn as (m & Hin & Hm). apply String.eqb_eq in Hm as ->.
  apply H in Hin. unfold silent, milestones. cbn. by destruct (existsb (String.eqb m) names).
Qed.

(** Walk through a program of the library. *)
Ltac silent_event := first [ apply library_silent; [assumption || apply _ | reflexivity] | reflexivity ].

Ltac silent_walk :=
  repeat match goal with
  | |- respects _ (match ?x with _ => _ end) => destruct x
  | |- respects _ (let '(_, _) := ?x in _) => destruct x
  | |- respects _ (lift _) => apply respects_lift, _
  | |- respects _ (throw _) => apply respects_throw, _
  | |- respects _ (exit _) => apply respects_exit, _
  | |- respects _ stuck => apply respects_lift, _
  | |- respects _ (mret _) => apply respects_ret, _
  | |- respects _ (sleep _) => apply respects_emit; intros; silent_event
  | |- respects _ (emit _) => apply respects_emit; intros; silent_event
  | |- respects _ (perform _ _) => apply respects_perform; intros; silent_event
  | |- respects _ (query _) => apply respects_query; intros; silent_event
  | |- respects _ (try_catch _ _) => apply respects_try; [apply _ | | intros ?]
  | |- respects _ (_ ≫= _) => apply respects_bind; [apply _ | | intros ?]
  | |- respects _ (backoff _ _) => apply backoff_respects; [apply _ | intros; silent_event |]
  | |- respects _ _ => solve [auto with silence]
  end.

Create HintDb silence.

#[export] Hint Extern 1 (Unmarked _) => apply _ : silence.

Section Library.
Context (names : list string) {Hu : Unmarked names}.

Section Ethereum.
Context {W : Type} (url : string) (node : Web3Node W).

Lemma reconnecting_silent {A} (m : eff W event A) : respects (silent names) m -> respects (silent names) (reconnecting url m).
Proof using Hu. intros Hm. unfold reconnecting. silent_walk. Qed.

Hint Resolve reconnecting_silent : silence.

Lemma getBlock_silent b : respects (silent names) (getBlock url node b).
Proof using Hu. unfold getBlock. silent_walk. apply reconnecting_silent. silent_walk. Qed.

Lemma getTransactionReceipt_silent b : respects (silent names) (getTransactionReceipt url node b).
Proof using Hu. unfold getTransactionReceipt. silent_walk. apply reconnecting_silent. silent_walk. Qed.

Lemma callContract_silent toHex toHexVal address data decode options fuel :
  respects (silent names) (callContract url node toHex toHexVal address data decode options fuel).
Proof using Hu.
  assert (Hl : forall gasPrice nonce, respects (silent names) (call_loop url node toHex toHexVal address data decode options fuel gasPrice nonce)).
  { induction fuel as [|fuel IH]; intros gasPrice nonce; cbn [call_loop]; unfold attempt, send_with_timeout; silent_walk; apply IH. }
  unfold callContract. silent_walk.
Qed.

Lemma promise_all_silent {A} (ps : list (eff W event A)) :
  Forall (respects (silent names)) ps -> respects (silent names) (promise_all ps).
Proof using.
  induction 1 as [|p ps Hp _ IH]; intros w; [reflexivity|]. cbn [promise_all]. specialize (Hp w).
  destruct (p w) as [[[a|e|c|] w1] t1]; try exact Hp; specialize (IH w1); destruct (promise_all ps w1) as [[os w2] t2];
    exact (trace_rel_app _ _ _ _ _ Hp IH).
Qed.

Context {TL : TrieLib} {EO : EthObject} {RL : RlpLib}.

Lemma buildTrie_silent block : respects (silent names) (buildTrie url node block).
Proof using Hu.
  unfold buildTrie. silent_walk. apply promise_all_silent, Forall_fmap, list.Forall_true. intros tx. apply getTransactionReceipt_silent.
Qed.

Lemma extractProof_silent block tree i : respects (silent names) (extractProof node block tree i).
Proof using Hu. unfold extractProof. silent_walk. Qed.

End Ethereum.

Section Near.
Context {N : Type} (near : NearNode N).

Lemma verifyAccount_silent {W} (c : NearConnection W) id : respects (silent names) (verifyAccount c id).
Proof using Hu. unfold verifyAccount, accountExists, accountHasTheKey. silent_walk. Qed.

Lemma accessKeyInit_silent id f : respects (silent names) (accessKeyInit (N := N) id f).
Proof using Hu. unfold accessKeyInit. silent_walk. Qed.

Lemma viewMethod_silent {BW : BinaryWriter} {BN : BnLib} fuel sch c m args :
  respects (silent names) (viewMethod near fuel sch c m args).
Proof using Hu. unfold viewMethod. silent_walk. Qed.

Lemma catch_message_silent {A} (m : eff (KeyWorld N) event A) :
  respects (silent names) m -> respects (silent names) (catch_message m).
Proof using. apply catch_message_respects, _. Qed.

Hint Resolve catch_message_silent : silence.

Lemma poll_status_silent n j h result err : respects (silent names) (poll_status near n j h result err).
Proof using Hu.
  revert j result err. induction n as [|n IH]; intros j result err; cbn [poll_status]; silent_walk; try apply IH.
  apply catch_message_silent. silent_walk.
Qed.

Lemma signAndSend_silent r acts : respects (silent names) (signAndSendTransaction near r acts).
Proof using Hu.
  unfold signAndSendTransaction. generalize (@None SignedTx), false, (@None string). induction RETRY_SEND_TX as [|n IH]; intros last resend err; cbn [send_loop]; [silent_walk|].
  silent_walk; try apply IH; try apply poll_status_silent.
  unfold broadcast_phase, sendTxnAsync, sign_next. destruct resend, last; silent_walk; apply catch_message_silent; silent_walk.
Qed.

Lemma changeMethod_silent {BW : BinaryWriter} {BN : BnLib} fuel sch c m args gas amount :
  respects (silent names) (changeMethod near fuel sch c m args gas amount).
Proof using Hu. unfold changeMethod. silent_walk. apply signAndSend_silent. Qed.

End Near.
End Library.

#[export] Hint Resolve getBlock_silent getTransactionReceipt_silent callContract_silent buildTrie_silent extractProof_silent
  verifyAccount_silent accessKeyInit_silent viewMethod_silent signAndSend_silent changeMethod_silent : silence.

(** A program of the library that completes, without milestones. *)
Lemma completes_silent names {W A} P (m : nat -> eff W event A) Q :
  (forall fuel, respects (silent names) (m fuel)) -> completes P m Q ->
  completes P m (fun a w t => Q a w t /\ milestones names t = []).
Proof.
  intros Hs Hm w Hw. destruct (Hm w Hw) as (a & w' & t & [n Hn] & HQ). exists a, w', t. split; [by exists n|].
  split; [done|]. specialize (Hs n w). by rewrite (Hn n (Nat.le_refl _)) in Hs.
Qed.

(** What a program answers, as a service. *)
Definition answer_of {W A} (m : eff W event A) : service W A := fun w => (out_of (m w), world_of (m w)).

(** ** Specifications with milestones

    [achieves names P m Q l]: from every world in [P], [m] ends in a value
    with [Q], having passed exactly the milestones [l].  [finishes names P
    m o l]: it ends in the outcome [o] instead; [finishes_with names P m o
    R]: with milestones in [R]. *)

Definition achieves (names : list string) {W A} (P : W -> Prop) (m : nat -> eff W event A) (Q : A -> W -> Prop)
    (l : list (string * list val)) : Prop :=
  completes P m (fun a w t => Q a w /\ milestones names t = l).

Definition finishes_with (names : list string) {W A} (P : W -> Prop) (m : nat -> eff W event A) (o : outcome A)
    (R : list (string * list val) -> Prop) : Prop :=
  forall w, P w -> exists w' t, ends m w o w' t /\ R (milestones names t).

Definition finishes (names : list string) {W A} (P : W -> Prop) (m : nat -> eff W event A) (o : outcome A)
    (l : list (string * list val)) : Prop :=
  finishes_with names P m o (fun l' => l' = l).

Section Achieves.
Context (names : list string) {Hu : Unmarked names} {W : Type}.
Implicit Types (P : W -> Prop).

Lemma achieves_bind {A B} P (m : nat -> eff W event A) (k : nat -> A -> eff W event B) Q R l1 l2 :
  achieves names P m Q l1 -> (forall a, achieves names (Q a) (fun fuel => k fuel a) R l2) ->
  achieves names P (fun fuel => m fuel ≫= k fuel) R (l1 ++ l2)%list.
Proof using.
  intros Hm Hk. eapply completes_bind; [exact Hm|]. intros a t w [HQ Ht].
  destruct (Hk a w HQ) as (b & w' & t' & He & HR & Ht'). exists b, w', t'. split; [done|].
  split; [done|]. by rewrite milestones_app, Ht, Ht'.
Qed.

(** A first part without milestones that gives a known value. *)
Lemma achieves_then {A B} P (m : nat -> eff W event A) (k : nat -> A -> eff W event B) P' a R l :
  achieves names P m (fun b w => b = a /\ P' w) [] -> achieves names P' (fun fuel => k fuel a) R l ->
  achieves names P (fun fuel => m fuel ≫= k fuel) R l.
Proof using.
  intros Hm Hk. apply (achieves_bind _ _ _ _ _ [] l Hm). intros b w [-> Hw]. by apply Hk.
Qed.

Lemma finishes_with_bind {A B} P (m : nat -> eff W event A) (k : nat -> A -> eff W event B) Q o l1 R :
  achieves names P m Q l1 -> (forall a, finishes_with names (Q a) (fun fuel => k fuel a) o (fun l => R (l1 ++ l)%list)) ->
  finishes_with names P (fun fuel => m fuel ≫= k fuel) o R.
Proof using.
  intros Hm Hk w Hw. destruct (Hm w Hw) as (a & w1 & t1 & E1 & HQ & H1). destruct (Hk a w1 HQ) as (w2 & t2 & E2 & H2).
  exists w2, (t1 ++ t2)%list. split; [by eapply ends_bind|]. by rewrite milestones_app, H1.
Qed.

(** A first part whose value has [Q], whatever its world. *)
Lemma finishes_with_value {A B} P (m : nat -> eff W event A) (k : nat -> A -> eff W event B) (Q : A -> Prop) o l1 R :
  achieves names P m (fun a _ => Q a) l1 ->
  (forall a, Q a -> finishes_with names (fun _ => True) (fun fuel => k fuel a) o (fun l => R (l1 ++ l)%list)) ->
  finishes_with names P (fun fuel => m fuel ≫= k fuel) o R.
Proof using. intros Hm Hk. eapply finishes_with_bind; [exact Hm|]. intros a w Ha. by apply (Hk a Ha). Qed.

Lemma finishes_bind {A B} P (m : nat -> eff W event A) (k : nat -> A -> eff W event B) Q o l1 l2 :
  achieves names P m Q l1 -> (forall a, finishes names (Q a) (fun fuel => k fuel a) o l2) ->
  finishes names P (fun fuel => m fuel ≫= k fuel) o (l1 ++ l2)%list.
Proof using.
  intros Hm Hk. eapply finishes_with_bind; [exact Hm|]. intros a w HQ. destruct (Hk a w HQ) as (w2 & t2 & E2 & E3). exists w2, t2.
  split; [done|]. cbv beta in E3 |- *. by rewrite E3.
Qed.

Lemma finishes_with_then {A B} P (m : nat -> eff W event A) (k : nat -> A -> eff W event B) P' a o R :
  achieves names P m (fun b w => b = a /\ P' w) [] -> finishes_with names P' (fun fuel => k fuel a) o R ->
  finishes_with names P (fun fuel => m fuel ≫= k fuel) o R.
Proof using. intros Hm Hk. eapply finishes_with_bind; [exact Hm|]. intros b w [-> Hw]. by apply Hk. Qed.

Lemma finishes_then {A B} P (m : nat -> eff W event A) (k : nat -> A -> eff W event B) P' a o l :
  achieves names P m (fun b w => b = a /\ P' w) [] -> finishes names P' (fun fuel => k fuel a) o l ->
  finishes names P (fun fuel => m fuel ≫= k fuel) o l.
Proof using.
  intros Hm Hk. apply (finishes_bind _ _ _ _ _ [] l Hm). intros b w [-> Hw]. by apply Hk.
Qed.

(** A first part with milestones that gives a known value. *)
Lemma finishes_step {A B} P (m : nat -> eff W event A) (k : nat -> A -> eff W event B) P' a o l1 l2 :
  achieves names P m (fun b w => b = a /\ P' w) l1 -> finishes names P' (fun fuel => k fuel a) o l2 ->
  finishes names P (fun fuel => m fuel ≫= k fuel) o (l1 ++ l2)%list.
Proof using.
  intros Hm Hk. apply (finishes_bind _ _ _ _ _ l1 l2 Hm). intros b w [-> Hw]. by apply Hk.
Qed.

Lemma finishes_exit {A} P c : finishes names P (fun _ => exit (A := A) c) (Exit c) [].
Proof using. intros w _. exists w, []. split; [by apply ends_const | done]. Qed.

Lemma achieves_mono {A} P P' (m : nat -> eff W event A) Q R l :
  achieves names P' m Q l -> (forall w, P w -> P' w) -> (forall a w, Q a w -> R a w) -> achieves names P m R l.
Proof using. intros Hm HP HR. eapply completes_mono; [exact Hm | done |]. intros a w t [HQ Ht]. auto. Qed.

Lemma achieves_ret {A} P (a : A) : achieves names P (fun _ => mret a) (fun b w => b = a /\ P w) [].
Proof using. intros w Hw. exists a, w, []. split; [by apply ends_const | done]. Qed.

Lemma achieves_done {A} P (a : A) : achieves names P (fun _ => mret a) (fun _ _ => True) [].
Proof using. intros w Hw. exists a, w, []. split; [by apply ends_const | done]. Qed.

(** A fact about the values so far. *)
Lemma achieves_fact {A} (F : Prop) (m : nat -> eff W event A) Q l :
  (F -> achieves names (fun _ => True) m Q l) -> achieves names (fun _ => F) m Q l.
Proof using. intros Hm w HF. by apply Hm. Qed.

Lemma achieves_lift {A} P (o : outcome A) a : o = Ret a -> achieves names P (fun _ => lift o) (fun b w => b = a /\ P w) [].
Proof using. intros -> w Hw. exists a, w, []. split; [by apply ends_const | done]. Qed.

Lemma achieves_emit P n args : existsb (String.eqb n) names = true ->
  achieves names P (fun _ => emit (Call n args)) (fun _ w => P w) [(n, args)].
Proof using.
  intros Hn w Hw. exists tt, w, [Call n args]. split; [by apply ends_const|]. split; [done|].
  unfold milestones. cbn. by rewrite Hn.
Qed.

Lemma achieves_query {A} P (op : service W A) a : (forall w, exists w', op w = (Ret a, w')) ->
  achieves names P (fun _ => query op) (fun b w => b = a /\ True) [].
Proof using. intros Hop w _. destruct (Hop w) as [w' Hw]. exists a, w', []. split; [by apply ends_const, query_run | done]. Qed.

Lemma achieves_query_any {A} P (op : service W A) : (forall w, exists a w', op w = (Ret a, w')) ->
  achieves names P (fun _ => query op) (fun _ _ => True) [].
Proof using. intros Hop w _. destruct (Hop w) as (a & w' & Hw). exists a, w', []. split; [by apply ends_const, query_run | done]. Qed.

Lemma achieves_try {A} P (m : nat -> eff W event A) h Q l :
  achieves names P m Q l -> achieves names P (fun fuel => try_catch (m fuel) (h fuel)) Q l.
Proof using. apply completes_try. Qed.

(** A program of the library that always returns. *)
Lemma achieves_library {A} P (m : eff W event A) (Q : A -> Prop) :
  respects (silent names) m -> returns m (fun a _ => Q a) -> achieves names P (fun _ => m) (fun a _ => Q a) [].
Proof using.
  intros Hs Hm. eapply completes_mono; [apply (completes_silent names P (fun _ => m) (fun a _ _ => Q a)); [by intros _|] | done | done].
  by apply (completes_returns P m (fun a _ => Q a)).
Qed.

Lemma achieves_library_eq {A} P (m : eff W event A) a (Q : list event -> Prop) :
  respects (silent names) m -> returns m (fun b t => b = a /\ Q t) -> achieves names P (fun _ => m) (fun b _ => b = a /\ True) [].
Proof using.
  intros Hs Hm. eapply achieves_mono; [apply (achieves_library P m (fun b => b = a)); [done|] | done | done].
  eapply returns_mono; [exact Hm|]. by intros b t [-> _].
Qed.

(** A loop that asks until it likes the answer and sleeps in between. *)
Lemma achieves_wait {A B} P (m : nat -> eff W event B) (q : eff W event A) (good : A -> bool) (out : A -> B) ms (Q : B -> Prop) :
  (forall fuel w, m (S fuel) w = (q ≫= fun a => if good a then mret (out a) else sleep ms ≫= fun _ => m fuel) w) ->
  respects (silent names) q -> (forall w, eventually (answer_of q) (fun a => good a = true) w) ->
  (forall w a, out_of (q w) = Ret a -> good a = true -> Q (out a)) ->
  achieves names P m (fun b _ => Q b) [].
Proof using.
  intros Hm Hs He HQ w _. induction (He w) as [w a w' Hop Hg | w a w' Hop Hg _ (b & w2 & t & Hb & HQb & Ht)];
    unfold answer_of in Hop; pose proof (Hs w) as Hq; destruct (q w) as [[o w1] t1] eqn:Eq; cbn in Hop, Hq; simplify_eq.
  - exists (out a), w', (t1 ++ [])%list. split; [|split; [by apply (HQ w); rewrite ?Eq | by rewrite app_nil_r]].
    eapply (ends_poll m q); [intros fuel; apply Hm | exact Eq |]. cbv beta. rewrite Hg. by apply ends_const.
  - exists b, w2, (t1 ++ [Sleep ms] ++ t)%list. split; [|split; [done | by rewrite milestones_app, Hq]].
    eapply (ends_poll m q); [intros fuel; apply Hm | exact Eq |]. cbv beta. apply not_true_is_false in Hg. rewrite Hg.
    eapply ends_bind; [by apply ends_const | exact Hb].
Qed.

(** A loop that looks until it sees something. *)
Lemma achieves_until {A} P (m : nat -> eff W event A) (q : eff W event (option A)) (Q : A -> Prop) :
  (forall fuel w, m (S fuel) w = (q ≫= fun o => match o with Some a => mret a | None => m fuel end) w) ->
  respects (silent names) q -> (forall w, eventually (answer_of q) is_Some w) ->
  (forall w a, out_of (q w) = Ret (Some a) -> Q a) ->
  achieves names P m (fun a _ => Q a) [].
Proof using.
  intros Hm Hs He HQ w _. induction (He w) as [w o w' Hop [a ->] | w o w' Hop Hn _ (b & w2 & t & Hb & HQb & Ht)];
    unfold answer_of in Hop; pose proof (Hs w) as Hq; destruct (q w) as [[o' w1] t1] eqn:Eq; cbn in Hop, Hq; simplify_eq.
  - exists a, w', (t1 ++ [])%list. split; [|split; [by apply (HQ w); rewrite ?Eq | by rewrite app_nil_r]].
    eapply (ends_poll m q); [intros fuel; apply Hm | exact Eq |]. by apply ends_const.
  - exists b, w2, (t1 ++ t)%list. split; [|split; [done | by rewrite milestones_app, Hq]].
    eapply (ends_poll m q); [intros fuel; apply Hm | exact Eq |]. destruct o as [a|]; [by destruct Hn|]. exact Hb.
Qed.

(** A first attempt that succeeds is not repeated. *)
Lemma achieves_backoff {A} P r (fn : nat -> eff W event A) Q l :
  achieves names P fn Q l -> achieves names P (fun fuel => backoff r (fn fuel)) Q l.
Proof using.
  intros Hf w Hw. destruct (Hf w Hw) as (a & w' & t & [n Hn] & HQ). exists a, w', t. split; [|done].
  exists n. intros fuel Hfuel. unfold backoff. destruct r; cbn [backoff_with]; unfold try_catch; by rewrite (Hn fuel Hfuel).
Qed.

End Achieves.
