(* ===== verification/TransferLog.v ===== *)
(** * The log of a transfer (testing/transfer-eth-erc20)

    Both transfer commands write their progress to a JSON file after every
    step and read it back before the next ([recordTransferLog],
    [parseBuffer], [loadTransferLog]; the code is the same in to-near.js and
    from-near.js).  What a step records is what the next one reads, Buffers
    included.  Console output is not recorded. *)

From S2P Require Import Prelude Robust ProofExtractor Milestones.

(** [JSON.parse(JSON.stringify(v))]: an undefined property is left out, an
    undefined item of an array becomes [null], a Buffer the object of its
    [toJSON]. *)
Fixpoint json_copy (v : val) : val :=
  match v with
  | VUndef => VNull
  | VBytes bs => buffer_toJSON bs
  | VArr vs => VArr (map json_copy vs)
  | VObj fs => VObj (flat_map (fun kv => match kv.2 with VUndef => [] | _ => [(kv.1, json_copy kv.2)] end) fs)
  | _ => v
  end.

(** [Buffer.from(data)]: an array gives its numbers modulo 256, a string its
    UTF-8 encoding. *)
Definition buffer_from (data : val) : outcome (list Z) :=
  match data with
  | VArr vs => Ret (map (fun v => match v with VNum n => n mod 256 | _ => 0 end) vs)
  | VBytes bs => Ret bs
  | VStr s => Ret (utf8_bytes s)
  | _ => Throw (TypeError "The first argument must be of type string or an instance of Buffer")
  end.

(** [v && v.type === 'Buffer'] *)
Definition is_buffer (v : val) : bool :=
  match v with
  | VObj fs => match assoc "type" fs with Some (VStr s) => String.eqb s "Buffer" | _ => false end
  | _ => false
  end.

Definition data_of (v : val) : val :=
  match v with VObj fs => default VUndef (assoc "data" fs) | _ => VUndef end.

(** The loop over the properties; an object that is not a Buffer is changed
    in place, a value that is no object is left alone. *)
Fixpoint parseBuffer (obj : val) : outcome val :=
  let child v := if is_buffer v then bs ← buffer_from (data_of v); Ret (VBytes bs) else parseBuffer v in
  match obj with
  | VArr vs =>
      vs' ← (fix go vs := match vs with [] => Ret [] | v :: rest => v' ← child v; rest' ← go rest; Ret (v' :: rest') end) vs;
      Ret (VArr vs')
  | VObj fs =>
      fs' ← (fix go fs :=
               match fs with
               | [] => Ret []
               | (k, v) :: rest => v' ← child v; rest' ← go rest; Ret ((k, v') :: rest')
               end) fs;
      Ret (VObj fs')
  | _ => Ret obj
  end.

(** ** The file *)

(** Write the value as JSON; read the file and parse it. *)
Record LogFile (W : Type) := {
  log_write : val -> service W unit;
  log_read : service W val
}.

Arguments log_write {W}.
Arguments log_read {W}.

Section Log.
Context {W : Type} (file : LogFile W).

Definition recordTransferLog (obj : val) : eff W event unit :=
  perform (Call "recordTransferLog" [obj]) (log_write file (json_copy obj)).

Definition loadTransferLog : eff W event val :=
  try_catch
    (text ← perform (Call "loadTransferLog" []) (log_read file);
     lift (parseBuffer (js_or text (VObj []))))
    (fun _ => mret (VObj [])).

End Log.

(** ** What is written is read back *)

(** No undefined value inside, no object that looks like a Buffer. *)
Fixpoint json_ok (v : val) : bool :=
  match v with
  | VUndef => false
  | VBytes bs => forallb (fun b => (0 <=? b) && (b <? 256)) bs
  | VArr vs => forallb json_ok vs
  | VObj fs => negb (is_buffer v) && forallb (fun kv => json_ok kv.2) fs
  | _ => true
  end.

Section ValInd.
Context (P : val -> Prop).
Context (Hleaf : forall v, match v with VArr _ | VObj _ => False | _ => True end -> P v).
Context (Harr : forall vs, Forall P vs -> P (VArr vs)).
Context (Hobj : forall fs, Forall (fun kv => P kv.2) fs -> P (VObj fs)).

Fixpoint val_nested_ind (v : val) : P v :=
  match v with
  | VArr vs => Harr vs ((fix go vs : Forall P vs := match vs with [] => List.Forall_nil _ | v :: l => List.Forall_cons _ v l (val_nested_ind v) (go l) end) vs)
  | VObj fs => Hobj fs ((fix go fs : Forall (fun kv => P kv.2) fs := match fs with [] => List.Forall_nil _ | kv :: l => List.Forall_cons _ kv l (val_nested_ind kv.2) (go l) end) fs)
  | VUndef => Hleaf VUndef I
  | VNull => Hleaf VNull I
  | VBool b => Hleaf (VBool b) I
  | VNum n => Hleaf (VNum n) I
  | VStr s => Hleaf (VStr s) I
  | VBytes bs => Hleaf (VBytes bs) I
  end.

End ValInd.

Lemma bytes_mod bs : forallb (fun b => (0 <=? b) && (b <? 256)) bs = true ->
  map (fun v => match v with VNum n => n mod 256 | _ => 0 end) (map VNum bs) = bs.
Proof.
  induction bs as [|b bs IH]; cbn; [done|]. intros H. zbool. rewrite IH by done. by rewrite Z.mod_small by lia.
Qed.

Lemma assoc_json_copy k (fs : list (string * val)) : forallb (fun kv => json_ok kv.2) fs = true ->
  assoc k (flat_map (fun kv => match kv.2 with VUndef => [] | _ => [(kv.1, json_copy kv.2)] end) fs) = json_copy <$> assoc k fs.
Proof.
  induction fs as [|[k' v] fs IH]; cbn; [done|]. intros H. zbool.
  destruct v; cbn; try done; by (destruct (String.eqb k k'); [done | apply IH]).
Qed.

Lemma is_buffer_json_copy fs : forallb (fun kv => json_ok kv.2) fs = true -> is_buffer (VObj fs) = false ->
  is_buffer (json_copy (VObj fs)) = false.
Proof.
  intros Hok Hb. cbn [json_copy is_buffer] in *. rewrite assoc_json_copy by done.
  by destruct (assoc "type" fs) as [[]|].
Qed.

(** The item or property that is read for a recorded one. *)
Definition read_child (v : val) : outcome val :=
  if is_buffer v then bs ← buffer_from (data_of v); Ret (VBytes bs) else parseBuffer v.

Lemma read_child_copy v : json_ok v = true -> read_child (json_copy v) = Ret v.
Proof.
  induction v as [v Hv | vs IH | fs IH] using val_nested_ind; intros Hok.
  - destruct v as [| | | | |bs| |]; try done.
    change (Ret (VBytes (map (fun v => match v with VNum n => n mod 256 | _ => 0 end) (map VNum bs))) = Ret (VBytes bs)).
    by rewrite bytes_mod.
  - unfold read_child. cbn [json_copy is_buffer parseBuffer]. cbn [json_ok] in Hok.
    match goal with |- (?go _ ≫= _) = _ => assert (Hgo : go (map json_copy vs) = Ret vs); [|by rewrite Hgo] end.
    induction IH as [|v vs Hv _ IHvs]; [done|]. cbn [forallb] in Hok. zbool. cbn [map].
    unfold read_child in Hv. rewrite Hv by done.
    cbn [mbind outcome_bind]. by rewrite IHvs.
  - cbn [json_ok] in Hok. apply andb_true_iff in Hok as [Hb Hok]. apply negb_true_iff in Hb.
    unfold read_child. rewrite is_buffer_json_copy by done. cbn [json_copy parseBuffer].
    match goal with |- (?go _ ≫= _) = _ => assert (Hgo : go (flat_map (fun kv : string * val => match kv.2 with VUndef => [] | _ => [(kv.1, json_copy kv.2)] end) fs) = Ret fs); [|by rewrite Hgo] end.
    clear Hb. induction IH as [|[k v] fs Hv _ IHfs]; [done|]. cbn [forallb snd] in Hok. apply andb_true_iff in Hok as [Hk Hok]. specialize (Hv Hk).
    cbn [flat_map fst snd]. replace (match v with VUndef => [] | _ => [(k, json_copy v)] end) with [(k, json_copy v)] by (by destruct v).
    cbn [app]. unfold read_child in Hv. cbn [snd] in Hv. rewrite Hv. cbn [mbind outcome_bind]. by rewrite IHfs.
Qed.

(** The objects a step records. *)
Definition record_ok (fs : list (string * val)) : bool := json_ok (VObj fs).

(** The file keeps what was written last. *)
Class LogFileOk {W} (file : LogFile W) : Prop := {
  log_write_ok v w : exists w', log_write file v w = (Ret tt, w') /\ log_read file w' = (Ret v, w')
}.

Section LogProperties.
Context {W : Type} (file : LogFile W) {FOk : LogFileOk file}.

(** The file holds the object [v]. *)
Definition logged (v : val) (w : W) : Prop := exists w', log_read file w = (Ret (json_copy v), w').

Lemma record_runs v w : exists w', recordTransferLog file v w = (Ret tt, w', [Call "recordTransferLog" [v]]) /\ logged v w'.
Proof using FOk.
  destruct (log_write_ok (json_copy v) w) as (w' & Hw & Hr). exists w'. split; [by apply perform_run | by exists w'].
Qed.

Lemma load_logged fs w : record_ok fs = true -> logged (VObj fs) w ->
  exists w', loadTransferLog file w = (Ret (VObj fs), w', [Call "loadTransferLog" []]).
Proof using.
  intros Hok [w' Hw]. exists w'. unfold record_ok in Hok. pose proof (read_child_copy _ Hok) as Hr. unfold read_child in Hr.
  cbn [json_ok] in Hok. zbool. rewrite is_buffer_json_copy in Hr by done. unfold loadTransferLog, try_catch.
  erewrite (eff_bind_run _ _ w _ w' [Call "loadTransferLog" []] (Ret (VObj fs)) w' []); [reflexivity | by apply perform_run |].
  unfold lift, js_or. change (truthy (json_copy (VObj fs))) with true. cbv iota. by rewrite Hr.
Qed.

Lemma achieves_record names `{!Unmarked names} (P : W -> Prop) v :
  achieves names P (fun _ => recordTransferLog file v) (fun _ w => logged v w) [].
Proof using FOk.
  intros w _. destruct (record_runs v w) as (w' & Hr & Hl). eexists _, w', _. split; [by apply ends_const|]. split; [done|].
  by apply (library_silent names "recordTransferLog" _ w w').
Qed.

Lemma achieves_load names `{!Unmarked names} fs : record_ok fs = true ->
  achieves names (logged (VObj fs)) (fun _ => loadTransferLog file) (fun v _ => v = VObj fs /\ True) [].
Proof using.
  intros Hok w Hl. destruct (load_logged fs w Hok Hl) as [w' Hw]. eexists _, w', _. split; [by apply ends_const|]. split; [done|].
  by apply (library_silent names "loadTransferLog" _ w w').
Qed.

(** A file that cannot be read is an empty log. *)
Lemma load_missing names `{!Unmarked names} :
  achieves names (fun w => exists e w', log_read file w = (Throw e, w')) (fun _ => loadTransferLog file) (fun v _ => v = VObj [] /\ True) [].
Proof using.
  intros w (e & w' & He). exists (VObj []), w', [Call "loadTransferLog" []]. split.
  - apply ends_const. unfold loadTransferLog, try_catch. rewrite eff_bind_eq, (perform_run _ _ _ _ _ He). reflexivity.
  - split; [done|]. by apply (library_silent names "loadTransferLog" _ w w').
Qed.

(** C28: The next step of a transfer sees what the last one recorded.  An
    object without undefined values, in which nothing but a Buffer has the
    type of one, is written and read back unchanged: the Buffers inside it,
    which JSON turns into objects, at any depth, are Buffers again. *)
Theorem transfer_log_roundtrip fs w : record_ok fs = true ->
  exists w1 w2, recordTransferLog file (VObj fs) w = (Ret tt, w1, [Call "recordTransferLog" [VObj fs]]) /\
    loadTransferLog file w1 = (Ret (VObj fs), w2, [Call "loadTransferLog" []]).
Proof using FOk.
  intros Hok. destruct (record_runs (VObj fs) w) as (w1 & Hr & Hl). destruct (load_logged fs w1 Hok Hl) as [w2 Hw]. by exists w1, w2.
Qed.

End LogProperties.

Module Witness.

(** A file as the world. *)
Definition memory_file : LogFile (option val) := {|
  log_write v _ := (Ret tt, Some v);
  log_read w := (match w with Some v => Ret v | None => Throw (Error "ENOENT: no such file or directory") end, w)
|}.

#[export] Instance memory_file_ok : LogFileOk memory_file.
Proof. constructor. intros v w. by exists (Some v). Qed.

Definition entry0 : list (string * val) :=
  [("finished", VStr "find-proof"); ("proof", VObj [("header_rlp", VBytes [1; 255]); ("nodes", VArr [VArr [VBytes []; VBytes [7]]])])].

Lemma transfer_log_roundtrip_witness :
  record_ok entry0 = true /\
  exists w1 w2, recordTransferLog memory_file (VObj entry0) None = (Ret tt, w1, [Call "recordTransferLog" [VObj entry0]]) /\
    loadTransferLog memory_file w1 = (Ret (VObj entry0), w2, [Call "loadTransferLog" []]).
Proof. split; [reflexivity|]. apply (transfer_log_roundtrip memory_file entry0 None). reflexivity. Defined.

End Witness.
