(* ===== verification/Status.v ===== *)
(** * The status command (cli/commands/status.js)

    [NearStatus], [EthStatus] and [ServicesStatus] collect the state of the
    nodes, the contracts and the services, [printLine] prints it and
    [StatusCommand.execute] puts them together.  The nodes, the process
    manager and the file system are parameters. *)

From stdpp Require Import pretty.
From S2P Require Import Prelude Robust Watchdog Accounts Cli ProofExtractor FileNames.

Inductive Verdict : Type := Ok | Info | Warn | Error.

#[global] Instance Verdict_eq_dec : EqDecision Verdict.
Proof. solve_decision. Defined.

Definition Running : string := "running".
Definition Valid : string := "valid".
Definition Deployed : string := "deployed".
Definition Unknown : string := "unknown".
Definition Unreachable : string := "unreachable".
Definition Invalid : string := "invalid".
Definition NotVerified : string := "not verified".
Definition UsingMaster : string := "using data from master account".
Definition RecordNotFound : string := "record not found".
Definition ABINotFound : string := "abi not found".
Definition ContractNotFound : string := "contract not found".
Definition InternalError : string := "internal error".

Definition ESC : string := String (Ascii.ascii_of_nat 27) "".
Definition NoColor : string := ESC +:+ "[39m".

(** [new Status(value, verdict = Error, explanation = null)] *)
Record Status := { value : val; verdict : Verdict; explanation : val }.

Definition status3 (v : val) (d : Verdict) (e : string) : Status := {| value := v; verdict := d; explanation := VStr e |}.
Definition status2 (v : val) (d : Verdict) : Status := {| value := v; verdict := d; explanation := VNull |}.
Definition status1 (v : val) : Status := status2 v Error.

Definition with_verdict (s : Status) (d : Verdict) : Status :=
  {| value := value s; verdict := d; explanation := explanation s |}.

(** ** The services asked *)

Record StatusServices (W : Type) := {
  ss_fetch_json : string -> service W val;
  ss_KeyPair_fromString : string -> outcome unit;
  ss_connect : string -> service W unit;
  ss_near : NearConnection W;
  ss_newContract : string -> string -> outcome unit;
  ss_boo : string -> service W unit;
  ss_newWeb3 : string -> outcome val;
  ss_protocolVersion : service W val;
  ss_blockNumber : service W val;
  ss_privateKeyToAccount : string -> outcome string;
  ss_getAccounts : service W (list string);
  ss_readAbi : string -> service W val;
  ss_ethContract : val -> string -> service W string;
  ss_closeWeb3 : outcome unit;
  ss_describe : string -> service W (list (list string))
}.

Arguments ss_fetch_json {W}.
Arguments ss_KeyPair_fromString {W}.
Arguments ss_connect {W}.
Arguments ss_near {W}.
Arguments ss_newContract {W}.
Arguments ss_boo {W}.
Arguments ss_newWeb3 {W}.
Arguments ss_protocolVersion {W}.
Arguments ss_blockNumber {W}.
Arguments ss_privateKeyToAccount {W}.
Arguments ss_getAccounts {W}.
Arguments ss_readAbi {W}.
Arguments ss_ethContract {W}.
Arguments ss_closeWeb3 {W}.
Arguments ss_describe {W}.

(** A name taken from the exports: [undefined] when it is not among them. *)
Definition imported {A} (name : string) (definition : A) : option A :=
  if existsb (String.eqb name) Watchdog.utils_exports then Some definition else None.

Section Collect.
Context {W : Type} (ss : StatusServices W) (JSON_stringify : val -> val).

Definition request (url : string) : eff W event (Verdict * val * val) :=
  try_catch
    (json ← perform (Call "fetch" [VStr url]) (ss_fetch_json ss url);
     version ← lift (get_prop json "version");
     sync_info ← lift (get_prop json "sync_info");
     height ← lift (get_prop sync_info "latest_block_height");
     mret (Ok, JSON_stringify version, JSON_stringify height))
    (fun _ => mret (Error, VStr Unreachable, VStr Unknown)).

(** ** NEAR *)

Record NearContracts := { nc_client : option Status; nc_prover : option Status; nc_funToken : option Status }.

(** [undefined] when the call of the method that does not exist succeeds. *)
Definition near_checkContract (masterAccount : string) (contractAccount : val) : eff W event (option Status) :=
  match contractAccount with
  | VStr account =>
      if String.eqb account "" then mret (Some (status3 (VStr Unknown) Error ContractNotFound))
      else
        try_catch
          (_ ← lift (ss_newContract ss masterAccount account);
           try_catch
             (_ ← perform (Call "boo" [VStr account]) (ss_boo ss account); mret None)
             (fun err =>
                if str_includes "Contract method is not found" (err_message err) then
                  mret (Some (status3 (VStr account) Ok Deployed))
                else mret (Some (status3 (VStr Unknown) Info NotVerified))))
          (fun _ => mret (Some (status3 (VStr Unknown) Error InternalError)))
  | _ => mret (Some (status3 (VStr Unknown) Error ContractNotFound))
  end.

Record NearContractArgs := { ca_master : val; ca_client : val; ca_prover : val; ca_tokenFactory : val }.

(** The second argument is destructured: [undefined] throws. *)
Definition NearContracts_init (args : option NearContractArgs) : eff W event NearContracts :=
  match args with
  | None => throw (TypeError "Cannot destructure property 'nearMasterAccount' of 'undefined'")
  | Some a =>
      match ca_master a with
      | VStr master =>
          if String.eqb master "" then mret {| nc_client := None; nc_prover := None; nc_funToken := None |}
          else
            client ← near_checkContract master (ca_client a);
            prover ← near_checkContract master (ca_prover a);
            funToken ← near_checkContract master (ca_tokenFactory a);
            mret {| nc_client := client; nc_prover := prover; nc_funToken := funToken |}
      | _ => mret {| nc_client := None; nc_prover := None; nc_funToken := None |}
      end
  end.

Record NearArgs := {
  nearNetworkId : val; nearNodeUrl : val; nearMasterAccount : val; nearMasterSk : val;
  nearClientAccount : val; nearClientSk : val; nearProverAccount : val; nearProverSk : val
}.

(** [misplaced] holds the properties [nearClientAccount] and
    [nearProverAccount], which are set instead of [clientAccount] and
    [proverAccount]. *)
Record NearStatus := {
  ns_networkLocation : Status; ns_networkConnection : Status; ns_networkLastBlock : Status;
  ns_masterAccount : Status; ns_masterKey : Status; ns_clientAccount : Status; ns_clientKey : Status;
  ns_proverAccount : Status; ns_proverKey : Status; ns_misplaced : list (string * Status);
  ns_contracts : option NearContracts
}.

Definition str_of (v : val) : string := match v with VStr s => s | _ => template v end.

(** The status before anything is asked. *)
Definition near_basic (a : NearArgs) (connection lastBlock : Status) : NearStatus := {|
  ns_networkLocation := if truthy (nearNetworkId a) then status2 (nearNetworkId a) Info else status1 (VStr Unknown);
  ns_networkConnection := connection;
  ns_networkLastBlock := lastBlock;
  ns_masterAccount :=
    if truthy (nearMasterAccount a) then status3 (nearMasterAccount a) Info NotVerified else status1 (VStr Unknown);
  ns_masterKey := if truthy (nearMasterSk a) then status2 (nearMasterSk a) Info else status1 (VStr Unknown);
  ns_clientAccount :=
    if truthy (nearClientAccount a) then status3 (nearClientAccount a) Info NotVerified
    else status3 (VStr Unknown) Info UsingMaster;
  ns_clientKey := if truthy (nearClientSk a) then status2 (nearClientSk a) Info else status3 (VStr Unknown) Info UsingMaster;
  ns_proverAccount :=
    if truthy (nearProverAccount a) then status3 (nearProverAccount a) Info NotVerified
    else status3 (VStr Unknown) Info UsingMaster;
  ns_proverKey := if truthy (nearProverSk a) then status2 (nearProverSk a) Info else status3 (VStr Unknown) Info UsingMaster;
  ns_misplaced := [];
  ns_contracts := None
|}.

(** [f(...)] for an imported function: [undefined] cannot be called. *)
Definition call_imported {A} (f : option (eff W event A)) (name : string) : eff W event A :=
  match f with
  | Some m => m
  | None => throw (TypeError (name +:+ " is not a function"))
  end.

Definition verify (accountId : val) : eff W event bool :=
  call_imported (imported "verifyAccountGently" (verifyAccountGently (ss_near ss) (str_of accountId))) "verifyAccountGently".

Definition verified (accountId : val) (ok : bool) : Status :=
  if ok then status3 accountId Ok Valid else status3 accountId Error Invalid.

(** Keep the pair of an account and its key in the key store. *)
Definition set_key (account sk : val) : eff W event unit :=
  if truthy account && truthy sk then lift (ss_KeyPair_fromString ss (str_of sk)) else mret tt.

Definition near_connected (a : NearArgs) (st : NearStatus) : eff W event NearStatus :=
  _ ← set_key (nearMasterAccount a) (nearMasterSk a);
  _ ← set_key (nearClientAccount a) (nearClientSk a);
  _ ← set_key (nearProverAccount a) (nearProverSk a);
  _ ← perform (Call "near.connect" [nearNodeUrl a]) (ss_connect ss (str_of (nearNodeUrl a)));
  masterOk ← verify (nearMasterAccount a);
  let master := verified (nearMasterAccount a) masterOk in
  client ← (if truthy (nearClientAccount a) && truthy (nearClientSk a) then
              ok ← verify (nearClientAccount a); mret (Some (verified (nearClientAccount a) ok))
            else mret None);
  prover ← (if truthy (nearProverAccount a) && truthy (nearProverSk a) then
              ok ← verify (nearProverAccount a); mret (Some (verified (nearProverAccount a) ok))
            else mret None);
  contracts ← NearContracts_init None;
  mret {| ns_networkLocation := ns_networkLocation st; ns_networkConnection := ns_networkConnection st;
          ns_networkLastBlock := ns_networkLastBlock st; ns_masterAccount := master;
          ns_masterKey := with_verdict (ns_masterKey st) (verdict master);
          ns_clientAccount := ns_clientAccount st;
          ns_clientKey := match client with Some _ => with_verdict (ns_clientKey st) (verdict (ns_clientAccount st)) | None => ns_clientKey st end;
          ns_proverAccount := ns_proverAccount st;
          ns_proverKey := match prover with Some _ => with_verdict (ns_proverKey st) (verdict (ns_proverAccount st)) | None => ns_proverKey st end;
          ns_misplaced := (match client with Some s => [("nearClientAccount", s)] | None => [] end ++
                           match prover with Some s => [("nearProverAccount", s)] | None => [] end)%list;
          ns_contracts := Some contracts |}.

Definition NearStatus_init (a : NearArgs) : eff W event NearStatus :=
  if truthy (nearNodeUrl a) then
    '(d, expl, lastBlock) ← request (str_of (nearNodeUrl a) +:+ "/status");
    let st := near_basic a {| value := nearNodeUrl a; verdict := d; explanation := expl |} (status2 lastBlock d) in
    if bool_decide (d = Ok) && (truthy (nearMasterAccount a) && truthy (nearMasterSk a)) then near_connected a st
    else mret st
  else mret (near_basic a (status1 (VStr Unknown)) (status1 (VStr Unknown))).

(** ** Ethereum *)

Record EthContracts := {
  ec_ed25519 : Status; ec_erc20 : Status; ec_locker : Status; ec_client : Status; ec_prover : Status
}.

Definition eth_checkContract (abiPath address : val) : eff W event Status :=
  if negb (truthy abiPath) then mret (status3 (VStr Unknown) Error ABINotFound)
  else if negb (truthy address) then mret (status3 (VStr Unknown) Error ContractNotFound)
  else
    try_catch
      (abi ← perform (Call "fs.readFileSync" [abiPath]) (ss_readAbi ss (str_of abiPath));
       options_address ← query (ss_ethContract ss abi (str_of address));
       if strict_eq (VStr options_address) address then mret (status3 (VStr options_address) Ok Deployed)
       else mret (status3 address Error Invalid))
      (fun _ => mret (status3 (VStr Unknown) Error InternalError)).

(** The paths and addresses, each by its name. *)
Definition EthContracts_init (args : option (string -> val)) : eff W event EthContracts :=
  match args with
  | None => throw (TypeError "Cannot destructure property 'ethEd25519AbiPath' of 'undefined'")
  | Some a =>
      ed25519 ← eth_checkContract (a "ethEd25519AbiPath") (a "ethEd25519Address");
      erc20 ← eth_checkContract (a "ethErc20AbiPath") (a "ethErc20Address");
      locker ← eth_checkContract (a "ethLockerAbiPath") (a "ethLockerAddress");
      client ← eth_checkContract (a "ethClientAbiPath") (a "ethClientAddress");
      prover ← eth_checkContract (a "ethProverAbiPath") (a "ethProverAbiAddress");
      mret {| ec_ed25519 := ed25519; ec_erc20 := erc20; ec_locker := locker; ec_client := client; ec_prover := prover |}
  end.

Record EthStatus := {
  es_networkLocation : Status; es_networkConnection : Status; es_networkLastBlock : Status;
  es_masterAccount : Status; es_masterKey : Status; es_contracts : option EthContracts
}.

Definition eth_masterKey (ethMasterSk : val) : Status :=
  match ethMasterSk with
  | VStr sk => if String.eqb sk "" then status1 (VStr Unknown) else status2 (VStr (normalizeEthKey sk)) Info
  | _ => status1 (VStr Unknown)
  end.

(** The account of the key, if the node knows it.  Without a key
    [normalizeEthKey] throws, and whatever is thrown is dropped. *)
Definition eth_master (ethMasterSk : val) : eff W event (Status * Status) :=
  let account := status3 (VStr Unknown) Info NotVerified in
  let key := eth_masterKey ethMasterSk in
  try_catch
    (sk ← lift (match ethMasterSk with VStr s => Ret s | _ => Throw (TypeError "Cannot read property 'toLowerCase' of undefined") end);
     address ← lift (ss_privateKeyToAccount ss (normalizeEthKey sk));
     accounts ← perform (Call "eth.getAccounts" []) (ss_getAccounts ss);
     if existsb (String.eqb address) accounts then mret (status3 (VStr address) Ok Valid, with_verdict key Ok)
     else mret (status3 (VStr address) Error Invalid, with_verdict key Error))
    (fun _ => mret (account, key)).

Definition eth_network (ethNodeUrl : string) : eff W event (Status * Status) :=
  try_catch
    (version ← perform (Call "eth.getProtocolVersion" []) (ss_protocolVersion ss);
     lastBlock ← perform (Call "eth.getBlockNumber" []) (ss_blockNumber ss);
     mret (status3 (VStr ethNodeUrl) Ok ("version " +:+ template version), status2 lastBlock Ok))
    (fun _ => mret (status3 (VStr ethNodeUrl) Error Unreachable, status1 (VStr Unknown))).

(** The [catch] of the outer [try]: what was found out about the account
    is kept. *)
Definition eth_unreachable (ethNodeUrl : string) (master : Status * Status) : EthStatus := {|
  es_networkLocation := status1 (VStr Unknown);
  es_networkConnection := status3 (VStr ethNodeUrl) Error Unreachable;
  es_networkLastBlock := status1 (VStr Unknown);
  es_masterAccount := master.1; es_masterKey := master.2; es_contracts := None
|}.

Definition EthStatus_init (ethNodeUrl ethMasterSk : val) : eff W event EthStatus :=
  let basic := (status3 (VStr Unknown) Info NotVerified, eth_masterKey ethMasterSk) in
  match ethNodeUrl with
  | VStr url =>
      if String.eqb url "" then
        mret {| es_networkLocation := status1 (VStr Unknown); es_networkConnection := status1 (VStr Unknown);
                es_networkLastBlock := status1 (VStr Unknown); es_masterAccount := basic.1; es_masterKey := basic.2;
                es_contracts := None |}
      else
        match ss_newWeb3 ss url with
        | Ret defaultChain =>
            let chain := js_or defaultChain (VStr "local") in
            network ← eth_network url;
            master ← eth_master ethMasterSk;
            try_catch
              (contracts ← EthContracts_init None;
               _ ← try_catch (lift (ss_closeWeb3 ss)) (fun _ => mret tt);
               mret {| es_networkLocation := status2 chain Info; es_networkConnection := network.1;
                       es_networkLastBlock := network.2; es_masterAccount := master.1; es_masterKey := master.2;
                       es_contracts := Some contracts |})
              (fun _ => mret (eth_unreachable url master))
        | Throw _ => mret (eth_unreachable url basic)
        | Exit c => exit c
        | OutOfFuel => stuck
        end
  | _ =>
      mret {| es_networkLocation := status1 (VStr Unknown); es_networkConnection := status1 (VStr Unknown);
              es_networkLastBlock := status1 (VStr Unknown); es_masterAccount := basic.1; es_masterKey := basic.2;
              es_contracts := None |}
  end.

(** ** Services *)

Fixpoint join (sep : string) (l : list string) : string :=
  match l with
  | [] => ""
  | [s] => s
  | s :: l' => s +:+ sep +:+ join sep l'
  end.

(** [option=value] for every argument that starts with two dashes and is
    not the last one. *)
Fixpoint option_pairs (args : list string) : list string :=
  match args with
  | a :: rest =>
      match rest with
      | b :: _ => if String.prefix "--" a then (str_drop 2 a +:+ "=" +:+ b) :: option_pairs rest else option_pairs rest
      | [] => []
      end
  | [] => []
  end.

Definition processArgs (args : list string) : string := join ", " (option_pairs args).

(** [describe] gives the arguments of every process of that name. *)
Definition running_status (serviceName : string) : eff W event Status :=
  try_catch
    (process ← perform (Call "pm2.describe" [VStr serviceName]) (ss_describe ss serviceName);
     match process with
     | args :: _ => mret (status3 (VStr Running) Ok (processArgs args))
     | [] => mret (status3 (VStr Unknown) Error Unreachable)
     end)
    (fun _ => mret (status3 (VStr Unknown) Error InternalError)).

Record ServicesStatus := { sv_eth2nearRelay : Status; sv_near2ethRelay : Status; sv_watchdog : Status }.

Definition ServicesStatus_init : eff W event ServicesStatus :=
  eth2nearRelay ← running_status "eth2near-relay";
  near2ethRelay ← running_status "near2eth-relay";
  watchdog ← running_status "bridge-watchdog";
  mret {| sv_eth2nearRelay := eth2nearRelay; sv_near2ethRelay := near2ethRelay; sv_watchdog := watchdog |}.

(** ** Printing *)

Definition printHeader (text : string) : eff W event unit := console_log [VStr (ESC +:+ "[33m" +:+ text +:+ NoColor)].

Definition color (d : Verdict) : string :=
  match d with
  | Ok => ESC +:+ "[32m"
  | Info => ESC +:+ "[39m"
  | Warn => ESC +:+ "[33m"
  | Error => ESC +:+ "[35m"
  end.

(** [while (line.length < 50) line = line + ' '], [n] being what is missing. *)
Fixpoint pad (n : nat) (line : string) : string :=
  match n with
  | O => line
  | S n' => pad n' (line +:+ " ")
  end.

Definition line_of (field : string) : string :=
  let line := field +:+ ":" in pad (50 - String.length line) line.

Definition printLine (field : string) (status : option Status) : eff W event unit :=
  let st := default (status3 (VStr Unknown) Error RecordNotFound) status in
  let expl := if truthy (explanation st) then "(" +:+ template (explanation st) +:+ ")" else "" in
  console_log [VStr (line_of field); VStr (color (verdict st) +:+ template (value st)); VStr (expl +:+ NoColor)].

Definition printFooter : eff W event unit := console_log [].

Fixpoint print_lines (lines : list (string * option Status)) : eff W event unit :=
  match lines with
  | [] => mret tt
  | (field, status) :: rest => _ ← printLine field status; print_lines rest
  end.

Definition near_lines (st : NearStatus) : list (string * option Status) :=
  [("Location", Some (ns_networkLocation st)); ("Connection", Some (ns_networkConnection st));
   ("Latest block height", Some (ns_networkLastBlock st)); ("Bridge master account", Some (ns_masterAccount st));
   ("Master account secret key", Some (ns_masterKey st));
   ("Account used for Client contract deployment", Some (ns_clientAccount st));
   ("Client account secret key", Some (ns_clientKey st));
   ("Account used for Prover contract deployment", Some (ns_proverAccount st));
   ("Prover account secret key", Some (ns_proverKey st))].

Definition near_contract_lines (c : option NearContracts) : list (string * option Status) :=
  match c with
  | Some c => [("fungible token", nc_funToken c); ("client", nc_client c); ("prover", nc_prover c)]
  | None => [("Contracts", None)]
  end.

Definition eth_lines (st : EthStatus) : list (string * option Status) :=
  [("Location", Some (es_networkLocation st)); ("Connection", Some (es_networkConnection st));
   ("Latest block height", Some (es_networkLastBlock st)); ("Bridge master account", Some (es_masterAccount st));
   ("Master account secret key", Some (es_masterKey st))].

Definition eth_contract_lines (c : option EthContracts) : list (string * option Status) :=
  match c with
  | Some c => [("ed25519", Some (ec_ed25519 c)); ("erc20", Some (ec_erc20 c)); ("locker", Some (ec_locker c));
               ("client", Some (ec_client c)); ("prover", Some (ec_prover c))]
  | None => [("Contracts", None)]
  end.

Definition service_lines (sv : ServicesStatus) : list (string * option Status) :=
  [("ETH-2-NEAR relay", Some (sv_eth2nearRelay sv)); ("NEAR-2-ETH relay", Some (sv_near2ethRelay sv));
   ("Bridge Watchdog", Some (sv_watchdog sv))].

Definition execute (near : NearArgs) (ethNodeUrl ethMasterSk : val) : eff W event unit :=
  nearStatus ← NearStatus_init near;
  ethStatus ← EthStatus_init ethNodeUrl ethMasterSk;
  servicesStatus ← ServicesStatus_init;
  _ ← printHeader "NEAR node status";
  _ ← print_lines (near_lines nearStatus);
  _ ← printFooter;
  _ ← printHeader "NEAR contracts status";
  _ ← print_lines (near_contract_lines (ns_contracts nearStatus));
  _ ← printFooter;
  _ ← printHeader "ETH node status";
  _ ← print_lines (eth_lines ethStatus);
  _ ← printFooter;
  _ ← printHeader "ETH contracts status";
  _ ← print_lines (eth_contract_lines (es_contracts ethStatus));
  _ ← printFooter;
  _ ← printHeader "Services";
  _ ← print_lines (service_lines servicesStatus);
  emit (Call "pm2.disconnect" []).

End Collect.

(** ** Lemmas *)

(** A bind that cannot return when its first half returns: none at all. *)
Lemma bind_no_ret {W E A B} (m : eff W E A) (k : A -> eff W E B) w :
  (forall a, out_of (m w) = Ret a -> is_ret (out_of (k a (world_of (m w)))) = false) ->
  is_ret (out_of ((m ≫= k) w)) = false.
Proof.
  intros Hk. rewrite eff_bind_eq. destruct (m w) as [[[a|e|c|] w1] t1]; try done. by apply Hk.
Qed.

Section Lemmas.
Context {W : Type} (ss : StatusServices W) (JSON_stringify : val -> val).

(** Programs that print nothing. *)
Definition no_print (w w' : W) (t : list event) : Prop := printed t = [].

#[local] Instance no_print_rel : TraceRel no_print.
Proof. split; [done|]. intros w1 w2 w3 t1 t2 H1 H2. unfold no_print in *. by rewrite printed_app, H1, H2. Qed.

#[local] Hint Extern 1 (forall _, no_print _ _ [_]) => intros; reflexivity : bridge.
#[local] Hint Extern 1 (forall _, no_print _ _ []) => intros; reflexivity : bridge.

Ltac quiet_prog :=
  repeat first
    [ progress intros
    | apply respects_bind | apply respects_try | apply respects_ret | apply respects_lift | apply respects_throw
    | apply respects_perform; intros; reflexivity | apply respects_query; intros; reflexivity
    | case_match | exact _ ].

Lemma request_silent url : respects no_print (request ss JSON_stringify url).
Proof. unfold request. quiet_prog. Qed.

Lemma near_connected_silent a st : respects no_print (near_connected ss a st).
Proof.
  unfold near_connected, set_key, verify, call_imported, imported, NearContracts_init. quiet_prog.
Qed.

Lemma near_connected_throws a st w : is_ret (out_of (near_connected ss a st w)) = false.
Proof.
  unfold near_connected. do 5 (apply bind_no_ret; intros ? ?). discriminate.
Qed.

End Lemmas.

Section Properties.
Context {W : Type} (ss : StatusServices W) (JSON_stringify : val -> val).

(** C40: With a NEAR node and the master's key configured the status command
    fails.  When the node answers and both the master account and its secret
    key are given, the command does not return and prints nothing, whatever
    the other services do: it calls a function that the utilities do not
    export, and would then destructure an argument it is not given. *)
Theorem status_command_fails near ethNodeUrl ethMasterSk w v h :
  truthy (nearNodeUrl near) = true -> truthy (nearMasterAccount near) = true -> truthy (nearMasterSk near) = true ->
  out_of (request ss JSON_stringify (str_of (nearNodeUrl near) +:+ "/status") w) = Ret (Ok, v, h) ->
  let r := execute ss JSON_stringify near ethNodeUrl ethMasterSk w in
  is_ret (out_of r) = false /\ printed (trace_of r) = [].
Proof.
  intros Hu Ha Hk Hreq r. unfold r, execute, NearStatus_init. rewrite Hu, Ha, Hk.
  set (url := str_of (nearNodeUrl near) +:+ "/status") in *.
  pose proof (request_silent ss JSON_stringify url w) as Hq. unfold no_print in Hq.
  rewrite eff_bind_eq, eff_bind_eq.
  destruct (request ss JSON_stringify url w) as [[o w1] t1]. cbn [out_of fst] in Hreq. subst o. cbn [trace_of snd] in Hq.
  rewrite bool_decide_true by done. cbn [andb].
  pose proof (near_connected_throws ss near (near_basic near {| value := nearNodeUrl near; verdict := Ok; explanation := v |} (status2 h Ok)) w1) as Hf.
  pose proof (near_connected_silent ss near (near_basic near {| value := nearNodeUrl near; verdict := Ok; explanation := v |} (status2 h Ok)) w1) as Hs.
  unfold no_print in Hs.
  destruct (near_connected ss near _ w1) as [[[x|e|c|] w2] t2]; cbn [out_of world_of trace_of fst snd is_ret] in *; try discriminate;
    (split; [reflexivity|]; by rewrite printed_app, Hq, Hs).
Qed.

(** A service that answers or fails, but does not end the process. *)
Definition settled {A} (op : service W A) : Prop := forall w, match (op w).1 with Ret _ | Throw _ => True | _ => False end.

(** What is asked of the Ethereum node settles. *)
Definition eth_settles : Prop :=
  settled (ss_protocolVersion ss) /\ settled (ss_blockNumber ss) /\ settled (ss_getAccounts ss) /\
  (forall url, match ss_newWeb3 ss url with Ret _ | Throw _ => True | _ => False end) /\
  (forall sk, match ss_privateKeyToAccount ss sk with Ret _ | Throw _ => True | _ => False end).

Lemma eth_network_returns url w : eth_settles -> exists r w' t, eth_network ss url w = (Ret r, w', t).
Proof.
  intros (Hv & Hb & _). specialize (Hv w). unfold eth_network, try_catch, perform, mbind, eff_bind, mret, eff_ret.
  destruct (ss_protocolVersion ss w) as [[v|e|c|] w1]; cbn in Hv; try done; [|by eexists _, _, _].
  specialize (Hb w1). destruct (ss_blockNumber ss w1) as [[b|e|c|] w2]; cbn in Hb; try done; by eexists _, _, _.
Qed.

Lemma eth_master_returns sk w : eth_settles -> exists r w' t, eth_master ss sk w = (Ret r, w', t).
Proof.
  intros (_ & _ & Ha & _ & Hp). unfold eth_master, try_catch, perform, lift, mbind, eff_bind, mret, eff_ret.
  destruct sk as [| | | |s| | |]; try by eexists _, _, _.
  specialize (Hp (normalizeEthKey s)). destruct (ss_privateKeyToAccount ss (normalizeEthKey s)) as [a|e|c|]; try done; [|by eexists _, _, _].
  specialize (Ha w). destruct (ss_getAccounts ss w) as [[l|e|c|] w1]; cbn in Ha; try done; [|by eexists _, _, _].
  destruct (existsb (String.eqb a) l); by eexists _, _, _.
Qed.

(** The status command always reports the Ethereum node as unreachable.
    Given the URL of a node, whatever the node answers, [EthStatus.init]
    returns with the connection marked unreachable, the location and the
    last block unknown and no contracts: the check of the contracts
    destructures an argument it is not given, and the error is taken for an
    error of the connection. *)
Theorem eth_status_unreachable url ethMasterSk w :
  url <> "" -> eth_settles ->
  exists st w' t, EthStatus_init ss (VStr url) ethMasterSk w = (Ret st, w', t) /\
    es_networkConnection st = status3 (VStr url) Error Unreachable /\
    es_networkLocation st = status1 (VStr Unknown) /\ es_networkLastBlock st = status1 (VStr Unknown) /\
    es_contracts st = None.
Proof.
  intros Hu Hs. pose proof Hs as (_ & _ & _ & Hw & _). specialize (Hw url). unfold EthStatus_init.
  rewrite (proj2 (String.eqb_neq url "") Hu).
  destruct (ss_newWeb3 ss url) as [chain|e|c|]; try done; [|by eexists _, _, _].
  destruct (eth_network_returns url w Hs) as (net & w1 & t1 & H1).
  destruct (eth_master_returns ethMasterSk w1 Hs) as (master & w2 & t2 & H2).
  exists (eth_unreachable url master), w2, (t1 ++ t2 ++ [])%list. split; [|done].
  eapply eff_bind_run; [exact H1|]. by eapply eff_bind_run; [exact H2|].
Qed.

End Properties.

(** ** Options of the services *)

Definition option_args (opts : list (string * string)) : list string := concat (map (fun o => ["--" +:+ o.1; o.2]) opts).

Lemma prefix_dashes o : String.prefix "--" ("--" +:+ o) = true.
Proof. by destruct o. Qed.

Lemma option_pairs_args opts :
  Forall (fun o => String.prefix "--" o.2 = false) opts ->
  option_pairs (option_args opts) = map (fun o => o.1 +:+ "=" +:+ o.2) opts.
Proof.
  induction 1 as [|[o v] opts Hv _ IH]; [done|]. cbn [snd] in Hv.
  change (option_args ((o, v) :: opts)) with (("--" +:+ o) :: v :: option_args opts). cbn [map fst snd]. rewrite <- IH.
  cbn [option_pairs]. rewrite prefix_dashes, Hv. change (str_drop 2 ("--" +:+ o)) with o. f_equal.
  by destruct (option_args opts).
Qed.

(** The options in the arguments of a daemon, after its two words. *)
Fixpoint flag_pairs (args : list val) : list (string * string) :=
  match args with
  | VStr k :: VStr v :: rest => (str_drop 2 k, v) :: flag_pairs rest
  | _ => []
  end.

Definition daemon_options (config : ProcessConfig) : list (string * string) := flag_pairs (drop 2 (pc_args config)).

Lemma daemon_args_shape (g : string -> string) name config :
  (name, config) ∈ daemons (fun p => VStr (g p)) ->
  pc_args config = ([VStr "start"; VStr name] ++ concat (map (fun o => flag o.1 (VStr o.2)) (daemon_options config)))%list /\
  Forall (fun o => o.2 = "false" \/ exists p, o.2 = g p) (daemon_options config) /\ String.prefix "--" name = false.
Proof.
  intros Hin. unfold daemons in Hin.
  repeat (apply elem_of_cons in Hin as [Hin|Hin]; [injection Hin as -> ->; split; [reflexivity|]; split; [|reflexivity];
    unfold daemon_options; cbn; repeat (apply list.Forall_cons; split; [cbn; eauto|]); by apply list.Forall_nil |]).
  by apply not_elem_of_nil in Hin.
Qed.

Lemma str_of_flags opts : map str_of (concat (map (fun o : string * string => flag o.1 (VStr o.2)) opts)) = option_args opts.
Proof. induction opts as [|o opts IH]; [done|]. cbn [map concat]. rewrite map_app, IH. done. Qed.

(** The status of a service shows what it was started with.  For every
    daemon of the command line, with values that do not look like options,
    the arguments it is started with are its two words and its options, and
    [processArgs] of them lists every option with its value, in order, once
    and nothing else. *)
Theorem status_shows_options (g : string -> string) name config :
  (name, config) ∈ daemons (fun p => VStr (g p)) -> (forall p, String.prefix "--" (g p) = false) ->
  pc_args config = ([VStr "start"; VStr name] ++ concat (map (fun o => flag o.1 (VStr o.2)) (daemon_options config)))%list /\
  processArgs (map str_of (pc_args config)) = join ", " (map (fun o => o.1 +:+ "=" +:+ o.2) (daemon_options config)).
Proof.
  intros Hin Hg. destruct (daemon_args_shape g name config Hin) as (Hargs & Hvals & Hname). split; [done|].
  rewrite Hargs, map_app, str_of_flags. unfold processArgs. f_equal.
  assert (Hv : Forall (fun o => String.prefix "--" o.2 = false) (daemon_options config)).
  { eapply list.Forall_impl; [exact Hvals|]. intros o [-> | [p ->]]; done. }
  rewrite <- (option_pairs_args _ Hv).
  cbn [map str_of app option_pairs]. change (String.prefix "--" "start") with false. cbv beta iota. rewrite Hname.
  by destruct (option_args (daemon_options config)).
Qed.

Lemma length_pad n line : String.length (pad n line) = (String.length line + n)%nat.
Proof.
  assert (Happ : forall a b, String.length (a +:+ b) = (String.length a + String.length b)%nat).
  { intros a b. induction a as [|c a IH]; [done|]. exact (f_equal S IH). }
  revert line. induction n as [|n IH]; intros line; cbn [pad]; [lia|]. rewrite IH, Happ. cbn. lia.
Qed.

(** The field of a line takes 50 characters, or more when it is longer. *)
Lemma line_of_length field : String.length (line_of field) = Nat.max 50 (String.length (field +:+ ":")).
Proof. unfold line_of. rewrite length_pad. lia. Qed.

Module Witness.

Definition near0 : NearConnection unit := {|
  nc_fetchState id w := (Ret EMPTY_HASH, w);
  nc_createAccount master id pk b w := (Ret (inl tt), w);
  nc_readFile path w := (Ret [], w);
  nc_deployContract id bs w := (Ret tt, w);
  nc_getKey id w := (Ret (Some "key"), w);
  nc_getAccessKeys id w := (Ret ["key"], w)
|}.

(** A node, a network and services that are all well. *)
Definition healthy : StatusServices unit := {|
  ss_fetch_json url w := (Ret (VObj [("version", VStr "1"); ("sync_info", VObj [("latest_block_height", VNum 7)])]), w);
  ss_KeyPair_fromString sk := Ret tt;
  ss_connect url w := (Ret tt, w);
  ss_near := near0;
  ss_newContract master id := Ret tt;
  ss_boo id w := (Throw (Prelude.Error "Contract method is not found"), w);
  ss_newWeb3 url := Ret VNull;
  ss_protocolVersion w := (Ret (VStr "65"), w);
  ss_blockNumber w := (Ret (VNum 9), w);
  ss_privateKeyToAccount sk := Ret "0xabc";
  ss_getAccounts w := (Ret ["0xabc"], w);
  ss_readAbi path w := (Ret VNull, w);
  ss_ethContract abi address w := (Ret address, w);
  ss_closeWeb3 := Ret tt;
  ss_describe name w := (Ret [["start"; name; "--daemon"; "false"]], w)
|}.

Definition args0 : NearArgs := {|
  nearNetworkId := VStr "testnet"; nearNodeUrl := VStr "http://near"; nearMasterAccount := VStr "master";
  nearMasterSk := VStr "sk"; nearClientAccount := VUndef; nearClientSk := VUndef; nearProverAccount := VUndef;
  nearProverSk := VUndef |}.

Lemma status_command_fails_witness :
  out_of (request healthy (fun v => v) "http://near/status" tt) = Ret (Ok, VStr "1", VNum 7) /\
  let r := execute healthy (fun v => v) args0 (VStr "http://eth") (VStr "0x01") tt in
  is_ret (out_of r) = false /\ printed (trace_of r) = [].
Proof.
  split; [reflexivity|].
  apply (status_command_fails healthy (fun v => v) args0 (VStr "http://eth") (VStr "0x01") tt (VStr "1") (VNum 7)); reflexivity.
Defined.

Lemma eth_status_unreachable_witness :
  exists st w' t, EthStatus_init healthy (VStr "http://eth") (VStr "0x01") tt = (Ret st, w', t) /\
    es_networkConnection st = status3 (VStr "http://eth") Error Unreachable /\
    es_networkLocation st = status1 (VStr Unknown) /\ es_networkLastBlock st = status1 (VStr Unknown) /\
    es_contracts st = None.
Proof.
  apply (eth_status_unreachable healthy "http://eth" (VStr "0x01") tt); [discriminate|]. repeat split; intros; exact I.
Defined.

Lemma status_shows_options_witness :
  let config := watchdog_config (fun p => VStr ("<" +:+ p +:+ ">")) in
  processArgs (map str_of (pc_args config)) = join ", " (map (fun o => o.1 +:+ "=" +:+ o.2) (daemon_options config)).
Proof.
  apply (status_shows_options (fun p => "<" +:+ p +:+ ">") "bridge-watchdog"); [|reflexivity].
  do 2 (apply elem_of_cons; right). by apply elem_of_cons; left.
Defined.

End Witness.
