(* ===== verification/Utils.v ===== *)
(** * Utilities (utils/utils.js)

    Hex strings, the key store and the connections set up from a
    configuration, and [ethCallContract].  The file system, near-api-js and
    web3 are parameters. *)

From S2P Require Import Prelude Robust.

(** [assert] of bsert throws an [AssertionError]. *)
Definition AssertionError (msg : string) : js_error := JsError "AssertionError" msg.

Definition remove0x (v : val) : outcome string :=
  match v with
  | VStr s => Ret (if String.eqb (str_take 2 s) "0x" then str_drop 2 s else s)
  | _ => Throw (AssertionError "remove0x: must pass in string")
  end.

Definition normalizeHex (s : string) : string :=
  let s' := str_lower s in if String.prefix "0x" s' then s' else "0x" +:+ s'.

(** ** Accounts *)

(** Only the error for an account that does not exist means [false]. *)
Definition accountExists {W} (state : string -> service W unit) (accountId : string) : eff W event bool :=
  try_catch
    (_ ← perform (Call "account.state" [VStr accountId]) (state accountId); mret true)
    (fun error => if str_includes "does not exist while viewing" (err_message error) then mret false else throw error).

(** ** Key stores and connections *)

Definition CREDENTIALS_DIR : string := ".near-credentials".
Definition PROJECT_KEY_DIR : string := "./neardev".

Inductive KeyStore : Type :=
| UnencryptedFileSystemKeyStore (dir : string)
| InMemoryKeyStore (networkId accountId keyPair : string).

(** The configuration object, which the setup changes. *)
Record SetupConfig := {
  sc_networkId : string; sc_keyPath : val; sc_nearNodeUrl : string; sc_ethNodeUrl : string;
  sc_ethFromSecretKey : string; sc_ethFrom : val
}.

Record SetupServices (W : Type) := {
  st_homedir : string;
  st_join : string -> string -> string;
  st_readAccount : string -> service W (string * string);
  st_keyPair : string -> outcome string;
  st_connect : string -> string -> list KeyStore -> service W unit;
  st_newWeb3 : string -> outcome unit;
  st_privateKeyToAccount : string -> outcome string;
  st_readFile : string -> service W val
}.

Arguments st_homedir {W}.
Arguments st_join {W}.
Arguments st_readAccount {W}.
Arguments st_keyPair {W}.
Arguments st_connect {W}.
Arguments st_newWeb3 {W}.
Arguments st_privateKeyToAccount {W}.
Arguments st_readFile {W}.

Section Setup.
Context {W : Type} (st : SetupServices W).

(** The stores that are merged: [st_readAccount] gives [account_id] and
    [secret_key] of the key file. *)
Definition createLocalKeyStore (networkId : string) (keyPath : val) : eff W event (list KeyStore) :=
  let keyStores := [UnencryptedFileSystemKeyStore (st_join st (st_homedir st) CREDENTIALS_DIR);
                    UnencryptedFileSystemKeyStore PROJECT_KEY_DIR] in
  match keyPath with
  | VStr path =>
      if String.eqb path "" then mret keyStores
      else
        '(account_id, secret_key) ← perform (Call "fs.readFileSync" [VStr path]) (st_readAccount st path);
        keyPair ← lift (st_keyPair st secret_key);
        mret (keyStores ++ [InMemoryKeyStore networkId account_id keyPair])%list
  | _ => mret keyStores
  end.

(** [config.keyPath] is deleted when it was given. *)
Definition setupNear (config : SetupConfig) : eff W event SetupConfig :=
  deps ← createLocalKeyStore (sc_networkId config) (sc_keyPath config);
  let config' := {| sc_networkId := sc_networkId config;
                    sc_keyPath := if truthy (sc_keyPath config) then VUndef else sc_keyPath config;
                    sc_nearNodeUrl := sc_nearNodeUrl config; sc_ethNodeUrl := sc_ethNodeUrl config;
                    sc_ethFromSecretKey := sc_ethFromSecretKey config; sc_ethFrom := sc_ethFrom config |} in
  _ ← perform (Call "near.connect" [VStr (sc_networkId config); VStr (sc_nearNodeUrl config)])
        (st_connect st (sc_networkId config) (sc_nearNodeUrl config) deps);
  mret config'.

Definition getWeb3 (config : SetupConfig) : outcome unit := st_newWeb3 st (sc_ethNodeUrl config).

(** The address of the key, whose account is added to the wallet. *)
Definition addSecretKey (secretKey : string) : eff W event string :=
  address ← lift (st_privateKeyToAccount st (normalizeHex secretKey));
  _ ← emit (Call "wallet.add" [VStr address]);
  mret address.

Definition setupEth (config : SetupConfig) : eff W event SetupConfig :=
  _ ← lift (getWeb3 config);
  address ← addSecretKey (sc_ethFromSecretKey config);
  mret {| sc_networkId := sc_networkId config; sc_keyPath := sc_keyPath config; sc_nearNodeUrl := sc_nearNodeUrl config;
          sc_ethNodeUrl := sc_ethNodeUrl config; sc_ethFromSecretKey := sc_ethFromSecretKey config;
          sc_ethFrom := VStr address |}.

Definition setupEthNear (config : SetupConfig) : eff W event SetupConfig :=
  config' ← setupNear config;
  setupEth config'.

(** The ABI and the code of a contract, and the address it is used at. *)
Definition getEthContract (path address : string) : eff W event (val * val * string) :=
  bin ← perform (Call "fs.readFileSync" [VStr (path +:+ ".full.bin")]) (st_readFile st (path +:+ ".full.bin"));
  abi ← perform (Call "fs.readFileSync" [VStr (path +:+ ".full.abi")]) (st_readFile st (path +:+ ".full.abi"));
  mret (abi, bin, address).

End Setup.

(** ** Calls of contracts *)

Definition DEFAULT_GAS : Z := 1000000.

Section EthCall.
Context {W : Type} (call send : string -> list val -> service W val).

(** The transaction is not awaited inside the [try]: its error is thrown
    without the warning. *)
Definition ethCallContract (methodName : string) (args : list val) : eff W event val :=
  _ ← try_catch
        (perform (Call "call" (VStr methodName :: args)) (call methodName args))
        (fun error =>
           if str_includes "reverted by the EVM" (err_message error) then
             _ ← emit (Call "console.warn" [VUndef]); throw error
           else throw error);
  perform (Call "send" (VStr methodName :: VNum DEFAULT_GAS :: args)) (send methodName args).

End EthCall.

(** ** Lemmas *)

Lemma lower_char_idem c : lower_char (lower_char c) = lower_char c.
Proof. destruct c as [[] [] [] [] [] [] [] []]; reflexivity. Qed.

Lemma str_lower_idem s : str_lower (str_lower s) = str_lower s.
Proof. induction s as [|c s IH]; [done|]. cbn [str_lower]. by rewrite lower_char_idem, IH. Qed.

Lemma str_lower_0x s : str_lower ("0x" +:+ s) = "0x" +:+ str_lower s.
Proof. reflexivity. Qed.

Lemma prefix_0x s : String.prefix "0x" s = String.eqb (str_take 2 s) "0x".
Proof.
  destruct s as [|a [|b s]]; [done | |].
  - change (str_take 2 (String a "")) with (String a ""). cbn [String.prefix String.eqb].
    destruct (ascii_dec "0" a); by destruct (Ascii.eqb a "0").
  - change (str_take 2 (String a (String b s))) with (String a (String b "")). cbn [String.prefix String.eqb].
    destruct (Ascii.eqb_spec a "0") as [->|Ha]; [|by destruct (ascii_dec "0" a); [congruence|]].
    destruct (ascii_dec "0" "0") as [_|]; [|done].
    destruct (Ascii.eqb_spec b "x") as [->|Hb]; [|by destruct (ascii_dec "x" b); [congruence|]].
    destruct (ascii_dec "x" "x") as [_|]; [by destruct s | done].
Qed.

(** The two normal forms of hex strings fit together.  [normalizeHex] is
    the same function as [normalizeEthKey] of robust.js, it is idempotent,
    and [remove0x] takes its result apart again: what is left is the input
    in lower case without its prefix, if it had one. *)
Theorem normalizeHex_forms s :
  normalizeHex s = normalizeEthKey s /\ normalizeHex (normalizeHex s) = normalizeHex s /\
  remove0x (VStr (normalizeHex s)) = remove0x (VStr (str_lower s)) /\
  exists r, remove0x (VStr (normalizeHex s)) = Ret r /\ normalizeHex s = "0x" +:+ r.
Proof.
  split; [reflexivity|]. unfold normalizeHex.
  destruct (String.prefix "0x" (str_lower s)) eqn:E.
  - rewrite str_lower_idem, E. split; [done|]. split; [done|]. cbn [remove0x]. rewrite <- prefix_0x, E. eexists. split; [done|].
    rewrite prefix_0x in E. apply String.eqb_eq in E. destruct (str_lower s) as [|a [|b r]]; try done. by injection E as -> ->.
  - assert (Hp : String.prefix "0x" ("0x" +:+ str_lower s) = true) by (by destruct (str_lower s)).
    rewrite str_lower_0x, str_lower_idem, Hp. split; [done|]. cbn [remove0x].
    change (String.eqb (str_take 2 ("0x" +:+ str_lower s)) "0x") with true. rewrite <- (prefix_0x (str_lower s)), E.
    change (str_drop 2 ("0x" +:+ str_lower s)) with (str_lower s). split; [done|]. by eexists.
Qed.

(** A contract call sends at most one transaction, and only after a dry run. *)
Lemma ethCallContract_dry_run {W} (call send : string -> list val -> service W val) m args w :
  match (call m args w).1 with
  | Ret _ => trace_of (ethCallContract call send m args w) =
      [Call "call" (VStr m :: args); Call "send" (VStr m :: VNum DEFAULT_GAS :: args)]
  | _ => calls "send" (trace_of (ethCallContract call send m args w)) = 0%nat
  end.
Proof.
  unfold ethCallContract. rewrite eff_bind_eq. unfold try_catch, perform.
  destruct (call m args w) as [[v|e|c|] w1]; cbn; [by destruct (send m args w1) | | done | done].
  by destruct (str_includes _ _).
Qed.
