(* ===== verification/Tokens.v ===== *)
(** * The token factory (cli/init/near-token-factory.js)

    [InitNearTokenFactory.execute] and the [DeployToken.execute] it ends
    with (testing/transfer-eth-erc20/deploy-token.js).  The factory contract
    is a parameter; the accounts are those of utils/helpers.js. *)

From S2P Require Import Prelude Robust Config Cli Accounts Utils ProofExtractor.

(** The methods of the factory contract that are called. *)
Record TokenFactory (W : Type) := {
  factory_new : string -> string -> string -> service W unit;
  factory_deploy_bridge_token : string -> string -> service W unit
}.

Arguments factory_new {W}.
Arguments factory_deploy_bridge_token {W}.

Record FactoryArgs := {
  nearMasterAccount : string;
  nearMasterSk : val;
  nearTokenFactoryAccount : string;
  nearTokenFactorySk : val;
  nearTokenFactoryContractPath : string;
  nearTokenFactoryInitBalance : Z;
  nearProverAccount : string;
  ethLockerAddress : val;
  ethErc20Address : val
}.

Section Factory.
Context {W : Type} (near : NearConnection W) (factory : TokenFactory W) (publicKey : string -> outcome string).

(** [KeyPair.fromString(sk).getPublicKey()] *)
Definition key_pair (sk : val) : outcome string :=
  match sk with
  | VStr s => publicKey s
  | _ => Throw (TypeError "encodedKey.split is not a function")
  end.

Definition DeployToken_execute (tokenName : string) (ethTokenAddress : val) (a : FactoryArgs)
    : eff W event DeployedTokenInfo :=
  let tokenFactorySk := js_or (nearTokenFactorySk a) (nearMasterSk a) in
  _ ← lift (key_pair (nearMasterSk a));
  _ ← lift (key_pair tokenFactorySk);
  _ ← verifyAccount near (nearMasterAccount a);
  _ ← verifyAccount near (nearTokenFactoryAccount a);
  _ ← try_catch
        (address ← lift (remove0x ethTokenAddress);
         perform (Call "deploy_bridge_token" [VStr (nearTokenFactoryAccount a); VStr address])
           (factory_deploy_bridge_token factory (nearTokenFactoryAccount a) address))
        (fun err =>
           _ ← console_log [VStr ("Failed to initialize the token " +:+ tokenName +:+ " contract: " +:+ err_toString err)];
           exit 1);
  address ← lift (remove0x ethTokenAddress);
  mret {| nearTokenAccount := VStr (address +:+ "." +:+ nearTokenFactoryAccount a);
          ethTokenAddress_ := ethTokenAddress;
          otherDeployedTokenInfo := [("nearTokenFactorySk", tokenFactorySk)] |}.

(** [s.startsWith('0x') ? s.substr(2) : s] *)
Definition strip0x (v : val) : outcome string :=
  match v with
  | VStr s => Ret (if String.prefix "0x" s then str_drop 2 s else s)
  | _ => Throw (TypeError "Cannot read property 'startsWith' of undefined")
  end.

(** The properties that the command line saves. *)
Definition InitNearTokenFactory_execute (a : FactoryArgs) : eff W event (list (string * val)) :=
  let tokenFactorySk := js_or (nearTokenFactorySk a) (nearMasterSk a) in
  tokenFactoryPk ← lift (key_pair tokenFactorySk);
  _ ← lift (key_pair (nearMasterSk a));
  _ ← verifyAccount near (nearMasterAccount a);
  _ ← maybeCreateAccount near (nearMasterAccount a) (nearTokenFactoryAccount a) tokenFactoryPk
        (nearTokenFactoryInitBalance a) (nearTokenFactoryContractPath a);
  _ ← try_catch
        (locker ← lift (strip0x (ethLockerAddress a));
         perform (Call "new" [VStr (nearTokenFactoryAccount a); VStr (nearProverAccount a); VStr locker])
           (factory_new factory (nearTokenFactoryAccount a) (nearProverAccount a) locker))
        (fun err => _ ← console_log [VStr ("Failed to initialize the token factory " +:+ err_toString err)]; exit 1);
  info ← DeployToken_execute "erc20" (ethErc20Address a)
           {| nearMasterAccount := nearMasterAccount a; nearMasterSk := nearMasterSk a;
              nearTokenFactoryAccount := nearTokenFactoryAccount a; nearTokenFactorySk := tokenFactorySk;
              nearTokenFactoryContractPath := nearTokenFactoryContractPath a;
              nearTokenFactoryInitBalance := nearTokenFactoryInitBalance a; nearProverAccount := nearProverAccount a;
              ethLockerAddress := ethLockerAddress a; ethErc20Address := ethErc20Address a |};
  mret (fold_left (fun o p => assoc_set p.1 p.2 o) (otherDeployedTokenInfo info)
          [("nearErc20Account", nearTokenAccount info); ("ethErc20Address", ethTokenAddress_ info)]).

End Factory.

(** ** Properties *)

Section Properties.
Context {W : Type} (near : NearConnection W) {L : Ledger near} (factory : TokenFactory W) (publicKey : string -> outcome string).

(** A deployed token: its address was accepted by the factory. *)
Lemma DeployToken_ret name address a w info :
  out_of (DeployToken_execute near factory publicKey name address a w) = Ret info ->
  exists s w2, address = VStr s /\
    (factory_deploy_bridge_token factory (nearTokenFactoryAccount a)
       (if String.eqb (str_take 2 s) "0x" then str_drop 2 s else s) w2).1 = Ret tt /\
    info = {| nearTokenAccount := VStr ((if String.eqb (str_take 2 s) "0x" then str_drop 2 s else s) +:+ "." +:+ nearTokenFactoryAccount a);
              ethTokenAddress_ := VStr s;
              otherDeployedTokenInfo := [("nearTokenFactorySk", js_or (nearTokenFactorySk a) (nearMasterSk a))] |}.
Proof.
  intros H. unfold DeployToken_execute in H. do 4 (apply eff_bind_ret_inv in H as (? & _ & H)).
  apply eff_bind_ret_inv in H as ([] & Hd & H). apply eff_bind_ret_inv in H as (addr & Ha & H). injection H as <-.
  destruct address as [| | | |s| | |]; try discriminate Ha. injection Ha as <-. exists s. revert Hd.
  set (w1 := world_of _). intros Hd. exists w1. split; [done|]. split; [|done]. revert Hd.
  unfold try_catch. rewrite eff_bind_eq. cbn [remove0x lift out_of world_of trace_of fst snd]. unfold perform.
  destruct (factory_deploy_bridge_token _ _ _ w1) as [[[]|e|c|] w2]; intros Hx; first [discriminate Hx | reflexivity].
Qed.

(** When the setup of the token factory returns, there was a moment at
    which the factory account carried a contract, and from that moment the
    factory was initialized with the prover account and the locker address
    without its prefix; then the factory deployed the bridge token for the
    ERC20 address without its prefix.  The properties to save are the
    account of that token below the factory's, the address as given and the
    key of the factory, the master key standing in for a missing one. *)
Theorem initTokenFactory_ready a w props :
  out_of (InitNearTokenFactory_execute near factory publicKey a w) = Ret props ->
  exists locker erc20 w1 w2 h,
    ethLockerAddress a = VStr locker /\ ethErc20Address a = VStr erc20 /\
    code_of w1 (nearTokenFactoryAccount a) = Some h /\ h <> EMPTY_HASH /\
    (factory_new factory (nearTokenFactoryAccount a) (nearProverAccount a)
       (if String.prefix "0x" locker then str_drop 2 locker else locker) w1).1 = Ret tt /\
    (factory_deploy_bridge_token factory (nearTokenFactoryAccount a)
       (if String.prefix "0x" erc20 then str_drop 2 erc20 else erc20) w2).1 = Ret tt /\
    props = [("nearErc20Account", VStr ((if String.prefix "0x" erc20 then str_drop 2 erc20 else erc20) +:+ "." +:+ nearTokenFactoryAccount a));
             ("ethErc20Address", VStr erc20);
             ("nearTokenFactorySk", js_or (nearTokenFactorySk a) (nearMasterSk a))].
Proof.
  intros H. unfold InitNearTokenFactory_execute in H. do 3 (apply eff_bind_ret_inv in H as (? & _ & H)).
  apply eff_bind_ret_inv in H as ([] & Hc & H).
  match type of Hc with out_of (maybeCreateAccount _ ?m ?i ?p ?b ?q ?v) = _ =>
    destruct (maybeCreateAccount_run near m i p b q v) as (o & w1 & tr & E & _ & _ & Hr) end.
  rewrite E in Hc, H. cbn in Hc. subst o. destruct Hr as [(_ & h & Hh & Hne)|]; [|done]. cbn [world_of fst snd] in H.
  apply eff_bind_ret_inv in H as ([] & Hn & H). apply eff_bind_ret_inv in H as (info & Hd & H). injection H as <-.
  apply DeployToken_ret in Hd as (erc20 & w2 & He & Hdep & ->). cbn [Tokens.nearTokenFactoryAccount] in *.
  destruct (ethLockerAddress a) as [| | | |locker| | |] eqn:El; try discriminate Hn.
  exists locker, erc20, w1, w2, h. rewrite !prefix_0x. repeat (split; [done|]). split; [|split; [exact Hdep|]].
  - revert Hn. unfold try_catch. rewrite eff_bind_eq. cbn [strip0x lift out_of world_of trace_of fst snd]. rewrite prefix_0x. unfold perform.
    destruct (factory_new _ _ _ _ w1) as [[[]|e|c|] w3]; intros Hx; first [discriminate Hx | reflexivity].
  - cbn. unfold js_or. by destruct (truthy (nearTokenFactorySk a)) eqn:T; rewrite ?T; [|destruct (truthy (nearMasterSk a))].
Qed.

End Properties.

Module Witness.
Import Accounts.Witness.

Definition factory0 : TokenFactory Chain := {|
  factory_new id prover locker w := (Ret tt, w);
  factory_deploy_bridge_token id address w := (Ret tt, set_code (address +:+ "." +:+ id) "token-code" w)
|}.

Definition args0 : FactoryArgs := {|
  nearMasterAccount := "master"; nearMasterSk := VStr "sk"; nearTokenFactoryAccount := "factory";
  nearTokenFactorySk := VUndef; nearTokenFactoryContractPath := "factory.wasm"; nearTokenFactoryInitBalance := 100;
  nearProverAccount := "prover"; ethLockerAddress := VStr "0xab"; ethErc20Address := VStr "0xcd" |}.

Lemma initTokenFactory_ready_witness :
  let props := [("nearErc20Account", VStr "cd.factory"); ("ethErc20Address", VStr "0xcd"); ("nearTokenFactorySk", VStr "sk")] in
  out_of (InitNearTokenFactory_execute chain factory0 (fun s => Ret s) args0 fresh) = Ret props /\
  exists locker erc20 w1 w2 h,
    ethLockerAddress args0 = VStr locker /\ ethErc20Address args0 = VStr erc20 /\
    code_of w1 "factory" = Some h /\ h <> EMPTY_HASH /\
    (factory_new factory0 "factory" "prover" (if String.prefix "0x" locker then str_drop 2 locker else locker) w1).1 = Ret tt /\
    (factory_deploy_bridge_token factory0 "factory" (if String.prefix "0x" erc20 then str_drop 2 erc20 else erc20) w2).1 = Ret tt /\
    props = [("nearErc20Account", VStr ((if String.prefix "0x" erc20 then str_drop 2 erc20 else erc20) +:+ "." +:+ "factory"));
             ("ethErc20Address", VStr erc20); ("nearTokenFactorySk", VStr "sk")].
Proof.
  intros props. assert (H : out_of (InitNearTokenFactory_execute chain factory0 (fun s => Ret s) args0 fresh) = Ret props)
    by (vm_compute; reflexivity).
  split; [exact H|]. exact (initTokenFactory_ready chain factory0 (fun s => Ret s) args0 fresh props H).
Defined.

End Witness.
