(* ===== verification/AddressWatcher.v ===== *)
(** * The address watcher (utils/address-watcher.js)

    [AddressWatcher.initialize], one round of [AddressWatcher.run] and the
    foreground branch of cli/commands/start/address-watcher.js.  The nodes
    are parameters. *)

From S2P Require Import Prelude Robust Metrics Interfaces ProofExtractor FileNames.

(** ** Accounts *)

Record NearAccount := { na_id : string; na_name : string; na_balanceGauge : string; na_stateStorageGauge : string }.
Record EthAccount := { ea_address : string; ea_name : string; ea_balanceGauge : string }.

(** The entry of an account to watch: its id or address and its name. *)
Definition entry : Type := string * string.

Definition PREFIX : string := "near_bridge_address_watcher_".

Fixpoint near_gauges (accounts : list entry) (registry : list string) : outcome (list NearAccount * list string) :=
  match accounts with
  | [] => Ret ([], registry)
  | (id, name) :: rest =>
      '(balance, registry1) ← gauge PREFIX (name +:+ "_balance_nano_near") registry;
      '(storage, registry2) ← gauge PREFIX (name +:+ "_storage_bytes") registry1;
      '(l, registry3) ← near_gauges rest registry2;
      Ret ({| na_id := id; na_name := name; na_balanceGauge := balance; na_stateStorageGauge := storage |} :: l, registry3)
  end.

Fixpoint eth_gauges (accounts : list entry) (registry : list string) : outcome (list EthAccount * list string) :=
  match accounts with
  | [] => Ret ([], registry)
  | (address, name) :: rest =>
      '(balance, registry1) ← gauge PREFIX (name +:+ "_balance_gwei") registry;
      '(l, registry2) ← eth_gauges rest registry1;
      Ret ({| ea_address := address; ea_name := name; ea_balanceGauge := balance |} :: l, registry2)
  end.

Record AddressWatcher := { aw_near : list NearAccount; aw_eth : list EthAccount }.

(** The nodes: the state of an account ([amount] in yoctoNEAR and
    [storage_usage]) and the balance of an address in wei. *)
Record WatchedNodes (W : Type) := {
  wn_connect : val -> val -> service W unit;
  wn_state : string -> service W (Z * Z);
  wn_getBalance : string -> service W Z
}.

Arguments wn_connect {W}.
Arguments wn_state {W}.
Arguments wn_getBalance {W}.

Definition nearYocto2Nano : Z := 10 ^ 15.
Definition ethWei2Gwei : Z := 10 ^ 9.

(** [n.toNumber()] of bn.js. *)
Definition bn_toNumber (n : Z) : outcome Z :=
  if n <? 2 ^ 53 then Ret n else Throw (Error "Number can only safely store up to 53 bits").

Section Watcher.
Context {W : Type} (nodes : WatchedNodes W).

Definition initialize (nearNodeUrl networkId : val) (nearAccounts ethereumAccounts : list entry) (metricsPort : val)
    : eff W event AddressWatcher :=
  _ ← perform (Call "near.connect" [nearNodeUrl; networkId]) (wn_connect nodes nearNodeUrl networkId);
  _ ← new_HttpPrometheus metricsPort;
  '(near, registry) ← lift (near_gauges nearAccounts []);
  '(eth, _) ← lift (eth_gauges ethereumAccounts registry);
  mret {| aw_near := near; aw_eth := eth |}.

Definition watch_near (a : NearAccount) : eff W event unit :=
  try_catch
    ('(amount, storage_usage) ← perform (Call "account.state" [VStr (na_id a)]) (wn_state nodes (na_id a));
     balanceNanoNear ← lift (bn_toNumber (amount / nearYocto2Nano));
     storageBytes ← lift (bn_toNumber storage_usage);
     _ ← set_gauge (na_balanceGauge a) balanceNanoNear;
     set_gauge (na_stateStorageGauge a) storageBytes)
    (fun err => console_log [VStr (err_toString err)]).

Definition watch_eth (a : EthAccount) : eff W event unit :=
  try_catch
    (balance ← perform (Call "eth.getBalance" [VStr (ea_address a)]) (wn_getBalance nodes (ea_address a));
     balanceGwei ← lift (bn_toNumber (balance / ethWei2Gwei));
     set_gauge (ea_balanceGauge a) balanceGwei)
    (fun err => console_log [VStr (err_toString err)]).

(** One pass of [while (true)]. *)
Definition round (watcher : AddressWatcher) : eff W event unit :=
  _ ← promise_all (map watch_near (aw_near watcher) ++ map watch_eth (aw_eth watcher));
  sleep (num_of_Z 1000).

(** The foreground branch of the start command, up to the endless [run].
    [monitorList] is the content of the file, read when the path is not the
    empty string.  The id of the network is passed as [nearNetworkId], a
    property that [initialize] does not take: [networkId] is [undefined]. *)
Definition start_foreground (nearNodeUrl nearNetworkId : val) (masterAddress : outcome string)
    (nearClientAccount nearMasterAccount : string) (monitorAccountsPath : val)
    (readMonitorList : val -> service W (list entry * list entry)) (metricsPort : val) : eff W event AddressWatcher :=
  address ← lift masterAddress;
  let nearAccounts := [(nearClientAccount, "near_client_account"); (nearMasterAccount, "near_relayer_account")] in
  let ethereumAccounts := [(address, "ethereum_master_account")] in
  '(moreNear, moreEth) ←
    (if negb (strict_eq monitorAccountsPath (VStr "")) then
       perform (Call "fs.readFileSync" [monitorAccountsPath]) (readMonitorList monitorAccountsPath)
     else mret ([], []));
  initialize nearNodeUrl VUndef (nearAccounts ++ moreNear)%list (ethereumAccounts ++ moreEth)%list metricsPort.

End Watcher.

(** ** What a round measures *)

(** The gauges set from an answer: nothing when the request failed or a
    number is too large. *)
Definition near_measures (a : NearAccount) (answer : outcome (Z * Z)) : list (string * Z) :=
  match answer with
  | Ret (amount, storage) =>
      if (amount / 10 ^ 15 <? 2 ^ 53) && (storage <? 2 ^ 53) then
        [(na_balanceGauge a, amount / 10 ^ 15); (na_stateStorageGauge a, storage)]
      else []
  | _ => []
  end.

Definition eth_measures (a : EthAccount) (answer : outcome Z) : list (string * Z) :=
  match answer with
  | Ret balance => if balance / 10 ^ 9 <? 2 ^ 53 then [(ea_balanceGauge a, balance / 10 ^ 9)] else []
  | _ => []
  end.

(** The gauges a run sets. *)
Definition measured (t : list event) : list (string * Z) :=
  omap (fun e => match e with Call "gauge.set" [VStr name; VNum v] => Some (name, v) | _ => None end) t.

Lemma measured_app t1 t2 : measured (t1 ++ t2) = (measured t1 ++ measured t2)%list.
Proof. apply omap_app. Qed.

Definition settled_answer {A} (o : outcome A) : Prop := match o with Ret _ | Throw _ => True | _ => False end.

Section Rounds.
Context {W : Type} (nodes : WatchedNodes W) (state : string -> outcome (Z * Z)) (balance : string -> outcome Z).
Hypothesis state_answers : forall id w, settled_answer (state id) /\ exists w', wn_state nodes id w = (state id, w').
Hypothesis balance_answers : forall a w, settled_answer (balance a) /\ exists w', wn_getBalance nodes a w = (balance a, w').

Lemma watch_near_returns a : returns (watch_near nodes a) (fun _ t => measured t = near_measures a (state (na_id a))).
Proof using state_answers.
  intros w. destruct (state_answers (na_id a) w) as [Hs [w1 Hw]].
  unfold watch_near, try_catch, perform, lift, set_gauge, emit, console_log, bn_toNumber, nearYocto2Nano, mbind, eff_bind.
  rewrite Hw. unfold near_measures. destruct (state (na_id a)) as [[amount storage]|e|c|]; try done; [|by eexists _, _, _].
  destruct (amount / 10 ^ 15 <? 2 ^ 53); cbn [andb]; [|by eexists _, _, _].
  destruct (storage <? 2 ^ 53); by eexists _, _, _.
Qed.

Lemma watch_eth_returns a : returns (watch_eth nodes a) (fun _ t => measured t = eth_measures a (balance (ea_address a))).
Proof using balance_answers.
  intros w. destruct (balance_answers (ea_address a) w) as [Hs [w1 Hw]].
  unfold watch_eth, try_catch, perform, lift, set_gauge, emit, console_log, bn_toNumber, ethWei2Gwei, mbind, eff_bind.
  rewrite Hw. unfold eth_measures. destruct (balance (ea_address a)) as [b|e|c|]; try done; [|by eexists _, _, _].
  destruct (b / 10 ^ 9 <? 2 ^ 53); by eexists _, _, _.
Qed.

Lemma Forall2_map_same {A B C} (R : B -> C -> Prop) (f : A -> B) (g : A -> C) l :
  (forall a, R (f a) (g a)) -> Forall2 R (map f l) (map g l).
Proof. intros H. induction l; constructor; auto. Qed.

(** Tasks that all return, each with its measures. *)
Lemma tasks_return (tasks : list (eff W event unit)) (ms : list (list (string * Z))) :
  Forall2 (fun m l => returns m (fun _ t => measured t = l)) tasks ms ->
  returns (promise_all tasks) (fun _ t => measured t = concat ms).
Proof.
  induction 1 as [|m l tasks ms Hm _ IH]; intros w; [by exists [], w, []|].
  destruct (Hm w) as ([] & w1 & t1 & E1 & H1). destruct (IH w1) as (us & w2 & t2 & E2 & H2).
  exists (tt :: us), w2, (t1 ++ t2)%list. cbn [promise_all concat]. by rewrite E1, E2, measured_app, H1, H2.
Qed.

(** A round of the address watcher measures every account on its own.
    Whatever the nodes answer to the requests of the round, the round
    returns, sleeps at its end, and has set exactly these gauges: for every
    NEAR account that answered the balance in nanoNEAR and the storage, for
    every Ethereum address that answered the balance in gwei, each rounded
    down.  An account whose request fails, or with a number of 2^53 or more,
    is left out and takes no other with it. *)
Theorem watcher_round_measures watcher :
  returns (round nodes watcher) (fun _ t =>
    measured t = (concat (map (fun a => near_measures a (state (na_id a))) (aw_near watcher)) ++
                  concat (map (fun a => eth_measures a (balance (ea_address a))) (aw_eth watcher)))%list /\
    list.last t = Some (Sleep (num_of_Z 1000))).
Proof using balance_answers state_answers.
  unfold round.
  eapply returns_bind; [apply (tasks_return _ (map (fun a => near_measures a (state (na_id a))) (aw_near watcher) ++
    map (fun a => eth_measures a (balance (ea_address a))) (aw_eth watcher))), Forall2_app; apply Forall2_map_same|].
  - apply watch_near_returns.
  - apply watch_eth_returns.
  - intros ? t Ht. apply returns_emit. rewrite measured_app, Ht, concat_app, app_nil_r. split; [done|]. apply list.last_snoc.
Qed.

End Rounds.

(** ** Names of the gauges *)

Lemma register_fresh prefix name registry full registry' :
  register prefix name registry = Ret (full, registry') -> registry' = full :: registry /\ full ∉ registry.
Proof.
  unfold register. destruct (existsb _ registry) eqn:E; [done|]. intros [= <- <-]. split; [done|]. intros Hin.
  assert (existsb (String.eqb (prefix +:+ name)) registry = true); [|congruence].
  apply existsb_exists. eexists. split; [by apply list_elem_of_In | apply String.eqb_refl].
Qed.

Lemma near_gauges_fresh accounts registry l registry' :
  near_gauges accounts registry = Ret (l, registry') -> NoDup registry ->
  NoDup registry' /\ registry' ≡ₚ (concat (map (fun a => [na_balanceGauge a; na_stateStorageGauge a]) l) ++ registry)%list.
Proof.
  revert registry l. induction accounts as [|[id name] rest IH]; intros registry l H Hnd; cbn in H.
  - injection H as <- <-. done.
  - apply outcome_bind_inv in H as ([b r1] & H1 & H). apply outcome_bind_inv in H as ([s r2] & H2 & H).
    apply outcome_bind_inv in H as ([l' r3] & H3 & H). injection H as <- <-.
    apply register_fresh in H1 as [-> Hf1]. apply register_fresh in H2 as [-> Hf2].
    destruct (IH _ _ H3) as [Hn Hp]; [by repeat (apply list.NoDup_cons; split)|]. split; [done|]. rewrite Hp. cbn.
    rewrite <- !Permutation_middle. apply Permutation_swap.
Qed.

Lemma eth_gauges_fresh accounts registry l registry' :
  eth_gauges accounts registry = Ret (l, registry') -> NoDup registry ->
  NoDup registry' /\ registry' ≡ₚ (map ea_balanceGauge l ++ registry)%list.
Proof.
  revert registry l. induction accounts as [|[id name] rest IH]; intros registry l H Hnd; cbn in H.
  - injection H as <- <-. done.
  - apply outcome_bind_inv in H as ([b r1] & H1 & H). apply outcome_bind_inv in H as ([l' r2] & H2 & H). injection H as <- <-.
    apply register_fresh in H1 as [-> Hf1].
    destruct (IH _ _ H2) as [Hn Hp]; [by apply list.NoDup_cons|]. split; [done|]. rewrite Hp. cbn. by rewrite <- Permutation_middle.
Qed.

(** No two measurements share a gauge.  When the watcher has been
    initialized, the gauges of all its accounts are different; so a round
    never overwrites the measurement of one account with that of another. *)
Theorem watcher_gauges_distinct {W} (nodes : WatchedNodes W) url networkId near eth port w watcher :
  out_of (initialize nodes url networkId near eth port w) = Ret watcher ->
  NoDup (concat (map (fun a => [na_balanceGauge a; na_stateStorageGauge a]) (aw_near watcher)) ++ map ea_balanceGauge (aw_eth watcher)).
Proof.
  intros H. unfold initialize in H. do 2 (apply eff_bind_ret_inv in H as (? & _ & H)).
  apply eff_bind_ret_inv in H as ([ln r1] & H1 & H). apply eff_bind_ret_inv in H as ([le r2] & H2 & H). injection H as <-.
  cbn [aw_near aw_eth]. apply near_gauges_fresh in H1 as [Hn1 Hp1]; [|constructor].
  apply eth_gauges_fresh in H2 as [Hn2 Hp2]; [|done]. rewrite Hp1, app_nil_r in Hp2. by rewrite Hp2, Permutation_app_comm in Hn2.
Qed.

Module Witness.

Definition nodes0 : WatchedNodes unit := {|
  wn_connect url id w := (Ret tt, w);
  wn_state id w := (if String.eqb id "down" then Throw (Error "timeout") else Ret (5 * 10 ^ 24, 182), w);
  wn_getBalance a w := (Ret (2 * 10 ^ 18), w)
|}.

Definition watcher0 : AddressWatcher := {|
  aw_near := [{| na_id := "down"; na_name := "a"; na_balanceGauge := "a_b"; na_stateStorageGauge := "a_s" |};
              {| na_id := "up"; na_name := "b"; na_balanceGauge := "b_b"; na_stateStorageGauge := "b_s" |}];
  aw_eth := [{| ea_address := "0x1"; ea_name := "c"; ea_balanceGauge := "c_b" |}] |}.

Lemma watcher_round_measures_witness :
  returns (round nodes0 watcher0) (fun _ t =>
    measured t = [("b_b", 5000000000); ("b_s", 182); ("c_b", 2000000000)] /\ list.last t = Some (Sleep (num_of_Z 1000))).
Proof.
  apply (watcher_round_measures nodes0 (fun id => if String.eqb id "down" then Throw (Error "timeout") else Ret (5 * 10 ^ 24, 182))
           (fun _ => Ret (2 * 10 ^ 18))).
  - intros id w. split; [by destruct (String.eqb id "down")|]. by exists w.
  - intros a w. split; [done|]. by exists w.
Defined.

Lemma watcher_gauges_distinct_witness :
  let r := initialize nodes0 (VStr "http://near") VUndef [("client", "near_client_account"); ("master", "near_relayer_account")]
             [("0x1", "ethereum_master_account")] (VStr "null") tt in
  exists watcher, out_of r = Ret watcher /\
    NoDup (concat (map (fun a => [na_balanceGauge a; na_stateStorageGauge a]) (aw_near watcher)) ++ map ea_balanceGauge (aw_eth watcher)).
Proof.
  eexists. split; [vm_compute; reflexivity|].
  apply (watcher_gauges_distinct nodes0 (VStr "http://near") VUndef [("client", "near_client_account"); ("master", "near_relayer_account")]
           [("0x1", "ethereum_master_account")] (VStr "null") tt). vm_compute. reflexivity.
Defined.

End Witness.
