(* ===== verification/Upgrade.v ===== *)
(** * Upgrade scripts (contracts/eth/nearprover/utils)

    The Ledger signer (eth-ledger-signer.js), [upgradeAddressAtSlotLegacy]
    (utils.js), the scripts upgrade_admin.js and upgrade_bridge_address.js,
    and [Module Contract], the storage of AdminControlled.sol that they
    change.  ethers, the Ledger and the terminal are parameters. *)

From S2P Require Import Prelude Robust ProofExtractor Utils.

(** ** The Ledger signer *)

(** An error of the device, with its [id]. *)
Record DeviceError := { de_id : string; de_error : js_error }.

Section Signer.
Context {W E : Type}.

(** What became of a promise: [Pending] is one that never settles. *)
Inductive settlement (A : Type) : Type :=
| Resolved (a : A)
| Rejected (e : js_error)
| Pending.

#[global] Arguments Resolved {A} a.
#[global] Arguments Rejected {A} e.
#[global] Arguments Pending {A}.

(** [waiter] *)
Definition waiter (duration : number) : eff W event unit := emit (Sleep duration).

(** The attempts of [_retry], 100 ms apart while the transport is locked. *)
Fixpoint retry_loop {A} (n : nat) (callback : service W (A + DeviceError)) : eff W event (settlement A) :=
  match n with
  | O => mret (Rejected (Error "timeout"))
  | S n' =>
      r ← perform (Call "ledger" []) callback;
      match r with
      | inl result => mret (Resolved result)
      | inr error =>
          if String.eqb (de_id error) "TransportLocked" then
            _ ← waiter (num_of_Z 100); retry_loop n' callback
          else mret (Rejected (de_error error))
      end
  end.

Definition ATTEMPTS : nat := 50.

(** [_retry(callback)], with no timeout given.  [device] is the promise
    [this._eth]: when it is rejected, the executor ends without settling the
    promise it was to settle. *)
Definition _retry {A} (device : option js_error) (callback : service W (A + DeviceError)) : eff W event (settlement A) :=
  match device with
  | Some _ => mret Pending
  | None => retry_loop ATTEMPTS callback
  end.

(** The promise [this._eth]: the transport is opened and the application
    on the device asked for its configuration; an error of either rejects
    it. *)
Definition open_device {T} (create : service W T) (getAppConfiguration : T -> service W unit) : eff W event (option js_error) :=
  try_catch (transport ← query create; _ ← query (getAppConfiguration transport); mret None) (fun e => mret (Some e)).

(** The read-only properties that [new EthLedgerSigner(provider, path)]
    defines besides [_eth]. *)
Record EthLedgerSigner := { sg_path : val; sg_provider : val }.

Definition defaultPath : string := "m/44'/60'/0'/0/0".

Definition new_EthLedgerSigner (provider path : val) : EthLedgerSigner :=
  {| sg_path := if negb (truthy path) then VStr defaultPath else path; sg_provider := js_or provider VNull |}.

Definition connect (this : EthLedgerSigner) (provider : val) : EthLedgerSigner := new_EthLedgerSigner provider (sg_path this).

End Signer.

(** A transaction as [populateTransaction] gives it. *)
Record UnsignedTx := {
  ut_to : string; ut_from : string; ut_slot : Z; ut_value : Z; ut_mask : Z; ut_gasLimit : Z; ut_gasPrice : Z; ut_nonce : Z
}.

(** [baseTx]: falsy fields become [undefined]. *)
Definition or_undefined (v : val) : val := if truthy v then v else VUndef.

Definition baseTx (tx : list (string * val)) : list (string * val) :=
  let field name := default VUndef (assoc name tx) in
  [("chainId", or_undefined (field "chainId")); ("data", or_undefined (field "data"));
   ("gasLimit", or_undefined (field "gasLimit")); ("gasPrice", or_undefined (field "gasPrice"));
   ("nonce", or_undefined (field "nonce")); ("maxFeePerGas", or_undefined (field "maxFeePerGas"));
   ("maxPriorityFeePerGas", or_undefined (field "maxPriorityFeePerGas")); ("type", field "type");
   ("to", or_undefined (field "to")); ("value", or_undefined (field "value"))].

(** The device: its connection, addresses and signatures (v, r and s). *)
Record LedgerDevice (W : Type) := {
  lg_eth : option js_error;
  lg_getAddress : string -> service W (string + DeviceError);
  lg_signPersonalMessage : string -> string -> service W ((string * string * string) + DeviceError);
  lg_signTransaction : string -> string -> service W ((string * string * string) + DeviceError)
}.

Arguments lg_eth {W}.
Arguments lg_getAddress {W}.
Arguments lg_signPersonalMessage {W}.
Arguments lg_signTransaction {W}.

Section EthLedgerSigner.
Context {W : Type} (ledger : LedgerDevice W) (path : string).
(** ethers: checksummed addresses, hex strings of messages, [joinSignature],
    the number of a hex string, and [serializeTransaction]. *)
Context (checksum : string -> outcome string) (hexlify : val -> outcome string).
Context (joinSignature : string * string * string -> outcome string) (hexNumber : string -> outcome Z).
Context (serializeTransaction : list (string * val) -> option (Z * string * string) -> outcome string).

(** [await] of what may never settle. *)
Definition after_settled {A B} (m : eff W event (settlement A)) (k : A -> eff W event (settlement B)) : eff W event (settlement B) :=
  r ← m;
  match r with
  | Resolved a => k a
  | Rejected e => mret (Rejected e)
  | Pending => mret Pending
  end.

Definition settle {A} (o : outcome A) : eff W event (settlement A) :=
  match o with
  | Ret a => mret (Resolved a)
  | Throw e => mret (Rejected e)
  | Exit c => exit c
  | OutOfFuel => stuck
  end.

Definition getAddress : eff W event (settlement string) :=
  after_settled (_retry (lg_eth ledger) (lg_getAddress ledger path)) (fun account => settle (checksum account)).

Definition signMessage (message : val) : eff W event (settlement string) :=
  after_settled (settle (hexlify message)) (fun hex =>
  after_settled (_retry (lg_eth ledger) (lg_signPersonalMessage ledger path (str_drop 2 hex))) (fun sig =>
  settle (joinSignature (sig.1.1, "0x" +:+ sig.1.2, "0x" +:+ sig.2)))).

Definition signTransaction (tx : list (string * val)) : eff W event (settlement string) :=
  after_settled (settle (serializeTransaction (baseTx tx) None)) (fun unsigned =>
  after_settled getAddress (fun address =>
  after_settled (_retry (lg_eth ledger) (lg_signTransaction ledger path (str_drop 2 unsigned))) (fun sig =>
  settle (v ← hexNumber ("0x" +:+ sig.1.1);
          serializeTransaction (baseTx tx) (Some (v, "0x" +:+ sig.1.2, "0x" +:+ sig.2)))))).

End EthLedgerSigner.

(** ** The scripts *)

Definition ADDRESS_MASK : Z := 2 ^ 160 - 1.
Definition BRIDGE_ADDRESS_SLOT : Z := 2.

(** [s.toUpperCase()] on the ASCII letters. *)
Definition upper_char (c : Ascii.ascii) : Ascii.ascii :=
  let n := Ascii.N_of_ascii c in
  if ((97 <=? n) && (n <=? 122))%N then Ascii.ascii_of_N (n - 32)%N else c.

Fixpoint str_upper (s : string) : string :=
  match s with
  | EmptyString => EmptyString
  | String c s' => String (upper_char c) (str_upper s')
  end.

(** ethers: the storage, the views of the contract, the account of the
    signer, nonces, signing, sending, and waiting for 5 confirmations; and
    the answer typed at the terminal.  [ch_hex] is [toHexString] of a
    BigNumber and [ch_uint] the number of an address. *)
Record Chain (W : Type) := {
  ch_hex : Z -> string;
  ch_uint : string -> outcome Z;
  ch_getStorageAt : string -> Z -> service W Z;
  ch_admin : string -> service W string;
  ch_bridge : string -> service W string;
  ch_signer : val -> outcome string;
  ch_getTransactionCount : string -> service W Z;
  ch_sign : UnsignedTx -> service W string;
  ch_sendTransaction : string -> service W unit;
  ch_wait : service W unit;
  ch_question : service W string
}.

Arguments ch_hex {W}.
Arguments ch_uint {W}.
Arguments ch_getStorageAt {W}.
Arguments ch_admin {W}.
Arguments ch_bridge {W}.
Arguments ch_signer {W}.
Arguments ch_getTransactionCount {W}.
Arguments ch_sign {W}.
Arguments ch_sendTransaction {W}.
Arguments ch_wait {W}.
Arguments ch_question {W}.

Section Scripts.
Context {W : Type} (ch : Chain W).

Definition assert_equal (a b msg : string) : eff W event unit :=
  if String.eqb a b then mret tt else throw (AssertionError msg).

Definition tx_val (tx : UnsignedTx) : list val :=
  [VStr (ut_to tx); VStr (ut_from tx); VNum (ut_slot tx); VNum (ut_value tx); VNum (ut_mask tx); VNum (ut_gasLimit tx);
   VNum (ut_gasPrice tx); VNum (ut_nonce tx)].

Definition upgradeAddressAtSlotLegacy (signer contract newAddress : string) (addressSlot : Z) : eff W event unit :=
  value ← lift (ch_uint ch newAddress);
  nonce ← query (ch_getTransactionCount ch signer);
  let tx := {| ut_to := contract; ut_from := signer; ut_slot := addressSlot; ut_value := value; ut_mask := ADDRESS_MASK;
               ut_gasLimit := 50000; ut_gasPrice := 150000000000; ut_nonce := nonce |} in
  signedTx ← perform (Call "signTransaction" (tx_val tx)) (ch_sign ch tx);
  perform (Call "sendTransaction" (tx_val tx)) (ch_sendTransaction ch signedTx).

Fixpoint slots_from (contractAddress : string) (i : Z) (n : nat) : eff W event unit :=
  match n with
  | O => mret tt
  | S n' => _ ← query (ch_getStorageAt ch contractAddress i); slots_from contractAddress (i + 1) n'
  end.

Definition getSlotsData (contractAddress : string) (numOfSlotsToDisplay : nat) : eff W event unit :=
  slots_from contractAddress 0 numOfSlotsToDisplay.

(** [None] when the operator did not confirm. *)
Definition upgradeAdminAddressTo (contractAddress currentAdminAddress newAdminAddress : string) (adminAddressSlot : Z)
    (ledgerKeyPath : val) : eff W event (option unit) :=
  content ← query (ch_getStorageAt ch contractAddress adminAddressSlot);
  _ ← assert_equal (str_upper (ch_hex ch content)) (str_upper currentAdminAddress) "The current admin doesn't match";
  _ ← getSlotsData contractAddress 5;
  _ ← query (ch_admin ch contractAddress);
  signer ← lift (ch_signer ch ledgerKeyPath);
  admin ← query (ch_admin ch contractAddress);
  _ ← assert_equal signer admin "The used account is not an admin of contract";
  inputResult ← query (ch_question ch);
  if negb (String.eqb (str_upper inputResult) "CONFIRM") then mret None
  else
    _ ← upgradeAddressAtSlotLegacy signer contractAddress newAdminAddress adminAddressSlot;
    _ ← query (ch_wait ch);
    after ← query (ch_admin ch contractAddress);
    _ ← assert_equal (str_lower after) (str_lower newAdminAddress) "admin";
    mret (Some tt).

Definition upgradeProversBridgeAddressTo (proverAddress newBridgeAddress : string) (ledgerKeyPath : val) : eff W event unit :=
  _ ← query (ch_bridge ch proverAddress);
  signer ← lift (ch_signer ch ledgerKeyPath);
  admin ← query (ch_admin ch proverAddress);
  _ ← assert_equal signer admin "The used account is not an admin of NearProver";
  _ ← upgradeAddressAtSlotLegacy signer proverAddress newBridgeAddress BRIDGE_ADDRESS_SLOT;
  _ ← query (ch_wait ch);
  after ← query (ch_bridge ch proverAddress);
  assert_equal (str_lower after) (str_lower newBridgeAddress) "bridge".

Definition getProversBridgeAddress (proverAddress : string) : eff W event string := query (ch_bridge ch proverAddress).

End Scripts.

(** ** AdminControlled.sol *)

Module Contract.

(** The storage; the admin is in the low 160 bits of slot 0, [paused] is
    slot 1.  A failed [require] is [None]. *)
Notation storage := (gmap Z Z).

Definition sload (s : storage) (key : Z) : Z := default 0 (s !! key).
Definition admin (s : storage) : Z := Z.land (sload s 0) (2 ^ 160 - 1).

Definition adminPause (sender flags : Z) (s : storage) : option storage :=
  if sender =? admin s then Some (<[1 := flags]> s) else None.

Definition adminSstore (sender key value : Z) (s : storage) : option storage :=
  if sender =? admin s then Some (<[key := value]> s) else None.

Definition adminSstoreWithMask (sender key value mask : Z) (s : storage) : option storage :=
  if sender =? admin s then
    let oldval := sload s key in
    Some (<[key := Z.lxor (Z.land (Z.lxor value oldval) mask) oldval]> s)
  else None.

(** The call that a transaction of the scripts makes. *)
Definition apply_tx (sender : Z) (tx : UnsignedTx) (s : storage) : option storage :=
  adminSstoreWithMask sender (ut_slot tx) (ut_value tx) (ut_mask tx) s.

End Contract.

(** ** The masked store *)

(** With the mask of an address the store changes the low 160 bits. *)
Lemma masked_address value old : 0 <= value < 2 ^ 160 -> 0 <= old ->
  Z.lxor (Z.land (Z.lxor value old) ADDRESS_MASK) old = old / 2 ^ 160 * 2 ^ 160 + value.
Proof.
  intros Hv Ho. change ADDRESS_MASK with (Z.ones 160).
  replace (old / 2 ^ 160 * 2 ^ 160) with (Z.shiftl (Z.shiftr old 160) 160)
    by (rewrite Z.shiftl_mul_pow2, Z.shiftr_div_pow2 by lia; done).
  assert (Hlow : forall n, 160 <= n -> Z.testbit value n = false).
  { intros n Hn. destruct (Z.eq_dec value 0) as [->|Hne]; [apply Z.bits_0|]. apply Z.bits_above_log2; [lia|].
    apply Z.lt_le_trans with 160; [|done]. apply Z.log2_lt_pow2; lia. }
  assert (Hshift : forall n, 0 <= n -> Z.testbit (Z.shiftl (Z.shiftr old 160) 160) n = if n <? 160 then false else Z.testbit old n).
  { intros n Hn. rewrite Z.shiftl_spec by done. destruct (Z.ltb_spec n 160); [by apply Z.testbit_neg_r; lia|].
    rewrite Z.shiftr_spec by lia. f_equal. lia. }
  rewrite Z.add_nocarry_lxor.
  - apply Z.bits_inj'. intros n Hn. rewrite !Z.lxor_spec, Z.land_spec, Z.lxor_spec, Z.testbit_ones_nonneg, Hshift by lia.
    destruct (Z.ltb_spec n 160) as [Hlt|Hge]; [|rewrite Hlow by lia]; by destruct (Z.testbit value n), (Z.testbit old n).
  - apply Z.bits_inj'. intros n Hn. rewrite Z.land_spec, Z.bits_0, Hshift by done.
    destruct (Z.ltb_spec n 160) as [Hlt|Hge]; [done|]. rewrite Hlow by lia. apply andb_false_r.
Qed.

Lemma land_address n : 0 <= n < 2 ^ 160 -> forall hi, Z.land (hi * 2 ^ 160 + n) (2 ^ 160 - 1) = n.
Proof.
  intros Hn hi. replace (2 ^ 160 - 1) with (Z.ones 160) by reflexivity.
  rewrite Z.land_ones, Z.add_comm, Z.mod_add by lia. by apply Z.mod_small.
Qed.

(** ** What the scripts send *)

(** The transactions a run sends. *)
Definition sends (t : list event) : list (list val) :=
  omap (fun e => match e with Call "sendTransaction" args => Some args | _ => None end) t.

Lemma sends_app t1 t2 : sends (t1 ++ t2) = (sends t1 ++ sends t2)%list.
Proof. apply omap_app. Qed.

Section Guards.
Context {W : Type} (ch : Chain W).

(** A bind whose first half sends nothing sends what its second half does. *)
Lemma sends_bind {A B} (m : eff W event A) (k : A -> eff W event B) w x :
  (forall v, sends (trace_of (m v)) = []) -> x ∈ sends (trace_of ((m ≫= k) w)) ->
  exists a, out_of (m w) = Ret a /\ sends (trace_of ((m ≫= k) w)) = sends (trace_of (k a (world_of (m w)))) /\
    x ∈ sends (trace_of (k a (world_of (m w)))).
Proof.
  intros Hm. specialize (Hm w). rewrite eff_bind_eq.
  destruct (m w) as [[[a|e|c|] w1] t1]; cbn [out_of world_of trace_of fst snd] in *;
    try (rewrite Hm; intros H; by apply not_elem_of_nil in H).
  rewrite sends_app, Hm. cbn [app]. intros H. by exists a.
Qed.

Lemma sends_query {A} (op : service W A) v : sends (trace_of (query (E := event) op v)) = [].
Proof. unfold query. by destruct (op v). Qed.

Lemma sends_assert a b msg (v : W) : sends (trace_of (assert_equal a b msg v)) = [].
Proof. unfold assert_equal. by destruct (String.eqb a b). Qed.

Lemma query_out {A} (op : service W A) v a : out_of (query (E := event) op v) = Ret a -> (op v).1 = Ret a.
Proof. unfold query. by destruct (op v). Qed.

Lemma assert_out a b msg (v : W) u : out_of (assert_equal a b msg v) = Ret u -> a = b.
Proof. unfold assert_equal. destruct (String.eqb_spec a b); done. Qed.

Lemma slots_sends address i n v : sends (trace_of (slots_from ch address i n v)) = [].
Proof.
  revert i v. induction n as [|n IH]; intros i v; [done|]. cbn [slots_from]. rewrite eff_bind_eq. unfold query.
  destruct (ch_getStorageAt ch address i v) as [[x|e|c|] w1]; cbn; try done.
Qed.

(** The transaction that writes [newAddress] to a slot. *)
Definition writes_address (signer contract newAddress : string) (slot : Z) (x : list val) : Prop :=
  exists tx, x = tx_val tx /\ ut_to tx = contract /\ ut_from tx = signer /\ ut_slot tx = slot /\
    ch_uint ch newAddress = Ret (ut_value tx) /\ ut_mask tx = ADDRESS_MASK.

Lemma upgradeAddress_sends signer contract newAddress slot w x :
  x ∈ sends (trace_of (upgradeAddressAtSlotLegacy ch signer contract newAddress slot w)) ->
  sends (trace_of (upgradeAddressAtSlotLegacy ch signer contract newAddress slot w)) = [x] /\
  writes_address signer contract newAddress slot x.
Proof.
  intros H. unfold upgradeAddressAtSlotLegacy in *.
  apply sends_bind in H as (value & Hv & Hs & H); [|done]. rewrite Hs. clear Hs.
  apply sends_bind in H as (nonce & _ & Hs & H); [|intros; apply sends_query]. rewrite Hs. clear Hs.
  apply sends_bind in H as (signed & _ & Hs & H); [|intros v; unfold perform; by destruct (ch_sign _ _ v)].
  rewrite Hs. clear Hs. revert H. set (w1 := world_of _). set (tx := Build_UnsignedTx _ _ _ _ _ _ _ _).
  unfold perform. destruct (ch_sendTransaction ch signed w1) as [o w2]. cbn [trace_of snd]. intros H.
  apply list_elem_of_singleton in H. subst x. split; [done|]. exists tx. by repeat split.
Qed.

(** What follows a transaction sends no other. *)
Lemma sends_then {A B} (m : eff W event A) (k : A -> eff W event B) w :
  (forall a v, sends (trace_of (k a v)) = []) -> sends (trace_of ((m ≫= k) w)) = sends (trace_of (m w)).
Proof.
  intros Hk. rewrite eff_bind_eq. destruct (m w) as [[[a|e|c|] w1] t1]; cbn [trace_of snd]; try done.
  by rewrite sends_app, Hk, app_nil_r.
Qed.

(** C39: The admin of a contract is only changed with everyone's consent.
    Whatever happens during a run of [upgradeAdminAddressTo], it sends at
    most one transaction.  If it sends one, then the chosen slot was read
    and held the current admin as given, the signer's address was the
    contract's admin at that time, and the operator typed CONFIRM; and the
    transaction goes from the signer to the contract and stores the new
    address, through the mask of an address, at that slot. *)
Theorem upgrade_admin_guarded contract current new slot keyPath w x :
  x ∈ sends (trace_of (upgradeAdminAddressTo ch contract current new slot keyPath w)) ->
  sends (trace_of (upgradeAdminAddressTo ch contract current new slot keyPath w)) = [x] /\
  (exists content, (ch_getStorageAt ch contract slot w).1 = Ret content /\ str_upper (ch_hex ch content) = str_upper current) /\
  exists signer w1 w2 answer,
    ch_signer ch keyPath = Ret signer /\ (ch_admin ch contract w1).1 = Ret signer /\
    (ch_question ch w2).1 = Ret answer /\ str_upper answer = "CONFIRM" /\ writes_address signer contract new slot x.
Proof.
  intros H. unfold upgradeAdminAddressTo in *.
  apply sends_bind in H as (content & Hc & Hs & H); [|intros; apply sends_query]. rewrite Hs. clear Hs. apply query_out in Hc.
  apply sends_bind in H as (? & Ha & Hs & H); [|intros; apply sends_assert]. rewrite Hs. clear Hs. apply assert_out in Ha.
  apply sends_bind in H as (? & _ & Hs & H); [|intros; apply slots_sends]. rewrite Hs. clear Hs.
  apply sends_bind in H as (? & _ & Hs & H); [|intros; apply sends_query]. rewrite Hs. clear Hs.
  apply sends_bind in H as (signer & Hsig & Hs & H); [|done]. rewrite Hs. clear Hs. cbn in Hsig.
  apply sends_bind in H as (admin & Hadm & Hs & H); [|intros; apply sends_query]. rewrite Hs. clear Hs. apply query_out in Hadm.
  apply sends_bind in H as (? & Heq & Hs & H); [|intros; apply sends_assert]. rewrite Hs. clear Hs. apply assert_out in Heq. subst admin.
  apply sends_bind in H as (answer & Hq & Hs & H); [|intros; apply sends_query]. rewrite Hs. clear Hs. apply query_out in Hq.
  destruct (String.eqb_spec (str_upper answer) "CONFIRM") as [Hconf|]; cbn [negb] in *; [|by apply not_elem_of_nil in H].
  assert (Htail : forall a v, sends (trace_of ((fun _ : unit => _ ← query (ch_wait ch); after ← query (ch_admin ch contract);
            _ ← assert_equal (str_lower after) (str_lower new) "admin"; mret (Some tt)) a v)) = []).
  { intros a v. cbv beta. do 2 (rewrite sends_then; [apply sends_query|intros]). rewrite sends_then; [apply sends_assert | done]. }
  rewrite (sends_then _ _ _ Htail) in H |- *. apply upgradeAddress_sends in H as [Hone Hw]. split; [done|].
  split; [by exists content|]. by eexists signer, _, _, answer.
Qed.

End Guards.

(** The transaction of the upgrade scripts changes the address at one
    slot and nothing else.  Executed by the contract it succeeds for the
    admin alone; then the low 160 bits of the slot are the new address, the
    bits above them are kept, every other slot is kept; and at slot 0 the
    new address is the admin from then on. *)
Theorem upgrade_tx_effect sender tx s :
  ut_mask tx = ADDRESS_MASK -> 0 <= ut_value tx < 2 ^ 160 -> 0 <= Contract.sload s (ut_slot tx) ->
  match Contract.apply_tx sender tx s with
  | None => sender <> Contract.admin s
  | Some s' => sender = Contract.admin s /\
      Contract.sload s' (ut_slot tx) = Contract.sload s (ut_slot tx) / 2 ^ 160 * 2 ^ 160 + ut_value tx /\
      (forall k, k <> ut_slot tx -> Contract.sload s' k = Contract.sload s k) /\
      (ut_slot tx = 0 -> Contract.admin s' = ut_value tx)
  end.
Proof.
  intros Hm Hv Ho. unfold Contract.apply_tx, Contract.adminSstoreWithMask. rewrite Hm, (masked_address _ _ Hv Ho).
  destruct (Z.eqb_spec sender (Contract.admin s)) as [->|Hne]; [|done]. split; [done|].
  assert (Heq : forall k v (m : Contract.storage), Contract.sload (<[k := v]> m) k = v)
    by (intros k v m; unfold Contract.sload; by rewrite lookup_insert_eq).
  split; [apply Heq|]. split.
  - intros k Hk. unfold Contract.sload. by rewrite lookup_insert_ne.
  - intros H0. unfold Contract.admin. rewrite H0, Heq. by apply land_address.
Qed.

(** ** The signer *)

(** Connecting a signer to another provider keeps its key path, and a
    signer always has one. *)
Lemma connect_path provider path provider' :
  let s := new_EthLedgerSigner provider path in
  sg_path (connect s provider') = sg_path s /\ truthy (sg_path s) = true /\ sg_provider (connect s provider') = js_or provider' VNull.
Proof. cbv zeta. unfold connect, new_EthLedgerSigner. cbn. destruct (truthy path) eqn:E; cbn; by rewrite ?E. Qed.

(** A device that cannot be opened, or does not answer, leaves every request
    of the signer unsettled; one that does is asked. *)
Lemma open_device_retry {W T A} (create : service W T) (app : T -> service W unit) (callback : service W (A + DeviceError)) w e w1 :
  create w = (Throw e, w1) \/ (exists t w0, create w = (Ret t, w0) /\ app t w0 = (Throw e, w1)) ->
  (d ← open_device create app; _retry d callback) w = (Ret Pending, w1, []).
Proof.
  intros H. assert (E : open_device create app w = (Ret (Some e), w1, [])).
  { unfold open_device, try_catch, query. rewrite eff_bind_eq.
    destruct H as [H|(t & w0 & H & H1)]; rewrite H; [done|]. cbn [out_of world_of trace_of fst snd]. rewrite eff_bind_eq. by rewrite H1. }
  by apply (eff_bind_run _ _ _ _ _ _ _ _ _ E).
Qed.

(** ** The retries of the signer *)

(** The callback answers. *)
Definition device_answers {W A} (callback : service W (A + DeviceError)) : Prop :=
  forall w, exists r w', callback w = (Ret r, w').

Lemma retry_loop_runs {W A} (callback : service W (A + DeviceError)) n w : device_answers callback ->
  exists r w' t, retry_loop n callback w = (Ret r, w', t) /\ r <> Pending /\ (calls "ledger" t <= n)%nat /\
    (forall a, r = Resolved a -> exists w1, (callback w1).1 = Ret (inl a)) /\
    (r = Rejected (Error "timeout") -> calls "ledger" t = n \/ exists w1 e, (callback w1).1 = Ret (inr e) /\ de_error e = Error "timeout").
Proof.
  intros Hd. revert w. induction n as [|n IH]; intros w.
  - exists (Rejected (Error "timeout")), w, []. split; [done|]. split; [done|]. split; [by rewrite calls_nil|]. split; [done|]. by left.
  - destruct (Hd w) as (r & w1 & Hr). cbn [retry_loop].
    assert (Hq := perform_run (E := event) (Call "ledger" []) callback w _ _ Hr).
    destruct r as [a|e].
    + exists (Resolved a), w1, ([Call "ledger" []] ++ [])%list. split; [by eapply eff_bind_run|]. split; [done|].
      split; [rewrite app_nil_r, calls_hit, calls_nil; lia|]. split; [|done]. intros a' [= <-]. exists w. by rewrite Hr.
    + destruct (String.eqb (de_id e) "TransportLocked") eqn:El.
      * destruct (IH w1) as (r & w2 & t & E & Hp & Hc & Hres & Hto).
        exists r, w2, ([Call "ledger" []] ++ [Sleep (num_of_Z 100)] ++ t)%list.
        split; [eapply eff_bind_run; [exact Hq|]; cbv beta iota; rewrite El; by eapply eff_bind_run|]. split; [done|].
        cbn [app]. rewrite calls_hit, calls_sleep. split; [lia|]. split; [done|]. intros H. destruct (Hto H) as [->|]; [by left | by right].
      * exists (Rejected (de_error e)), w1, ([Call "ledger" []] ++ [])%list.
        split; [eapply eff_bind_run; [exact Hq|]; cbv beta iota; by rewrite El|]. split; [done|].
        split; [rewrite app_nil_r, calls_hit, calls_nil; lia|]. split; [done|]. intros [= H]. right. exists w, e. by rewrite Hr.
Qed.

(** The signer asks the device at most 50 times.  When the device is
    connected and answers, [_retry] settles after at most 50 calls; a result
    it resolves with is one the device gave, and unless the device itself
    failed that way it times out only after all 50.  When the connection to
    the device was refused it makes no call, and its promise never
    settles. *)
Theorem ledger_retry_bounded {W A} (callback : service W (A + DeviceError)) w : device_answers callback ->
  (exists r w' t, _retry None callback w = (Ret r, w', t) /\ r <> Pending /\ (calls "ledger" t <= 50)%nat /\
    (forall a, r = Resolved a -> exists w1, (callback w1).1 = Ret (inl a)) /\
    (r = Rejected (Error "timeout") -> calls "ledger" t = 50%nat \/ exists w1 e, (callback w1).1 = Ret (inr e) /\ de_error e = Error "timeout")) /\
  forall e, _retry (Some e) callback w = (Ret Pending, w, []).
Proof. intros Hd. split; [by apply retry_loop_runs | done]. Qed.

Module Witness.

(** A device that is locked for as long as the world counts down. *)
Definition locked_device (w : nat) : outcome (string + DeviceError) * nat :=
  match w with
  | O => (Ret (inl "0xabc"), O)
  | S w' => (Ret (inr {| de_id := "TransportLocked"; de_error := Error "Ledger device is locked" |}), w')
  end.

Lemma ledger_retry_bounded_witness :
  (exists r w' t, _retry None locked_device 3%nat = (Ret r, w', t) /\ r <> Pending /\ (calls "ledger" t <= 50)%nat /\
    (forall a, r = Resolved a -> exists w1, (locked_device w1).1 = Ret (inl a)) /\
    (r = Rejected (Error "timeout") -> calls "ledger" t = 50%nat \/ exists w1 e, (locked_device w1).1 = Ret (inr e) /\ de_error e = Error "timeout")) /\
  forall e, _retry (Some e) locked_device 3%nat = (Ret Pending, 3%nat, []).
Proof. apply (ledger_retry_bounded locked_device 3%nat). intros [|w]; by eexists _, _. Defined.

Definition chain0 : Chain unit := {|
  ch_hex n := "0xa1";
  ch_uint s := Ret 11;
  ch_getStorageAt address i w := (Ret 161, w);
  ch_admin address w := (Ret "0xA1", w);
  ch_bridge address w := (Ret "0xB1", w);
  ch_signer path := Ret "0xA1";
  ch_getTransactionCount address w := (Ret 4, w);
  ch_sign tx w := (Ret "signed", w);
  ch_sendTransaction signed w := (Ret tt, w);
  ch_wait w := (Ret tt, w);
  ch_question w := (Ret "confirm", w)
|}.

Definition tx0 : UnsignedTx := {|
  ut_to := "0xC0"; ut_from := "0xA1"; ut_slot := 0; ut_value := 11; ut_mask := ADDRESS_MASK; ut_gasLimit := 50000;
  ut_gasPrice := 150000000000; ut_nonce := 4 |}.

Lemma upgrade_admin_guarded_witness :
  let r := upgradeAdminAddressTo chain0 "0xC0" "0xA1" "0x0B" 0 VUndef tt in
  tx_val tx0 ∈ sends (trace_of r) /\ sends (trace_of r) = [tx_val tx0].
Proof.
  assert (H : tx_val tx0 ∈ sends (trace_of (upgradeAdminAddressTo chain0 "0xC0" "0xA1" "0x0B" 0 VUndef tt)))
    by (vm_compute; constructor).
  split; [exact H|]. exact (proj1 (upgrade_admin_guarded chain0 "0xC0" "0xA1" "0x0B" 0 VUndef tt (tx_val tx0) H)).
Defined.

Lemma upgrade_tx_effect_witness :
  let s := {[ 0 := 2 ^ 200 + 161 ]} : gmap Z Z in
  match Contract.apply_tx 161 tx0 s with
  | None => 161 <> Contract.admin s
  | Some s' => 161 = Contract.admin s /\ Contract.sload s' 0 = Contract.sload s 0 / 2 ^ 160 * 2 ^ 160 + 11 /\
      (forall k, k <> 0 -> Contract.sload s' k = Contract.sload s k) /\ (0 = 0 -> Contract.admin s' = 11)
  end.
Proof.
  intros s. apply (upgrade_tx_effect 161 tx0 s); [reflexivity | cbn; lia | vm_compute; discriminate].
Defined.

End Witness.
