(* ===== verification/Hardhat.v ===== *)
(** * The hardhat project of the prover (contracts/eth/nearprover)

    hardhat.config.js: the networks and the four tasks that run the upgrade
    scripts of Upgrade.v; utils/deploy_contracts.js.  hardhat reads the
    arguments of a task: it is a parameter, with its documented behaviour as
    [HardhatOk].  ethers is a parameter. *)

From S2P Require Import Prelude Robust Utils Upgrade.

(** ** Networks *)

Record Network := {
  nw_url : string;
  nw_accounts : list string;
  nw_gasPrice : option Z;
  nw_gasMultiplier : option Z
}.

Fixpoint str_repeat (n : nat) (s : string) : string := match n with O => "" | S n' => s +:+ str_repeat n' s end.

Section Networks.
(** process.env *)
Context (env : string -> val).

(** [process.env.X || fallback]; the variables are strings. *)
Definition env_or (name fallback : string) : string :=
  match js_or (env name) (VStr fallback) with VStr s => s | _ => fallback end.

Definition ETH_PRIVATE_KEY : string := env_or "ETH_PRIVATE_KEY" (str_repeat 32 "11").
Definition INFURA_API_KEY : string := env_or "INFURA_API_KEY" "".

Definition infura (name : string) : string := "https://" +:+ name +:+ ".infura.io/v3/" +:+ INFURA_API_KEY.

Definition networks : list (string * Network) :=
  [("ropsten", {| nw_url := infura "ropsten"; nw_accounts := ["0x" +:+ ETH_PRIVATE_KEY];
                  nw_gasPrice := Some 50000000000; nw_gasMultiplier := Some 2 |});
   ("mainnet", {| nw_url := infura "mainnet"; nw_accounts := ["0x" +:+ ETH_PRIVATE_KEY];
                  nw_gasPrice := None; nw_gasMultiplier := None |});
   ("goerli", {| nw_url := infura "goerli"; nw_accounts := ["0x" +:+ ETH_PRIVATE_KEY];
                 nw_gasPrice := Some 50000000000; nw_gasMultiplier := Some 2 |})].

End Networks.

(** ** Tasks *)

(** The arguments of one [addParam] call; [types.int] and [types.string]
    are objects. *)
Record TaskParam := {
  tp_name : string;
  tp_description : string;
  tp_default : val;
  tp_type : val;
  tp_isOptional : val
}.

Definition types_int : val := VObj [("name", VStr "int")].
Definition types_string : val := VObj [("name", VStr "string")].

Definition addParam (name description : string) (default type isOptional : val) : TaskParam :=
  {| tp_name := name; tp_description := description; tp_default := default; tp_type := type; tp_isOptional := isOptional |}.

Definition mandatory (name description : string) : TaskParam := addParam name description VUndef VUndef VUndef.

Record Task := { task_name : string; task_description : string; task_params : list TaskParam }.

Definition upgrade_bridge_task : Task := {|
  task_name := "upgrade-provers-bridge-address-to";
  task_description := "Upgrades the provided prover to use the bridge at the provided address";
  task_params :=
    [mandatory "prover" "Prover address";
     mandatory "newBridge" "The address of the new bridge";
     addParam "ledgerKeyPath" "The ledger key path to sign transactions" VUndef VUndef (VBool true)]
|}.

Definition get_bridge_task : Task := {|
  task_name := "get-provers-bridge-address";
  task_description := "Returns the current bridge address used in the prover at the provided address";
  task_params := [mandatory "prover" "Prover address"]
|}.

Definition upgrade_admin_task : Task := {|
  task_name := "upgrade-admin-to";
  task_description := "Upgrades the admin address on X contract to the provided address";
  task_params :=
    [mandatory "contractAddress" "Contract address";
     mandatory "currentAdminAddress" "The address of the current admin";
     mandatory "newAdminAddress" "The address of the new admin";
     addParam "slot" "The admin address slot" VUndef VUndef types_int;
     addParam "ledgerKeyPath" "The ledger key path to sign transactions" VUndef types_string (VBool true)]
|}.

Definition get_slots_task : Task := {|
  task_name := "get-slots-data";
  task_description := "Display slots";
  task_params :=
    [mandatory "contractAddress" "Contract address";
     mandatory "numOfSlotsToDisplay" "Number of slots to fetch"]
|}.

(** hardhat takes a parameter for optional when [isOptional] is truthy; left
    out, it is whether there is a default value. *)
Definition is_optional (p : TaskParam) : bool :=
  match tp_isOptional p with
  | VUndef => match tp_default p with VUndef => false | _ => true end
  | v => truthy v
  end.

(** The type of a parameter that has none is [string]. *)
Definition is_string (p : TaskParam) : Prop := tp_type p = VUndef \/ tp_type p = types_string.

Section Actions.
Context {W : Type} (ch : Chain W).
(** The number that [Number] and ethers make of a slot, and the number of
    passes of [i < n]. *)
Context (slot_number : val -> outcome Z) (count : val -> nat).

(** An argument where the scripts use a string. *)
Definition text (v : val) : outcome string := match v with VStr s => Ret s | _ => Throw (TypeError "not a string") end.

Definition upgrade_bridge_action (taskArgs : string -> val) : eff W event unit :=
  prover ← lift (text (taskArgs "prover"));
  newBridge ← lift (text (taskArgs "newBridge"));
  upgradeProversBridgeAddressTo ch prover newBridge (taskArgs "ledgerKeyPath").

Definition get_bridge_action (taskArgs : string -> val) : eff W event unit :=
  prover ← lift (text (taskArgs "prover"));
  bridgeAddress ← getProversBridgeAddress ch prover;
  _ ← emit (Call "log" [VStr ("Prover address: " +:+ prover)]);
  emit (Call "log" [VStr ("Current bridge address: " +:+ bridgeAddress)]).

Definition upgrade_admin_action (taskArgs : string -> val) : eff W event unit :=
  contractAddress ← lift (text (taskArgs "contractAddress"));
  currentAdminAddress ← lift (text (taskArgs "currentAdminAddress"));
  newAdminAddress ← lift (text (taskArgs "newAdminAddress"));
  adminAddressSlot ← lift (slot_number (taskArgs "slot"));
  _ ← upgradeAdminAddressTo ch contractAddress currentAdminAddress newAdminAddress adminAddressSlot (taskArgs "ledgerKeyPath");
  mret tt.

Definition get_slots_action (taskArgs : string -> val) : eff W event unit :=
  contractAddress ← lift (text (taskArgs "contractAddress"));
  getSlotsData ch contractAddress (count (taskArgs "numOfSlotsToDisplay")).

(** [hardhat <task> --name value ...]: the arguments are read, then the
    action runs. *)
Context (parse_args : Task -> list (string * string) -> outcome (string -> val)).

Definition run_task (t : Task) (action : (string -> val) -> eff W event unit) (given : list (string * string)) : eff W event unit :=
  taskArgs ← lift (parse_args t given); action taskArgs.

End Actions.

(** What hardhat's documentation says of [parse_args]: a missing parameter
    that is not optional is an error; otherwise the given values of string
    parameters are passed on as they are and missing optional ones are their
    default value. *)
Record HardhatOk (parse_args : Task -> list (string * string) -> outcome (string -> val)) : Prop := {
  parse_missing t given p : p ∈ task_params t -> is_optional p = false -> assoc (tp_name p) given = None ->
    exists e, parse_args t given = Throw e;
  parse_given t given : NoDup (map tp_name (task_params t)) ->
    Forall (fun p => is_string p /\ (is_optional p = true \/ is_Some (assoc (tp_name p) given))) (task_params t) ->
    exists a, parse_args t given = Ret a /\
      Forall (fun p => a (tp_name p) = match assoc (tp_name p) given with Some s => VStr s | None => tp_default p end) (task_params t)
}.

(** ** utils/deploy_contracts.js *)

(** ethers: the first signer, its balance, deploying a contract by name with
    its arguments (giving its address) and waiting for it. *)
Record Ethers (W : Type) := {
  et_getSigner : service W string;
  et_getBalance : string -> service W Z;
  et_deploy : string -> list val -> service W string;
  et_deployed : string -> service W unit
}.

Arguments et_getSigner {W}.
Arguments et_getBalance {W}.
Arguments et_deploy {W}.
Arguments et_deployed {W}.

Section Deploy.
Context {W : Type} (et : Ethers W).

Definition main : eff W event unit :=
  deployerAccount ← query (et_getSigner et);
  _ ← query (et_getBalance et deployerAccount);
  nearBridgeMock ← perform (Call "deploy" [VStr "NearBridgeMock"]) (et_deploy et "NearBridgeMock" []);
  _ ← query (et_deployed et nearBridgeMock);
  let args := [VStr nearBridgeMock; VStr deployerAccount; VNum 0] in
  nearProver ← perform (Call "deploy" (VStr "NearProver" :: args)) (et_deploy et "NearProver" args);
  query (et_deployed et nearProver).

Definition deploy_contracts : eff W event unit :=
  try_catch (_ ← main; exit 0) (fun error => _ ← emit (Call "error" [VStr (err_message error)]); exit 1).

End Deploy.

(** ** Properties *)

(** A task refuses to run without one of the parameters it lists as
    mandatory: nothing is read from the chain and nothing is sent. *)
Theorem task_needs_mandatory {W} parse (action : (string -> val) -> eff W event unit) t given p w :
  HardhatOk parse -> p ∈ task_params t -> is_optional p = false -> assoc (tp_name p) given = None ->
  exists e, run_task parse t action given w = (Throw e, w, []).
Proof. intros Hh Hp Ho Hn. destruct (parse_missing _ Hh t given p Hp Ho Hn) as [e E]. exists e. unfold run_task. by rewrite E. Qed.

(** The slot is not one of them: [types.int] stands where [isOptional] is
    expected, so [upgrade-admin-to] accepts a command line without a slot
    and runs with [undefined], and a slot that is given arrives as text. *)
Theorem admin_slot_optional {W} (ch : Chain W) slot_number parse contract current new w :
  HardhatOk parse ->
  let base := [("contractAddress", contract); ("currentAdminAddress", current); ("newAdminAddress", new)] in
  (exists a, a "slot" = VUndef /\
    run_task parse upgrade_admin_task (upgrade_admin_action ch slot_number) base w = upgrade_admin_action ch slot_number a w) /\
  (forall slot, exists a, a "slot" = VStr slot /\
    run_task parse upgrade_admin_task (upgrade_admin_action ch slot_number) (base ++ [("slot", slot)]) w =
      upgrade_admin_action ch slot_number a w).
Proof.
  intros Hh base.
  assert (H : forall given a, parse upgrade_admin_task given = Ret a ->
    run_task parse upgrade_admin_task (upgrade_admin_action ch slot_number) given w = upgrade_admin_action ch slot_number a w).
  { intros given a E. unfold run_task. rewrite E, eff_bind_eq. cbn [lift]. by destruct (upgrade_admin_action ch slot_number a w) as [[o w'] t]. }
  assert (Hp : forall given, Forall (fun n => is_Some (assoc n given)) ["contractAddress"; "currentAdminAddress"; "newAdminAddress"] ->
    exists a, parse upgrade_admin_task given = Ret a /\ a "slot" = match assoc "slot" given with Some s => VStr s | None => VUndef end).
  { intros given Hg. destruct (parse_given _ Hh upgrade_admin_task given) as (a & E & Ha); [apply (bool_decide_unpack _); vm_compute; exact I| |].
    - repeat (apply list.Forall_cons in Hg as [? Hg]).
      repeat (apply list.Forall_cons; split); try apply Forall_nil; (split; [by (left + right) | by (left + right)]).
    - exists a. split; [done|]. do 3 (apply list.Forall_cons in Ha as [_ Ha]). by apply list.Forall_cons in Ha as [Ha _]. }
  split.
  - destruct (Hp base) as (a & E & Ha); [by repeat constructor|]. exists a. split; [exact Ha | by apply H].
  - intros slot. destruct (Hp (base ++ [("slot", slot)])%list) as (a & E & Ha); [by repeat constructor|]. exists a. split; [exact Ha | by apply H].
Qed.

(** The script that deploys the prover always ends the process, with 0
    exactly when both contracts were deployed: the prover then trusts the
    mock bridge deployed just before it and its deployer is the admin. *)
Definition settles {W A} (op : service W A) : Prop := forall w, (exists a, (op w).1 = Ret a) \/ exists e, (op w).1 = Throw e.

Lemma settles_query {W A} (op : service W A) w : settles op ->
  (exists a w', query (E := event) op w = (Ret a, w', [])) \/ exists e w', query (E := event) op w = (Throw e, w', []).
Proof.
  intros H. unfold query. destruct (H w) as [[a Ha]|[e He]]; destruct (op w) as [o w']; cbn in *; subst; [left | right]; by eexists _, _.
Qed.

Lemma settles_perform {W A} ev (op : service W A) w : settles op ->
  (exists a w', perform (E := event) ev op w = (Ret a, w', [ev])) \/ exists e w', perform (E := event) ev op w = (Throw e, w', [ev]).
Proof.
  intros H. unfold perform. destruct (H w) as [[a Ha]|[e He]]; destruct (op w) as [o w']; cbn in *; subst; [left | right]; by eexists _, _.
Qed.

Record ethers_settle {W} (et : Ethers W) : Prop := {
  getSigner_settles : settles (et_getSigner et);
  getBalance_settles a : settles (et_getBalance et a);
  deploy_settles n args : settles (et_deploy et n args);
  deployed_settles a : settles (et_deployed et a)
}.

Definition deploys (t : list event) : list (list val) :=
  omap (fun e => match e with Call "deploy" args => Some args | _ => None end) t.

Lemma main_settles {W} (et : Ethers W) w : ethers_settle et ->
  exists w' t, (main et w = (Ret tt, w', t) /\ exists bridge deployer, (exists w1, (et_getSigner et w1).1 = Ret deployer) /\
      deploys t = [[VStr "NearBridgeMock"]; [VStr "NearProver"; VStr bridge; VStr deployer; VNum 0]]) \/
    exists e, main et w = (Throw e, w', t).
Proof.
  intros Hs. unfold main.
  destruct (settles_query _ w (getSigner_settles _ Hs)) as [(d & w1 & E1)|(e & w1 & E1)]; rewrite eff_bind_eq, E1; [|eauto].
  destruct (settles_query _ w1 (getBalance_settles _ Hs d)) as [(b & w2 & E2)|(e & w2 & E2)]; rewrite eff_bind_eq, E2; [|eauto].
  destruct (settles_perform (Call "deploy" [VStr "NearBridgeMock"]) _ w2 (deploy_settles _ Hs "NearBridgeMock" [])) as [(m & w3 & E3)|(e & w3 & E3)];
    rewrite eff_bind_eq, E3; [|eauto].
  destruct (settles_query _ w3 (deployed_settles _ Hs m)) as [(u & w4 & E4)|(e & w4 & E4)]; rewrite eff_bind_eq, E4; [|eauto].
  cbv zeta. destruct (settles_perform (Call "deploy" [VStr "NearProver"; VStr m; VStr d; VNum 0]) _ w4
    (deploy_settles _ Hs "NearProver" [VStr m; VStr d; VNum 0])) as [(p & w5 & E5)|(e & w5 & E5)]; rewrite eff_bind_eq, E5; [|eauto].
  destruct (settles_query _ w5 (deployed_settles _ Hs p)) as [([] & w6 & E6)|(e & w6 & E6)]; rewrite E6; [|eauto].
  eexists _, _. left. split; [reflexivity|]. exists m, d. split; [|done]. exists w. apply query_run_inv in E1 as [E1 _]. by rewrite E1.
Qed.

Theorem deploy_contracts_exits {W} (et : Ethers W) w : ethers_settle et ->
  exists code w' t, deploy_contracts et w = (Exit code, w', t) /\ (code = 0 \/ code = 1) /\
    (code = 0 -> exists bridge deployer, (exists w1, (et_getSigner et w1).1 = Ret deployer) /\
      deploys t = [[VStr "NearBridgeMock"]; [VStr "NearProver"; VStr bridge; VStr deployer; VNum 0]]).
Proof.
  intros Hs. unfold deploy_contracts, try_catch. rewrite eff_bind_eq.
  destruct (main_settles et w Hs) as (w' & t & [[-> Hd]|[e ->]]); cbn [out_of world_of trace_of fst snd exit lift].
  - exists 0, w', (t ++ [])%list. rewrite app_nil_r. auto.
  - rewrite emit_bind. cbn. eexists 1, w', _. split; [reflexivity|]. split; [by right | done].
Qed.

(** ** Witnesses *)

Module Witness.

Definition parse0 (t : Task) (given : list (string * string)) : outcome (string -> val) :=
  if forallb (fun p => is_optional p || bool_decide (is_Some (assoc (tp_name p) given))) (task_params t) then
    Ret (fun n => match assoc n given with
                  | Some s => VStr s
                  | None => default VUndef (assoc n (map (fun p => (tp_name p, tp_default p)) (task_params t)))
                  end)
  else Throw (Error "HH306: The task parameter expects a value, but none was passed.").

Lemma assoc_param (l : list TaskParam) p : NoDup (map tp_name l) -> p ∈ l ->
  assoc (tp_name p) (map (fun p => (tp_name p, tp_default p)) l) = Some (tp_default p).
Proof.
  induction l as [|q l IH]; intros Hnd Hp; [by apply not_elem_of_nil in Hp|]. cbn in *. apply list.NoDup_cons in Hnd as [Hn Hnd].
  apply elem_of_cons in Hp as [->|Hp]; [by rewrite String.eqb_refl|].
  destruct (String.eqb_spec (tp_name p) (tp_name q)) as [E|]; [|by apply IH].
  exfalso. apply Hn. rewrite <- E. by apply list_elem_of_fmap_2.
Qed.

Lemma parse0_ok : HardhatOk parse0.
Proof.
  split.
  - intros t given p Hp Ho Hn. unfold parse0. replace (forallb _ _) with false; [by eexists|]. symmetry. apply not_true_iff_false.
    intros H. rewrite forallb_forall in H. apply list_elem_of_In in Hp. specialize (H p Hp). rewrite Ho, Hn in H. discriminate.
  - intros t given Hnd Hg. unfold parse0. rewrite list.Forall_forall in Hg. replace (forallb _ _) with true.
    + eexists. split; [reflexivity|]. apply list.Forall_forall. intros p Hp. destruct (assoc (tp_name p) given); [done|].
      by rewrite (assoc_param _ p).
    + symmetry. apply forallb_forall. intros p Hp. apply list_elem_of_In in Hp. destruct (Hg p Hp) as [_ [->|Hs]]; [done|].
      rewrite (bool_decide_eq_true_2 _ Hs). apply orb_true_r.
Qed.

Definition base0 : list (string * string) := [("contractAddress", "0xC0"); ("currentAdminAddress", "0xa1"); ("newAdminAddress", "0xb2")].

Lemma admin_slot_optional_witness :
  (exists a, a "slot" = VUndef /\
    run_task parse0 upgrade_admin_task (upgrade_admin_action Upgrade.Witness.chain0 (fun _ => Ret 0)) base0 tt =
      upgrade_admin_action Upgrade.Witness.chain0 (fun _ => Ret 0) a tt) /\
  (forall slot, exists a, a "slot" = VStr slot /\
    run_task parse0 upgrade_admin_task (upgrade_admin_action Upgrade.Witness.chain0 (fun _ => Ret 0)) (base0 ++ [("slot", slot)]) tt =
      upgrade_admin_action Upgrade.Witness.chain0 (fun _ => Ret 0) a tt).
Proof. exact (admin_slot_optional Upgrade.Witness.chain0 (fun _ => Ret 0) parse0 "0xC0" "0xa1" "0xb2" tt parse0_ok). Defined.

Definition ethers0 : Ethers nat := {|
  et_getSigner n := (Ret "0xD0", n);
  et_getBalance _ n := (Ret 5, n);
  et_deploy name _ n := (Ret name, S n);
  et_deployed _ n := (Ret tt, n)
|}.

Lemma deploy_contracts_exits_witness :
  exists code w' t, deploy_contracts ethers0 0%nat = (Exit code, w', t) /\ (code = 0 \/ code = 1) /\
    (code = 0 -> exists bridge deployer, (exists w1, (et_getSigner ethers0 w1).1 = Ret deployer) /\
      deploys t = [[VStr "NearBridgeMock"]; [VStr "NearProver"; VStr bridge; VStr deployer; VNum 0]]).
Proof. apply (deploy_contracts_exits ethers0 0%nat). split; intros; intros w; left; by eexists. Defined.

End Witness.
