(* ===== verification/StartCommands.v ===== *)
(** * The foreground branches of the start commands

    cli/commands/start: with [daemon] not ["true"] a command sets a service
    up and runs its endless loop in the process itself.  This file composes
    the Ethereum-to-NEAR relay and the watchdog with their set-up; the
    NEAR-to-Ethereum relay has its own in Near2EthRelay.v, the address
    watcher in AddressWatcher.v. *)

From S2P Require Import Prelude Interfaces Borsh BinarySearch Robust Metrics NearTx Tokens EthOnNearClient Eth2NearRelay Watchdog Milestones.

(** ** The Ethereum-to-NEAR relay *)

Record Eth2NearArgs := {
  ea_nearMasterAccount : string;
  ea_nearMasterSk : val;
  ea_nearClientAccount : string;
  ea_totalSubmitBlock : string;
  ea_gasPerTransaction : Z;
  ea_metricsPort : val
}.

Section Eth2Near.
Context {N : Type} (near : NearNode N) (findAccessKey : service N (option Z)) (eth : Web3Node (KeyWorld N)) (ethNodeUrl : string).
Context (rpc_getBlockByNumber : Z -> service (KeyWorld N) val) (header_rlp : string -> bool -> val -> outcome (list Z)).
Context (ethashproof : list Z -> service (KeyWorld N) ParsedBlock).
Context (account_signAndSend : string -> list FunctionCall -> service (KeyWorld N) unit).
Context (publicKey : string -> outcome string) (parseInt : string -> option Z).
Context {BW : BinaryWriter} {BN : BnLib} {HX : HexLib}.

Abbreviation prog := (eff (KeyWorld N) event).
Abbreviation round_of contractId relay := (Eth2NearRelay.round near eth ethNodeUrl rpc_getBlockByNumber header_rlp ethashproof contractId relay account_signAndSend).

(** [while (true)] of [run]; a round has the same fuel for its own loops. *)
Fixpoint eth2near_rounds (fuel : nat) (contractId : string) (relay : Eth2NearRelay) (previousBlockNumber : option Z) : prog unit :=
  match fuel with
  | O => stuck
  | S fuel' =>
      previousBlockNumber ← round_of contractId relay fuel previousBlockNumber;
      eth2near_rounds fuel' contractId relay previousBlockNumber
  end.

Definition StartEth2NearRelay_foreground (fuel : nat) (a : Eth2NearArgs) : prog unit :=
  _ ← lift (key_pair publicKey (ea_nearMasterSk a));
  _ ← accessKeyInit (ea_nearMasterAccount a) findAccessKey;
  relay ← lift (Eth2NearRelay.initialize parseInt (ea_totalSubmitBlock a) (ea_gasPerTransaction a));
  _ ← run_metrics (ea_metricsPort a);
  eth2near_rounds fuel (ea_nearClientAccount a) relay None.

(** *** The gas of a batch *)

Definition SUBMIT : list string := ["signAndSendTransaction"].

#[local] Instance submit_unmarked : Unmarked SUBMIT := eq_refl.

(** The number of actions is that of a batch whose gas fits in a block. *)
Definition batch_fits (gas : Z) (call : string * list val) : Prop :=
  exists n, call.2 = [VNum n] /\ n * gas <= MAX_GAS_PER_BLOCK.

Definition all_fit (gas : Z) (w w' : KeyWorld N) (t : list event) : Prop := Forall (batch_fits gas) (milestones SUBMIT t).

#[local] Instance all_fit_rel gas : TraceRel (all_fit gas).
Proof. split; [by intros w; apply Forall_nil|]. unfold all_fit. intros. rewrite milestones_app. by apply Forall_app. Qed.

Lemma silent_fits {A} gas (m : prog A) : respects (silent SUBMIT) m -> respects (all_fit gas) m.
Proof using. intros Hm w. unfold all_fit. rewrite (Hm w). by apply Forall_nil. Qed.

Lemma search_silent {W} (p : Z -> eff W event bool) fuel lo hi est :
  (forall v, respects (silent SUBMIT) (p v)) -> respects (silent SUBMIT) (binarySearchWithEstimate p fuel lo hi est).
Proof using.
  intros Hp.
  assert (Hd : forall n l h s, respects (silent SUBMIT) (stepDown p n l h s)) by (induction n; intros; cbn [stepDown]; silent_walk; auto).
  assert (Hu : forall n l h s, respects (silent SUBMIT) (stepUp p n l h s)) by (induction n; intros; cbn [stepUp]; silent_walk; auto).
  assert (Hb : forall n l h, respects (silent SUBMIT) (bisect p n l h)) by (induction n; intros; cbn [bisect]; silent_walk; auto).
  unfold binarySearchWithEstimate. silent_walk; auto.
Qed.

Lemma getEthBlock_silent n : respects (silent SUBMIT) (getEthBlock rpc_getBlockByNumber n).
Proof using.
  unfold getEthBlock. generalize 10%nat, VUndef. intros k. induction k as [|k IH]; intros v; cbn [getEthBlock_loop]; silent_walk.
Qed.

Lemma predicate_silent contractId fuel head v :
  respects (silent SUBMIT) (predicate near rpc_getBlockByNumber contractId fuel head v).
Proof using.
  revert v. induction fuel as [|fuel IH]; intros v; cbn [predicate]; unfold known_hashes, view; silent_walk; try apply IH; try apply getEthBlock_silent.
Qed.

Lemma get_heights_silent contractId : respects (silent SUBMIT) (get_heights near eth ethNodeUrl contractId).
Proof using.
  unfold get_heights, last_block_number, view, getBlockNumber, set_gauge. silent_walk. apply reconnecting_silent; [apply _ | silent_walk].
Qed.

Lemma getParseBlocks_silent ns : respects (silent SUBMIT) (getParseBlocks rpc_getBlockByNumber header_rlp ethashproof ns).
Proof using. induction ns as [|i ns IH]; cbn [getParseBlocks]; unfold getParseBlock; silent_walk; try apply getEthBlock_silent; exact IH. Qed.

Lemma submitBlocks_length relay blocks actions : submitBlocks relay blocks = Ret actions -> length actions = length blocks.
Proof using.
  revert actions. induction blocks as [|[b|] blocks IH]; cbn [submitBlocks]; intros actions H; [by apply Ret_inj in H as <- | | discriminate].
  apply outcome_bind_inv in H as (a & _ & H). apply outcome_bind_inv in H as (l & Hl & H). apply Ret_inj in H as <-. cbn. by rewrite (IH l Hl).
Qed.

Lemma length_from n k : length (from n k) = k.
Proof using. revert n. induction k as [|k IH]; intros n; cbn; [done | by rewrite IH]. Qed.

Lemma batch_length relay client chain : 1 <= totalSubmitBlock relay -> Z.of_nat (length (batch relay client chain)) <= totalSubmitBlock relay.
Proof using. intros Ht. unfold batch, endBlock. rewrite length_from. destruct (client <? 5); lia. Qed.

Lemma submit_batch_fits gas contractId relay client chain :
  0 < gas -> 1 <= totalSubmitBlock relay -> totalSubmitBlock relay * gas <= MAX_GAS_PER_BLOCK ->
  respects (all_fit gas) (submit_batch rpc_getBlockByNumber header_rlp ethashproof contractId relay account_signAndSend client chain).
Proof using.
  intros Hg Ht Hfit. unfold submit_batch. apply respects_try; [apply _ | | intros e; apply silent_fits; unfold inc_counter; silent_walk].
  apply respects_bind_ret; [apply _ | apply silent_fits, getParseBlocks_silent |]. intros w blocks Hb.
  apply respects_bind_ret; [apply _ | apply respects_lift, _ |]. intros w' actions Ha.
  apply respects_bind; [apply _ | | intros u; apply respects_ret, _]. apply respects_perform. intros w2. apply Forall_singleton.
  eexists. split; [reflexivity|]. cbn in Ha. rewrite (submitBlocks_length _ _ _ Ha), (getParseBlocks_length _ _ _ _ _ _ Hb).
  pose proof (batch_length relay client chain Ht). nia.
Qed.

Lemma rounds_fit gas fuel contractId relay previous :
  0 < gas -> 1 <= totalSubmitBlock relay -> totalSubmitBlock relay * gas <= MAX_GAS_PER_BLOCK ->
  respects (all_fit gas) (eth2near_rounds fuel contractId relay previous).
Proof using.
  intros Hg Ht Hfit. revert previous. induction fuel as [|fuel IH]; intros previous; cbn [eth2near_rounds]; [apply respects_lift, _|].
  apply respects_bind; [apply _ | | exact IH]. unfold Eth2NearRelay.round.
  apply respects_bind; [apply _ | apply silent_fits, get_heights_silent |]. intros [[head chain]|]; [|apply respects_ret, _].
  apply respects_bind; [apply _ | apply silent_fits, search_silent; intros v; apply predicate_silent |]. intros delta. cbv zeta.
  apply respects_bind; [apply _ | | intros u; apply respects_ret, _]. destruct (_ <? _); [|apply silent_fits; silent_walk].
  apply respects_bind; [apply _ | by apply submit_batch_fits | intros b; apply respects_ret, _].
Qed.

(** C37: the relay never sends a batch that exceeds the gas of a NEAR block.
    Whatever the nodes answer and however long the command runs: with a
    positive gas per transaction and a positive number of blocks, every
    transaction of [start eth2near-relay] has so few actions that their gas
    together is at most [MAX_GAS_PER_BLOCK]. *)
Theorem eth2near_batches_fit fuel a w total :
  0 < ea_gasPerTransaction a -> parseInt (ea_totalSubmitBlock a) = Some total -> 1 <= total ->
  Forall (fun call => exists n, call.2 = [VNum n] /\ n * ea_gasPerTransaction a <= MAX_GAS_PER_BLOCK)
    (milestones SUBMIT (trace_of (StartEth2NearRelay_foreground fuel a w))).
Proof using.
  intros Hg Hp Ht. revert w.
  change (respects (all_fit (ea_gasPerTransaction a)) (StartEth2NearRelay_foreground fuel a)). unfold StartEth2NearRelay_foreground.
  apply respects_bind; [apply _ | apply respects_lift, _ |]. intros _.
  apply respects_bind; [apply _ | apply silent_fits; silent_walk |]. intros _.
  apply respects_bind_ret; [apply _ | apply respects_lift, _ |]. intros w relay Hr.
  destruct (initialize_gas_bound _ _ _ _ Hg Hr) as (_ & Hp' & Hfit).
  apply respects_bind; [apply _ | apply silent_fits; unfold run_metrics, new_HttpPrometheus; silent_walk | intros _].
  apply rounds_fit; [done | congruence | done].
Qed.
End Eth2Near.

(** ** The watchdog *)

Record WatchdogArgs := {
  wa_ethMasterSk : string;
  wa_ethClientArtifactPath : string;
  wa_ethClientAddress : string;
  watchdogDelay : val;
  watchdogErrorDelay : val;
  wa_metricsPort : val
}.

Section StartWatchdog.
Context {W : Type} (newWatched : string -> string -> string -> service W (WatchdogClient W)).
Context (privateKeyToAccount : string -> outcome string) (toNumber : val -> Z).

Definition watchdog_initialize (a : WatchdogArgs) : eff W event (WatchdogClient W) :=
  account ← lift (privateKeyToAccount (normalizeEthKey (wa_ethMasterSk a)));
  query (newWatched (wa_ethClientArtifactPath a) (wa_ethClientAddress a) account).

(** [while (true)] of [run] *)
Fixpoint watchdog_run (fuel : nat) (client : WatchdogClient W) (a : WatchdogArgs) : eff W event unit :=
  match fuel with
  | O => stuck
  | S fuel' =>
      _ ← Watchdog.round client (toNumber (watchdogDelay a)) (toNumber (watchdogErrorDelay a)) fuel;
      watchdog_run fuel' client a
  end.

Definition StartWatchdog_foreground (fuel : nat) (a : WatchdogArgs) : eff W event unit :=
  client ← watchdog_initialize a;
  _ ← Watchdog.run_metrics (wa_metricsPort a);
  watchdog_run fuel client a.

End StartWatchdog.

(** ** Witness *)

Module Witness.
Import Reference NearTx.Witness Eth2NearRelay.Witness.

(** The client contract is at block 70 and knows the blocks up to it, the
    chain is at 80. *)
Definition query0 (path : string) (args : list Z) : list Z :=
  if str_includes "last_block_number" path then le_bytes 8 70 else fork_query path args.

Definition near0 : NearNode (list string) := {|
  near_status := near_status pool;
  near_sign := sign_pool;
  near_broadcast := near_broadcast pool;
  near_txStatus := near_txStatus pool;
  near_query := fun path args n => (Ret {| qr_result := Some (query0 path args); qr_logs := [] |}, n)
|}.

Definition eth0 : Web3Node (KeyWorld (list string)) := {|
  node_getBlockNumber w := (Ret (VNum 80), w);
  node_getBlock _ w := (Ret VNull, w);
  node_getTransactionReceipt _ w := (Ret VNull, w);
  node_getGasPrice w := (Ret 1, w);
  node_getTransactionCount _ w := (Ret 0, w);
  node_call _ w := (Ret VUndef, w);
  node_sendTransaction _ w := (None, w)
|}.

Definition args0 : Eth2NearArgs := {|
  ea_nearMasterAccount := "master"; ea_nearMasterSk := VStr "ed25519:key"; ea_nearClientAccount := "client"; ea_totalSubmitBlock := "4";
  ea_gasPerTransaction := 72000000000000; ea_metricsPort := VStr "null"
|}.

Abbreviation start0 := (StartEth2NearRelay_foreground near0 (fun n => (Ret (Some 7), n)) eth0 "http://localhost" fork_rpc
  (fun _ _ _ => Ret [249; 2; 1]) (fun _ w => (Ret (raw_block "0xf90201" 2 [raw_ff; raw_ff]), w)) (fun _ _ w => (Ret tt, w)) (fun sk => Ret sk)
  (fun _ => Some 4)).

(** The first round sends four blocks. *)
Example start0_run : milestones SUBMIT (trace_of (start0 9 args0 (mkKey 0 []))) !! 0%nat = Some ("signAndSendTransaction", [VNum 4]).
Proof. vm_compute. reflexivity. Qed.

Lemma eth2near_batches_fit_witness :
  Forall (fun call => exists n, call.2 = [VNum n] /\ n * 72000000000000 <= MAX_GAS_PER_BLOCK) (milestones SUBMIT (trace_of (start0 9 args0 (mkKey 0 [])))).
Proof.
  apply (eth2near_batches_fit near0 (fun n => (Ret (Some 7), n)) eth0 "http://localhost" fork_rpc (fun _ _ _ => Ret [249; 2; 1])
    (fun _ w => (Ret (raw_block "0xf90201" 2 [raw_ff; raw_ff]), w)) (fun _ _ w => (Ret tt, w)) (fun sk => Ret sk) (fun _ => Some 4)
    9 args0 (mkKey 0 []) 4); [reflexivity | reflexivity | lia].
Defined.

End Witness.
