(* ===== verification/LocalCommands.v ===== *)
(** * The commands of a developer's machine

    cli/commands/clean.js, prepare.js and danger-deploy-myerc20.js,
    cli/commands/start/near.js, ganache.js and the URLs of helpers.js,
    [getScript] of utils/index.js and utils/get-config.js.  The shell,
    the file system, pm2 and JSON are parameters; [LocalHostOk] states what
    the clean command relies on. *)

From stdpp Require Import pretty.
From S2P Require Import Prelude Interfaces Robust Setup Config Cli.

(** ** The machine *)

(** [host_exec] is [execSync] (a command that fails throws), [host_spawn]
    the asynchronous [exec] with an environment, [host_request] an HTTP
    request with the error its callback gets, [host_killDaemon] the error
    of pm2's [killDaemon]. *)
Class LocalHost (W : Type) := {
  host_exec : string -> service W string;
  host_spawn : string -> list (string * string) -> service W unit;
  host_request : string -> service W (option js_error);
  host_readFile : string -> service W string;
  host_writeFile : string -> string -> service W unit;
  host_killDaemon : service W (option js_error)
}.

(** [http://localhost:%d] *)
Definition NEAR_PORT : Z := 3030.
Definition GANACHE_PORT : Z := 9545.

Definition localURL (port : Z) : string := "http://localhost:" +:+ pretty port.
Definition getLocalNearNodeURL : string := localURL NEAR_PORT.
Definition getLocalGanacheNodeURL : string := localURL GANACHE_PORT.

(** The two directories and the two files that [clean] removes. *)
Definition STATE_DIRS : list string := ["~/.rainbow"; "~/.near/localnet"].
Definition TRANSFER_FILES : list string := ["/tmp/near2ethtransfer.out"; "/tmp/eth2neartransfer.out"].

Definition words (l : list string) : string := String.concat " " l.

(** [a && b] *)
Definition js_and (a b : val) : val := if truthy a then b else a.

(** [o[k] = v] in strict mode; what is set on an array is not an element. *)
Definition set_prop (o : val) (k : string) (v : val) : outcome val :=
  match o with
  | VObj fs => Ret (VObj (assoc_set k v fs))
  | VArr _ | VBytes _ => Ret o
  | _ => Throw (TypeError ("Cannot create property '" +:+ k +:+ "'"))
  end.

Section Commands.
Context {W : Type} {PM : ProcessManager W} {LH : LocalHost W}.

Definition execSync (command : string) : eff W event string := perform (Call "execSync" [VStr command]) (host_exec command).

(** ** clean *)

(** [CleanCommand.execute]; an error of [connect] is only logged. *)
Definition clean : eff W event unit :=
  _ ← query pm_connect;
  err ← perform (Call "pm2.killDaemon" []) host_killDaemon;
  match (err : option js_error) with
  | Some _ => exit 1
  | None =>
      _ ← query pm_disconnect;
      _ ← try_catch (_ ← execSync "nearup stop"; mret tt) (fun _ => mret tt);
      _ ← execSync ("rm -rf " +:+ words STATE_DIRS);
      _ ← execSync ("rm -f " +:+ words TRANSFER_FILES);
      exit 0
  end.

(** ** prepare *)

(** [path.resolve], [path.join] and the directory of utils. *)
Context (path_resolve : string -> string) (path_join : string -> string -> string) (utils_dir : string).

Definition getScript (name : string) : string := path_resolve (path_join utils_dir ("scripts/" +:+ name +:+ ".sh")).

(** The pairs [exec] hands to the child: those of [undefined] are left
    out, the others are strings. *)
Definition env_pairs (env : list (string * val)) : list (string * string) :=
  omap (fun p => match p.2 with VStr s => Some (p.1, s) | _ => None end) env.

(** [env]: a copy of the process's, with [LOCAL_CORE_SRC]. *)
Definition prepare_env (env : list (string * string)) (coreSrc : val) : list (string * val) :=
  let copy := fold_left (fun l p => assoc_set p.1 (VStr p.2) l) env [] in
  assoc_set "LOCAL_CORE_SRC" (js_and coreSrc (match coreSrc with VStr s => VStr (path_resolve s) | v => v end)) copy.

Definition prepare (env : list (string * string)) (coreSrc : val) : eff W event unit :=
  let shell := "bash " +:+ getScript "prepare" in
  perform (Call "exec" [VStr shell]) (host_spawn shell (env_pairs (prepare_env env coreSrc))).

(** ** start near-node *)

Context (HOME : string) (JSON_parse : string -> outcome val) (JSON_stringify : val -> string).

Definition NEAR_BINARY_PATH : string := path_join HOME ".rainbow/core/target/debug".
Definition configPath : string := path_join HOME ".near/localnet/node0/config.json".

Definition initConfigCommand : string :=
  path_join NEAR_BINARY_PATH "neard" +:+ " --home " +:+ path_join HOME "/.near/localnet" +:+ " testnet  --v 1".

Definition startNodeCommand : string := "nearup run localnet --num-nodes 1 --binary-path " +:+ NEAR_BINARY_PATH.

(** The archival branch. *)
Definition set_archive : eff W event unit :=
  content ← query (host_readFile configPath);
  config ← lift (JSON_parse content);
  config ← lift (set_prop config "archive" (VBool true));
  perform (Call "writeFileSync" [VStr configPath; config]) (host_writeFile configPath (JSON_stringify config)).

(** The callback of the request. *)
Definition near_node_callback (archival : val) : eff W event unit :=
  err ← query (host_request getLocalNearNodeURL);
  match (err : option js_error) with
  | None => mret tt
  | Some _ =>
      _ ← execSync initConfigCommand;
      _ ← match archival with VStr "true" => set_archive | _ => mret tt end;
      _ ← execSync startNodeCommand;
      mret tt
  end.

(** What the handler returns; the callback runs after it did. *)
Definition near_node_values : list (string * val) :=
  [("nearNodeUrl", VStr "http://localhost:3030");
   ("nearNetworkId", VStr "local");
   ("nearMasterAccount", VStr "node0");
   ("nearMasterSk", VStr "ed25519:3D4YudUQRE39Lc4JHghuB5WM8kbgDDa34mnrEP5DdTApVH81af7e2dWgNPEaiQfdJnZq1CNPp5im4Rg5b733oiMP")].

Definition startLocalNearNode (archival : val) : list (string * val) * eff W event unit :=
  (near_node_values, near_node_callback archival).

(** ** start ganache *)

Definition ganache_callback : eff W PmEvent unit :=
  err ← perform PmConnect pm_connect;
  if (err : bool) then mret tt else spawnProcess "ganache" ganache_config.

Definition ganache_values : list (string * val) :=
  [("ethNodeUrl", VStr "http://localhost:9545");
   ("ethMasterSk", VStr "0x2bdd21761a483f71054e14f5b827213567971c676928d9a1808cbfa4b7501200");
   ("nearClientValidateEthash", VStr "false")].

Definition startGanacheNode : list (string * val) * eff W PmEvent unit := (ganache_values, ganache_callback).

(** ** danger-deploy-myerc20 *)

Definition MYERC20_BIN : string := "../testing/ci/MyERC20.full.bin".

Definition dangerDeployMyERC20 (eth : EthDeployer W) (privateKeyToAccount : string -> outcome string) {BN : BnLib}
    (ethMasterSk : string) (ethErc20AbiPath ethGasMultiplier : val) : eff W event string :=
  _ ← lift (privateKeyToAccount (normalizeEthKey ethMasterSk));
  abi ← query (ed_abi eth ethErc20AbiPath);
  bin ← query (ed_bin eth (VStr MYERC20_BIN));
  gasPrice ← query (ed_getGasPrice eth);
  multiplier ← lift (newBN ethGasMultiplier);
  address ← perform (Call "deploy" [VStr ("0x" +:+ bin)]) (ed_send eth abi ("0x" +:+ bin) [] 3000000 (gasPrice * multiplier));
  let tokenAddress := normalizeEthKey address in
  _ ← emit (Call "log" [VStr tokenAddress]);
  _ ← emit (Call "disconnect" []);
  mret tokenAddress.

End Commands.

(** ** get-config.js *)

Definition getConfig (HOME : string) (env : string) : outcome (list (string * val)) :=
  if String.eqb env "mainnet" then
    Ret [("networkId", VStr "mainnet"); ("nearNodeUrl", VStr "https://rpc.mainnet.near.org"); ("ethNodeUrl", VStr "")]
  else if String.eqb env "testnet" then
    Ret [("networkId", VStr "default"); ("nearNodeUrl", VStr "https://rpc.testnet.near.org"); ("ethNodeUrl", VStr "")]
  else if String.eqb env "local" || String.eqb env "test" then
    Ret [("networkId", VStr "local");
         ("nearNodeUrl", VStr "http://localhost:3030");
         ("keyPath", VStr (HOME +:+ "/.near/local/validator_key.json"));
         ("masterAccount", VStr "test.near");
         ("nearEthClientId", VStr "client.test.near");
         ("nearEthProverId", VStr "prover.test.near");
         ("ethNodeUrl", VStr "http://localhost:9545");
         ("ethFromSecretKey", VStr "0x2bdd21761a483f71054e14f5b827213567971c676928d9a1808cbfa4b7501200");
         ("ethProverAddress", VStr "")]
  else Throw (Error ("Unconfigured environment '" +:+ env +:+ "'. Can be configured in src/config.js.")).

(** ** What the machine promises *)

(** [p] is the path [dir] or lies below it. *)
Definition below (dir p : string) : bool := String.eqb p dir || String.prefix (dir +:+ "/") p.

Definition below_any (dirs : list string) (p : string) : bool := existsb (fun d => below d p) dirs.

(** A word of the shell. *)
Definition is_word (s : string) : Prop := s <> "" /\ str_includes " " s = false.

(** [host_files] are the files by path; [rm] of paths without blanks
    removes what lies at or below them and nothing else. *)
Class LocalHostOk (W : Type) {PM : ProcessManager W} {PMok : ProcessManagerOk W} {LH : LocalHost W} := {
  host_files : W -> gmap string string;
  connect_files w : host_files (pm_connect w).2 = host_files w;
  disconnect_files w : host_files (pm_disconnect w).2 = host_files w;
  killDaemon_ok w : exists err w', host_killDaemon w = (Ret err, w') /\ host_files w' = host_files w /\
    running w' = match err with None => ∅ | Some _ => running w end;
  nearup_ok w : exists o w', host_exec "nearup stop" w = (o, w') /\ host_files w' = host_files w /\ running w' = running w /\
    ((exists s, o = Ret s) \/ exists e, o = Throw e);
  rm_ok flag dirs w : flag = "-rf" \/ flag = "-f" -> dirs <> [] -> Forall is_word dirs ->
    exists s w', host_exec ("rm " +:+ flag +:+ " " +:+ words dirs) w = (Ret s, w') /\ running w' = running w /\
      forall p, host_files w' !! p = if below_any dirs p then None else host_files w !! p
}.

Section Clean.
Context {W : Type} {PM : ProcessManager W} {PMok : ProcessManagerOk W} {LH : LocalHost W} {LHok : LocalHostOk W}.

Lemma rm_run flag dirs w : flag = "-rf" \/ flag = "-f" -> dirs <> [] -> Forall is_word dirs ->
  exists s w' t, execSync ("rm " +:+ flag +:+ " " +:+ words dirs) w = (Ret s, w', t) /\ running w' = running w /\
    forall p, host_files w' !! p = if below_any dirs p then None else host_files w !! p.
Proof. intros Hf Hn Hd. destruct (rm_ok flag dirs w Hf Hn Hd) as (s & w' & E & H). eexists s, w', _. split; [by apply perform_run | done]. Qed.

Lemma nearup_run w : exists w' t,
  try_catch (_ ← execSync "nearup stop"; mret tt) (fun _ => mret tt) w = (Ret tt, w', t) /\
  host_files w' = host_files w /\ running w' = running w.
Proof.
  destruct (nearup_ok w) as (o & w' & E & Hf & Hr & Ho). exists w'. eexists. split; [|done].
  unfold try_catch, execSync. rewrite eff_bind_eq, (perform_run _ _ _ _ _ E). by destruct Ho as [[s ->]|[e ->]].
Qed.

Lemma kill_run w : exists err w' t, perform (Call "pm2.killDaemon" []) host_killDaemon w = (Ret err, w', t) /\
  host_files w' = host_files w /\ running w' = match err with None => ∅ | Some _ => running w end.
Proof. destruct (killDaemon_ok w) as (err & w' & E & H). eexists err, w', _. split; [by apply perform_run | done]. Qed.

Lemma connect_run w : exists err w', query (E := event) pm_connect w = (Ret err, w', []) /\
  host_files w' = host_files w /\ running w' = running w.
Proof.
  destruct (pm_connect_ok w) as (err & w' & E & H). exists err, w'. pose proof (connect_files w) as Hf. rewrite E in Hf.
  split; [by apply query_run | done].
Qed.

Lemma disconnect_query w : exists w', query (E := event) pm_disconnect w = (Ret tt, w', []) /\
  host_files w' = host_files w /\ running w' = running w.
Proof.
  destruct (pm_disconnect_ok w) as (w' & E & H). exists w'. pose proof (disconnect_files w) as Hf. rewrite E in Hf.
  split; [by apply query_run | done].
Qed.

(** [clean] always ends the process: with code 1 and nothing removed when
    the daemon cannot be stopped; otherwise with code 0, no managed process
    left and, whether or not the local node could be stopped, exactly the
    files at or below the two state directories and the two transfer files
    gone. *)
Theorem clean_exits w : exists code w' t, clean w = (Exit code, w', t) /\
  (code = 1 /\ host_files w' = host_files w /\ running w' = running w \/
   code = 0 /\ running w' = ∅ /\
   forall p, host_files w' !! p = if below_any (STATE_DIRS ++ TRANSFER_FILES) p then None else host_files w !! p).
Proof.
  destruct (connect_run w) as (e0 & w0 & E0 & F0 & R0). destruct (kill_run w0) as (err & w1 & t1 & E1 & F1 & R1).
  unfold clean. destruct err as [e|].
  - exists 1, w1, ([] ++ t1 ++ [])%list.
    split; [exact (eff_bind_run _ _ _ _ _ _ _ _ _ E0 (eff_bind_run _ _ _ _ _ _ _ _ _ E1 eq_refl))|].
    left. split; [done|]. split; congruence.
  - destruct (disconnect_query w1) as (w2 & E2 & F2 & R2). destruct (nearup_run w2) as (w3 & t3 & E3 & F3 & R3).
    destruct (rm_run "-rf" STATE_DIRS w3) as (s4 & w4 & t4 & E4 & R4 & F4); [by left | done | by repeat constructor|].
    destruct (rm_run "-f" TRANSFER_FILES w4) as (s5 & w5 & t5 & E5 & R5 & F5); [by right | done | by repeat constructor|].
    change (execSync ("rm -rf " +:+ words STATE_DIRS) w3 = (Ret s4, w4, t4)) in E4.
    change (execSync ("rm -f " +:+ words TRANSFER_FILES) w4 = (Ret s5, w5, t5)) in E5.
    eexists 0, w5, _. split.
    { eapply eff_bind_run; [exact E0|]. eapply eff_bind_run; [exact E1|]. eapply eff_bind_run; [exact E2|].
      eapply eff_bind_run; [exact E3|]. eapply eff_bind_run; [exact E4|]. eapply eff_bind_run; [exact E5|]. reflexivity. }
    right. split; [done|]. split; [congruence|]. intros p. unfold below_any in *. rewrite existsb_app, F5, F4, F3, F2, F1, F0.
    by destruct (existsb _ STATE_DIRS), (existsb _ TRANSFER_FILES).
Qed.
End Clean.

(** ** prepare *)

Lemma env_copy env k : NoDup env.*1 -> forall l,
  assoc k (fold_left (fun l p => assoc_set p.1 (VStr p.2) l) env l) =
    match assoc k env with Some s => Some (VStr s) | None => assoc k l end.
Proof.
  induction env as [|[x s] env IH]; intros Hnd l; [done|]. cbn in Hnd |- *. apply list.NoDup_cons in Hnd as [Hn Hnd]. rewrite IH by done.
  destruct (String.eqb_spec k x) as [->|Hne].
  - rewrite assoc_set_same. destruct (assoc x env) as [y|] eqn:E; [|done]. apply assoc_in in E. exfalso. apply Hn.
    apply list_elem_of_fmap. by exists (x, y).
  - by rewrite assoc_set_other.
Qed.

(** The script sees every variable of the process unchanged but
    [LOCAL_CORE_SRC], which is the resolved option: an empty option hides a
    value the user has exported. *)
Theorem prepare_env_exact path_resolve env coreSrc k :
  NoDup env.*1 ->
  assoc k (prepare_env path_resolve env (VStr coreSrc)) =
    if String.eqb k "LOCAL_CORE_SRC" then Some (VStr (if String.eqb coreSrc "" then "" else path_resolve coreSrc))
    else VStr <$> assoc k env.
Proof.
  intros Hnd. unfold prepare_env, js_and. cbn [truthy]. destruct (String.eqb_spec k "LOCAL_CORE_SRC") as [->|Hne].
  - rewrite assoc_set_same. destruct (String.eqb_spec coreSrc ""); by subst.
  - rewrite assoc_set_other, env_copy by done. by destruct (assoc k env).
Qed.

(** ** The local nodes *)

Section LocalNodes.
Context (path_join : string -> string -> string) (sol rs tc : string) (camelCase paramCase : string -> string).
Abbreviation names := (optionNames path_join sol rs tc).

(** change-case on the names of the options. *)
Context (camelCase_option : forall o, o ∈ names -> camelCase o = property_of o).
Context (paramCase_property : forall o, o ∈ names -> paramCase (property_of o) = o).

(** The values of a process are those of distinct options. *)
Definition options_set (c : RainbowConfig) : Prop :=
  NoDup (paramValues c).*1 /\ Forall (fun n => n ∈ names) (paramValues c).*1.

(** What a handler returns is named after options. *)
Definition option_values (entries : list (string * val)) : Prop :=
  Forall (fun n => exists o, o ∈ names /\ n = property_of o) entries.*1.

Lemma assoc_set_names {A} k (v : A) l : (assoc_set k v l).*1 = if decide (k ∈ l.*1) then l.*1 else (l.*1 ++ [k])%list.
Proof using Type.
  induction l as [|[x y] l IH]; cbn; [by destruct (decide _) as [H|]; [apply not_elem_of_nil in H|]|].
  destruct (String.eqb_spec k x) as [->|Hne]; cbn; [by rewrite decide_True by constructor|]. rewrite IH.
  destruct (decide (k ∈ l.*1)) as [H|H]; [by rewrite decide_True by by constructor|].
  rewrite decide_False; [done|]. intros [?|?]%elem_of_cons; done.
Qed.

Lemma setParam_options c o v : options_set c -> o ∈ names -> options_set (setParam o v c).
Proof using Type.
  intros [Hnd Hn] Ho. unfold options_set, setParam. cbn [paramValues]. rewrite assoc_set_names. destruct (decide _) as [|Hni]; [done|]. split.
  - apply list.NoDup_app. split; [done|]. split; [|apply NoDup_singleton]. intros x Hx ->%list_elem_of_singleton. done.
  - apply Forall_app. split; [done|]. by apply Forall_singleton.
Qed.

Lemma commandAction_options entries c : option_values entries -> options_set c ->
  options_set (fold_left (fun c p => setParam (paramCase p.1) p.2 c) entries c).
Proof using paramCase_property.
  revert c. induction entries as [|[n v] entries IH]; intros c He Hc; [done|].
  unfold option_values in He. cbn in He. apply list.Forall_cons in He as [(o & Ho & ->) He]. cbn [fold_left]. apply IH; [done|]. cbn.
  rewrite paramCase_property by done. by apply setParam_options.
Qed.

Lemma property_inj : NoDup (map property_of names).
Proof using Type. apply (bool_decide_unpack _). vm_compute. exact I. Qed.

Lemma map_NoDup {A B} (f : A -> B) (l k : list A) : NoDup (map f l) -> NoDup k -> Forall (fun x => x ∈ l) k -> NoDup (map f k).
Proof using Type.
  intros Hl Hk Hin. apply NoDup_fmap_2_strong; [|done]. intros x y Hx Hy E. rewrite list.Forall_forall in Hin.
  apply Hin, list_elem_of_lookup in Hx as [i Hi]. apply Hin, list_elem_of_lookup in Hy as [j Hj].
  assert (Hij : i = j); [|congruence]. apply (NoDup_lookup _ i j (f x) Hl); [by rewrite list_lookup_fmap, Hi | by rewrite list_lookup_fmap, Hj, E].
Qed.

Lemma options_camel c : options_set c -> map (fun p => camelCase p.1) (paramValues c) = map property_of (paramValues c).*1.
Proof using camelCase_option.
  intros [_ Hn]. induction (paramValues c) as [|p l IH]; [done|]. cbn in Hn |- *. apply list.Forall_cons in Hn as [Hp Hn].
  rewrite IH, camelCase_option; done.
Qed.

Lemma options_distinct c : options_set c -> NoDup (map (fun p => camelCase p.1) (paramValues c)).
Proof using camelCase_option.
  intros Hc. rewrite options_camel by done. destruct Hc as [Hnd Hn]. by apply (map_NoDup _ names); [apply property_inj|..].
Qed.

Lemma paramCase_inverse entries : option_values entries ->
  Forall (fun n => paramCase n ∈ names /\ property_of (paramCase n) = n) entries.*1.
Proof using paramCase_property. apply Forall_impl. intros n (o & Ho & ->). by rewrite paramCase_property. Qed.

Lemma entries_distinct entries : option_values entries -> NoDup entries.*1 -> NoDup (map (fun p => paramCase p.1) entries).
Proof using paramCase_property.
  intros Hv Hnd. apply paramCase_inverse in Hv. induction entries as [|[n v] entries IH]; [constructor|]. cbn in *.
  apply list.NoDup_cons in Hnd as [Hn Hnd]. apply list.Forall_cons in Hv as [[_ Hp] Hv]. apply list.NoDup_cons. split; [|by apply IH].
  intros Hin. apply Hn. apply list_elem_of_In, in_map_iff in Hin as ([m u] & E & Hin). apply list_elem_of_In in Hin. cbn in E.
  assert (Hm : m ∈ entries.*1) by (apply list_elem_of_fmap; by exists (m, u)).
  rewrite list.Forall_forall in Hv. destruct (Hv m Hm) as [_ Hm']. by rewrite <- Hp, <- E, Hm'.
Qed.

(** What a command returned under the names of options is in the file, and
    the keys it does not return are kept when the process set no option. *)
Lemma command_saves entries c n v : option_values entries -> NoDup entries.*1 -> options_set c -> (n, v) ∈ entries -> v <> VUndef ->
  configFile (commandAction camelCase paramCase (Some entries) c) !! n = Some v.
Proof using camelCase_option paramCase_property.
  intros Hv Hnd Hc Hin Hu. pose proof (paramCase_inverse _ Hv) as Hp. rewrite list.Forall_forall in Hp.
  destruct (Hp n) as [Hn E]; [apply list_elem_of_fmap; by exists (n, v)|].
  rewrite <- E, <- (camelCase_option _ Hn). apply commandAction_file; [done | by apply entries_distinct | | done].
  apply options_distinct. pose proof (commandAction_options _ _ Hv Hc) as H. by destruct entries.
Qed.

Lemma command_keeps entries c n : option_values entries -> paramValues c = [] -> n ∉ entries.*1 ->
  configFile (commandAction camelCase paramCase (Some entries) c) !! n = configFile c !! n.
Proof using camelCase_option paramCase_property.
  intros Hv Hc Hn.
  assert (Hfile : forall l c0, configFile (fold_left (fun c p => setParam (paramCase p.1) p.2 c) l c0) = configFile c0)
    by (induction l as [|p l IH]; intros c0; cbn; [done | by rewrite IH]).
  assert (Hnames : forall l c0 k, option_values l -> k ∈ (paramValues (fold_left (fun c p => setParam (paramCase p.1) p.2 c) l c0)).*1 ->
    k ∈ (paramValues c0).*1 \/ property_of k ∈ l.*1 /\ k ∈ names).
  { induction l as [|[m u] l IH]; intros c0 k Hl Hk; [by left|]. unfold option_values in Hl. cbn in Hl.
    apply list.Forall_cons in Hl as [(o & Ho & ->) Hl]. cbn in Hk. apply IH in Hk as [Hk|[Hk Hk']]; [|right; split; [by constructor | done] | done].
    cbn [setParam paramValues] in Hk. rewrite paramCase_property in Hk by done. rewrite assoc_set_names in Hk.
    destruct (decide _); [by left|]. apply elem_of_app in Hk as [?| ->%list_elem_of_singleton]; [by left|]. right. by split; [constructor|]. }
  destruct entries as [|e entries]; [done|]. unfold commandAction, saveConfig. cbn [configFile].
  rewrite fold_file_lookup; [by rewrite Hfile|]. intros [k x] Hk E. cbn in E.
  destruct (Hnames (e :: entries) c k Hv) as [H|[H H']]; [apply list_elem_of_fmap; by exists (k, x) | rewrite Hc in H; by apply not_elem_of_nil in H |].
  apply Hn. by rewrite <- E, camelCase_option.
Qed.

Lemma near_values_options : option_values near_node_values.
Proof using Type.
  repeat (apply list.Forall_cons; split); try apply Forall_nil; [exists "near-node-url" | exists "near-network-id" | exists "near-master-account" | exists "near-master-sk"];
    (split; [apply (bool_decide_unpack _); vm_compute; exact I | reflexivity]).
Qed.

Lemma ganache_values_options : option_values ganache_values.
Proof using Type.
  repeat (apply list.Forall_cons; split); try apply Forall_nil; [exists "eth-node-url" | exists "eth-master-sk" | exists "near-client-validate-ethash"];
    (split; [apply (bool_decide_unpack _); vm_compute; exact I | reflexivity]).
Qed.

(** Starting the two local nodes configures the bridge for them: after
    [start near-node] (with any options given) and then [start ganache]
    (which takes none), every later process reads under each option's name
    the endpoint, account or key that the command returned for it. *)
Theorem local_endpoints_persist c o v : options_set c ->
  let c1 := commandAction camelCase paramCase (Some near_node_values) c in
  let c2 := commandAction camelCase paramCase (Some ganache_values) (restart c1) in
  o ∈ names -> (property_of o, v) ∈ near_node_values ++ ganache_values ->
  getParam camelCase o (restart c2) = Ret v.
Proof using camelCase_option paramCase_property.
  intros Hc c1 c2 Ho Hin.
  assert (Hstr : exists s, v = VStr s).
  { assert (H : Forall (fun p => match p.2 with VStr _ => true | _ => false end = true) (near_node_values ++ ganache_values))
      by by repeat constructor. rewrite list.Forall_forall in H. apply H in Hin. cbn in Hin. destruct v; try done. by eexists. }
  apply getParam_restart; [|by destruct Hstr as [s ->]]. rewrite camelCase_option by done.
  apply elem_of_app in Hin as [Hin|Hin].
  - unfold c2. rewrite command_keeps; [|apply ganache_values_options | done |].
    + apply command_saves; [apply near_values_options | apply (bool_decide_unpack _); vm_compute; exact I | done | done |].
      by destruct Hstr as [s ->].
    + assert (Hx : property_of o ∈ near_node_values.*1) by (apply list_elem_of_fmap; by exists (property_of o, v)).
      revert Hx. generalize (property_of o). apply list.Forall_forall. apply (bool_decide_unpack _). vm_compute. exact I.
  - apply command_saves; [apply ganache_values_options | apply (bool_decide_unpack _); vm_compute; exact I | | done | by destruct Hstr as [s ->]].
    split; constructor.
Qed.
End LocalNodes.

Lemma local_urls : In ("nearNodeUrl", VStr getLocalNearNodeURL) near_node_values /\
  In ("ethNodeUrl", VStr getLocalGanacheNodeURL) ganache_values.
Proof. split; vm_compute; by left. Qed.

Section StartNear.
Context {W : Type} {LH : LocalHost W} (path_join : string -> string -> string) (HOME : string).
Context (JSON_parse : string -> outcome val) (JSON_stringify : val -> string).

Lemma set_prop_settings config k v config' : set_prop config k v = Ret config' ->
  (forall k', k' <> k -> get_prop config' k' = get_prop config k') /\
  (forall fs, config = VObj fs -> get_prop config' k = Ret v).
Proof using Type.
  destruct config as [| | | | | | |fs]; cbn; try done; intros [= <-]; try (by split).
  split; [intros k' Hk | intros _ _]; cbn; [by rewrite assoc_set_other | by rewrite assoc_set_same].
Qed.

(** What the archival branch writes: the configuration it read, with
    [archive] turned on and no other setting changed. *)
Theorem set_archive_writes w config :
  In (Call "writeFileSync" [VStr (configPath path_join HOME); config]) (trace_of (set_archive path_join HOME JSON_parse JSON_stringify w)) ->
  exists content config0, (host_readFile (configPath path_join HOME) w).1 = Ret content /\ JSON_parse content = Ret config0 /\
    (forall k, k <> "archive" -> get_prop config k = get_prop config0 k) /\
    (forall fs, config0 = VObj fs -> get_prop config "archive" = Ret (VBool true)).
Proof using Type.
  unfold set_archive. rewrite eff_bind_eq. unfold query.
  destruct (host_readFile _ w) as [[content|e|c|] w1]; cbn [out_of world_of trace_of fst snd app]; try done.
  rewrite eff_bind_eq. destruct (JSON_parse content) as [config0|e|c|] eqn:Hp; cbn [lift out_of world_of trace_of fst snd app]; try done.
  rewrite eff_bind_eq. destruct (set_prop config0 "archive" (VBool true)) as [config'|e|c|] eqn:Hs; cbn [lift out_of world_of trace_of fst snd app]; try done.
  unfold perform. destruct (host_writeFile _ _ w1) as [o w2]. cbn. intros [[= <-]|[]]. exists content, config0.
  split; [done|]. split; [done|]. by apply set_prop_settings.
Qed.

(** The commands of the callback: the node is initialised before it is
    started, and neither happens when something already answers at its URL. *)
Definition commands_of (t : list event) : list string :=
  omap (fun e => match e with Call "execSync" [VStr c] => Some c | _ => None end) t.

Lemma set_archive_quiet w : commands_of (trace_of (set_archive path_join HOME JSON_parse JSON_stringify w)) = [].
Proof using Type.
  unfold set_archive. rewrite eff_bind_eq. unfold query.
  destruct (host_readFile _ w) as [[content|e|c|] w1]; cbn [out_of world_of trace_of fst snd app]; try done.
  rewrite eff_bind_eq. destruct (JSON_parse content) as [config0|e|c|]; cbn [lift out_of world_of trace_of fst snd app]; try done.
  rewrite eff_bind_eq. destruct (set_prop _ _ _) as [config'|e|c|]; cbn [lift out_of world_of trace_of fst snd app]; try done.
  unfold perform. by destruct (host_writeFile _ _ w1).
Qed.

Theorem near_node_commands archival w :
  let t := commands_of (trace_of (near_node_callback path_join HOME JSON_parse JSON_stringify archival w)) in
  prefix t [initConfigCommand path_join HOME; startNodeCommand path_join HOME] /\
  ((host_request getLocalNearNodeURL w).1 = Ret None -> t = []).
Proof using Type.
  cbv zeta. unfold near_node_callback. rewrite eff_bind_eq. unfold query.
  destruct (host_request getLocalNearNodeURL w) as [[[err|]|e|c|] w1]; cbn [out_of world_of trace_of fst snd app];
    try (split; [apply prefix_nil | done]).
  split; [|done]. unfold execSync. rewrite eff_bind_eq. unfold perform at 1.
  destruct (host_exec (initConfigCommand path_join HOME) w1) as [[s|e|c|] w2]; cbn [out_of world_of trace_of fst snd];
    try (apply prefix_cons, prefix_nil).
  rewrite eff_bind_eq. remember (match archival with VStr "true" => _ | _ => _ end) as m eqn:Hm.
  assert (Hq : commands_of (trace_of (m w2)) = []).
  { rewrite Hm. destruct archival as [| | | |s0| | |]; try done. repeat (case_match; try done). apply set_archive_quiet. }
  destruct (m w2) as [[[u|e|c|] w3] t3]; cbn [out_of world_of trace_of fst snd] in *;
    try (unfold commands_of in *; rewrite omap_app, Hq; apply prefix_cons, prefix_nil).
  rewrite eff_bind_eq. unfold perform. destruct (host_exec (startNodeCommand path_join HOME) w3) as [[s'|e|c|] w4];
    cbn [out_of world_of trace_of fst snd mret eff_ret];
    unfold commands_of in *; rewrite !omap_app, Hq; reflexivity.
Qed.
End StartNear.

Section StartGanache.
Context {W : Type} {PM : ProcessManager W} {PMok : ProcessManagerOk W}.

(** [start ganache] always completes and starts nothing but ganache, and
    only while it is not running. *)
Theorem ganache_guarded w : exists w' tr, ganache_callback w = (Ret tt, w', tr) /\
  (running w' = running w \/ running w' = {[ "ganache" ]} ∪ running w) /\
  forall c, PmStart c ∈ tr -> c = ganache_config /\ "ganache" ∉ running w.
Proof.
  destruct (pm_connect_ok w) as (err & w1 & E & H). apply (perform_run PmConnect) in E. unfold ganache_callback. destruct err.
  - eexists w1, _. split; [refine (eff_bind_run _ _ _ _ _ _ _ _ _ E _); reflexivity|]. split; [by left|]. set_solver.
  - destruct (spawnProcess_run "ganache" ganache_config w1) as (w2 & tr & E2 & Hr & Hs). eexists w2, _.
    split; [exact (eff_bind_run _ _ _ _ _ _ _ _ _ E E2)|]. rewrite <- H. split; [exact Hr|]. intros c Hc. apply Hs. set_solver.
Qed.
End StartGanache.

(** ** danger-deploy-myerc20 *)

(** A deployment that returns has sent the bytecode of the test token, with
    no arguments and the gas price times the multiplier, and printed the
    normalised address it got. *)
Theorem dangerDeploy_sends {W} (eth : EthDeployer W) key `{BnLib} sk abiPath multiplier w address w' t :
  dangerDeployMyERC20 eth key sk abiPath multiplier w = (Ret address, w', t) ->
  exists abi bin price m raw w1, newBN multiplier = Ret m /\
    ed_send eth abi ("0x" +:+ bin) [] 3000000 (price * m) w1 = (Ret raw, w') /\ address = normalizeEthKey raw /\
    t = [Call "deploy" [VStr ("0x" +:+ bin)]; Call "log" [VStr address]; Call "disconnect" []].
Proof.
  intros H0. unfold dangerDeployMyERC20 in H0.
  apply eff_bind_run_inv in H0 as (? & ? & ? & ? & [= _ -> <-] & H0 & ->).
  apply eff_bind_run_inv in H0 as (abi & ? & ? & ? & [_ ->]%query_run_inv & H0 & ->).
  apply eff_bind_run_inv in H0 as (bin & ? & ? & ? & [_ ->]%query_run_inv & H0 & ->).
  apply eff_bind_run_inv in H0 as (price & ? & ? & ? & [_ ->]%query_run_inv & H0 & ->).
  apply eff_bind_run_inv in H0 as (m & ? & ? & ? & [= Hm -> <-] & H0 & ->).
  apply eff_bind_run_inv in H0 as (raw & ? & ? & ? & [Hs ->]%perform_run_inv & H0 & ->).
  cbv zeta in H0. rewrite !emit_bind in H0. injection H0 as <- -> <-.
  by eexists abi, bin, price, m, raw, _.
Qed.

(** ** Witnesses *)

Module Witness.

(** A machine: the files, the managed processes, and whether pm2 and nearup
    can be stopped. *)
Record Machine := mkMachine { m_files : gmap string string; m_running : gset string; m_stoppable : bool }.

Fixpoint split_words (acc s : string) : list string :=
  match s with
  | EmptyString => [acc]
  | String c s' => if Ascii.eqb c " " then acc :: split_words "" s' else split_words (acc +:+ String c "") s'
  end.

Definition remove (dirs : list string) (m : Machine) : Machine :=
  mkMachine (filter (fun p => below_any dirs p.1 = false) (m_files m)) (m_running m) (m_stoppable m).

#[local] Instance machine_pm : ProcessManager Machine := {|
  pm_connect m := (Ret false, m);
  pm_describe name m := (Ret (false, Some (if decide (name ∈ m_running m) then 1%nat else 0%nat)), m);
  pm_start c m := (Ret false, mkMachine (m_files m) ({[ pc_name c ]} ∪ m_running m) (m_stoppable m));
  pm_delete name m := (if decide (name ∈ m_running m) then Ret tt else Throw (Error "process or namespace not found"),
                       mkMachine (m_files m) (m_running m ∖ {[ name ]}) (m_stoppable m));
  pm_disconnect m := (Ret tt, m);
  nearup_stop m := (Ret tt, m)
|}.

#[local] Instance machine_pm_ok : ProcessManagerOk Machine.
Proof.
  refine {| running := m_running |}.
  - intros w. by exists false, w.
  - intros name w. eexists _, w. split; [reflexivity|]. split; [done|]. destruct (decide _); split; done.
  - intros c w. by eexists false, _.
  - intros name w. eexists. split; [|reflexivity]. done.
  - intros w. by exists w.
  - intros w. exists (Ret tt), w. auto.
Defined.

#[local] Instance machine_host : LocalHost Machine := {|
  host_exec command m :=
    match split_words "" command with
    | "rm" :: _ :: dirs => (Ret "", remove dirs m)
    | _ => (Throw (Error "Command failed: nearup stop"), m)
    end;
  host_spawn _ _ m := (Ret tt, m);
  host_request _ m := (Ret None, m);
  host_readFile p m := (match m_files m !! p with Some s => Ret s | None => Throw (Error "ENOENT") end, m);
  host_writeFile p s m := (Ret tt, mkMachine (<[p := s]> (m_files m)) (m_running m) (m_stoppable m));
  host_killDaemon m :=
    (Ret (if m_stoppable m then None else Some (Error "EPERM")), mkMachine (m_files m) (if m_stoppable m then ∅ else m_running m) (m_stoppable m))
|}.

Lemma append_one s c t : (s +:+ String c "") +:+ t = s +:+ String c t.
Proof. induction s as [|a s IH]; [done|]. exact (f_equal (String a) IH). Qed.

Lemma append_nil s : s +:+ "" = s.
Proof. induction s as [|a s IH]; [done|]. exact (f_equal (String a) IH). Qed.

Lemma split_word d acc : str_includes " " d = false -> split_words acc d = [acc +:+ d].
Proof.
  revert acc. induction d as [|c d IH]; intros acc H; cbn [split_words]; [by rewrite append_nil|].
  cbn in H. apply orb_false_iff in H as [Hc H]. destruct (Ascii.eqb_spec c " ") as [->|Hne]; [by destruct d|].
  rewrite IH by done. by rewrite append_one.
Qed.

Lemma split_first d acc rest : str_includes " " d = false -> split_words acc (d +:+ " " +:+ rest) = (acc +:+ d) :: split_words "" rest.
Proof.
  revert acc. induction d as [|c d IH]; intros acc H; [cbn; by rewrite append_nil|].
  cbn in H. apply orb_false_iff in H as [Hc H]. change (String c d +:+ " " +:+ rest) with (String c (d +:+ " " +:+ rest)). cbn [split_words].
  destruct (Ascii.eqb_spec c " ") as [->|Hne]; [by destruct d|]. rewrite IH by done. by rewrite append_one.
Qed.

Lemma split_list dirs : dirs <> [] -> Forall is_word dirs -> split_words "" (words dirs) = dirs.
Proof.
  induction dirs as [|d [|d' dirs] IH]; intros Hn Hd; [done | |]; apply list.Forall_cons in Hd as [[_ Hw] Hd]; [by apply split_word|].
  change (words (d :: d' :: dirs)) with (d +:+ " " +:+ words (d' :: dirs)). rewrite split_first by done. f_equal. by apply IH.
Qed.

#[local] Instance machine_host_ok : LocalHostOk Machine.
Proof.
  refine {| host_files := m_files |}.
  - done.
  - done.
  - intros w. eexists _, _. split; [reflexivity|]. cbn. by destruct (m_stoppable w).
  - intros w. eexists _, w. split; [reflexivity|]. eauto.
  - intros f dirs w Hf Hn Hd.
    assert (E : host_exec ("rm " +:+ f +:+ " " +:+ words dirs) w = (Ret "", remove dirs w)).
    { unfold host_exec, machine_host. replace (split_words "" ("rm " +:+ f +:+ " " +:+ words dirs)) with ("rm" :: f :: dirs); [done|].
      change ("rm " +:+ f +:+ " " +:+ words dirs) with ("rm" +:+ " " +:+ (f +:+ " " +:+ words dirs)).
      rewrite split_first by reflexivity. rewrite split_first by (by destruct Hf as [-> | ->]). by rewrite split_list. }
    exists "", (remove dirs w). split; [exact E|]. split; [done|]. intros p. cbn.
    rewrite map_lookup_filter. destruct (m_files w !! p); cbn; [|by destruct (below_any dirs p)].
    by destruct (below_any dirs p).
Defined.

Definition machine0 : Machine := mkMachine
  {[ "~/.rainbow/config.json" := "{}"; "~/.rainbow2/keep" := "x"; "/tmp/near2ethtransfer.out" := "1" ]} {[ "ganache" ]} true.

Lemma clean_exits_witness : exists code w' t, clean machine0 = (Exit code, w', t) /\
  (code = 1 /\ m_files w' = m_files machine0 /\ m_running w' = m_running machine0 \/
   code = 0 /\ m_running w' = ∅ /\
   forall p, m_files w' !! p = if below_any (STATE_DIRS ++ TRANSFER_FILES) p then None else m_files machine0 !! p).
Proof. exact (clean_exits machine0). Defined.

Example clean_run : exists t, clean machine0 = (Exit 0, mkMachine {[ "~/.rainbow2/keep" := "x" ]} ∅ true, t).
Proof. eexists. vm_compute. reflexivity. Qed.

(** [paramCase]: a capital letter is a dash and the small one. *)
Fixpoint kebab (s : string) : string :=
  match s with
  | EmptyString => EmptyString
  | String c s' => if Ascii.eqb (lower_char c) c then String c (kebab s') else String "-" (String (lower_char c) (kebab s'))
  end.

Definition fresh : RainbowConfig := {| paramValues := [("archival", (VStr "true", FromArg))]; paramDeclarations := ∅; configFile := ∅ |}.
Definition join (a b : string) : string := a +:+ "/" +:+ b.

Lemma local_endpoints_persist_witness :
  getParam property_of "near-node-url" (restart (commandAction property_of kebab (Some ganache_values)
    (restart (commandAction property_of kebab (Some near_node_values) fresh)))) = Ret (VStr "http://localhost:3030").
Proof.
  apply (local_endpoints_persist join "sol" "rs" "tc" property_of kebab).
  - done.
  - apply list.Forall_forall. apply (bool_decide_unpack _). vm_compute. exact I.
  - split; apply (bool_decide_unpack _); vm_compute; exact I.
  - apply (bool_decide_unpack _). vm_compute. exact I.
  - constructor.
Defined.

End Witness.
