(* ===== verification/TransferToNear.v ===== *)
(** * Transfers of ERC20 tokens to NEAR (testing/transfer-eth-erc20/to-near.js)

    [TransferETHERC20ToNear]: approve and lock tokens on Ethereum, find the
    proof of the lock, wait until the client on NEAR has the block, deposit
    the proof with the token factory (near-mintable-token.js).  The command
    is the composition of the robust web3, the proof extractor, the client
    contract on NEAR and the transaction sender; it ends by depositing a
    proof that the prover contract accepts. *)

From S2P Require Import Prelude Interfaces Borsh Robust NearTx Tokens EthOnNearClient Accounts Rlp EthProver ProofExtractor Milestones TransferLog.

(** ** Data *)

(** near-mintable-token.js *)
Definition mintableSchema {HX : HexLib} : schema := {[
  "bool" := boolType;
  "Proof" := SStruct [
    ("log_index", FName "u64");
    ("log_entry_data", FArray (FName "u8"));
    ("receipt_index", FName "u64");
    ("receipt_data", FArray (FName "u8"));
    ("header_data", FArray (FName "u8"));
    ("proof", FArray (FArray (FName "u8")))]
]}.

Definition depositMethod : MethodSpec := spec "deposit" (Some (FName "Proof")) None.

(** A contract object of web3. *)
Record EthContract := {
  ct_address : string;
  ct_encodeABI : string -> list val -> outcome string;
  ct_decodeEventABI : val -> DecodedEvent
}.

(** [transaction.events.Locked] *)
Definition slot_val (s : eventSlot) : val :=
  match s with One ev => ev_data ev | Many evs => VArr (map ev_data evs) end.

Definition locked_event (transaction : Robust.Receipt) : val :=
  match assoc "Locked" (rc_events transaction) with Some s => slot_val s | None => VUndef end.

(** The nodes of a proof as arrays of Buffers. *)
Fixpoint item_val (i : item) : val :=
  match i with Str bs => VBytes bs | Lst l => VArr (map item_val l) end.

Definition extracted_val (p : ExtractedProof) : val :=
  VObj [("header_rlp", VBytes (header_rlp p)); ("receiptProof", VArr (map item_val (receiptProof p))); ("txIndex", txIndex p)].

Record ToNearArgs := {
  amount : val;
  ethSenderSk : string;
  nearReceiverAccount : val;
  tn_nearMasterAccount : string;
  tn_nearMasterSk : val;
  tn_nearTokenFactoryAccount : string;
  tn_nearClientAccount : string;
  nearErc20Account : string;
  ethErc20AbiPath : string;
  tn_ethErc20Address : string;
  ethLockerAbiPath : string;
  tn_ethLockerAddress : string
}.

(** ** The command *)

Section ToNear.
Context {N : Type} (near : NearNode N) (connection : NearConnection (KeyWorld N)) (findAccessKey : service N (option Z)).
Context (ethNodeUrl : string) (node : Web3Node (KeyWorld N)) (provider : Provider) (file : LogFile (KeyWorld N)).
Context {BW : BinaryWriter} {BN : BnLib} {HX : HexLib} {TL : TrieLib} {EO : EthObject} {RL : RlpLib}.
Context (toHex : Z -> val) (toHexVal : val -> val).
(** [new web3.eth.Contract(JSON.parse(fs.readFileSync(path)), address)],
    the views [balanceOf] and [ft_balance_of], keys, and what rlp makes of
    a value that is neither an array nor a Buffer. *)
Context (newContract : string -> string -> service (KeyWorld N) EthContract).
Context (balanceOf : string -> service (KeyWorld N) val) (ft_balance_of : string -> val -> service (KeyWorld N) val).
Context (privateKeyToAccount publicKey : string -> outcome string) (rlp_toBuffer : val -> outcome (list Z)).

Abbreviation prog := (eff (KeyWorld N) event).

(** [robustWeb3.callContract] with the options of this command. *)
Definition call_contract (fuel : nat) (contract : EthContract) (method : string) (args : list val) (from : string)
    : prog Robust.Receipt :=
  _ ← emit (Call method args);
  callContract ethNodeUrl node toHex toHexVal (ct_address contract) (ct_encodeABI contract method args)
    (ct_decodeEventABI contract)
    {| co_from := VStr from; co_gas := VNum 5000000; co_gasPrice := VUndef; co_handleRevert := VUndef |} fuel.

Definition showRetryAndExit {A} : prog A := exit 1.

Definition approve (fuel : nat) (erc20 : EthContract) (amount : val) (ethSenderAccount ethLockerAddress : string) : prog unit :=
  try_catch
    (n ← lift (newBN amount);
     _ ← call_contract fuel erc20 "approve" [VStr ethLockerAddress; VNum n] ethSenderAccount;
     recordTransferLog file (VObj [("finished", VStr "approve")]))
    (fun _ => showRetryAndExit).

Definition lock (fuel : nat) (locker : EthContract) (amount nearReceiverAccount : val) (ethErc20Address ethSenderAccount : string)
    : prog unit :=
  try_catch
    (n ← lift (newBN amount);
     transaction ← call_contract fuel locker "lockToken" [VStr ethErc20Address; VNum n; nearReceiverAccount] ethSenderAccount;
     recordTransferLog file (VObj [("finished", VStr "lock"); ("lockedEvent", locked_event transaction)]))
    (fun _ => showRetryAndExit).

Definition findProof (lockedEvent : val) : prog unit :=
  transactionHash ← lift (get_prop lockedEvent "transactionHash");
  receipt ← extractReceipt ethNodeUrl node transactionHash;
  blockNumber ← lift (get_prop receipt "blockNumber");
  block ← extractBlock ethNodeUrl node blockNumber;
  tree ← buildTrie ethNodeUrl node block;
  index ← lift (get_prop receipt "transactionIndex");
  proof ← extractProof node block tree index;
  logs ← lift (get_prop receipt "logs" ≫= fun v => array_of v "receipt.logs is not iterable");
  wanted ← lift (get_prop lockedEvent "logIndex");
  found ← lift (find_log 0 logs wanted);
  match found with
  | Some (txLogIndex, log) =>
      recordTransferLog file (VObj [("finished", VStr "find-proof"); ("proof", extracted_val proof); ("log", log);
        ("txLogIndex", VNum txLogIndex); ("receipt", receipt); ("lockedEvent", lockedEvent); ("block", block)])
  | None => showRetryAndExit
  end.

(** [utils.rlp.encode(node)] *)
Fixpoint rlp_input (v : val) : outcome item :=
  match v with
  | VArr vs =>
      l ← (fix go vs := match vs with [] => Ret [] | v :: rest => i ← rlp_input v; l ← go rest; Ret (i :: l) end) vs;
      Ret (Lst l)
  | VBytes bs => Ret (Str bs)
  | _ => bs ← rlp_toBuffer v; Ret (Str bs)
  end.

Fixpoint encode_nodes (vs : list val) : outcome (list val) :=
  match vs with
  | [] => Ret []
  | v :: rest => i ← rlp_input v; l ← encode_nodes rest; Ret (VBytes (rlp_encode i) :: l)
  end.

(** [while (true)]: until the client has a safe block of that number. *)
Definition poll_safe (clientId : string) (blockNumber : val) : prog val :=
  last ← view near clientId "last_block_number" None (Some (FName "u64")) VUndef;
  _ ← lift (match last with VNum n => Ret n | _ => Throw (TypeError "toNumber is not a function") end);
  view near clientId "block_hash_safe" (Some (FName "u64")) (Some (FName "?H256")) blockNumber.

Fixpoint await_safe (fuel : nat) (clientId : string) (blockNumber : val) : prog unit :=
  match fuel with
  | O => stuck
  | S fuel' =>
      isSafe ← poll_safe clientId blockNumber;
      if truthy isSafe then mret tt
      else _ ← sleep (num_of_Z 10000); await_safe fuel' clientId blockNumber
  end.

Definition waitBlockSafe (fuel : nat) (clientId : string) (transferLog : val) : prog unit :=
  log ← lift (get_prop transferLog "log");
  proof ← lift (get_prop transferLog "proof");
  receipt ← lift (get_prop transferLog "receipt");
  txLogIndex ← lift (get_prop transferLog "txLogIndex");
  lockedEvent ← lift (get_prop transferLog "lockedEvent");
  block ← lift (get_prop transferLog "block");
  logEntryData ← lift (Log_fromWeb3_serialize log);
  receiptIndex ← lift (get_prop proof "txIndex");
  receiptData ← lift (Receipt_fromWeb3_serialize receipt);
  headerData ← lift (get_prop proof "header_rlp");
  nodes ← lift (get_prop proof "receiptProof" ≫= fun v => array_of v "proof.receiptProof is not iterable" ≫= encode_nodes);
  let proofLocker := VObj [("log_index", txLogIndex); ("log_entry_data", VBytes logEntryData);
    ("receipt_index", receiptIndex); ("receipt_data", VBytes receiptData); ("header_data", headerData);
    ("proof", VArr nodes)] in
  returnValues ← lift (get_prop lockedEvent "returnValues");
  newOwnerId ← lift (get_prop returnValues "accountId");
  blockNumber ← lift (get_prop block "number");
  _ ← await_safe fuel clientId blockNumber;
  recordTransferLog file (VObj [("finished", VStr "block-safe"); ("proofLocker", proofLocker); ("newOwnerId", newOwnerId)]).

(** [new BN('300000000000000')] and [new BN('100000000000000000000').mul(new BN('600'))] *)
Definition DEPOSIT_GAS : Z := 300000000000000.
Definition DEPOSIT_AMOUNT : Z := 100000000000000000000 * 600.

Definition deposit (tokenId factoryId : string) (transferLog : val) : prog unit :=
  proofLocker ← lift (get_prop transferLog "proofLocker");
  newOwnerId ← lift (get_prop transferLog "newOwnerId");
  _ ← query (ft_balance_of tokenId newOwnerId);
  _ ← try_catch
        (_ ← emit (Call "deposit" [proofLocker; VNum DEPOSIT_GAS; VNum DEPOSIT_AMOUNT]);
         changeMethod near schema_fuel mintableSchema factoryId depositMethod proofLocker (VNum DEPOSIT_GAS) (VNum DEPOSIT_AMOUNT))
        (fun _ => showRetryAndExit);
  _ ← query (ft_balance_of tokenId newOwnerId);
  mret tt.

(** [if (transferLog.finished === name) { await step; transferLog = load }] *)
Definition stage (name : val) (step : val -> prog unit) (transferLog : val) : prog val :=
  finished ← lift (get_prop transferLog "finished");
  if strict_eq finished name then _ ← step transferLog; loadTransferLog file else mret transferLog.

Definition execute (fuel : nat) (a : ToNearArgs) : prog unit :=
  transferLog ← loadTransferLog file;
  ethSenderAccount ← lift (privateKeyToAccount (normalizeEthKey (ethSenderSk a)));
  erc20 ← query (newContract (ethErc20AbiPath a) (tn_ethErc20Address a));
  _ ← lift (key_pair publicKey (tn_nearMasterSk a));
  _ ← verifyAccount connection (tn_nearMasterAccount a);
  _ ← accessKeyInit (tn_nearMasterAccount a) findAccessKey;
  locker ← query (newContract (ethLockerAbiPath a) (tn_ethLockerAddress a));
  transferLog ← stage VUndef (fun _ =>
                  _ ← query (balanceOf ethSenderAccount);
                  approve fuel erc20 (amount a) ethSenderAccount (tn_ethLockerAddress a)) transferLog;
  transferLog ← stage (VStr "approve") (fun _ =>
                  lock fuel locker (amount a) (nearReceiverAccount a) (tn_ethErc20Address a) ethSenderAccount) transferLog;
  transferLog ← stage (VStr "lock") (fun transferLog =>
                  lockedEvent ← lift (get_prop transferLog "lockedEvent"); findProof lockedEvent) transferLog;
  transferLog ← stage (VStr "find-proof") (waitBlockSafe fuel (tn_nearClientAccount a)) transferLog;
  finished ← lift (get_prop transferLog "finished");
  _ ← (if strict_eq finished (VStr "block-safe")
       then deposit (nearErc20Account a) (tn_nearTokenFactoryAccount a) transferLog else mret tt);
  _ ← match provider with WebsocketProvider => emit (Call "connection.close" []) | HttpProvider => mret tt end;
  exit 0.

End ToNear.

(** ** The arguments of the deposit *)

Section Arguments.
Context {BW : BinaryWriter} {BWok : BinaryWriterOk} {BN : BnLib} {BNok : BnLibOk} {HX : HexLib}.

(** The proof as the contract reads it. *)
Definition proof_arrays (p : ProofLocker) : val :=
  VObj [("log_index", VNum (log_index p)); ("log_entry_data", VArr (map VNum (log_entry_data p)));
        ("receipt_index", receipt_index p); ("receipt_data", VArr (map VNum (receipt_data p)));
        ("header_data", VArr (map VNum (header_data p))); ("proof", VArr (map (fun bs => VArr (map VNum bs)) (proof p)))].

Definition part_ok (bs : list Z) : Prop := bytes_ok bs /\ Z.of_nat (length bs) < 2 ^ 32.

(** Numbers and lengths that the schema has room for. *)
Record locker_ok (p : ProofLocker) (i : Z) : Prop := {
  lk_log_index : 0 <= log_index p < 2 ^ 64;
  lk_receipt_index : receipt_index p = VNum i /\ 0 <= i < 2 ^ 64;
  lk_log : part_ok (log_entry_data p);
  lk_receipt : part_ok (receipt_data p);
  lk_header : part_ok (header_data p);
  lk_proof : Forall part_ok (proof p) /\ Z.of_nat (length (proof p)) < 2 ^ 32
}.

Definition locker_code (p : ProofLocker) (i : Z) : list (list Z) :=
  [le_bytes 8 (log_index p); bytes_code (log_entry_data p); le_bytes 8 i; bytes_code (receipt_data p);
   bytes_code (header_data p); le_bytes 4 (Z.of_nat (length (proof p))) ++ concat (map bytes_code (proof p))].

Definition proof_fields : list (string * fieldType) := [
  ("log_index", FName "u64"); ("log_entry_data", FArray (FName "u8")); ("receipt_index", FName "u64");
  ("receipt_data", FArray (FName "u8")); ("header_data", FArray (FName "u8")); ("proof", FArray (FArray (FName "u8")))].

Lemma locker_codes p i : locker_ok p i ->
  codes mintableSchema 3 (FName "Proof") (proof_arrays p) (concat (locker_code p i)).
Proof.
  intros [Hl [Hi Hi64] [Hlb Hll] [Hrb Hrl] [Hhb Hhl] [Hp Hpl]]. unfold proof_arrays. rewrite Hi.
  apply (codes_struct_of mintableSchema 2 "Proof" proof_fields
    [VNum (log_index p); VArr (map VNum (log_entry_data p)); VNum i; VArr (map VNum (receipt_data p));
     VArr (map VNum (header_data p)); VArr (map (fun bs => VArr (map VNum bs)) (proof p))]);
    [reflexivity | reflexivity | apply (bool_decide_unpack _); vm_compute; exact I |].
  repeat (apply Forall3_cons; [cbn [snd]; first [by apply codes_u64 | by apply codes_bytes | idtac]|]); [|apply Forall3_nil].
  replace (length (proof p)) with (length (map (fun bs => VArr (map VNum bs)) (proof p))) by apply length_map.
  apply codes_array_of; [by rewrite length_map|]. apply Forall2_fmap, Forall_Forall2_diag.
  eapply Forall_impl; [|exact Hp]. intros bs [Hb Hlen]. by apply codes_bytes.
Qed.

Lemma locker_writes p i : locker_ok p i ->
  writes (serializeField schema_fuel mintableSchema (proof_val p) (FName "Proof")) (concat (locker_code p i)).
Proof.
  intros [Hl [Hi Hi64] [Hlb Hll] [Hrb Hrl] [Hhb Hhl] [Hp Hpl]]. unfold schema_fuel, proof_val. rewrite Hi.
  apply (struct_writes mintableSchema 7 "Proof" proof_fields
    [VNum (log_index p); VBytes (log_entry_data p); VNum i; VBytes (receipt_data p); VBytes (header_data p); VArr (map VBytes (proof p))]);
    [reflexivity | reflexivity | | by repeat constructor].
  repeat (apply Forall3_cons; [cbn [snd]; first [by apply write_u64_ok | by apply buffer_writes; [lia|..] | idtac]|]); [|apply Forall3_nil].
  replace (length (proof p)) with (length (map VBytes (proof p))) by apply length_map.
  eapply (write_array_ok _ _ (fun item => serializeField 6 mintableSchema item (FArray (FName "u8")))); [reflexivity | by rewrite length_map|].
  apply Forall2_fmap, Forall_Forall2_diag. eapply Forall_impl; [|exact Hp]. intros bs [Hb Hlen]. apply buffer_writes; [lia | done | done].
Qed.

Lemma deposit_args p i : locker_ok p i ->
  exists bs, serialize schema_fuel mintableSchema (Some (FName "Proof")) (proof_val p) = Ret bs /\
    deserialize schema_fuel mintableSchema (Some (FName "Proof")) bs = Ret (proof_arrays p).
Proof.
  intros Hp. exists (concat (locker_code p i)). split.
  - destruct (locker_writes p i Hp new_writer) as (w' & Hw & Ht). unfold serialize. rewrite Hw. cbn. by rewrite Ht, toArray_new.
  - rewrite <- (app_nil_r (concat _)). apply (deserialize_codes _ 3 _ _ _ []); [by apply locker_codes | unfold schema_fuel; lia].
Qed.

End Arguments.

(** ** Proof nodes in the log *)

Lemma rlp_input_item toBuffer i : rlp_input toBuffer (item_val i) = Ret i.
Proof.
  induction i as [bs | l IH] using item_ind; [done|]. cbn [item_val rlp_input].
  match goal with |- (?go _ ≫= _) = _ => assert (Hgo : go (map item_val l) = Ret l); [|by rewrite Hgo] end.
  induction IH as [|x l Hx _ IHl]; [done|]. cbn [map]. rewrite Hx. cbn [mbind outcome_bind]. by rewrite IHl.
Qed.

Lemma encode_nodes_items {RL : RlpLib} toBuffer l :
  encode_nodes toBuffer (map item_val l) = Ret (map VBytes (map rlp_encode l)).
Proof.
  induction l as [|i l IH]; [done|]. cbn [map encode_nodes]. rewrite rlp_input_item. cbn [mbind outcome_bind]. by rewrite IH.
Qed.

Lemma json_ok_bytes bs : bytes_ok bs -> json_ok (VBytes bs) = true.
Proof.
  intros H. cbn [json_ok]. apply forallb_forall. intros b Hb.
  apply list_elem_of_In in Hb. unfold bytes_ok in H. rewrite list.Forall_forall in H. specialize (H b Hb). unfold is_byte in H.
  apply andb_true_iff. split; [apply Z.leb_le | apply Z.ltb_lt]; lia.
Qed.

Lemma json_ok_item i : item_bytes i -> json_ok (item_val i) = true.
Proof.
  induction i as [bs | l IH] using item_ind; intros Hb; [by apply json_ok_bytes|].
  apply item_bytes_list in Hb. cbn [item_val json_ok]. apply forallb_forall. intros v Hv.
  apply in_map_iff in Hv as (x & <- & Hx). apply list_elem_of_In in Hx. rewrite list.Forall_forall in IH, Hb. auto.
Qed.

Lemma json_ok_items l : Forall item_ok l -> forallb json_ok (map item_val l) = true.
Proof.
  intros Hl. apply forallb_forall. intros v Hv. apply in_map_iff in Hv as (x & <- & Hx).
  apply list_elem_of_In in Hx. rewrite list.Forall_forall in Hl. apply json_ok_item. by apply Hl.
Qed.

(** ** Properties *)

(** The steps of a transfer that have an effect on a chain. *)
Definition STEPS : list string := ["approve"; "lockToken"; "deposit"].

#[global] Instance steps_unmarked : Unmarked STEPS := eq_refl.

Section Steps.
Context {N : Type} (near : NearNode N) (url : string) (node : Web3Node (KeyWorld N)).
Context (file : LogFile (KeyWorld N)) {FOk : LogFileOk file}.
Context {BW : BinaryWriter} {BWok : BinaryWriterOk} {BN : BnLib} {BNok : BnLibOk} {HX : HexLib}.
Context {TL : TrieLib} {EO : EthObject} {RL : RlpLib} {KC : Keccak} {TOk : TrieOk} {RLok : RlpOk}.
Context (toHex : Z -> val) (toHexVal : val -> val).
Context (ft_balance_of : string -> val -> service (KeyWorld N) val) (rlp_toBuffer : val -> outcome (list Z)).

Abbreviation world := (KeyWorld N).

Lemma call_contract_achieves (P : world -> Prop) contract method args from data receipt :
  existsb (String.eqb method) STEPS = true -> ct_encodeABI contract method args = Ret data ->
  node_sends node (ct_address contract) data receipt ->
  achieves STEPS P (fun fuel => call_contract url node toHex toHexVal fuel contract method args from)
    (fun r _ => r = Robust.decode_receipt (ct_decodeEventABI contract) receipt) [(method, args)].
Proof using.
  intros Hm Hd Hn. apply (achieves_bind STEPS P _ _ (fun _ w => P w) _ [(method, args)] []); [by apply achieves_emit|]. intros _.
  rewrite Hd. eapply completes_mono; [apply (completes_silent STEPS); [|by apply callContract_sends] | done | done].
  intros fuel. apply callContract_silent, _.
Qed.

Lemma approve_achieves (P : world -> Prop) erc20 amount n sender locker data receipt :
  newBN amount = Ret n -> ct_encodeABI erc20 "approve" [VStr locker; VNum n] = Ret data ->
  node_sends node (ct_address erc20) data receipt ->
  achieves STEPS P (fun fuel => approve url node file toHex toHexVal fuel erc20 amount sender locker)
    (fun _ w => logged file (VObj [("finished", VStr "approve")]) w) [("approve", [VStr locker; VNum n])].
Proof using FOk.
  intros Hn Hd Hs. apply achieves_try. eapply achieves_then; [by apply achieves_lift|].
  apply (achieves_bind STEPS P _ _ (fun _ _ => True) _ [("approve", [VStr locker; VNum n])] []).
  - eapply achieves_mono; [by eapply (call_contract_achieves P) | done | done].
  - intros _. apply achieves_record; [done | apply _].
Qed.

Lemma lock_achieves (P : world -> Prop) locker amount n receiver erc20 sender data receipt :
  newBN amount = Ret n -> ct_encodeABI locker "lockToken" [VStr erc20; VNum n; receiver] = Ret data ->
  node_sends node (ct_address locker) data receipt ->
  achieves STEPS P (fun fuel => lock url node file toHex toHexVal fuel locker amount receiver erc20 sender)
    (fun _ w => logged file (VObj [("finished", VStr "lock");
       ("lockedEvent", locked_event (Robust.decode_receipt (ct_decodeEventABI locker) receipt))]) w)
    [("lockToken", [VStr erc20; VNum n; receiver])].
Proof using FOk.
  intros Hn Hd Hs. apply achieves_try. eapply achieves_then; [by apply achieves_lift|].
  apply (achieves_bind STEPS P _ _ (fun r _ => r = Robust.decode_receipt (ct_decodeEventABI locker) receipt) _ [("lockToken", [VStr erc20; VNum n; receiver])] []).
  - by eapply (call_contract_achieves P).
  - intros r w ->. by apply (achieves_record file STEPS (fun _ => True)).
Qed.

(** What [findProof] records for the log at position [j] of receipt [i]. *)
Definition found_record (ev rv block lv : val) (i j : nat) (header : list Z) (stack : list item) : list (string * val) :=
  [("finished", VStr "find-proof");
   ("proof", extracted_val {| header_rlp := header; receiptProof := stack; txIndex := VNum (Z.of_nat i) |});
   ("log", lv); ("txLogIndex", VNum (Z.of_nat j)); ("receipt", rv); ("lockedEvent", ev); ("block", block)].

Lemma findProof_achieves (P : world -> Prop) block n txs receipts rs h ev i tx rv r lvs base j lv :
  serves node block n txs receipts rs h -> get_prop ev "transactionHash" = Ret tx ->
  txs !! i = Some tx -> receipts !! i = Some rv -> rs !! i = Some r -> get_prop rv "logs" = Ret (VArr lvs) ->
  (forall m lv, lvs !! m = Some lv -> get_prop lv "logIndex" = Ret (VNum (base + Z.of_nat m))) ->
  lvs !! j = Some lv -> get_prop ev "logIndex" = Ret (VNum (base + Z.of_nat j)) ->
  exists tree raw, contents tree = receipt_map 0 rs ∅ /\ trie_findPath (rlp_uint (Z.of_nat i)) tree = Ret raw /\
    Forall item_ok (proof_fromStack raw) /\
    verify_trie_proof (receipts_root h) (rlp_uint (Z.of_nat i)) (map rlp_encode (proof_fromStack raw)) = Some (rlp_encode (receipt_item r)) /\
    achieves STEPS P (fun _ => findProof url node file ev)
      (fun _ w => logged file (VObj (found_record ev rv block lv i j (rlp_encode (header_item h)) (proof_fromStack raw))) w) [].
Proof using FOk RLok.
  intros Hs Htx Hi Hrv Hr Hlogs Hnum Hj Hev.
  destruct (buildTrie_returns node url _ _ _ _ _ _ Hs) as (tree & Hc & Hbuild).
  destruct (extractProof_path node _ _ _ _ _ _ Hs tree i r Hc Hr) as (raw & Hraw & Hok & Hex & Hverify).
  destruct (served_index _ _ _ _ _ _ _ Hs i rv Hrv) as [Hidx Hbn].
  assert (Hget : forall w, exists w', node_getTransactionReceipt node tx w = (Ret rv, w'))
    by exact (Forall2_lookup_lr _ _ _ _ _ _ (served_getReceipt _ _ _ _ _ _ _ Hs) Hi Hrv).
  exists tree, raw. do 4 (split; [done|]). unfold findProof, extractReceipt, extractBlock.
  eapply achieves_then; [by apply achieves_lift|].
  eapply achieves_then; [eapply achieves_library_eq; [apply getTransactionReceipt_silent, _ | by apply getTransactionReceipt_returns]|].
  eapply achieves_then; [by apply achieves_lift|].
  eapply achieves_then; [eapply achieves_library_eq; [apply getBlock_silent, _ | apply getBlock_returns; [apply Hs | intros ->; by pose proof (served_number _ _ _ _ _ _ _ Hs)]]|].
  eapply achieves_then; [eapply achieves_library_eq; [apply buildTrie_silent, _ | exact Hbuild]|].
  eapply achieves_then; [by apply achieves_lift|].
  eapply achieves_then; [eapply achieves_library_eq; [apply extractProof_silent, _ | exact Hex]|].
  eapply achieves_then; [apply achieves_lift; rewrite Hlogs; reflexivity|].
  eapply achieves_then; [by apply achieves_lift|].
  eapply achieves_then; [apply achieves_lift, (find_log_numbered _ base); eassumption|].
  apply achieves_record; [done | apply _].
Qed.

(** The block becomes safe for the client after a while. *)
Definition becomes_safe (client : string) (n : Z) : Prop :=
  forall w, eventually (answer_of (poll_safe near client (VNum n))) (fun v => truthy v = true) w.

Lemma await_safe_achieves (P : world -> Prop) client n : becomes_safe client n ->
  achieves STEPS P (fun fuel => await_safe near fuel client (VNum n)) (fun _ _ => True) [].
Proof using.
  intros Hb. apply (achieves_wait STEPS P _ (poll_safe near client (VNum n)) truthy (fun _ => tt) (num_of_Z 10000) (fun _ => True));
    [done | unfold poll_safe, view; silent_walk | exact Hb | done].
Qed.

(** The proof that is deposited. *)
Definition locker_of (l : LogEntry) (r : EthProver.Receipt) (i j : nat) (header : list Z) (stack : list item) : ProofLocker :=
  {| log_index := Z.of_nat j; log_entry_data := rlp_encode (log_item l); receipt_index := VNum (Z.of_nat i);
     receipt_data := rlp_encode (receipt_item r); header_data := header; proof := map rlp_encode stack |}.

Lemma waitBlockSafe_achieves (P : world -> Prop) client ev rv block lv l r i j header stack n rets owner :
  Log_fromWeb3_serialize lv = Ret (rlp_encode (log_item l)) -> Receipt_fromWeb3_serialize rv = Ret (rlp_encode (receipt_item r)) ->
  get_prop ev "returnValues" = Ret rets -> get_prop rets "accountId" = Ret owner -> get_prop block "number" = Ret (VNum n) ->
  becomes_safe client n ->
  achieves STEPS P (fun fuel => waitBlockSafe near file rlp_toBuffer fuel client (VObj (found_record ev rv block lv i j header stack)))
    (fun _ w => logged file (VObj [("finished", VStr "block-safe"); ("proofLocker", proof_val (locker_of l r i j header stack)); ("newOwnerId", owner)]) w) [].
Proof using FOk.
  intros Hl Hr Hrets Howner Hn Hb. unfold waitBlockSafe.
  do 6 (eapply achieves_then; [by apply achieves_lift|]).
  do 4 (eapply achieves_then; [apply achieves_lift; first [exact Hl | exact Hr | reflexivity]|]).
  eapply achieves_then; [apply achieves_lift; apply encode_nodes_items|].
  cbv zeta. do 3 (eapply achieves_then; [by apply achieves_lift|]).
  apply (achieves_bind STEPS _ _ _ (fun _ _ => True) _ [] []); [by apply await_safe_achieves|].
  intros _. apply achieves_record; [done | apply _].
Qed.

Lemma deposit_achieves (P : world -> Prop) token factory p owner bs :
  (forall w, exists v w', ft_balance_of token owner w = (Ret v, w')) ->
  serialize schema_fuel mintableSchema (Some (FName "Proof")) (proof_val p) = Ret bs ->
  (forall calls, returns (signAndSendTransaction near factory calls) (fun r _ => exists v, tr_status r = SuccessValue v)) ->
  achieves STEPS P (fun _ => deposit near ft_balance_of token factory
      (VObj [("finished", VStr "block-safe"); ("proofLocker", proof_val p); ("newOwnerId", owner)]))
    (fun _ _ => True) [("deposit", [proof_val p; VNum DEPOSIT_GAS; VNum DEPOSIT_AMOUNT])].
Proof using.
  intros Hbal Hser Hsend. unfold deposit.
  apply (achieves_then STEPS _ _ _ P (proof_val p)); [by apply achieves_lift|]. apply (achieves_then STEPS _ _ _ P owner); [by apply achieves_lift|].
  apply (achieves_bind STEPS _ _ _ (fun _ _ => True) _ [] _); [by apply achieves_query_any|]. intros _.
  apply (achieves_bind STEPS _ _ _ (fun _ _ => True) _ [("deposit", [proof_val p; VNum DEPOSIT_GAS; VNum DEPOSIT_AMOUNT])] []).
  - apply achieves_try. apply (achieves_bind STEPS _ _ _ (fun _ _ => True) _ [("deposit", [proof_val p; VNum DEPOSIT_GAS; VNum DEPOSIT_AMOUNT])] []);
      [eapply achieves_mono; [by apply (achieves_emit STEPS (fun _ => True)) | done | done]|].
    intros _. apply (achieves_library STEPS _ _ (fun _ => True)); [apply changeMethod_silent, _|].
    intros w. unfold changeMethod. change (inputFieldType depositMethod) with (Some (FName "Proof")). rewrite Hser.
    destruct (Hsend [method_call depositMethod bs (VNum DEPOSIT_GAS) (VNum DEPOSIT_AMOUNT)] w) as (res & w' & t & Hr & v & Hv).
    eexists _, w', _. split; [|done]. eapply eff_bind_run; [reflexivity|]. eapply eff_bind_run; [exact Hr|].
    unfold getBorshTransactionLastResult. rewrite Hv. reflexivity.
  - intros _. apply (achieves_bind STEPS _ _ _ (fun _ _ => True) _ [] []); [by apply achieves_query_any|]. intros _. apply achieves_done.
Qed.

Lemma stage_achieves (P : world -> Prop) name (step : nat -> val -> eff world event unit) fs fs' l :
  strict_eq (default VUndef (assoc "finished" fs)) name = true -> record_ok fs' = true ->
  achieves STEPS P (fun fuel => step fuel (VObj fs)) (fun _ w => logged file (VObj fs') w) l ->
  achieves STEPS P (fun fuel => stage file name (step fuel) (VObj fs)) (fun v _ => v = VObj fs' /\ True) l.
Proof using.
  intros Hf Hok Hstep. unfold stage. eapply achieves_then; [by apply achieves_lift|]. rewrite Hf.
  rewrite <- (app_nil_r l). eapply achieves_bind; [exact Hstep|]. intros u. by apply achieves_load; [apply _|].
Qed.

Lemma stage_skipped (P : world -> Prop) name (step : nat -> val -> eff world event unit) fs :
  strict_eq (default VUndef (assoc "finished" fs)) name = false ->
  achieves STEPS P (fun fuel => stage file name (step fuel) (VObj fs)) (fun v w => v = VObj fs /\ P w) [].
Proof using.
  intros Hf. unfold stage. eapply achieves_then; [by apply achieves_lift|]. rewrite Hf. apply achieves_ret.
Qed.

End Steps.

(** ** The whole transfer *)

Lemma get_prop_json v k x : json_ok v = true -> get_prop v k = Ret x -> x = VUndef \/ json_ok x = true.
Proof.
  destruct v as [| | | | | |vs|fs]; cbn [get_prop]; intros Hok Hx; try discriminate Hx;
    try (injection Hx as <-; first [by left | by destruct (String.eqb k "length"); [right | left]]).
  injection Hx as <-. cbn [json_ok] in Hok. zbool. match goal with H : forallb _ fs = true |- _ => revert H end.
  clear. induction fs as [|[k' v] fs IH]; cbn; [by left|]. intros H. zbool. destruct (String.eqb k k'); [by right | auto].
Qed.

Section Transfer.
Context {N : Type} (near : NearNode N) (connection : NearConnection (KeyWorld N)) (findAccessKey : service N (option Z)).
Context (url : string) (node : Web3Node (KeyWorld N)) (provider : Provider) (file : LogFile (KeyWorld N)) {FOk : LogFileOk file}.
Context {BW : BinaryWriter} {BWok : BinaryWriterOk} {BN : BnLib} {BNok : BnLibOk} {HX : HexLib}.
Context {TL : TrieLib} {EO : EthObject} {RL : RlpLib} {KC : Keccak} {TOk : TrieOk} {RLok : RlpOk}.
Context (toHex : Z -> val) (toHexVal : val -> val).
Context (newContract : string -> string -> service (KeyWorld N) EthContract).
Context (balanceOf : string -> service (KeyWorld N) val) (ft_balance_of : string -> val -> service (KeyWorld N) val).
Context (privateKeyToAccount publicKey : string -> outcome string) (rlp_toBuffer : val -> outcome (list Z)).

(** Both chains are there: keys and files are valid, the Ethereum node
    executes the two transactions in time, the block becomes safe for the
    client after a while, the deposit is executed. *)
Record Ready (a : ToNearArgs) (sender : string) (erc20 locker : EthContract) (amt n : Z) (approved locked : Robust.Receipt)
    (owner : val) : Prop := {
  ready_sender : privateKeyToAccount (normalizeEthKey (ethSenderSk a)) = Ret sender;
  ready_erc20 w : exists w', newContract (ethErc20AbiPath a) (tn_ethErc20Address a) w = (Ret erc20, w');
  ready_locker w : exists w', newContract (ethLockerAbiPath a) (tn_ethLockerAddress a) w = (Ret locker, w');
  ready_key : exists pk, key_pair publicKey (tn_nearMasterSk a) = Ret pk;
  ready_account : returns (verifyAccount connection (tn_nearMasterAccount a)) (fun _ _ => True);
  ready_access : returns (accessKeyInit (tn_nearMasterAccount a) findAccessKey) (fun _ _ => True);
  ready_balance w : exists v w', balanceOf sender w = (Ret v, w');
  ready_amount : newBN (amount a) = Ret amt;
  ready_approve : exists data, ct_encodeABI erc20 "approve" [VStr (tn_ethLockerAddress a); VNum amt] = Ret data /\
    node_sends node (ct_address erc20) data approved;
  ready_lock : exists data, ct_encodeABI locker "lockToken" [VStr (tn_ethErc20Address a); VNum amt; nearReceiverAccount a] = Ret data /\
    node_sends node (ct_address locker) data locked;
  ready_safe : becomes_safe near (tn_nearClientAccount a) n;
  ready_token w : exists v w', ft_balance_of (nearErc20Account a) owner w = (Ret v, w');
  ready_deposit calls : returns (signAndSendTransaction near (tn_nearTokenFactoryAccount a) calls)
    (fun r _ => exists v, tr_status r = SuccessValue v)
}.

(** The paths of the block's trie fit into the arguments of a call. *)
Definition small_paths (rs : list EthProver.Receipt) (h : BlockHeader) : Prop :=
  payload_size (header_item h) < 2 ^ 31 /\
  forall tree i raw, contents tree = receipt_map 0 rs ∅ -> (i < length rs)%nat ->
    trie_findPath (rlp_uint (Z.of_nat i)) tree = Ret raw ->
    Forall (fun i => Z.of_nat (length (rlp_encode i)) < 2 ^ 32) (proof_fromStack raw) /\
    Z.of_nat (length (proof_fromStack raw)) < 2 ^ 32.

Lemma locker_of_ok block n txs receipts rs h i j rv r lvs l raw :
  serves node block n txs receipts rs h -> receipts !! i = Some rv -> rs !! i = Some r -> web_receipt rv r ->
  get_prop rv "logs" = Ret (VArr lvs) -> logs r !! j = Some l -> Z.of_nat j < 2 ^ 32 -> payload_size (header_item h) < 2 ^ 31 ->
  Forall item_ok (proof_fromStack raw) -> Forall (fun i => Z.of_nat (length (rlp_encode i)) < 2 ^ 32) (proof_fromStack raw) ->
  Z.of_nat (length (proof_fromStack raw)) < 2 ^ 32 ->
  locker_ok (locker_of l r i j (rlp_encode (header_item h)) (proof_fromStack raw)) (Z.of_nat i).
Proof using RLok.
  intros Hs Hrv Hr ((_ & _ & _ & Hrok) & Hsize & _) Hlogs Hl Hj Hh Hitems Hlen Hcount.
  pose proof (receipts_length node _ _ _ _ _ _ Hs) as [_ Hn]. pose proof (served_count _ _ _ _ _ _ _ Hs) as Htx.
  assert (Hi : (i < length rs)%nat) by (by eapply lookup_lt_Some).
  assert (Hll : item_ok (Lst (map log_item (logs r)))) by (by eapply item_ok_lookup with (pos := 3%nat), Hrok).
  assert (Hin : log_item l ∈ map log_item (logs r)) by (apply list_elem_of_fmap_2; by eapply list_elem_of_lookup_2).
  pose proof (rlp_length_max _ Hrok) as Hrlen. pose proof (served_header_ok _ _ _ _ _ _ _ Hs) as (_ & _ & _ & _ & _ & _ & Hhok).
  pose proof (rlp_length_max _ Hhok) as Hhlen.
  constructor; cbn [locker_of log_index receipt_index log_entry_data receipt_data header_data proof].
  - lia.
  - split; [done | lia].
  - split; [apply rlp_encode_bytes; by eapply item_ok_in|].
    assert (H1 := rlp_length_list _ _ Hin).
    assert (H2 : (length (rlp_encode (Lst (map log_item (logs r)))) <= length (rlp_encode (receipt_item r)))%nat).
    { apply rlp_length_list. do 3 (apply elem_of_cons; right). apply elem_of_cons. by left. }
    lia.
  - split; [by apply rlp_encode_bytes | lia].
  - split; [by apply rlp_encode_bytes | lia].
  - rewrite length_map. split; [|done]. apply Forall_fmap. rewrite list.Forall_forall in Hitems, Hlen |- *.
    intros x Hx. split; [apply rlp_encode_bytes; auto | auto].
Qed.

Lemma found_record_ok ev rv block lvs lv i j header stack :
  json_ok ev = true -> json_ok rv = true -> json_ok block = true -> get_prop rv "logs" = Ret (VArr lvs) -> lvs !! j = Some lv ->
  bytes_ok header -> Forall item_ok stack -> record_ok (found_record ev rv block lv i j header stack) = true.
Proof using.
  intros Hev Hrv Hb Hlogs Hj Hh Hst. apply get_prop_json in Hlogs as [|Hlogs]; [done | | done]. cbn [json_ok] in Hlogs.
  assert (Hlv : json_ok lv = true).
  { rewrite forallb_forall in Hlogs. apply Hlogs, list_elem_of_In. by eapply list_elem_of_lookup_2. }
  pose proof (json_ok_bytes _ Hh) as Hhb. pose proof (json_ok_items _ Hst) as Hi. cbn [json_ok] in Hhb.
  unfold record_ok, found_record, extracted_val. cbn [json_ok is_buffer assoc String.eqb Ascii.eqb Bool.eqb negb andb forallb snd header_rlp receiptProof txIndex].
  by rewrite Hhb, Hi, Hlv, Hrv, Hev, Hb.
Qed.

(** What the last but one step records. *)
Definition safe_record (p : ProofLocker) (owner : val) : list (string * val) :=
  [("finished", VStr "block-safe"); ("proofLocker", proof_val p); ("newOwnerId", owner)].

Lemma safe_record_ok p i owner : locker_ok p i -> json_ok owner = true ->
  record_ok (safe_record p owner) = true.
Proof using.
  intros [_ [Hi _] [Hl _] [Hr _] [Hh _] [Hp _]] Ho. apply json_ok_bytes in Hl, Hr, Hh. cbn [json_ok] in Hl, Hr, Hh.
  assert (Hn : forallb json_ok (map VBytes (proof p)) = true).
  { apply forallb_forall. intros v Hv. apply in_map_iff in Hv as (bs & <- & Hb). apply list_elem_of_In in Hb.
    rewrite list.Forall_forall in Hp. apply json_ok_bytes. by apply Hp. }
  unfold record_ok, safe_record, proof_val. rewrite Hi.
  cbn [json_ok is_buffer assoc String.eqb Ascii.eqb Bool.eqb negb andb forallb snd]. by rewrite Hl, Hr, Hh, Hn, Ho.
Qed.

(** The command, given its steps. *)
Lemma execute_finishes a sender erc20 locker amt n approved locked owner fs p bs :
  let ev := locked_event (Robust.decode_receipt (ct_decodeEventABI locker) locked) in
  Ready a sender erc20 locker amt n approved locked owner -> json_ok ev = true ->
  assoc "finished" fs = Some (VStr "find-proof") -> record_ok fs = true -> record_ok (safe_record p owner) = true ->
  achieves STEPS (fun _ => True) (fun _ => findProof url node file ev) (fun _ w => logged file (VObj fs) w) [] ->
  achieves STEPS (fun _ => True) (fun fuel => waitBlockSafe near file rlp_toBuffer fuel (tn_nearClientAccount a) (VObj fs))
    (fun _ w => logged file (VObj (safe_record p owner)) w) [] ->
  serialize schema_fuel mintableSchema (Some (FName "Proof")) (proof_val p) = Ret bs ->
  finishes STEPS (fun w => exists e w', log_read file w = (Throw e, w'))
    (fun fuel => execute near connection findAccessKey url node provider file toHex toHexVal newContract balanceOf
       ft_balance_of privateKeyToAccount publicKey rlp_toBuffer fuel a) (Exit 0)
    [("approve", [VStr (tn_ethLockerAddress a); VNum amt]);
     ("lockToken", [VStr (tn_ethErc20Address a); VNum amt; nearReceiverAccount a]);
     ("deposit", [proof_val p; VNum DEPOSIT_GAS; VNum DEPOSIT_AMOUNT])].
Proof using FOk.
  intros ev HR Hev Hfin Hfs Hsafe Hfind Hwait Hser.
  destruct (ready_approve _ _ _ _ _ _ _ _ _ HR) as (d1 & Hd1 & Hn1). destruct (ready_lock _ _ _ _ _ _ _ _ _ HR) as (d2 & Hd2 & Hn2).
  destruct (ready_key _ _ _ _ _ _ _ _ _ HR) as (pk & Hpk). unfold execute.
  eapply finishes_then; [apply load_missing, _|].
  eapply finishes_then; [apply achieves_lift, HR|].
  eapply finishes_then; [apply achieves_query, HR|].
  eapply finishes_then; [by apply achieves_lift|].
  apply (finishes_bind STEPS _ _ _ (fun _ _ => True) _ [] _);
    [apply (achieves_library STEPS _ _ (fun _ => True)); [apply verifyAccount_silent, _ | apply HR]|]. intros _.
  apply (finishes_bind STEPS _ _ _ (fun _ _ => True) _ [] _);
    [apply (achieves_library STEPS _ _ (fun _ => True)); [apply accessKeyInit_silent, _ | apply HR]|]. intros _.
  eapply finishes_then; [apply achieves_query, HR|].
  apply (finishes_step STEPS _ _ _ (fun _ => True) (VObj [("finished", VStr "approve")]) _ [_] [_; _]).
  { apply (stage_achieves file _ VUndef (fun fuel _ => query (balanceOf sender) ≫= fun _ => approve url node file toHex toHexVal fuel erc20 (amount a) sender (tn_ethLockerAddress a)) []); [done | done|].
    apply (achieves_bind STEPS _ _ _ (fun _ _ => True) _ [] _); [apply achieves_query_any, HR|]. intros _.
    eapply approve_achieves; [exact FOk | apply HR | exact Hd1 | exact Hn1]. }
  apply (finishes_step STEPS _ _ _ (fun _ => True) (VObj [("finished", VStr "lock"); ("lockedEvent", ev)]) _ [_] [_]).
  { eapply (stage_achieves file _ (VStr "approve") (fun fuel _ => lock url node file toHex toHexVal fuel locker (amount a) (nearReceiverAccount a) (tn_ethErc20Address a) sender)); [done | |].
    - unfold record_ok. cbn [json_ok is_buffer assoc String.eqb Ascii.eqb Bool.eqb negb andb forallb snd]. by rewrite Hev.
    - eapply lock_achieves; [exact FOk | apply HR | exact Hd2 | exact Hn2]. }
  eapply (finishes_then STEPS _ _ _ (fun _ => True) (VObj fs)).
  { apply (stage_achieves file _ (VStr "lock") (fun _ log => lift (get_prop log "lockedEvent") ≫= fun e => findProof url node file e)); [done | done|].
    eapply achieves_then; [by apply achieves_lift|]. exact Hfind. }
  eapply (finishes_then STEPS _ _ _ (fun _ => True) (VObj (safe_record p owner))).
  { apply (stage_achieves file _ (VStr "find-proof") (fun fuel => waitBlockSafe near file rlp_toBuffer fuel (tn_nearClientAccount a))); [by rewrite Hfin | done | exact Hwait]. }
  apply (finishes_then STEPS _ _ _ (fun _ => True) (VStr "block-safe")); [by apply achieves_lift|].
  apply (finishes_bind STEPS _ _ _ (fun _ _ => True) _ [_] []); [|intros _].
  { eapply deposit_achieves; [apply HR | exact Hser | apply HR]. }
  apply (finishes_bind STEPS _ _ _ (fun _ _ => True) _ [] []); [|intros _; apply finishes_exit].
  destruct provider; [apply achieves_done|].
  apply (achieves_library STEPS _ _ (fun _ => True)); [silent_walk | by apply returns_emit].
Qed.

(** C25: A transfer to NEAR ends with the deposit of a proof that counts.
    Take a ready pair of chains, a block that the node serves, and in it
    the event of the lock (its transaction hash and its log index).  With
    no log of an earlier attempt, for all fuel from some amount on the
    command exits with 0, and it has made three calls, in order: the
    approval of the amount for the locker, the lock of the amount for the
    receiver, and a deposit.  The arguments of the deposit are serialized
    such that the factory reads the same proof, and every prover contract
    that is not paused accepts this proof. *)
Theorem transfer_to_near_deposits a sender erc20 locker amt approved locked block n txs receipts rs h i tx rv r lvs base j lv rets owner w :
  let ev := locked_event (Robust.decode_receipt (ct_decodeEventABI locker) locked) in
  Ready a sender erc20 locker amt n approved locked owner ->
  serves node block n txs receipts rs h -> small_paths rs h ->
  get_prop ev "transactionHash" = Ret tx -> txs !! i = Some tx -> receipts !! i = Some rv -> rs !! i = Some r ->
  get_prop rv "logs" = Ret (VArr lvs) ->
  (forall m lv, lvs !! m = Some lv -> get_prop lv "logIndex" = Ret (VNum (base + Z.of_nat m))) ->
  lvs !! j = Some lv -> get_prop ev "logIndex" = Ret (VNum (base + Z.of_nat j)) -> Z.of_nat j < 2 ^ 32 ->
  get_prop ev "returnValues" = Ret rets -> get_prop rets "accountId" = Ret owner -> json_ok owner = true ->
  json_ok ev = true -> json_ok rv = true -> json_ok block = true ->
  (exists e w', log_read file w = (Throw e, w')) ->
  exists w' t p bs,
    ends (fun fuel => execute near connection findAccessKey url node provider file toHex toHexVal newContract balanceOf
            ft_balance_of privateKeyToAccount publicKey rlp_toBuffer fuel a) w (Exit 0) w' t /\
    milestones STEPS t =
      [("approve", [VStr (tn_ethLockerAddress a); VNum amt]);
       ("lockToken", [VStr (tn_ethErc20Address a); VNum amt; nearReceiverAccount a]);
       ("deposit", [proof_val p; VNum DEPOSIT_GAS; VNum DEPOSIT_AMOUNT])] /\
    serialize schema_fuel mintableSchema (Some (FName "Proof")) (proof_val p) = Ret bs /\
    deserialize schema_fuel mintableSchema (Some (FName "Proof")) bs = Ret (proof_arrays p) /\
    forall env self skip, is_paused env self PAUSE_VERIFY = false ->
      verify_log_entry env self (log_index p) (log_entry_data p) (Z.of_nat i) (receipt_data p) (header_data p) (proof p) skip =
      Some (if skip then Value true else BlockHashSafe (bridge_smart_contract self) n (hash h)).
Proof using FOk BWok BNok RLok.
  intros ev HR Hs [Hsh Hsmall] Htx Hi Hrv Hr Hlogs Hnum Hj Hix Hjlt Hrets Howner Hoj Hevj Hrvj Hbj Hlog.
  pose proof (Forall2_lookup_lr _ _ _ _ _ _ (served_receipts _ _ _ _ _ _ _ Hs) Hrv Hr) as Hweb.
  pose proof Hweb as (Hrok & _ & Hser & lvs' & base' & Hlogs' & Hll & _). rewrite Hlogs in Hlogs'. injection Hlogs' as <-.
  destruct (Forall2_lookup_l _ _ _ _ _ Hll Hj) as (l & Hl & Hlser).
  destruct (findProof_achieves url node file (fun _ => True) block n txs receipts rs h ev i tx rv r lvs base j lv Hs)
    as (tree & raw & Hc & Hraw & Hitems & Hverify & Hfind); try done.
  destruct (Hsmall tree i raw Hc) as [Hlen Hcount]; [by eapply lookup_lt_Some | done|]. set (stack := proof_fromStack raw) in *. set (header := rlp_encode (header_item h)) in *.
  assert (Hp : locker_ok (locker_of l r i j header stack) (Z.of_nat i)) by (by eapply locker_of_ok).
  set (p := locker_of l r i j header stack) in *. destruct (deposit_args p _ Hp) as (bs & Hbs & Hdec).
  assert (Hhb : bytes_ok header).
  { apply rlp_encode_bytes. pose proof (served_header_ok _ _ _ _ _ _ _ Hs) as Hho. apply Hho. }
  assert (Hrun : finishes STEPS (fun w => exists e w', log_read file w = (Throw e, w'))
    (fun fuel => execute near connection findAccessKey url node provider file toHex toHexVal newContract balanceOf
       ft_balance_of privateKeyToAccount publicKey rlp_toBuffer fuel a) (Exit 0)
    [("approve", [VStr (tn_ethLockerAddress a); VNum amt]);
     ("lockToken", [VStr (tn_ethErc20Address a); VNum amt; nearReceiverAccount a]);
     ("deposit", [proof_val p; VNum DEPOSIT_GAS; VNum DEPOSIT_AMOUNT])]).
  { eapply execute_finishes; try done.
    - reflexivity.
    - eapply found_record_ok; eassumption.
    - eapply safe_record_ok; eassumption.
    - eapply waitBlockSafe_achieves; try eassumption; [apply Hs | apply HR]. }
  destruct (Hrun w Hlog) as (w' & t & Hends & Ht). exists w', t, p, bs. do 4 (split; [done|]).
  intros env self skip Hpause. by eapply proof_verifies.
Qed.

End Transfer.

Module Witness.
Import Reference ProofExtractor.Witness.
#[local] Existing Instances RlpRef.rlp_ref RlpRef.rlp_ref_ok RefTrie.ref_trie RefTrie.ref_trie_ok EthProver.Witness.toy_keccak.

(** A world with the log file and a number of polls after which the block
    is safe. *)
Record Net := { net_file : option val; net_polls : nat }.

Definition near0 : NearNode Net := {|
  near_status n := (Ret "block", n);
  near_sign r nonce calls h := Ret {| stx_hash := "tx"; stx_bytes := "bytes" |};
  near_broadcast b n := (Ret tt, n);
  near_txStatus h n := (Ret {| tr_status := SuccessValue ""; tr_logs := []; tr_receipt_ids := []; tr_receipts_outcome := [] |}, n);
  near_query path args n :=
    if String.eqb path "call/client/last_block_number" then (Ret {| qr_result := Some (le_bytes 8 90); qr_logs := [] |}, n)
    else match net_polls n with
         | O => (Ret {| qr_result := Some (1 :: replicate 32 5); qr_logs := [] |}, n)
         | S k => (Ret {| qr_result := Some [0]; qr_logs := [] |}, {| net_file := net_file n; net_polls := k |})
         end
|}.

Definition connection0 : NearConnection (KeyWorld Net) := {|
  nc_fetchState id w := (Ret "code", w);
  nc_createAccount m id pk b w := (Ret (inl tt), w);
  nc_readFile path w := (Ret [], w);
  nc_deployContract id code w := (Ret tt, w);
  nc_getKey id w := (Ret (Some "pk"), w);
  nc_getAccessKeys id w := (Ret ["pk"], w)
|}.

Definition file0 : LogFile (KeyWorld Net) := {|
  log_write v w := (Ret tt, mkKey (key_nonce w) {| net_file := Some v; net_polls := net_polls (key_net w) |});
  log_read w := (match net_file (key_net w) with Some v => Ret v | None => Throw (Error "ENOENT") end, w)
|}.

#[export] Instance file0_ok : LogFileOk file0.
Proof. constructor. intros v w. eexists. split; reflexivity. Qed.

Definition receipt_of_tx : Robust.Receipt := {| rc_logs := Some [VNull]; rc_events := []; rc_rest := VNull |}.

Definition node1 : Web3Node (KeyWorld Net) := {|
  node_getBlockNumber w := (Ret (VNum 100), w);
  node_getBlock b w := (Ret block0, w);
  node_getTransactionReceipt t w :=
    (Ret match t with VStr "0xa" => receipt_val 0 [log_val 0] | _ => receipt_val 1 [log_val 1; log_val 2] end, w);
  node_getGasPrice w := (Ret 1, w);
  node_getTransactionCount a w := (Ret 0, w);
  node_call tx w := (Ret VUndef, w);
  node_sendTransaction tx w := (Some (1000, Ret receipt_of_tx), w)
|}.

Definition lock_event : val :=
  VObj [("transactionHash", VStr "0xb"); ("logIndex", VNum 2); ("returnValues", VObj [("accountId", VStr "alice.near")])].

Definition contract0 : EthContract := {|
  ct_address := "0xc";
  ct_encodeABI method args := Ret method;
  ct_decodeEventABI log := {| ev_event := Some "Locked"; ev_data := lock_event |}
|}.

Definition args0 : ToNearArgs := {|
  amount := VNum 1000; ethSenderSk := "AB"; nearReceiverAccount := VStr "alice.near"; tn_nearMasterAccount := "master";
  tn_nearMasterSk := VStr "ed25519:key"; tn_nearTokenFactoryAccount := "factory"; tn_nearClientAccount := "client";
  nearErc20Account := "token"; ethErc20AbiPath := "erc20.abi"; tn_ethErc20Address := "0xe"; ethLockerAbiPath := "locker.abi";
  tn_ethLockerAddress := "0xl"
|}.

Definition world0 : KeyWorld Net := mkKey 0 {| net_file := None; net_polls := 2 |}.

Lemma serves1 : serves node1 block0 100 txs0 receipts0 rs0 h0.
Proof.
  destruct serves0 as [_ H2 H3 _ H5 H6 H7 H8 H9 H10 H11 H12 H13]. constructor; try assumption.
  - intros w. by exists w.
  - repeat constructor; intros w; exists w; reflexivity.
Qed.

Lemma safe0 : becomes_safe near0 "client" 100.
Proof.
  intros [nonce [f k]]. induction k as [|k IH].
  - eapply eventually_now; [vm_compute; reflexivity | reflexivity].
  - eapply eventually_later; [vm_compute; reflexivity | discriminate | exact IH].
Qed.

Lemma sends0 data : node_sends node1 "0xc" data receipt_of_tx.
Proof.
  constructor.
  - intros w. exists 1, w. done.
  - intros a w. by exists 0, w.
  - done.
  - intros tx w _ _. by exists 1000, w.
Qed.

Definition no_toBuffer (v : val) : outcome (list Z) := Throw (TypeError "invalid type").

Lemma ready0 : Ready near0 connection0 (fun n => (Ret (Some 7), n)) node1 (fun _ _ w => (Ret contract0, w)) (fun _ w => (Ret VNull, w))
  (fun _ _ w => (Ret VNull, w)) (fun sk => Ret ("account of " +:+ sk)) (fun sk => Ret sk) args0 "account of 0xab" contract0 contract0 1000 100
  receipt_of_tx receipt_of_tx (VStr "alice.near").
Proof.
  constructor.
  - reflexivity.
  - intros w. by exists w.
  - intros w. by exists w.
  - by eexists.
  - intros w. eexists true, w, _. split; reflexivity.
  - intros w. eexists tt, _, _. split; reflexivity.
  - intros w. by eexists _, w.
  - reflexivity.
  - eexists. split; [reflexivity | apply sends0].
  - eexists. split; [reflexivity | apply sends0].
  - exact safe0.
  - intros w. by eexists _, w.
  - intros calls [nonce n]. eexists _, _, _. split; [reflexivity|]. by eexists.
Qed.

Lemma small0 : small_paths rs0 h0.
Proof.
  split; [vm_compute; reflexivity|]. intros tree i raw Hc Hi Hraw. change (tree = receipt_map 0 rs0 ∅) in Hc. subst tree.
  assert (Hr : Ret (RefTrie.path (RefTrie.fuel_of (receipt_map 0 rs0 ∅)) (RefTrie.entries_of (receipt_map 0 rs0 ∅)) (nibbles (rlp_uint (Z.of_nat i)))) = Ret raw)
    by exact Hraw.
  apply Ret_inj in Hr as <-. clear Hraw. change (length rs0) with 2%nat in Hi.
  destruct i as [|[|i]]; [| |lia]; (split; [apply (bool_decide_unpack _) | apply Z.ltb_lt]); vm_compute; exact I || reflexivity.
Qed.

Lemma json_block0 : json_ok block0 = true.
Proof. vm_compute. reflexivity. Qed.

Lemma transfer_to_near_deposits_witness :
  exists w' t p bs,
    ends (fun fuel => execute near0 connection0 (fun n => (Ret (Some 7), n)) "http://localhost" node1 HttpProvider file0 VNum (fun v => v)
      (fun _ _ w => (Ret contract0, w)) (fun _ w => (Ret VNull, w)) (fun _ _ w => (Ret VNull, w)) (fun sk => Ret ("account of " +:+ sk))
      (fun sk => Ret sk) no_toBuffer fuel args0) world0 (Exit 0) w' t /\
    milestones STEPS t =
      [("approve", [VStr "0xl"; VNum 1000]); ("lockToken", [VStr "0xe"; VNum 1000; VStr "alice.near"]);
       ("deposit", [proof_val p; VNum DEPOSIT_GAS; VNum DEPOSIT_AMOUNT])] /\
    serialize schema_fuel mintableSchema (Some (FName "Proof")) (proof_val p) = Ret bs /\
    deserialize schema_fuel mintableSchema (Some (FName "Proof")) bs = Ret (proof_arrays p) /\
    forall env self skip, is_paused env self PAUSE_VERIFY = false ->
      verify_log_entry env self (log_index p) (log_entry_data p) 1 (receipt_data p) (header_data p) (proof p) skip =
      Some (if skip then Value true else BlockHashSafe (bridge_smart_contract self) 100 (hash h0)).
Proof.
  apply (transfer_to_near_deposits near0 connection0 (fun n => (Ret (Some 7), n)) "http://localhost" node1 HttpProvider file0 VNum (fun v => v)
    (fun _ _ w => (Ret contract0, w)) (fun _ w => (Ret VNull, w)) (fun _ _ w => (Ret VNull, w)) (fun sk => Ret ("account of " +:+ sk))
    (fun sk => Ret sk) no_toBuffer args0 "account of 0xab" contract0 contract0 1000 receipt_of_tx receipt_of_tx block0 100 txs0 receipts0 rs0 h0
    1%nat (VStr "0xb") (receipt_val 1 [log_val 1; log_val 2]) (receipt_of (receipt_val 1 [log_val 1; log_val 2]))
    [log_val 1; log_val 2] 1 1%nat (log_val 2) (VObj [("accountId", VStr "alice.near")]) (VStr "alice.near") world0);
    [exact ready0 | exact serves1 | exact small0 | reflexivity | reflexivity | reflexivity | reflexivity | reflexivity | by apply logs_numbered
    | reflexivity | reflexivity | reflexivity | reflexivity | reflexivity | reflexivity | reflexivity | reflexivity | exact json_block0 | by eexists _, _].
Defined.

End Witness.
