(* ===== verification/TransferFromNear.v ===== *)
(** * Transfers of ERC20 tokens from NEAR (testing/transfer-eth-erc20/from-near.js)

    [TransferEthERC20FromNear]: withdraw tokens on NEAR, find the receipt of
    the withdrawal, wait until the bridge on Ethereum has a later block, get
    the outcome proof for that block, and unlock the tokens with it.  The
    command composes the NEAR transaction sender, the outcome proof encoder
    and the robust web3 with the two contracts on Ethereum. *)

From S2P Require Import Prelude Interfaces LightClientBlock OutcomeProof Robust NearTx NearBridge Near2EthRelay Utils Tokens Accounts Milestones TransferToNear.

(** ** Data *)

(** The progress a transfer has recorded: the property [finished] and the
    values recorded with it.  They are answers of a JSON RPC and numbers,
    which JSON keeps as they are. *)
Inductive Progress : Type :=
| NotStarted
| Withdrawn (txWithdraw : TxResult)
| FoundWithdraw (txReceiptBlockHash txReceiptId : string) (outcomeBlockHeight : Z) (idType : string)
| BlockWaited (clientBlockHashB58 idType txReceiptId : string) (clientBlockHeight : Z)
| ProofGot (proofRes : LightClientProof) (clientBlockHeight : Z)
| OtherProgress.

Record ProgressFile (W : Type) := {
  pf_write : Progress -> service W unit;
  pf_read : service W Progress
}.

Arguments pf_write {W}.
Arguments pf_read {W}.

(** The view calls and RPC requests of the command. *)
Record FromNearServices (W : Type) := {
  fn_ft_balance_of : string -> string -> service W val;
  fn_block_height : string -> service W Z;
  fn_final_height : service W Z;
  fn_bridgeState : service W ChainState;
  fn_blockHashes : Z -> service W (list Z);
  fn_lockDuration : service W Z;
  fn_light_client_proof : string -> string -> string -> string -> service W LightClientProof;
  fn_proveOutcome : list Z -> Z -> service W bool;
  fn_balanceOf : string -> string -> service W val;
  fn_newContract : string -> string -> service W EthContract
}.

Arguments fn_ft_balance_of {W}.
Arguments fn_block_height {W}.
Arguments fn_final_height {W}.
Arguments fn_bridgeState {W}.
Arguments fn_blockHashes {W}.
Arguments fn_lockDuration {W}.
Arguments fn_light_client_proof {W}.
Arguments fn_proveOutcome {W}.
Arguments fn_balanceOf {W}.
Arguments fn_newContract {W}.

Record FromNearArgs := {
  fa_amount : val;
  nearSenderAccount : string;
  nearSenderSk : val;
  ethReceiverAddress : val;
  fa_nearErc20Account : string;
  fa_ethMasterSk : string;
  ethClientArtifactPath : string;
  fa_ethClientAddress : string;
  ethProverArtifactPath : string;
  fa_ethProverAddress : string;
  fa_ethLockerAbiPath : string;
  fa_ethLockerAddress : string;
  fa_ethErc20Address : string;
  fa_ethGasMultiplier : Z
}.

(** ** The command *)

Section FromNear.
Context {N : Type} (near : NearNode N) (connection : NearConnection (KeyWorld N)) (findAccessKey : service N (option Z)).
Context (ethNodeUrl : string) (node : Web3Node (KeyWorld N)) (sv : FromNearServices (KeyWorld N)) (file : ProgressFile (KeyWorld N)).
Context {BN : BnLib} {B58 : Base58Lib}.
Context (toHex : Z -> val) (toHexVal : val -> val) (JSON_stringify : val -> string).
Context (privateKeyToAccount publicKey : string -> outcome string).

Abbreviation prog := (eff (KeyWorld N) event).

Definition recordProgress (p : Progress) : prog unit := query (pf_write file p).

Definition loadProgress : prog Progress := try_catch (query (pf_read file)) (fun _ => mret NotStarted).

(** [catch (e) { ...; showRetryAndExit() }] *)
Definition or_retry (m : prog unit) : prog unit := try_catch m (fun _ => exit 1).

Definition withdraw (tokenId senderId : string) (amount : val) (recipient : string) : prog unit :=
  or_retry (
    _ ← backoff 10 (query (fn_ft_balance_of sv tokenId senderId));
    let args := VObj [("amount", amount); ("recipient", VStr recipient)] in
    _ ← emit (Call "withdraw" [args]);
    txWithdraw ← nearJsonContractFunctionCall near tokenId "withdraw" (JSON_stringify args) (VNum 300000000000000) (VNum 1);
    recordProgress (Withdrawn txWithdraw)).

(** The receipt of the withdrawal and its block: the receipt that the
    receipt of the transaction has produced. *)
Definition withdraw_receipt (txWithdraw : TxResult) : outcome (string * string) :=
  match tr_receipt_ids txWithdraw with
  | [receiptId] =>
      match list_find (fun el => ro_id el = receiptId) (tr_receipts_outcome txWithdraw) with
      | Some (_, {| ro_success_receipt_id := Some txReceiptId |}) =>
          match list_find (fun el => ro_id el = txReceiptId) (tr_receipts_outcome txWithdraw) with
          | Some (_, el) => Ret (txReceiptId, ro_block_hash el)
          | None => Throw (Error "Invalid tx withdraw")
          end
      | _ => Throw (Error "Invalid tx withdraw")
      end
  | _ => Throw (Error "Fungible token transaction call is expected to produce only one receipt")
  end.

(** [while (true)]: a final block above the height. *)
Fixpoint await_final (fuel : nat) (receiptHeight : Z) : prog Z :=
  match fuel with
  | O => stuck
  | S fuel' =>
      height ← query (fn_final_height sv);
      if receiptHeight <? height then mret height
      else _ ← sleep (num_of_Z 1000); await_final fuel' receiptHeight
  end.

Definition findWithdrawInBlock (fuel : nat) (txWithdraw : TxResult) : prog unit :=
  or_retry (
    '(txReceiptId, txReceiptBlockHash) ← lift (withdraw_receipt txWithdraw);
    receiptHeight ← backoff 10 (query (fn_block_height sv txReceiptBlockHash));
    outcomeHeight ← backoff 10 (await_final fuel receiptHeight);
    recordProgress (FoundWithdraw txReceiptBlockHash txReceiptId outcomeHeight "receipt")).

(** One look at the bridge: the height and hash of its head, if it is above
    the block of the outcome; otherwise a pause. *)
Definition look (outcomeHeight : Z) : prog (option (Z * string)) :=
  clientState ← query (fn_bridgeState sv);
  let clientBlockHeight := cs_currentHeight clientState in
  hash ← query (fn_blockHashes sv clientBlockHeight);
  if outcomeHeight <? clientBlockHeight then mret (Some (clientBlockHeight, bs58_encode hash))
  else
    delay ← (if cs_nextValidAt clientState =? 0 then query (fn_lockDuration sv)
             else t ← latest_timestamp node ethNodeUrl; mret (cs_nextValidAt clientState - t));
    _ ← sleep (num_of_Z (Z.max delay 1 * 1000));
    mret None.

Fixpoint await_client (fuel : nat) (outcomeHeight : Z) : prog (Z * string) :=
  match fuel with
  | O => stuck
  | S fuel' =>
      seen ← look outcomeHeight;
      match seen with
      | Some head => mret head
      | None => await_client fuel' outcomeHeight
      end
  end.

Definition waitBlock (fuel : nat) (tokenId senderId : string) (outcomeHeight : Z) (idType txReceiptId : string) : prog unit :=
  or_retry (
    '(clientBlockHeight, clientBlockHash) ← await_client fuel outcomeHeight;
    _ ← backoff 10 (query (fn_ft_balance_of sv tokenId senderId));
    recordProgress (BlockWaited clientBlockHash idType txReceiptId clientBlockHeight)).

Definition getProof (senderId clientBlockHashB58 idType txReceiptId : string) (clientBlockHeight : Z) : prog unit :=
  or_retry (
    proofRes ← (if String.eqb idType "transaction" || String.eqb idType "receipt"
                then query (fn_light_client_proof sv idType txReceiptId senderId clientBlockHashB58)
                else throw (Error "Unreachable"));
    recordProgress (ProofGot proofRes clientBlockHeight)).

Definition unlock (fuel : nat) (erc20 receiver master : string) (locker : EthContract) (multiplier : Z)
    (proofRes : LightClientProof) (clientBlockHeight : Z) : prog unit :=
  or_retry (
    borshProofRes ← lift (borshifyOutcomeProof proofRes);
    height ← lift (newBN (VNum clientBlockHeight));
    _ ← perform (Call "proveOutcome" [VBytes borshProofRes; VNum height]) (fn_proveOutcome sv borshProofRes height);
    _ ← query (fn_balanceOf sv erc20 receiver);
    gasPrice ← query (node_getGasPrice node);
    _ ← emit (Call "unlockToken" [VBytes borshProofRes; VNum height]);
    _ ← callContract ethNodeUrl node toHex toHexVal (ct_address locker)
          (ct_encodeABI locker "unlockToken" [VBytes borshProofRes; VNum height]) (ct_decodeEventABI locker)
          {| co_from := VStr master; co_gas := VNum 5000000; co_gasPrice := VNum (gasPrice * multiplier);
             co_handleRevert := VBool true |} fuel;
    _ ← query (fn_balanceOf sv erc20 receiver);
    mret tt).

(** A step for the progress so far, then the progress is read again. *)
Definition advance (step : Progress -> option (prog unit)) (p : Progress) : prog Progress :=
  match step p with
  | Some m => _ ← m; loadProgress
  | None => mret p
  end.

Definition execute (fuel : nat) (a : FromNearArgs) : prog unit :=
  receiver ← lift (remove0x (ethReceiverAddress a));
  _ ← lift (key_pair publicKey (nearSenderSk a));
  _ ← verifyAccount connection (nearSenderAccount a);
  _ ← accessKeyInit (nearSenderAccount a) findAccessKey;
  master ← lift (privateKeyToAccount (normalizeEthKey (fa_ethMasterSk a)));
  _ ← query (fn_newContract sv (ethClientArtifactPath a) (fa_ethClientAddress a));
  _ ← query (fn_newContract sv (ethProverArtifactPath a) (fa_ethProverAddress a));
  locker ← query (fn_newContract sv (fa_ethLockerAbiPath a) (fa_ethLockerAddress a));
  p ← loadProgress;
  p ← advance (fun p => match p with
         | NotStarted => Some (withdraw (fa_nearErc20Account a) (nearSenderAccount a) (fa_amount a) receiver)
         | _ => None end) p;
  p ← advance (fun p => match p with
         | Withdrawn txWithdraw => Some (findWithdrawInBlock fuel txWithdraw)
         | _ => None end) p;
  p ← advance (fun p => match p with
         | FoundWithdraw _ txReceiptId outcomeHeight idType =>
             Some (waitBlock fuel (fa_nearErc20Account a) (nearSenderAccount a) outcomeHeight idType txReceiptId)
         | _ => None end) p;
  p ← advance (fun p => match p with
         | BlockWaited hash idType txReceiptId height => Some (getProof (nearSenderAccount a) hash idType txReceiptId height)
         | _ => None end) p;
  _ ← match p with
      | ProofGot proofRes height =>
          unlock fuel (fa_ethErc20Address a) receiver master locker (fa_ethGasMultiplier a) proofRes height
      | _ => mret tt
      end;
  exit 0.

End FromNear.

(** ** The steps of a transfer *)

Definition MARKS : list string := ["withdraw"; "proveOutcome"; "unlockToken"].

#[global] Instance marks_unmarked : Unmarked MARKS := eq_refl.

(** The file keeps what was written last. *)
Class ProgressFileOk {W} (file : ProgressFile W) : Prop := {
  pf_write_ok p w : exists w', pf_write file p w = (Ret tt, w') /\ pf_read file w' = (Ret p, w')
}.

Section Steps.
Context {N : Type} (near : NearNode N) (url : string) (node : Web3Node (KeyWorld N)) (sv : FromNearServices (KeyWorld N)).
Context (file : ProgressFile (KeyWorld N)) {FOk : ProgressFileOk file} {BN : BnLib} {B58 : Base58Lib}.
Context (toHex : Z -> val) (toHexVal : val -> val) (JSON_stringify : val -> string).

Abbreviation world := (KeyWorld N).

Definition noted (p : Progress) (w : world) : Prop := exists w', pf_read file w = (Ret p, w').

Lemma achieves_note (P : world -> Prop) p : achieves MARKS P (fun _ => recordProgress file p) (fun _ w => noted p w) [].
Proof using FOk.
  intros w _. destruct (pf_write_ok p w) as (w' & Hw & Hr). exists tt, w', []. split; [by apply ends_const, query_run|].
  split; [by exists w' | done].
Qed.

Lemma achieves_note_with (P : world -> Prop) (R : Progress -> Prop) q : R q ->
  achieves MARKS P (fun _ => recordProgress file q) (fun _ w => exists q, R q /\ noted q w) [].
Proof using FOk. intros HR. eapply achieves_mono; [apply achieves_note | done |]. intros u w Hn. by exists q. Qed.

Lemma advance_achieves (P : world -> Prop) (step : nat -> Progress -> option (eff world event unit)) p m (R : Progress -> Prop) l :
  (forall fuel, step fuel p = Some (m fuel)) -> achieves MARKS P m (fun _ w => exists q, R q /\ noted q w) l ->
  achieves MARKS P (fun fuel => advance file (step fuel) p) (fun q _ => R q) l.
Proof using.
  intros Hstep Hm w Hw. destruct (Hm w Hw) as ([] & w1 & t1 & [n Hn] & (q & HR & w2 & Hq) & Hl).
  exists q, w2, (t1 ++ [])%list. split; [|by rewrite app_nil_r]. exists n. intros fuel Hf. unfold advance. rewrite Hstep.
  eapply eff_bind_run; [by apply Hn|]. unfold loadProgress, try_catch. by rewrite (query_run _ _ _ _ Hq).
Qed.

(** A known receipt of the withdrawal. *)
Lemma withdraw_achieves (P : world -> Prop) token sender amount recipient rid rblock :
  (forall w, exists v w', fn_ft_balance_of sv token sender w = (Ret v, w')) ->
  (forall calls, returns (signAndSendTransaction near token calls) (fun r _ => withdraw_receipt r = Ret (rid, rblock))) ->
  achieves MARKS P (fun _ => withdraw near sv file JSON_stringify token sender amount recipient)
    (fun _ w => exists q, (exists r, q = Withdrawn r /\ withdraw_receipt r = Ret (rid, rblock)) /\ noted q w)
    [("withdraw", [VObj [("amount", amount); ("recipient", VStr recipient)]])].
Proof using FOk.
  intros Hb Hs. apply achieves_try.
  apply (achieves_bind MARKS _ _ _ (fun _ _ => True) _ [] [_]); [by apply (achieves_backoff MARKS _ 10 (fun _ => _)), achieves_query_any|].
  intros _. cbv zeta. apply (achieves_bind MARKS _ _ _ (fun _ _ => True) _ [_] []); [eapply achieves_mono; [by apply (achieves_emit MARKS (fun _ => True)) | done | done]|].
  intros _. apply (achieves_bind MARKS _ _ _ (fun r _ => withdraw_receipt r = Ret (rid, rblock)) _ [] []).
  - apply (achieves_library MARKS _ _ (fun r => withdraw_receipt r = Ret (rid, rblock))); [apply signAndSend_silent, _ | apply Hs].
  - intros r. apply achieves_fact. intros Hr. apply achieves_note_with. by exists r.
Qed.

Lemma query_answer {A} (op : service world A) w a : out_of (query (E := event) op w) = Ret a -> (op w).1 = Ret a.
Proof using. unfold query. by destruct (op w). Qed.

(** A height NEAR has given for its final block. *)
Definition final_seen (height : Z) : Prop := exists w, (fn_final_height sv w).1 = Ret height.

Lemma find_achieves (P : world -> Prop) r rid rblock rheight :
  withdraw_receipt r = Ret (rid, rblock) ->
  (forall w, exists w', fn_block_height sv rblock w = (Ret rheight, w')) ->
  (forall w, eventually (fn_final_height sv) (fun h => rheight < h) w) ->
  achieves MARKS P (fun fuel => findWithdrawInBlock sv file fuel r)
    (fun _ w => exists q, (exists oh, q = FoundWithdraw rblock rid oh "receipt" /\ rheight < oh /\ final_seen oh) /\ noted q w) [].
Proof using FOk.
  intros Hr Hh Hf. apply achieves_try. eapply achieves_then; [by apply achieves_lift|]. cbv beta iota.
  eapply achieves_then; [by apply (achieves_backoff MARKS _ 10 (fun _ => _)), achieves_query|].
  apply (achieves_bind MARKS _ _ _ (fun oh _ => rheight < oh /\ final_seen oh) _ [] []).
  - apply achieves_backoff, (achieves_wait MARKS _ _ (query (fn_final_height sv)) (fun h => rheight <? h) (fun h => h) (num_of_Z 1000) (fun h => rheight < h /\ final_seen h)).
    + done.
    + silent_walk.
    + intros w. induction (Hf w) as [w a w' Ha Hlt | w a w' Ha Hge _ IH].
      * eapply eventually_now; [unfold answer_of; by rewrite (query_run _ _ _ _ Ha) | by apply Z.ltb_lt].
      * eapply eventually_later; [unfold answer_of; by rewrite (query_run _ _ _ _ Ha) | by rewrite Z.ltb_lt | exact IH].
    + intros w a Ha Hlt. split; [by apply Z.ltb_lt | exists w; by apply query_answer].
  - intros oh. apply achieves_fact. intros Hoh. apply achieves_note_with. by exists oh.
Qed.

(** The head of the bridge as the command saw it. *)
Definition head_seen (height : Z) (hash : string) : Prop :=
  exists w0 st w raw, (fn_bridgeState sv w0).1 = Ret st /\ cs_currentHeight st = height /\
    (fn_blockHashes sv height w).1 = Ret raw /\ hash = bs58_encode raw.

Lemma look_sees oh w head : out_of (look url node sv oh w) = Ret (Some head) -> oh < head.1 /\ head_seen head.1 head.2.
Proof using.
  unfold look. intros H. apply eff_bind_ret_inv in H as (st & Hst & H). apply eff_bind_ret_inv in H as (raw & Hraw & H).
  destruct (Z.ltb_spec oh (cs_currentHeight st)) as [Hlt|_].
  - injection H as <-. split; [done|]. apply query_answer in Hst, Hraw. by eexists w, st, _, raw.
  - apply eff_bind_ret_inv in H as (d & _ & H). apply eff_bind_ret_inv in H as (? & _ & H). discriminate H.
Qed.

Lemma look_silent oh : respects (silent MARKS) (look url node sv oh).
Proof using. unfold look, latest_timestamp. silent_walk. Qed.

Lemma wait_achieves (P : world -> Prop) token sender oh rid :
  (forall w, exists v w', fn_ft_balance_of sv token sender w = (Ret v, w')) ->
  (forall w, eventually (answer_of (look url node sv oh)) is_Some w) ->
  achieves MARKS P (fun fuel => waitBlock url node sv file fuel token sender oh "receipt" rid)
    (fun _ w => exists q, (exists height hash, q = BlockWaited hash "receipt" rid height /\ oh < height /\ head_seen height hash) /\ noted q w) [].
Proof using FOk.
  intros Hb Hl. apply achieves_try.
  apply (achieves_bind MARKS _ _ _ (fun head _ => oh < head.1 /\ head_seen head.1 head.2) _ [] []).
  - apply (achieves_until MARKS _ _ (look url node sv oh) (fun head => oh < head.1 /\ head_seen head.1 head.2));
      [done | apply look_silent | exact Hl | apply look_sees].
  - intros [height hash]. apply achieves_fact. intros [Hlt Hseen].
    apply (achieves_bind MARKS _ _ _ (fun _ _ => True) _ [] []); [by apply (achieves_backoff MARKS _ 10 (fun _ => _)), achieves_query_any|].
    intros _. apply achieves_note_with. by exists height, hash.
Qed.

Lemma getProof_achieves (P : world -> Prop) sender hash rid height pr :
  (forall w, exists w', fn_light_client_proof sv "receipt" rid sender hash w = (Ret pr, w')) ->
  achieves MARKS P (fun _ => getProof sv file sender hash "receipt" rid height)
    (fun _ w => exists q, q = ProofGot pr height /\ noted q w) [].
Proof using FOk.
  intros Hp. apply achieves_try. eapply achieves_then; [by apply achieves_query|].
  apply (achieves_note_with _ (fun q => q = ProofGot pr height)). done.
Qed.

Lemma unlock_achieves (P : world -> Prop) erc20 receiver master locker multiplier pr height bs data receipt :
  borshifyOutcomeProof pr = Ret bs -> newBN (VNum height) = Ret height ->
  (forall w, exists b w', fn_proveOutcome sv bs height w = (Ret b, w')) ->
  (forall w, exists v w', fn_balanceOf sv erc20 receiver w = (Ret v, w')) ->
  ct_encodeABI locker "unlockToken" [VBytes bs; VNum height] = Ret data -> node_sends node (ct_address locker) data receipt ->
  achieves MARKS P (fun fuel => unlock url node sv toHex toHexVal fuel erc20 receiver master locker multiplier pr height)
    (fun _ _ => True) [("proveOutcome", [VBytes bs; VNum height]); ("unlockToken", [VBytes bs; VNum height])].
Proof using.
  intros Hbs Hn Hprove Hbal Hd Hs. apply achieves_try.
  eapply achieves_then; [by apply achieves_lift|]. eapply achieves_then; [by apply achieves_lift|].
  apply (achieves_bind MARKS _ _ _ (fun _ _ => True) _ [_] [_]).
  { intros w _. destruct (Hprove w) as (b & w' & Hw). eexists _, w', _. split; [apply ends_const; by apply perform_run | done]. }
  intros _. apply (achieves_bind MARKS _ _ _ (fun _ _ => True) _ [] [_]); [by apply achieves_query_any|].
  intros _. apply (achieves_bind MARKS _ _ _ (fun _ _ => True) _ [] [_]).
  { apply achieves_query_any. intros w. destruct (sends_gasPrice _ _ _ _ Hs w) as (p & w' & Hp & _). by exists p, w'. }
  intros g. apply (achieves_bind MARKS _ _ _ (fun _ _ => True) _ [_] []); [eapply achieves_mono; [by apply (achieves_emit MARKS (fun _ => True)) | done | done]|].
  intros _. apply (achieves_bind MARKS _ _ _ (fun _ _ => True) _ [] []).
  { rewrite Hd. eapply completes_mono; [apply (completes_silent MARKS (fun _ => True)); [|by apply callContract_sends] | done | by intros r w t [_ Ht]].
    intros fuel. apply callContract_silent, _. }
  intros _. apply (achieves_bind MARKS _ _ _ (fun _ _ => True) _ [] []); [by apply achieves_query_any|]. intros _. apply achieves_done.
Qed.

End Steps.

(** ** Properties *)

Section Transfer.
Context {N : Type} (near : NearNode N) (connection : NearConnection (KeyWorld N)) (findAccessKey : service N (option Z)).
Context (url : string) (node : Web3Node (KeyWorld N)) (sv : FromNearServices (KeyWorld N)) (file : ProgressFile (KeyWorld N)).
Context {BN : BnLib} {B58 : Base58Lib}.
Context (toHex : Z -> val) (toHexVal : val -> val) (JSON_stringify : val -> string).
Context (privateKeyToAccount publicKey : string -> outcome string).

Abbreviation command := (execute near connection findAccessKey url node sv file toHex toHexVal JSON_stringify
  privateKeyToAccount publicKey).

(** Both chains are there: connecting leaves the log of the transfer
    missing ([fresh]), the withdrawal is executed and its receipt
    known, the final head of NEAR passes its block after a while and the
    head of the bridge every final block, proofs are given for the heads of the bridge and
    accepted, and the unlocking transaction is executed. *)
Record Able (fresh : KeyWorld N -> Prop) (a : FromNearArgs) (receiver master rid rblock : string) (rheight : Z) (locker : EthContract)
    (proof_for : string -> LightClientProof) (bytes_for : string -> list Z) : Prop := {
  able_receiver : remove0x (ethReceiverAddress a) = Ret receiver;
  able_key : exists pk, key_pair publicKey (nearSenderSk a) = Ret pk;
  able_account : completes fresh (fun _ => verifyAccount connection (nearSenderAccount a)) (fun _ w _ => fresh w);
  able_access : completes fresh (fun _ => accessKeyInit (nearSenderAccount a) findAccessKey) (fun _ w _ => fresh w);
  able_master : privateKeyToAccount (normalizeEthKey (fa_ethMasterSk a)) = Ret master;
  able_contract path address w : fresh w -> exists c w', fn_newContract sv path address w = (Ret c, w') /\ fresh w';
  able_locker w : fresh w -> exists w', fn_newContract sv (fa_ethLockerAbiPath a) (fa_ethLockerAddress a) w = (Ret locker, w') /\ fresh w';
  able_missing w : fresh w -> exists e w', pf_read file w = (Throw e, w');
  able_balance w : exists v w', fn_ft_balance_of sv (fa_nearErc20Account a) (nearSenderAccount a) w = (Ret v, w');
  able_withdraw calls : returns (signAndSendTransaction near (fa_nearErc20Account a) calls)
    (fun r _ => withdraw_receipt r = Ret (rid, rblock));
  able_receipt w : exists w', fn_block_height sv rblock w = (Ret rheight, w');
  able_final w : eventually (fn_final_height sv) (fun h => rheight < h) w;
  able_head oh w : final_seen sv oh -> eventually (answer_of (look url node sv oh)) is_Some w;
  able_heights w st : (fn_bridgeState sv w).1 = Ret st -> 0 <= cs_currentHeight st < 2 ^ 53;
  able_proof hash w : exists w', fn_light_client_proof sv "receipt" rid (nearSenderAccount a) hash w = (Ret (proof_for hash), w');
  able_bytes hash : borshifyOutcomeProof (proof_for hash) = Ret (bytes_for hash);
  able_proved oh height hash w : rheight < oh < height -> final_seen sv oh -> head_seen sv height hash ->
    exists b w', fn_proveOutcome sv (bytes_for hash) height w = (Ret b, w');
  able_erc20 w : exists v w', fn_balanceOf sv (fa_ethErc20Address a) receiver w = (Ret v, w');
  able_unlock hash height : exists data receipt,
    ct_encodeABI locker "unlockToken" [VBytes (bytes_for hash); VNum height] = Ret data /\ node_sends node (ct_address locker) data receipt
}.

(** The calls of a transfer whose proof is asked for with a head of the
    bridge. *)
Definition unlocking (a : FromNearArgs) (receiver : string) (rheight : Z) (bytes_for : string -> list Z) (l : list (string * list val)) : Prop :=
  exists oh height hash, rheight < oh < height /\ final_seen sv oh /\ head_seen sv height hash /\
    l = [("withdraw", [VObj [("amount", fa_amount a); ("recipient", VStr receiver)]]);
         ("proveOutcome", [VBytes (bytes_for hash); VNum height]);
         ("unlockToken", [VBytes (bytes_for hash); VNum height])].

Lemma load_nothing (fresh : KeyWorld N -> Prop) : (forall w, fresh w -> exists e w', pf_read file w = (Throw e, w')) ->
  achieves MARKS fresh (fun _ => loadProgress file) (fun p w => p = NotStarted /\ True) [].
Proof using.
  intros Hf w Hw. destruct (Hf w Hw) as (e & w' & Hr). exists NotStarted, w', []. split; [|done].
  apply ends_const. unfold loadProgress, try_catch, query. by rewrite Hr.
Qed.

Lemma contract_achieves (fresh : KeyWorld N -> Prop) path address :
  (forall w, fresh w -> exists c w', fn_newContract sv path address w = (Ret c, w') /\ fresh w') ->
  achieves MARKS fresh (fun _ => query (fn_newContract sv path address)) (fun _ w => fresh w) [].
Proof using.
  intros Hc w Hw. destruct (Hc w Hw) as (c & w' & Hr & Hw'). exists c, w', []. split; [by apply ends_const, query_run | done].
Qed.

Lemma setup_achieves (fresh : KeyWorld N -> Prop) {A} (m : eff (KeyWorld N) event A) :
  respects (silent MARKS) m -> completes fresh (fun _ => m) (fun _ w _ => fresh w) ->
  achieves MARKS fresh (fun _ => m) (fun _ w => fresh w) [].
Proof using. intros Hs Hm. apply (completes_silent MARKS _ (fun _ => m) (fun _ w _ => fresh w)); [by intros _ | exact Hm]. Qed.

Lemma execute_unlocks {BNok : BnLibOk} {FOk : ProgressFileOk file} fresh a receiver master rid rblock rheight locker proof_for bytes_for :
  Able fresh a receiver master rid rblock rheight locker proof_for bytes_for ->
  finishes_with MARKS fresh (fun fuel => command fuel a) (Exit 0) (unlocking a receiver rheight bytes_for).
Proof.
  intros HA. destruct (able_key _ _ _ _ _ _ _ _ _ _ HA) as [pk Hpk]. unfold execute.
  eapply finishes_with_then; [apply achieves_lift, HA|].
  eapply finishes_with_then; [by apply achieves_lift|].
  apply (finishes_with_bind MARKS _ _ _ (fun _ w => fresh w) _ []); [apply setup_achieves; [apply verifyAccount_silent, _ | apply HA]|]. intros ?.
  apply (finishes_with_bind MARKS _ _ _ (fun _ w => fresh w) _ []); [apply setup_achieves; [apply accessKeyInit_silent, _ | apply HA]|]. intros ?.
  eapply finishes_with_then; [apply achieves_lift, HA|].
  do 2 (apply (finishes_with_bind MARKS _ _ _ (fun _ w => fresh w) _ []); [apply contract_achieves, HA|]; intros ?).
  eapply (finishes_with_then MARKS _ _ _ fresh locker).
  { intros w Hw. destruct (able_locker _ _ _ _ _ _ _ _ _ _ HA w Hw) as (w' & Hl & Hf). exists locker, w', []. split; [by apply ends_const, query_run | done]. }
  eapply finishes_with_then; [apply (load_nothing fresh), HA|].
  eapply (finishes_with_value MARKS _ _ _ (fun q => exists r, q = Withdrawn r /\ withdraw_receipt r = Ret (rid, rblock)) _ [_]).
  { eapply advance_achieves; [intros fuel; reflexivity|]. eapply withdraw_achieves; [exact FOk | apply HA | apply HA]. }
  intros q (r & -> & Hr).
  eapply (finishes_with_value MARKS _ _ _ (fun q => exists oh, q = FoundWithdraw rblock rid oh "receipt" /\ rheight < oh /\ final_seen sv oh) _ []).
  { eapply advance_achieves; [intros fuel; reflexivity|]. eapply find_achieves; [exact FOk | exact Hr | apply HA | apply HA]. }
  intros q (oh & -> & Hoh & Hfin).
  eapply (finishes_with_value MARKS _ _ _ (fun q => exists height hash, q = BlockWaited hash "receipt" rid height /\ oh < height /\
    head_seen sv height hash) _ []).
  { eapply advance_achieves; [intros fuel; reflexivity|]. eapply wait_achieves; [exact FOk | apply HA | intros w; by apply HA]. }
  intros q (height & hash & -> & Hheight & Hseen).
  eapply (finishes_with_value MARKS _ _ _ (fun q => q = ProofGot (proof_for hash) height) _ []).
  { eapply advance_achieves; [intros fuel; reflexivity|]. eapply getProof_achieves; [exact FOk | apply HA]. }
  intros q ->. destruct (able_unlock _ _ _ _ _ _ _ _ _ _ HA hash height) as (data & receipt & Hd & Hsend).
  eapply (finishes_with_value MARKS _ _ _ (fun _ => True) _ [_; _]).
  { eapply unlock_achieves; [apply HA | | intros w; by apply (able_proved _ _ _ _ _ _ _ _ _ _ HA oh) | apply HA | exact Hd | exact Hsend].
    destruct Hseen as (w0 & st & _ & _ & Hst & <- & _). apply newBN_num. by eapply HA. }
  intros [] _ w _. destruct (finishes_exit MARKS (A := unit) (fun _ => True) 0 w I) as (w' & t & He & Ht).
  exists w', t. split; [exact He|]. rewrite Ht. by exists oh, height, hash.
Qed.

(** C26: A transfer from NEAR ends with the tokens unlocked by a proof for a
    block the bridge has.  When both chains are able, with no progress of
    an earlier attempt, for all fuel from some amount on the command exits
    with 0 and has made three calls, in order: the withdrawal of the amount
    for the receiver, the check of a proof and the unlocking with the same
    bytes and the same height.  The height is one the bridge had as its
    head, above a final block of NEAR above the block of the withdrawal's
    receipt; the bytes encode the proof of the receipt that was asked for
    with the hash the bridge stores for this height. *)
Theorem transfer_from_near_unlocks {BNok : BnLibOk} {FOk : ProgressFileOk file} fresh a receiver master rid rblock rheight locker proof_for bytes_for w :
  Able fresh a receiver master rid rblock rheight locker proof_for bytes_for -> fresh w ->
  exists w' t oh height hash,
    ends (fun fuel => command fuel a) w (Exit 0) w' t /\ rheight < oh < height /\ final_seen sv oh /\ head_seen sv height hash /\
    milestones MARKS t =
      [("withdraw", [VObj [("amount", fa_amount a); ("recipient", VStr receiver)]]);
       ("proveOutcome", [VBytes (bytes_for hash); VNum height]);
       ("unlockToken", [VBytes (bytes_for hash); VNum height])].
Proof.
  intros HA Hlog. destruct (execute_unlocks _ _ _ _ _ _ _ _ _ _ HA w Hlog) as (w' & t & He & oh & height & hash & Hlt & Hfin & Hseen & Hl).
  by exists w', t, oh, height, hash.
Qed.

(** *** Only proved outcomes unlock tokens *)

Definition UNLOCK : list string := ["unlockToken"].

#[local] Instance unlock_unmarked : Unmarked UNLOCK := eq_refl.

(** The arguments of the unlocking are the encoding of a proof that the
    prover contract has answered before, and the height it was asked for. *)
Definition proved_args (args : list val) : Prop :=
  exists pr bs height w b, args = [VBytes bs; VNum height] /\ borshifyOutcomeProof pr = Ret bs /\
    (fn_proveOutcome sv bs height w).1 = Ret b.

Definition only_proved (w w' : KeyWorld N) (t : list event) : Prop :=
  Forall (fun call => proved_args call.2) (milestones UNLOCK t).

#[local] Instance only_proved_rel : TraceRel only_proved.
Proof. split; [by intros w; apply Forall_nil|]. unfold only_proved. intros. rewrite milestones_app. by apply Forall_app. Qed.

Lemma silent_only_proved {A} (m : eff (KeyWorld N) event A) : respects (silent UNLOCK) m -> respects only_proved m.
Proof using. intros Hm w. unfold only_proved. rewrite (Hm w). by apply Forall_nil. Qed.

Lemma await_final_silent fuel h : respects (silent UNLOCK) (await_final sv fuel h).
Proof using. induction fuel as [|fuel IH]; cbn [await_final]; silent_walk. Qed.

Lemma await_client_silent fuel oh : respects (silent UNLOCK) (await_client url node sv fuel oh).
Proof using.
  induction fuel as [|fuel IH]; cbn [await_client]; unfold look, latest_timestamp; silent_walk.
Qed.

Lemma unlock_proved fuel erc20 receiver master locker multiplier pr height :
  respects only_proved (unlock url node sv toHex toHexVal fuel erc20 receiver master locker multiplier pr height).
Proof using.
  unfold unlock, or_retry. apply respects_try; [apply _ | | intros e; apply respects_exit, _].
  apply respects_bind_ret; [apply _ | apply respects_lift, _ |]. intros w0 bs Hbs.
  apply respects_bind; [apply _ | apply respects_lift, _ |]. intros h.
  apply respects_bind_ret; [apply _ | apply silent_only_proved; silent_walk |]. intros w b Hb.
  apply respects_bind; [apply _ | apply silent_only_proved; silent_walk |]. intros ?.
  apply respects_bind; [apply _ | apply silent_only_proved; silent_walk |]. intros g.
  apply respects_bind; [apply _ | | intros ?; apply silent_only_proved; silent_walk].
  apply respects_emit. intros w'. apply Forall_singleton. exists pr, bs, h, w, b. split; [done|]. split; [done|].
  unfold perform in Hb. by destruct (fn_proveOutcome sv bs h w).
Qed.

Lemma withdraw_silent token sender amount recipient :
  respects (silent UNLOCK) (withdraw near sv file JSON_stringify token sender amount recipient).
Proof using. unfold withdraw, or_retry, recordProgress, nearJsonContractFunctionCall. silent_walk. Qed.

Lemma find_silent fuel r : respects (silent UNLOCK) (findWithdrawInBlock sv file fuel r).
Proof using. unfold findWithdrawInBlock, or_retry, recordProgress. silent_walk. apply await_final_silent. Qed.

Lemma wait_silent fuel token sender oh ty rid :
  respects (silent UNLOCK) (waitBlock url node sv file fuel token sender oh ty rid).
Proof using. unfold waitBlock, or_retry, recordProgress. silent_walk. apply await_client_silent. Qed.

Lemma getProof_silent sender hash ty rid height : respects (silent UNLOCK) (getProof sv file sender hash ty rid height).
Proof using. unfold getProof, or_retry, recordProgress. silent_walk. Qed.

Lemma advance_silent step p : (forall p m, step p = Some m -> respects (silent UNLOCK) m) -> respects (silent UNLOCK) (advance file step p).
Proof using. intros Hm. unfold advance, loadProgress. specialize (Hm p). destruct (step p) as [m|]; silent_walk. Qed.

Hint Resolve withdraw_silent find_silent wait_silent getProof_silent : silence.

Lemma execute_only_proved fuel a : respects only_proved (command fuel a).
Proof using.
  unfold execute. 
  repeat (apply respects_bind; [apply _ | solve [apply silent_only_proved; unfold loadProgress; silent_walk
    | apply silent_only_proved, advance_silent; intros [] m Hm; simplify_eq; auto with silence] | intros ?]).
  apply respects_bind; [apply _ | | intros ?; apply respects_exit, _].
  match goal with |- respects _ (match ?p with _ => _ end) => destruct p end; try (apply respects_ret, _). apply unlock_proved.
Qed.

(** C27: Tokens are unlocked only by outcomes that the bridge vouches for.
    Whatever the services answer and wherever the run stops: if the command
    asks for the unlocking, its arguments are the encoding of a proof and a
    height for which the prover contract accepts it.  If moreover the proof
    is one of an outcome without logs, and [new BN] reads its height and
    timestamp as [web3.utils.toBN] does, then the Merkle root that the
    JavaScript reference computes from the proof is the one the bridge
    stores for this height. *)
Theorem unlock_only_proved {BNok : BnLibOk} sha256 roots fuel a w args :
  (forall bs h w b, (fn_proveOutcome sv bs h w).1 = Ret b -> Prover.proveOutcome sha256 roots bs h = Ret b) ->
  In ("unlockToken", args) (milestones UNLOCK (trace_of (command fuel a w))) ->
  exists pr bs height, args = [VBytes bs; VNum height] /\ borshifyOutcomeProof pr = Ret bs /\
    Prover.proveOutcome sha256 roots bs height = Ret true /\
    forall x, proof_denotes sha256 pr x ->
      newBN (il_height (lp_inner_lite pr)) = toBN (il_height (lp_inner_lite pr)) ->
      newBN (js_or (il_timestamp_nanosec (lp_inner_lite pr)) (il_timestamp (lp_inner_lite pr))) =
        toBN (js_or (il_timestamp_nanosec (lp_inner_lite pr)) (il_timestamp (lp_inner_lite pr))) ->
      computeMerkleRoot sha256 pr = Ret (roots height).
Proof.
  intros Hprover Hin. pose proof (execute_only_proved fuel a w) as H. unfold only_proved in H. rewrite List.Forall_forall in H.
  destruct (H _ Hin) as (pr & bs & height & w1 & b & Hargs & Hbs & Hb). apply Hprover in Hb.
  exists pr, bs, height. split; [exact Hargs|]. split; [exact Hbs|].
  split; [rewrite Hb; by rewrite (proveOutcome_true _ _ _ _ _ Hb)|]. intros x Hx Hh Ht.
  by eapply proved_root.
Qed.

End Transfer.

Module Witness.
Import Reference LightClientBlock.Witness OutcomeProof.Witness.

(** A world with the progress file, and the numbers of requests after which
    NEAR has a final block of height 20 and the bridge the block 1001. *)
Record Net := { net_file : option Progress; net_final : nat; net_head : nat }.

Definition withdraw_result : TxResult := {|
  tr_status := SuccessValue ""; tr_logs := []; tr_receipt_ids := ["r1"];
  tr_receipts_outcome := [
    {| ro_id := "r1"; ro_block_hash := "b1"; ro_success_receipt_id := Some "r2" |};
    {| ro_id := "r2"; ro_block_hash := "b2"; ro_success_receipt_id := None |}]
|}.

Definition near0 : NearNode Net := {|
  near_status n := (Ret "block", n);
  near_sign r nonce calls h := Ret {| stx_hash := "tx"; stx_bytes := "bytes" |};
  near_broadcast b n := (Ret tt, n);
  near_txStatus h n := (Ret withdraw_result, n);
  near_query path args n := (Ret {| qr_result := None; qr_logs := [] |}, n)
|}.

Definition connection0 : NearConnection (KeyWorld Net) := {|
  nc_fetchState id w := (Ret "code", w);
  nc_createAccount m id pk b w := (Ret (inl tt), w);
  nc_readFile path w := (Ret [], w);
  nc_deployContract id code w := (Ret tt, w);
  nc_getKey id w := (Ret (Some "pk"), w);
  nc_getAccessKeys id w := (Ret ["pk"], w)
|}.

Definition file0 : ProgressFile (KeyWorld Net) := {|
  pf_write p w := (Ret tt, mkKey (key_nonce w) {| net_file := Some p; net_final := net_final (key_net w); net_head := net_head (key_net w) |});
  pf_read w := (match net_file (key_net w) with Some p => Ret p | None => Throw (Error "ENOENT") end, w)
|}.

#[export] Instance progress_file0_ok : ProgressFileOk file0.
Proof. constructor. intros p w. eexists. split; reflexivity. Qed.

Definition receipt0 : Robust.Receipt := {| rc_logs := Some [VNull]; rc_events := []; rc_rest := VNull |}.

Definition node0 : Web3Node (KeyWorld Net) := {|
  node_getBlockNumber w := (Ret (VNum 100), w);
  node_getBlock b w := (Ret (VObj [("timestamp", VNum 7)]), w);
  node_getTransactionReceipt t w := (Ret VNull, w);
  node_getGasPrice w := (Ret 1, w);
  node_getTransactionCount a w := (Ret 0, w);
  node_call tx w := (Ret VUndef, w);
  node_sendTransaction tx w := (Some (1000, Ret receipt0), w)
|}.

Definition locker0 : EthContract := {|
  ct_address := "0xl";
  ct_encodeABI method args := Ret method;
  ct_decodeEventABI log := {| ev_event := Some "Unlocked"; ev_data := VNull |}
|}.

Definition tick_final (w : KeyWorld Net) : Z * KeyWorld Net :=
  match net_final (key_net w) with
  | O => (20, w)
  | S k => (10, mkKey (key_nonce w) {| net_file := net_file (key_net w); net_final := k; net_head := net_head (key_net w) |})
  end.

Definition tick_head (w : KeyWorld Net) : Z * KeyWorld Net :=
  match net_head (key_net w) with
  | O => (1001, w)
  | S k => (5, mkKey (key_nonce w) {| net_file := net_file (key_net w); net_final := net_final (key_net w); net_head := k |})
  end.

Definition roots0 (h : Z) : list Z := if h =? 1001 then block_root else [].

Definition services0 : FromNearServices (KeyWorld Net) := {|
  fn_ft_balance_of token id w := (Ret VNull, w);
  fn_block_height hash w := (Ret 15, w);
  fn_final_height w := let '(h, w') := tick_final w in (Ret h, w');
  fn_bridgeState w := let '(h, w') := tick_head w in (Ret {| cs_currentHeight := h; cs_nextTimestamp := 0; cs_nextValidAt := 9 |}, w');
  fn_blockHashes h w := (Ret [h], w);
  fn_lockDuration w := (Ret 60, w);
  fn_light_client_proof ty id sender head w := (Ret outcome_proof, w);
  fn_proveOutcome bs h w := (Prover.proveOutcome toy_hash roots0 bs h, w);
  fn_balanceOf erc20 owner w := (Ret VNull, w);
  fn_newContract path address w := (Ret locker0, w)
|}.

Definition args0 : FromNearArgs := {|
  fa_amount := VStr "1000"; nearSenderAccount := "alice.near"; nearSenderSk := VStr "ed25519:key"; ethReceiverAddress := VStr "0xAB";
  fa_nearErc20Account := "token"; fa_ethMasterSk := "0xab"; ethClientArtifactPath := "client"; fa_ethClientAddress := "0xc";
  ethProverArtifactPath := "prover"; fa_ethProverAddress := "0xp"; fa_ethLockerAbiPath := "locker"; fa_ethLockerAddress := "0xl";
  fa_ethErc20Address := "0xe"; fa_ethGasMultiplier := 1
|}.

Lemma final0 w : eventually (fn_final_height services0) (fun h => 15 < h) w.
Proof.
  destruct w as [nonce [f k j]]. induction k as [|k IH].
  - eapply eventually_now; reflexivity.
  - eapply eventually_later; [reflexivity | discriminate | exact IH].
Qed.

Lemma final_seen0 oh : final_seen services0 oh -> oh <= 20.
Proof. intros [w Hw]. cbn in Hw. unfold tick_final in Hw. destruct (net_final (key_net w)); apply Ret_inj in Hw as <-; lia. Qed.

Lemma head_seen0 height hash : head_seen services0 height hash -> height = 1001 \/ height = 5.
Proof.
  intros (w & st & _ & _ & Hst & <- & _). cbn in Hst. unfold tick_head in Hst.
  destruct (net_head (key_net w)); apply Ret_inj in Hst as <-; [by left | by right].
Qed.

Lemma look0 oh nonce f j k :
  answer_of (look "http://localhost" node0 services0 oh) (mkKey nonce {| net_file := f; net_final := j; net_head := k |}) =
  (Ret (if oh <? (if k is O then 1001 else 5) then Some ((if k is O then 1001 else 5), bs58_encode [if k is O then 1001 else 5]) else None),
   mkKey nonce {| net_file := f; net_final := j; net_head := pred k |}).
Proof. unfold answer_of, look. destruct k; rewrite eff_bind_eq; cbn -[Z.ltb bs58_encode]; by destruct (oh <? _). Qed.

Lemma head0 oh w : final_seen services0 oh -> eventually (answer_of (look "http://localhost" node0 services0 oh)) is_Some w.
Proof.
  intros Hoh%final_seen0. destruct w as [nonce [f j k]]. induction k as [|k IH].
  - eapply eventually_now; [apply look0|]. cbv beta iota. destruct (Z.ltb_spec oh 1001); [done | lia].
  - destruct (Z.ltb_spec oh 5) as [Hlt|Hge].
    + eapply eventually_now; [apply look0|]. cbv beta iota. destruct (Z.ltb_spec oh 5); [done | lia].
    + eapply eventually_later; [apply look0 | | exact IH]. cbv beta iota. destruct (Z.ltb_spec oh 5); [lia | by intros []].
Qed.

Lemma bytes0 : exists bs, borshifyOutcomeProof outcome_proof = Ret bs /\ Prover.proveOutcome toy_hash roots0 bs 1001 = Ret true.
Proof.
  destruct (borshifyOutcomeProof outcome_proof) as [bs| | |] eqn:He; try (vm_compute in He; discriminate). exists bs. split; [done|].
  vm_compute in He. apply Ret_inj in He as <-. vm_compute. reflexivity.
Qed.

Definition fresh0 (w : KeyWorld Net) : Prop := net_file (key_net w) = None.

Definition key0 (sk : string) : outcome string := Ret ("key of " +:+ sk).

Definition bytes_of_proof : list Z := match borshifyOutcomeProof outcome_proof with Ret bs => bs | _ => [] end.

Lemma bytes_of_proof_eq : borshifyOutcomeProof outcome_proof = Ret bytes_of_proof.
Proof. destruct bytes0 as (bs & Hbs & _). unfold bytes_of_proof. by rewrite Hbs. Qed.

Lemma executes0 data : node_sends node0 "0xl" data receipt0.
Proof.
  constructor.
  - intros w. exists 1, w. done.
  - intros a w. by exists 0, w.
  - done.
  - intros tx w _ _. by exists 1000, w.
Qed.

Lemma able0 : Able near0 connection0 (fun n => (Ret (Some 7), n)) "http://localhost" node0 services0 file0 key0 key0
  fresh0 args0 "AB" "key of 0xab" "r2" "b2" 15 locker0 (fun _ => outcome_proof) (fun _ => bytes_of_proof).
Proof.
  constructor.
  - reflexivity.
  - by eexists.
  - intros w Hw. eexists true, w, _. split; [apply ends_const; reflexivity | exact Hw].
  - intros w Hw. eexists tt, _, _. split; [apply ends_const; reflexivity | exact Hw].
  - reflexivity.
  - intros path address w Hw. by exists locker0, w.
  - intros w Hw. by exists w.
  - intros w Hw. unfold fresh0 in Hw. cbn. rewrite Hw. by eexists _, w.
  - intros w. by eexists _, w.
  - intros calls [nonce n]. eexists _, _, _. split; [reflexivity|]. reflexivity.
  - intros w. by exists w.
  - exact final0.
  - exact head0.
  - intros w st Hst. cbn in Hst. unfold tick_head in Hst. destruct (net_head (key_net w)); apply Ret_inj in Hst as <-; cbn; lia.
  - intros hash w. by exists w.
  - intros hash. exact bytes_of_proof_eq.
  - intros oh height hash w Hlt Hoh%final_seen0 [->| ->]%head_seen0; [|lia]. exists true, w. cbn [fn_proveOutcome services0].
    destruct bytes0 as (bs & Hbs & Hp). rewrite bytes_of_proof_eq in Hbs. apply Ret_inj in Hbs as <-. by rewrite Hp.
  - intros w. by eexists _, w.
  - intros hash height. eexists _, receipt0. split; [reflexivity | apply executes0].
Qed.

Abbreviation command0 := (execute near0 connection0 (fun n => (Ret (Some 7), n)) "http://localhost" node0 services0 file0 VNum (fun v => v)
  (fun _ => "{}") key0 key0).

Definition world0 : KeyWorld Net := mkKey 0 {| net_file := None; net_final := 2; net_head := 3 |}.

Lemma transfer_from_near_unlocks_witness :
  exists w' t oh height hash,
    ends (fun fuel => command0 fuel args0) world0 (Exit 0) w' t /\ 15 < oh < height /\ final_seen services0 oh /\ head_seen services0 height hash /\
    milestones MARKS t =
      [("withdraw", [VObj [("amount", VStr "1000"); ("recipient", VStr "AB")]]);
       ("proveOutcome", [VBytes bytes_of_proof; VNum height]);
       ("unlockToken", [VBytes bytes_of_proof; VNum height])].
Proof.
  exact (transfer_from_near_unlocks near0 connection0 (fun n => (Ret (Some 7), n)) "http://localhost" node0 services0 file0 VNum (fun v => v)
    (fun _ => "{}") key0 key0 fresh0 args0 "AB" "key of 0xab" "r2" "b2" 15 locker0 (fun _ => outcome_proof) (fun _ => bytes_of_proof) world0
    able0 eq_refl).
Defined.

Lemma args_inj bs bs' h h' : [VBytes bs; VNum h] = [VBytes bs'; VNum h'] -> bs = bs' /\ h = h'.
Proof. by intros [= -> ->]. Qed.

Lemma unlock_only_proved_witness :
  exists pr bs, borshifyOutcomeProof pr = Ret bs /\ Prover.proveOutcome toy_hash roots0 bs 1001 = Ret true /\
    In ("unlockToken", [VBytes bs; VNum 1001]) (milestones UNLOCK (trace_of (command0 10 args0 world0))).
Proof.
  assert (Hin : In ("unlockToken", [VBytes bytes_of_proof; VNum 1001]) (milestones UNLOCK (trace_of (command0 10 args0 world0)))).
  { vm_compute. by left. }
  destruct (unlock_only_proved near0 connection0 (fun n => (Ret (Some 7), n)) "http://localhost" node0 services0 file0 VNum (fun v => v)
    (fun _ => "{}") key0 key0 toy_hash roots0 10 args0 world0 [VBytes bytes_of_proof; VNum 1001]) as (pr & bs & height & Hargs & Hbs & Hp & _).
  - intros bs h w b Hb. exact Hb.
  - exact Hin.
  - apply args_inj in Hargs as [<- <-]. exact (ex_intro _ pr (ex_intro _ _ (conj Hbs (conj Hp Hin)))).
Defined.

End Witness.
