(* ===== verification/Adapter.v ===== *)
(** * The adapter for the Python tests (testing/adapter/index.js)

    Eight functions that print their result for a test to parse.  Their
    agreement: a function that changes something prints OK first when it
    succeeded, and every function ends with [exit(0)]. *)

From S2P Require Import Prelude Interfaces LightClientBlock OutcomeProof Robust NearBridge Near2EthRelay Utils ProofExtractor Milestones TransferToNear.

Section Adapter.
Context {W : Type} (ethNodeUrl : string) (node : Web3Node W) (provider : Provider) {BN : BnLib} {B58 : Base58Lib}.
Context (toHex : Z -> val) (toHexVal : val -> val).
(** [Number(v)], the product of two numbers, [JSON.stringify(v,
    JSONreplacer)], [JSON.parse] of a proof, keys, and the views. *)
Context (Number : val -> val) (times : Z -> Z -> val) (JSON_stringify : val -> string) (parse_proof : string -> outcome LightClientProof).
Context (privateKeyToAccount : string -> outcome string).
(** [JSON.parse(fs.readFileSync(path))] and [new web3.eth.Contract(abi,
    address)]. *)
Context (readAbi : string -> service W val) (web3Contract : val -> string -> EthContract).
Context (mint : EthContract -> string -> val -> service W unit) (balanceOf : EthContract -> string -> service W val).
Context (bridgeState : EthContract -> service W ChainState) (blockHashes : EthContract -> Z -> service W (list Z)).
Context (ft_balance_of : string -> string -> service W string).

Abbreviation prog := (eff W event).

Definition newContract (path : string) (address : outcome string) : prog EthContract :=
  abi ← query (readAbi path);
  address ← lift address;
  mret (web3Contract abi address).

(** [web3.currentProvider.connection.close()] *)
Definition close : prog unit :=
  match provider with
  | WebsocketProvider => emit (Call "connection.close" [])
  | HttpProvider => throw (TypeError "Cannot read property 'close' of undefined")
  end.

(** [try { ... } catch (error) { console.log('Failed', ...) }] *)
Definition reported (m : prog unit) : prog unit :=
  try_catch m (fun error => console_log [VStr "Failed"; VStr (err_toString error)]).

Definition finish (m : prog unit) : prog unit :=
  _ ← reported m;
  _ ← close;
  exit 0.

Definition mintErc20 (ethAccountAddress : string) (amount : val) (ethErc20Address : val) (ethErc20AbiPath : string) : prog unit :=
  finish (
    ethContract ← newContract ethErc20AbiPath (remove0x ethErc20Address);
    _ ← perform (Call "mint" [VStr ethAccountAddress; Number amount]) (mint ethContract ethAccountAddress (Number amount));
    console_log [VStr "OK"]).

Definition getAddressBySecretKey (ethSecretKey : string) : prog unit :=
  finish (
    address ← lift (privateKeyToAccount (normalizeEthKey ethSecretKey));
    console_log [VStr address]).

Definition getErc20Balance (ethAccountAddress ethErc20Address : val) (ethErc20AbiPath : string) : prog unit :=
  finish (
    ethContract ← newContract ethErc20AbiPath (remove0x ethErc20Address);
    owner ← lift (remove0x ethAccountAddress);
    balance ← query (balanceOf ethContract owner);
    console_log [balance]).

(** [robustWeb3.callContract(contract, method, args, { from, gas, ... })] *)
Definition adapter_call (fuel : nat) (contract : EthContract) (method : string) (args : list val) (options : CallOptions) : prog Robust.Receipt :=
  _ ← emit (Call method args);
  callContract ethNodeUrl node toHex toHexVal (ct_address contract) (ct_encodeABI contract method args) (ct_decodeEventABI contract) options fuel.

Definition from_options (from : string) : CallOptions :=
  {| co_from := VStr from; co_gas := VNum 5000000; co_gasPrice := VUndef; co_handleRevert := VUndef |}.

Definition ethToNearApprove (fuel : nat) (ethAccountAddress : string) (amount ethErc20Address : val) (ethErc20AbiPath : string)
    (ethLockerAddress : val) : prog unit :=
  finish (
    ethContract ← newContract ethErc20AbiPath (remove0x ethErc20Address);
    _ ← adapter_call fuel ethContract "approve" [ethLockerAddress; Number amount] (from_options ethAccountAddress);
    console_log [VStr "OK"]).

Definition ethToNearLock (fuel : nat) (ethAccountAddress : string) (amount nearAccountName ethErc20Address : val)
    (ethLockerAbiPath ethLockerAddress : string) : prog unit :=
  finish (
    locker ← newContract ethLockerAbiPath (Ret ethLockerAddress);
    transaction ← adapter_call fuel locker "lockToken" [ethErc20Address; Number amount; nearAccountName] (from_options ethAccountAddress);
    _ ← console_log [VStr "OK"];
    console_log [VStr (JSON_stringify (locked_event transaction))]).

Definition getClientBlockHeightHash (ethClientArtifactPath ethClientAddress : string) : prog unit :=
  finish (
    clientContract ← newContract ethClientArtifactPath (Ret ethClientAddress);
    clientState ← query (bridgeState clientContract);
    hash ← query (blockHashes clientContract (cs_currentHeight clientState));
    console_log [VNum (cs_currentHeight clientState); VStr (bs58_encode hash)]).

Definition nearToEthUnlock (fuel : nat) (blockHeight : val) (proof ethMasterSk ethLockerAbiPath ethLockerAddress : string)
    (ethGasMultiplier : Z) : prog unit :=
  finish (
    ethMasterAccount ← lift (privateKeyToAccount (normalizeEthKey ethMasterSk));
    locker ← newContract ethLockerAbiPath (Ret ethLockerAddress);
    parsed ← lift (parse_proof proof);
    borshProof ← lift (borshifyOutcomeProof parsed);
    gasPrice ← query (node_getGasPrice node);
    _ ← adapter_call fuel locker "unlockToken" [VBytes borshProof; Number blockHeight]
          {| co_from := VStr ethMasterAccount; co_gas := VNum 5000000; co_gasPrice := times gasPrice ethGasMultiplier;
             co_handleRevert := VBool true |};
    console_log [VStr "OK"]).

Definition getBridgeOnNearBalance (nearReceiverAccount nearErc20Account : string) : prog unit :=
  _ ← reported (
        balance ← query (ft_balance_of nearErc20Account nearReceiverAccount);
        console_log [VStr ("[Rainbow-Bridge on Near] Balance of " +:+ nearReceiverAccount +:+ " is " +:+ balance)]);
  exit 0.

(** ** The agreement *)

Definition ADAPTER : list string := ["console.log"; "lockToken"].

#[local] Instance adapter_unmarked : Unmarked ADAPTER := eq_refl.

(** How a function ends: only a WebSocket connection can be closed. *)
Definition ending : outcome unit :=
  match provider with
  | WebsocketProvider => Exit 0
  | HttpProvider => Throw (TypeError "Cannot read property 'close' of undefined")
  end.

Lemma finish_finishes (P : W -> Prop) (m : nat -> prog unit) l :
  achieves ADAPTER P m (fun _ _ => True) l -> finishes ADAPTER P (fun fuel => finish (m fuel)) ending l.
Proof using.
  intros Hm. rewrite <- (app_nil_r l). apply (finishes_bind ADAPTER _ _ _ (fun _ _ => True)); [by apply achieves_try|]. intros u w _.
  unfold close, ending. destruct provider; eexists w, _; (split; [apply ends_const; reflexivity | reflexivity]).
Qed.

Lemma print_achieves (P : W -> Prop) line : achieves ADAPTER P (fun _ => console_log line) (fun _ _ => True) [("console.log", line)].
Proof using. eapply achieves_mono; [by apply (achieves_emit ADAPTER (fun _ => True)) | done | done]. Qed.

(** A successful lock is reported as agreed.  When the ABI can be read
    and the node executes the transaction, [ethToNearLock] asks for it with
    the amount as a number, prints OK, then the locked event of its receipt,
    and ends with [exit(0)] on a WebSocket connection; on an HTTP one it
    prints the same and then throws. *)
Theorem adapter_lock_reports account amount receiver erc20 path address abi data receipt w :
  let locker := web3Contract abi address in
  let args := [erc20; Number amount; receiver] in
  (forall w, exists w', readAbi path w = (Ret abi, w')) -> ct_encodeABI locker "lockToken" args = Ret data ->
  node_sends node (ct_address locker) data receipt ->
  exists w' t, ends (fun fuel => ethToNearLock fuel account amount receiver erc20 path address) w ending w' t /\
    milestones ADAPTER t = [("lockToken", args); ("console.log", [VStr "OK"]);
      ("console.log", [VStr (JSON_stringify (locked_event (Robust.decode_receipt (ct_decodeEventABI locker) receipt)))])].
Proof using.
  intros locker args Habi Hd Hs. revert w. enough (H : finishes ADAPTER (fun _ => True)
    (fun fuel => ethToNearLock fuel account amount receiver erc20 path address) ending
    [("lockToken", args); ("console.log", [VStr "OK"]);
      ("console.log", [VStr (JSON_stringify (locked_event (Robust.decode_receipt (ct_decodeEventABI locker) receipt)))])]) by (intros w; by apply H).
  apply finish_finishes. eapply (achieves_then ADAPTER _ _ _ (fun _ => True) locker).
  { eapply achieves_then; [by apply achieves_query|]. eapply achieves_then; [by apply achieves_lift|]. apply achieves_ret. }
  apply (achieves_bind ADAPTER _ _ _ (fun r _ => r = Robust.decode_receipt (ct_decodeEventABI locker) receipt) _ [_] [_; _]).
  - apply (achieves_bind ADAPTER _ _ _ (fun _ _ => True) _ [_] []); [eapply achieves_mono; [by apply (achieves_emit ADAPTER (fun _ => True)) | done | done]|].
    intros u. change (ct_encodeABI locker "lockToken" [erc20; Number amount; receiver]) with (ct_encodeABI locker "lockToken" args). rewrite Hd.
    eapply completes_mono; [apply (completes_silent ADAPTER (fun _ => True)); [|by apply callContract_sends] | done | by intros r w t [-> Ht]].
    intros fuel. apply callContract_silent, _.
  - intros r. apply achieves_fact. intros ->. apply (achieves_bind ADAPTER _ _ _ (fun _ _ => True) _ [_] [_]); [apply print_achieves|]. intros u. apply print_achieves.
Qed.

End Adapter.

Module Witness.

Definition node0 : Web3Node nat := {|
  node_getBlockNumber w := (Ret (VNum 100), w);
  node_getBlock b w := (Ret VNull, w);
  node_getTransactionReceipt t w := (Ret VNull, w);
  node_getGasPrice w := (Ret 1, w);
  node_getTransactionCount a w := (Ret 0, w);
  node_call tx w := (Ret VUndef, w);
  node_sendTransaction tx w := (Some (1000, Ret {| rc_logs := Some [VNull]; rc_events := []; rc_rest := VNull |}), S w)
|}.

Definition locker0 : EthContract := {|
  ct_address := "0xl"; ct_encodeABI method args := Ret method;
  ct_decodeEventABI log := {| ev_event := Some "Locked"; ev_data := VStr "event" |}
|}.

Lemma locks0 data : node_sends node0 "0xl" data {| rc_logs := Some [VNull]; rc_events := []; rc_rest := VNull |}.
Proof.
  constructor.
  - intros w. exists 1, w. done.
  - intros a w. by exists 0, w.
  - done.
  - intros tx w _ _. by exists 1000, (S w).
Qed.

Lemma adapter_lock_reports_witness :
  exists w' t, ends (fun fuel => ethToNearLock "ws://localhost" node0 WebsocketProvider VNum (fun v => v) (fun v => v)
      (fun v => match v with VStr s => s | _ => "{}" end) (fun _ w => (Ret VNull, w)) (fun _ _ => locker0) fuel "0xa" (VNum 5) (VStr "alice")
      (VStr "0xe") "abi" "0xl") 0%nat (Exit 0) w' t /\
    milestones ADAPTER t = [("lockToken", [VStr "0xe"; VNum 5; VStr "alice"]); ("console.log", [VStr "OK"]); ("console.log", [VStr "event"])].
Proof.
  apply (adapter_lock_reports "ws://localhost" node0 WebsocketProvider VNum (fun v => v) (fun v => v)
    (fun v => match v with VStr s => s | _ => "{}" end) (fun _ w => (Ret VNull, w)) (fun _ _ => locker0) "0xa" (VNum 5) (VStr "alice") (VStr "0xe")
    "abi" "0xl" VNull "lockToken" {| rc_logs := Some [VNull]; rc_events := []; rc_rest := VNull |} 0%nat); [intros w; by exists w | reflexivity | apply locks0].
Defined.

End Witness.
